(* ===== verification/_CoqProject ===== *)
-Q . S2P
Prelude.v
GoStrings.v
GoPath.v
GoJson.v
GoUtf8.v
GoFloat.v
GoJsonPrint.v
GoJsonRaw.v
GoJsonText.v
GoFloatFacts.v
GoBase64.v
MemFS.v
MemFSFacts.v
MemFSSpec.v
MemFSRefine.v
MemFSWalk.v
MemFSProps.v
MemFSCases.v
Frontend.v
FrontendProps.v
GoTime.v
Vault.v
GoHttp.v
GoUrl.v
GoFlag.v
Config.v
Mounter.v
Host.v
Repo.v
Daemon.v
Rpc.v
RpcProps.v
VaultProps.v
VaultTheorems.v
Node.v
ControlAPI.v
Serve.v
DaemonFacts.v
NodeTheorems.v
NodeTypes.v
DaemonTheorems.v
ConfigProps.v
Cli.v
CliFacts.v
CliCopy.v
CliTheorems.v
CliLogic.v
EnvFile.v
EnvFileProps.v
Exec.v
ExecTheorems.v
E2ee.v
Session.v
Dual.v
Authorized.v
SessionTheorems.v
ChannelProps.v
AuthorizedProps.v
Main.v
MainTheorems.v
Webrtc.v
ServeLoop.v
ServeLoopProps.v
Hub.v
Ws.v
HubProps.v
WsProps.v
Worker.v
SessionHub.v
Peer.v
PeerProps.v
VaultWs.v
VaultWsProps.v
Startup.v
ServeMain.v
StartupProps.v
SetupClaude.v
SetupClaudeProps.v
VaultCmd.v
VaultCmdProps.v
