(* ===== verification/Prelude.v ===== *)
(** * ValetFS: a verification library for the Go program under src/

    ValetFS keeps secrets in an in-memory file system that a daemon serves to the tools of
    one machine, while the vault that owns the secrets (a phone or the [valetfs vault]
    commands) stays elsewhere and pushes them over an encrypted channel through a session
    hub.  When the vault is gone for too long, or says so, the daemon unmounts and wipes.

    ** How the parts interact, and where each is modelled

    The language and its standard library.  Prelude (errors as values, bytes, machine
    integers, tactics), GoStrings, GoPath, GoTime, GoFlag, GoHttp (requests, headers, query
    strings, multiplexing), GoUrl (net and net/url), GoBase64, GoUtf8, GoFloat and GoFloatFacts (the
    float64 of a [map[string]any]), GoJson (the decoder of encoding/json, texts to values to
    structs), GoJsonPrint ([Marshal], [MarshalIndent] and the round trips), GoJsonRaw and
    GoJsonText (raw values: which texts spell which value, and how re-indenting keeps it).

    - internal/vfs/memfs.go: MemFS (a tree of nodes, the usage counter and the version as
      int64; one definition per method).  MemFSSpec gives the abstract file system (a finite
      map from paths to files and directories) and the invariant, MemFSRefine the simulation,
      MemFSProps the properties.  MemFSFacts, MemFSWalk and MemFSCases are what the clients
      use.
    - internal/vfs/webdav.go and the FUSE callbacks of mount_linux.go: Frontend, over MemFS.
    - internal/vfs/mount_webdav.go: Module Webdav of Mounter (authentication of a request,
      bind guard, the life of its servers), beside the platform mounters.  Host: the probing
      of /dev/fuse (mount_linux_dispatch.go) and internal/hardening.
    - internal/sync/git.go: Repo, over an interface of go-git.
    - internal/daemon/daemon.go: Daemon (the state and its life cycle, goroutines being
      pending tasks) and ControlAPI (every HTTP handler, its token check, runtime.json);
      DaemonFacts the invariant of all reachable daemons, DaemonTheorems the properties.
    - internal/rpc: Rpc (messages at the byte level, dispatcher, client with one mailbox per
      call, negotiation).  internal/node/node.go: Node (every handler, the grace timer) over
      the class [NodeHost]; Serve is the instance that cmd/valetfs gives it; NodeTypes the
      types of the replies.
    - internal/e2ee/e2ee.go: E2ee.  internal/session: Session (both ends over the class
      [Noise]), Dual (one connection, two versions), Authorized (the list of vaults).
    - internal/hub/hub.go: Hub.  internal/transport/ws/ws.go: Ws (the connection with reader
      and keepalive as a state machine; every call of the hub over a record of network
      functions); WsProps puts the hub itself behind these functions.
    - signaling/worker.ts: Worker (the legacy sessions over a store with expiry, and
      JSON.stringify), SessionHub (the deployed hub, one Durable Object per session, and
      Module TwoHubs, which compares it with Hub).
    - internal/vault/vault.go: Vault (a directory whose calls may fail one by one);
      internal/vault/session.go: Module VaultSession of VaultCmd.
    - internal/config/config.go: Config.  internal/webrtc: Webrtc and Peer; PeerProps runs
      Peer against Worker.
    - cmd/valetfs: ServeMain ([serve] as a whole, from the running daemon it may find to
      termination), Startup (the entry, keys, QR or joined session), Serve and ServeLoop (the
      daemon's hooks, events, reconnection, legacy channel), Cli (the commands that talk to
      the control API), Main (completion, runtime.json, authorised vaults), EnvFile and Exec
      (running a command with secrets), VaultCmd and VaultWs (the vault's commands, and what
      they send to a daemon), SetupClaude (the settings file of an agent).

    A client is verified against what it calls, not against an abstraction of it: the
    commands of Cli run against the handlers of ControlAPI over a reachable Daemon, the
    vault's pushes of VaultWs against the node of Node through the messages of Rpc, the dials
    of Ws against Hub, and the daemon's start against all of them.

    ** State and operations

    A Go struct is a record with the fields of the struct; a method is a definition that
    takes the state and returns the result and the new state; [(x, error)] is [result].
    A handler under a mutex is one step; a goroutine is a task that a later event may run,
    so that interleavings are sequences of events.  Integers keep their width where the code
    computes with them (int64 sizes and offsets wrap; durations are nanoseconds).  Strings
    are byte strings and JSON is text: what crosses a wire is printed and parsed.  A program
    that works on files is a computation over a store whose calls fail as a list of outcomes
    says (CliLogic, and Module IoLogic of SetupClaudeProps, are the program logics for them).

    ** What is shown

    - The file system refines its specification; usage is the sum of the lengths, within the
      quota, and overflow does not occur; wiping leaves no byte; a write can be read back.
    - Messages, channels: encodings round trip; a reply reaches the call that asked; both
      channel versions deliver in order, once, and only from the peer they were opened for;
      what an unauthenticated presence frame can do is to start or stop the countdown; a
      handler that succeeds replies with the members and the types its clients decode.
    - The grace timer locks exactly at its deadline; the daemon is wiped after every way of
      losing the vault; giving up on the hub ends and locks; a half-open socket is detected.
    - The control API needs its token; the WebDAV server is never open; recursive removal
      ends and removes a subtree; the frontends do what the file system and POSIX say, with
      the exceptions that the theorems state.
    - The hub lets a session be claimed only with its secret and relays only within it, and
      the two ends of a session cannot tell the deployed hub from the local one; a scanned
      code pairs, and an identity kept in a file survives a restart.
    - A start that succeeds leaves a daemon that answers with its token, is empty and can be
      found through runtime.json; a second start is refused.  Candidates of the legacy
      channel are exchanged once each, and a peer without an answer gives up.
    - A vault reads back what it stored, also after opening it again; what an interrupted
      rekey loses; which passphrase protects it; a push delivers every entry; a downgrade
      is refused.
    - [exec] hands over exactly the secrets named and leaves none behind; an env file means
      what was written; [mv] moves a tree, and does not end on a move into itself; patching
      a settings file adds the rules and keeps every other byte that matters; no failure
      leaves it damaged.
    - Quota arithmetic and its overflow.

    ** Bounds and fuel

    [GoJson.value] recurses on fuel [fuel_of], twice the length of the text and two, which
    [GoJsonPrint] shows enough for every printed value; the nesting limit of encoding/json is
    the constant [max_depth].  [ControlAPI.removeRecursive] is given fuel by the depth of the
    tree and shown to finish.  [Cli.fsCopy] (which the code does not bound) returns
    [None] out of fuel: copying terminates with the height of the source as fuel, and copying
    into itself exhausts every fuel.  [ServeLoop.reconnect] ends within its window.  The loops of
    Peer get as many rounds as their deadlines allow (62 polls of [Bootstrap], 152 of [Join],
    602 turns of the exchange), Worker's long poll ten looks in its 25 seconds; the other loops are
    structural.

    ** Assumptions

    Third-party code is a parameter with the laws its documentation gives: [Crypto] (vault:
    key derivation, box, hash; an opened box is what was sealed under that key),
    [V1Crypto] and [Noise] (key agreement, AEAD, the IK handshake), [GoGit] (a log of
    commits), the HTTP client and the WebSocket library as functions of a network [Ws.Net].
    Every property that uses one has a witness with a concrete instance.  Random bytes,
    clocks and the answers of the operating system are arguments.

    ** Not modelled

    The negotiation that pion performs (only its calls), the WebDAV protocol handler of
    golang.org/x/net, terminal prompts and raw mode, help texts and the bash completion
    script, log lines, signal delivery, file modes and owners, the mounters of other systems,
    of the worker its audit log and the making of TURN credentials, and the mobile
    application.  What is left of the Go code is help texts, imports and comments. *)
From Stdlib Require Export ZArith Lia.
From Stdlib Require Ascii.
From stdpp Require Export gmap strings list sorting fin_maps.

Export Stdlib.Strings.Ascii (ascii(..), nat_of_ascii, ascii_of_nat).
Export (notations) Stdlib.Strings.Ascii.

(** ** Notations of the development *)

Declare Scope valet_scope.
Delimit Scope valet_scope with valet.
Open Scope valet_scope.

(** ** Go errors as values *)

(** The two-valued return [(x, error)] of a Go function: a value, or the error
    that replaces it. *)
Inductive result (E A : Type) : Type :=
  | Ok (a : A)
  | Err (e : E).
Arguments Ok {E A} a.
Arguments Err {E A} e.

#[export] Instance result_ret {E} : MRet (result E) := λ A a, Ok a.
#[export] Instance result_bind {E} : MBind (result E) :=
  λ A B f r, match r with Ok a => f a | Err e => Err e end.
#[export] Instance result_fmap {E} : FMap (result E) :=
  λ A B f r, match r with Ok a => Ok (f a) | Err e => Err e end.
#[export] Instance result_eq_dec {E A} `{EqDecision E, EqDecision A} :
  EqDecision (result E A).
Proof. solve_decision. Defined.

Definition is_ok {E A} (r : result E A) : bool :=
  match r with Ok _ => true | Err _ => false end.

(** [if err := f(); err != nil { return err }] before a computation that
    continues with the value. *)
Notation "'let?' x ':=' e 'in' k" :=
  (match e with Ok x => k | Err err => Err err end)
  (at level 10, x pattern, e at level 200, k at level 200)
  : valet_scope.

(** ** Bytes *)

#[export] Instance byte_eq_dec : EqDecision Byte.byte := Byte.byte_eq_dec.

(** A Go [[]byte]; a Go [string] is stdpp's [string], whose characters are the
    256 bytes, so the conversions below are the Go conversions. *)
Definition bytes : Type := list Byte.byte.

Definition to_string : bytes → string := String.string_of_list_byte.
Definition of_string : string → bytes := String.list_byte_of_string.

Lemma to_of_string s : to_string (of_string s) = s.
Proof. apply String.string_of_list_byte_of_string. Qed.

Lemma of_to_string b : of_string (to_string b) = b.
Proof. apply String.list_byte_of_string_of_list_byte. Qed.

(** [make([]byte, n)]: a zeroed buffer. *)
Definition zeros (n : nat) : bytes := replicate n Byte.x00.

Definition all_zero (b : bytes) : Prop := Forall (λ x, x = Byte.x00) b.

Lemma zeros_all_zero n : all_zero (zeros n).
Proof. apply Forall_replicate. done. Qed.

Lemma all_zero_zeros b : all_zero b → b = zeros (length b).
Proof. induction 1 as [|x b -> _ IH]; [done|]. simpl. by rewrite IH at 1. Qed.

(** [int64(len(b))]. *)
Definition len (b : bytes) : Z := Z.of_nat (length b).

Lemma len_nonneg b : (0 ≤ len b)%Z.
Proof. unfold len. lia. Qed.

(** ** 64-bit two's complement arithmetic *)

Definition two63 : Z := (2 ^ 63)%Z.
Definition two64 : Z := (2 ^ 64)%Z.

(** The value of a Go [int64] expression whose exact value is [x]. *)
Definition i64 (x : Z) : Z := ((x + two63) mod two64 - two63)%Z.

Definition in_i64 (x : Z) : Prop := (- two63 ≤ x < two63)%Z.

Lemma i64_id x : in_i64 x → i64 x = x.
Proof.
  unfold in_i64, i64, two63, two64. intros H.
  rewrite Z.mod_small; lia.
Qed.

Lemma i64_range x : in_i64 (i64 x).
Proof.
  unfold in_i64, i64, two63, two64.
  pose proof (Z.mod_pos_bound (x + 2 ^ 63) (2 ^ 64) ltac:(lia)). lia.
Qed.

Lemma i64_congr x y : (x mod two64 = y mod two64)%Z → i64 x = i64 y.
Proof.
  unfold i64. intros H. f_equal.
  rewrite (Zplus_mod x), (Zplus_mod y), H. done.
Qed.

Lemma i64_mod x : (i64 x mod two64 = x mod two64)%Z.
Proof.
  unfold i64. rewrite Zminus_mod_idemp_l. f_equal. lia.
Qed.

Lemma i64_add_l x y : i64 (i64 x + y) = i64 (x + y).
Proof. apply i64_congr. rewrite Zplus_mod, i64_mod, <- Zplus_mod. done. Qed.

Lemma i64_sub_l x y : i64 (i64 x - y) = i64 (x - y).
Proof. apply i64_congr. rewrite Zminus_mod, i64_mod, <- Zminus_mod. done. Qed.

(** ** The development's hint databases and tactics *)

Create HintDb valet discriminated.
#[export] Hint Resolve zeros_all_zero len_nonneg i64_range : valet.

Create Rewrite HintDb valet.
#[export] Hint Rewrite to_of_string of_to_string i64_add_l i64_sub_l : valet.

(** Case analysis on every [match] of the goal and hypotheses, keeping the
    equations and clearing the impossible cases. *)
Ltac split_matches := repeat (case_match; simplify_eq/=).

(** Destruct a result-returning call named by its value in a hypothesis. *)
Ltac inv_ok H :=
  lazymatch type of H with
  | match ?e with Ok _ => _ | Err _ => _ end = Ok _ =>
      let E := fresh "E" in destruct e eqn:E; [|discriminate H]
  end.

Lemma Forall_snoc {A} (P : A → Prop) l x : Forall P l → P x → Forall P (l ++ [x]).
Proof. intros Hl Hx. apply Forall_app. split; [done|]. by constructor. Qed.

(** ** Sorting strings

    [sort.Strings] orders by bytes; stdpp's [String.le] is that order. *)

Definition sort_strings : list string → list string := merge_sort String.le.

Lemma sort_strings_perm l : sort_strings l ≡ₚ l.
Proof. apply merge_sort_Permutation. Qed.

Lemma sort_strings_sorted l : StronglySorted String.le (sort_strings l).
Proof. apply StronglySorted_merge_sort; apply _. Qed.

Lemma sort_strings_unique l1 l2 : l1 ≡ₚ l2 → sort_strings l1 = sort_strings l2.
Proof.
  intros H. apply (StronglySorted_unique String.le).
  - apply sort_strings_sorted.
  - apply sort_strings_sorted.
  - by rewrite !sort_strings_perm.
Qed.

(** [sort.Slice] with a comparison of string keys. *)
Section sort_by.
Context {A : Type} (key : A → string).

Definition key_le (x y : A) : Prop := String.le (key x) (key y).

#[export] Instance key_le_dec : RelDecision key_le.
Proof. intros x y. unfold key_le. apply _. Defined.
#[export] Instance key_le_total : Total key_le.
Proof. intros x y. unfold key_le. apply String.le_total. Qed.
#[export] Instance key_le_trans : Transitive key_le.
Proof. intros x y z. unfold key_le. apply String.le_po. Qed.

Definition sort_by : list A → list A := merge_sort key_le.

Lemma sort_by_perm l : sort_by l ≡ₚ l.
Proof. apply merge_sort_Permutation. Qed.

Lemma sort_by_sorted l : StronglySorted key_le (sort_by l).
Proof. apply StronglySorted_merge_sort; apply _. Qed.

(** The keys decide the order: when they are distinct, the result does not
    depend on the order of the input (although [sort.Slice] is unstable). *)
Lemma sort_by_unique l1 l2 :
  NoDup (key <$> l1) → l1 ≡ₚ l2 → sort_by l1 = sort_by l2.
Proof.
  intros Hnd Hp. apply (StronglySorted_unique_strong key_le).
  - intros x y Hx Hy Hxy Hyx.
    rewrite sort_by_perm in Hx. rewrite sort_by_perm, <- Hp in Hy.
    assert (key x = key y) as Hk by (by apply (anti_symm String.le)).
    apply list_elem_of_lookup in Hx as [i Hi].
    apply list_elem_of_lookup in Hy as [j Hj].
    assert (i = j) as ->.
    { eapply (NoDup_lookup _ i j (key x)); [done| |].
      - by rewrite list_lookup_fmap, Hi.
      - by rewrite list_lookup_fmap, Hj, Hk. }
    congruence.
  - apply sort_by_sorted.
  - apply sort_by_sorted.
  - by rewrite !sort_by_perm.
Qed.
End sort_by.

(** ** Sums over a finite map *)

Section msum.
Context {A : Type} (f : A → Z).

Definition msum (m : gmap string A) : Z :=
  map_fold (λ _ x acc, (f x + acc)%Z) 0%Z m.

Lemma msum_empty : msum ∅ = 0%Z.
Proof. apply map_fold_empty. Qed.

Lemma msum_insert m k x :
  m !! k = None → msum (<[k:=x]> m) = (f x + msum m)%Z.
Proof.
  intros Hk. unfold msum. rewrite map_fold_insert_L; [done| |done].
  intros. lia.
Qed.

Lemma msum_delete m k x :
  m !! k = Some x → msum (delete k m) = (msum m - f x)%Z.
Proof.
  intros Hk. rewrite <- (insert_delete_id m k x Hk) at 2.
  rewrite msum_insert by apply lookup_delete_eq. lia.
Qed.

Lemma msum_replace m k x y :
  m !! k = Some x → msum (<[k:=y]> m) = (msum m - f x + f y)%Z.
Proof.
  intros Hk. rewrite <- insert_delete_eq, msum_insert by apply lookup_delete_eq.
  rewrite (msum_delete _ _ _ Hk). lia.
Qed.

Lemma msum_nonneg m : (∀ x, 0 ≤ f x)%Z → (0 ≤ msum m)%Z.
Proof.
  intros Hf. induction m as [|k x m Hk IH] using map_ind.
  - rewrite msum_empty. lia.
  - rewrite (msum_insert _ _ _ Hk). specialize (Hf x). lia.
Qed.
End msum.
