(* ===== verification/GoStrings.v ===== *)
(** * The [strings] package of Go, as far as the sources use it

    A Go string is a sequence of bytes; so is stdpp's [string].  Each function
    is defined on all byte strings, not only on valid UTF-8. *)
From S2P Require Import Prelude.

Module GoStr.

(** ** Bytes and characters *)

Definition slash : ascii := "/"%char.
Definition dquote : ascii := "034"%char.
Definition newline : ascii := "010"%char.
Definition cr : ascii := "013"%char.
Definition tab : ascii := "009"%char.

Definition str1 (c : ascii) : string := String c EmptyString.

(** [strings.HasPrefix]. *)
Fixpoint HasPrefix (s p : string) : bool :=
  match p, s with
  | EmptyString, _ => true
  | String _ _, EmptyString => false
  | String b p', String a s' => bool_decide (a = b) && HasPrefix s' p'
  end.

(** [strings.TrimPrefix]. *)
Fixpoint sdrop (n : nat) (s : string) : string :=
  match n, s with
  | O, _ => s
  | S n, EmptyString => EmptyString
  | S n, String _ s => sdrop n s
  end.

Definition TrimPrefix (s p : string) : string :=
  if HasPrefix s p then sdrop (String.length p) s else s.

Fixpoint stake (n : nat) (s : string) : string :=
  match n, s with
  | O, _ => EmptyString
  | S n, EmptyString => EmptyString
  | S n, String a s => String a (stake n s)
  end.

(** [strings.HasSuffix], [strings.TrimSuffix]. *)
Definition HasSuffix (s p : string) : bool :=
  bool_decide (String.length p ≤ String.length s) &&
  bool_decide (sdrop (String.length s - String.length p) s = p).

Definition TrimSuffix (s p : string) : string :=
  if HasSuffix s p then stake (String.length s - String.length p) s else s.

(** [strings.Contains]. *)
Fixpoint Contains (s p : string) : bool :=
  HasPrefix s p ||
  match s with EmptyString => false | String _ s' => Contains s' p end.

(** [strings.Index] of a one-byte separator; [None] for -1. *)
Fixpoint IndexByte (s : string) (c : ascii) : option nat :=
  match s with
  | EmptyString => None
  | String a s' => if decide (a = c) then Some 0 else S <$> IndexByte s' c
  end.

(** [strings.LastIndex] of a one-byte separator. *)
Fixpoint LastIndexByte (s : string) (c : ascii) : option nat :=
  match s with
  | EmptyString => None
  | String a s' =>
      match LastIndexByte s' c with
      | Some i => Some (S i)
      | None => if decide (a = c) then Some 0 else None
      end
  end.

Definition contains_byte (s : string) (c : ascii) : bool :=
  match IndexByte s c with Some _ => true | None => false end.

(** [strings.Split] at a one-byte separator: never empty. *)
Fixpoint Split (s : string) (c : ascii) : list string :=
  match s with
  | EmptyString => [EmptyString]
  | String a s' =>
      if decide (a = c) then EmptyString :: Split s' c
      else match Split s' c with
           | [] => [str1 a]
           | x :: xs => String a x :: xs
           end
  end.

(** [strings.Join]. *)
Fixpoint Join (l : list string) (sep : string) : string :=
  match l with
  | [] => EmptyString
  | [x] => x
  | x :: xs => x +:+ sep +:+ Join xs sep
  end.

(** [strings.ReplaceAll] of a nonempty [old]; the fuel is the length of the
    text, each step consumes at least one byte. *)
Fixpoint replace_fuel (fuel : nat) (s old new : string) : string :=
  match fuel with
  | O => s
  | S fuel =>
      match s with
      | EmptyString => EmptyString
      | String a s' =>
          if HasPrefix s old
          then new +:+ replace_fuel fuel (sdrop (String.length old) s) old new
          else String a (replace_fuel fuel s' old new)
      end
  end.

Definition ReplaceAll (s old new : string) : string :=
  replace_fuel (String.length s) s old new.

(** ** White space

    [strings.TrimSpace] and [strings.Fields] use [unicode.IsSpace]: the ASCII
    spaces and the UTF-8 encodings of U+0085, U+00A0, U+1680, U+2000..U+200A,
    U+2028, U+2029, U+202F, U+205F and U+3000. *)
Definition unicode_spaces : list string :=
  (str1 <$> ["009"; "010"; "011"; "012"; "013"; " "]%char) ++
  [String "194" (str1 "133"); String "194" (str1 "160");
   String "225" (String "154" (str1 "128"))]%char ++
  ((λ n : nat, String "226" (String "128" (str1 (ascii_of_nat n))))%char
     <$> seq 128 11) ++
  [String "226" (String "128" (str1 "168")); String "226" (String "128" (str1 "169"));
   String "226" (String "128" (str1 "175")); String "226" (String "129" (str1 "159"));
   String "227" (String "128" (str1 "128"))]%char.

Definition leading_space (s : string) : option nat :=
  String.length <$> head (filter (λ w, HasPrefix s w = true) unicode_spaces).

Definition trailing_space (s : string) : option nat :=
  String.length <$> head (filter (λ w, HasSuffix s w = true) unicode_spaces).

Fixpoint trim_left_fuel (fuel : nat) (s : string) : string :=
  match fuel with
  | O => s
  | S fuel =>
      match leading_space s with
      | Some n => trim_left_fuel fuel (sdrop n s)
      | None => s
      end
  end.

Fixpoint trim_right_fuel (fuel : nat) (s : string) : string :=
  match fuel with
  | O => s
  | S fuel =>
      match trailing_space s with
      | Some n => trim_right_fuel fuel (stake (String.length s - n) s)
      | None => s
      end
  end.

(** [strings.TrimSpace]; the length of the text is enough fuel, every space
    sequence being nonempty. *)
Definition TrimSpace (s : string) : string :=
  let s1 := trim_left_fuel (String.length s) s in
  trim_right_fuel (String.length s1) s1.

(** [strings.TrimRight] with a cut set of ASCII bytes. *)
Fixpoint TrimRight (s : string) (cut : list ascii) : string :=
  match s with
  | EmptyString => EmptyString
  | String a s' =>
      match TrimRight s' cut with
      | EmptyString => if decide (a ∈ cut) then EmptyString else str1 a
      | r => String a r
      end
  end.

Fixpoint fields_fuel (fuel : nat) (cur : string) (s : string) : list string :=
  let flush := if decide (cur = EmptyString) then [] else [String.rev cur] in
  match fuel with
  | O => flush
  | S fuel =>
      match s with
      | EmptyString => flush
      | String a s' =>
          match leading_space s with
          | Some n => flush ++ fields_fuel fuel EmptyString (sdrop n s)
          | None => fields_fuel fuel (String a cur) s'
          end
      end
  end.

(** [strings.Fields]; one step per byte. *)
Definition Fields (s : string) : list string :=
  fields_fuel (S (String.length s)) EmptyString s.

(** ** Case *)

(** ASCII folding.  [strings.ToUpper] also maps the other Unicode letters; the
    sources apply it to protocol keywords and compare the result with ASCII
    literals.  Two non-ASCII runes upper-case to ASCII letters, U+0131 (dotless
    i) to [I] and U+017F (long s) to [S]; both are mapped below. *)
Definition upper_ascii (a : ascii) : ascii :=
  let n := nat_of_ascii a in
  if (97 <=? n)%nat && (n <=? 122)%nat then ascii_of_nat (n - 32) else a.

Definition lower_ascii (a : ascii) : ascii :=
  let n := nat_of_ascii a in
  if (65 <=? n)%nat && (n <=? 90)%nat then ascii_of_nat (n + 32) else a.

Fixpoint ToUpper (s : string) : string :=
  match s with
  | EmptyString => EmptyString
  | String a s' =>
      match s' with
      | String b s'' =>
          if decide (a = "196"%char ∧ b = "177"%char) then String "I" (ToUpper s'')
          else if decide (a = "197"%char ∧ b = "191"%char) then String "S" (ToUpper s'')
          else String (upper_ascii a) (ToUpper s')
      | EmptyString => String (upper_ascii a) EmptyString
      end
  end.

Fixpoint ToLower (s : string) : string :=
  match s with
  | EmptyString => EmptyString
  | String a s' => String (lower_ascii a) (ToLower s')
  end.

(** ** Lemmas *)

Lemma sapp_nil_l s : "" +:+ s = s.
Proof. done. Qed.

Lemma sapp_cons a s t : String a s +:+ t = String a (s +:+ t).
Proof. done. Qed.

Lemma sapp_nil_r s : s +:+ "" = s.
Proof. induction s as [|a s IH]; [done|]. by rewrite sapp_cons, IH. Qed.

Lemma sapp_assoc s t u : (s +:+ t) +:+ u = s +:+ t +:+ u.
Proof. induction s as [|a s IH]; [done|]. by rewrite !sapp_cons, IH. Qed.

Lemma length_sapp s t :
  String.length (s +:+ t) = String.length s + String.length t.
Proof. induction s as [|a s IH]; [done|]. rewrite sapp_cons. simpl. by rewrite IH. Qed.

Lemma sdrop_app s t : sdrop (String.length s) (s +:+ t) = t.
Proof. induction s as [|a s IH]; [done|]. by rewrite sapp_cons. Qed.

Lemma stake_app s t : stake (String.length s) (s +:+ t) = s.
Proof.
  induction s as [|a s IH]; [by destruct t|]. rewrite sapp_cons. simpl. by rewrite IH.
Qed.

Lemma HasPrefix_spec s p : HasPrefix s p = true ↔ ∃ t, s = p +:+ t.
Proof.
  revert s. induction p as [|b p IH]; intros s; simpl.
  - split; [|by destruct s]. intros _. by exists s.
  - destruct s as [|a s]; simpl.
    + split; [done|]. intros [t Ht]. rewrite sapp_cons in Ht. done.
    + rewrite andb_true_iff, bool_decide_eq_true, IH. split.
      * intros [-> [t ->]]. by exists t.
      * intros [t Ht]. rewrite sapp_cons in Ht. simplify_eq. eauto.
Qed.

Lemma TrimPrefix_app p t : TrimPrefix (p +:+ t) p = t.
Proof.
  unfold TrimPrefix.
  assert (HasPrefix (p +:+ t) p = true) as -> by (apply HasPrefix_spec; eauto).
  apply sdrop_app.
Qed.

Lemma Contains_spec s p : Contains s p = true ↔ ∃ u v, s = u +:+ p +:+ v.
Proof.
  induction s as [|a s IH]; cbn [Contains].
  - rewrite orb_false_r, HasPrefix_spec. split.
    + intros [t Ht]. exists "", t. done.
    + intros (u & v & Huv). destruct u; [|done]. eauto.
  - rewrite orb_true_iff, HasPrefix_spec, IH. split.
    + intros [[t Ht]|(u & v & ->)]; [exists "", t; done|].
      exists (String a u), v. by rewrite sapp_cons.
    + intros (u & v & Huv). destruct u as [|b u]; [left; eauto|].
      rewrite sapp_cons in Huv. simplify_eq. right. eauto.
Qed.

(** *** Split and Join *)

Definition no_byte (c : ascii) (s : string) : Prop := IndexByte s c = None.

#[export] Instance no_byte_dec c s : Decision (no_byte c s).
Proof. unfold no_byte. apply _. Defined.

Lemma no_byte_cons c a s : no_byte c (String a s) ↔ a ≠ c ∧ no_byte c s.
Proof.
  unfold no_byte. simpl. case_decide; [naive_solver|].
  destruct (IndexByte s c); naive_solver.
Qed.

Lemma no_byte_app c s t : no_byte c (s +:+ t) ↔ no_byte c s ∧ no_byte c t.
Proof.
  induction s as [|a s IH]; [rewrite sapp_nil_l; naive_solver|].
  rewrite sapp_cons, !no_byte_cons, IH. naive_solver.
Qed.

Lemma IndexByte_app c s t : no_byte c s → IndexByte (s +:+ String c t) c = Some (String.length s).
Proof.
  unfold no_byte. induction s as [|a s IH]; intros Hs.
  - simpl. by rewrite decide_True.
  - simpl in *. destruct (decide (a = c)); [done|].
    destruct (IndexByte s c); [done|]. by rewrite IH.
Qed.

Lemma Split_nonempty s c : Split s c ≠ [].
Proof. destruct s; simpl; [done|]. case_decide; [done|]. by case_match. Qed.

Lemma Split_no_byte s c : no_byte c s → Split s c = [s].
Proof.
  induction s as [|a s IH]; [done|]. rewrite no_byte_cons. intros [Ha Hs].
  simpl. rewrite decide_False by done. by rewrite (IH Hs).
Qed.

Lemma Split_parts s c : Forall (no_byte c) (Split s c).
Proof.
  induction s as [|a s IH]; simpl; [by repeat constructor|].
  case_decide as Ha; [by constructor|].
  destruct (Split s c) as [|x xs].
  - constructor; [|done]. apply no_byte_cons. done.
  - apply Forall_cons in IH as [Hx Hxs]. constructor; [|done].
    by apply no_byte_cons.
Qed.

Lemma Split_app s c t : no_byte c s →
  Split (s +:+ String c t) c = s :: Split t c.
Proof.
  induction s as [|a s IH]; intros Hs.
  - rewrite sapp_nil_l. simpl. by rewrite decide_True.
  - apply no_byte_cons in Hs as [Ha Hs]. rewrite sapp_cons. simpl.
    rewrite decide_False by done. by rewrite (IH Hs).
Qed.

Lemma Join_cons x y l sep : Join (x :: y :: l) sep = x +:+ sep +:+ Join (y :: l) sep.
Proof. done. Qed.

(** [strings.Split] inverts [strings.Join] on parts free of the separator. *)
Lemma Split_Join l c : l ≠ [] → Forall (no_byte c) l →
  Split (Join l (str1 c)) c = l.
Proof.
  intros Hl Hf. induction Hf as [|x l Hx Hf IH]; [done|].
  destruct l as [|y l].
  - simpl. by apply Split_no_byte.
  - rewrite Join_cons. change (str1 c +:+ ?t) with (String c t).
    rewrite (Split_app _ _ _ Hx). by rewrite IH.
Qed.

(** [strings.Join] inverts [strings.Split]. *)
Lemma Join_Split s c : Join (Split s c) (str1 c) = s.
Proof.
  induction s as [|a s IH]; [done|]. simpl. case_decide as Ha.
  - subst. destruct (Split s c) as [|x xs] eqn:E; [by destruct (Split_nonempty s c)|].
    rewrite Join_cons, IH. done.
  - destruct (Split s c) as [|x xs] eqn:E; [by destruct (Split_nonempty s c)|].
    destruct xs as [|y xs].
    + simpl in *. by rewrite IH.
    + rewrite Join_cons in *. rewrite sapp_cons. by rewrite IH.
Qed.

(** *** Printable text without blanks *)

Definition graph (a : ascii) : bool :=
  let n := nat_of_ascii a in (33 <=? n)%nat && (n <=? 126)%nat.

Fixpoint graph_str (s : string) : bool :=
  match s with EmptyString => true | String a r => graph a && graph_str r end.

Lemma leading_graph a r : graph a = true → leading_space (String a r) = None.
Proof. destruct a as [[] [] [] [] [] [] [] []]; intros H; try discriminate H; reflexivity. Qed.

Lemma leading_blank r : leading_space (String " " r) = Some 1.
Proof. by destruct r. Qed.

Lemma sapp_inj_last s t a b : s +:+ str1 a = t +:+ str1 b → a = b.
Proof.
  revert t. induction s as [|x s IH]; intros [|y t] H.
  - by simplify_eq.
  - rewrite sapp_nil_l, sapp_cons in H. simplify_eq. by destruct t.
  - rewrite sapp_nil_l, sapp_cons in H. simplify_eq. by destruct s.
  - rewrite !sapp_cons in H. simplify_eq. by eapply IH.
Qed.

Lemma HasSuffix_spec s p : HasSuffix s p = true → ∃ t, s = t +:+ p.
Proof.
  unfold HasSuffix. rewrite andb_true_iff, !bool_decide_eq_true. intros [_ H].
  generalize dependent (String.length s - String.length p). intros n <-.
  exists (stake n s). revert n. induction s as [|a s IH]; intros [|n]; [done..|].
  simpl. rewrite sapp_cons. by rewrite <- IH.
Qed.

(** The last byte of every blank is no printable character. *)
Lemma blanks_end : Forall (λ w, ∃ u a, w = u +:+ str1 a ∧ graph a = false) unicode_spaces.
Proof.
  unfold unicode_spaces. simpl.
  repeat first [apply Forall_nil_2 | apply Forall_cons_2];
    first [by exists "" ; eexists | by eexists (str1 _), _
          | by eexists (String _ (str1 _)), _].
Qed.

Lemma trailing_graph s a : graph a = true → trailing_space (s +:+ str1 a) = None.
Proof.
  intros Ha. unfold trailing_space.
  destruct (head (filter _ _)) as [w|] eqn:Hw; [exfalso|done].
  assert (w ∈ filter (λ w, HasSuffix (s +:+ str1 a) w = true) unicode_spaces) as Hin.
  { destruct (filter _ unicode_spaces); [done|]. simplify_eq/=. by left. }
  apply list_elem_of_filter in Hin as [Hsuf Hin]. apply HasSuffix_spec in Hsuf as [t Ht].
  pose proof blanks_end as Hb. rewrite Forall_forall in Hb.
  destruct (Hb _ Hin) as (u & b & -> & Hg).
  rewrite <- sapp_assoc in Ht. apply sapp_inj_last in Ht. congruence.
Qed.

(** Trimming leaves text that starts and ends with printable characters. *)
Lemma TrimSpace_id s a t b :
  s = String a t → graph a = true → (∃ u, s = u +:+ str1 b) → graph b = true →
  TrimSpace s = s.
Proof.
  intros Hs Ha [u Hu] Hb. unfold TrimSpace.
  assert (trim_left_fuel (String.length s) s = s) as ->.
  { rewrite Hs at 1. cbn [String.length trim_left_fuel]. rewrite Hs at 1.
    by rewrite leading_graph. }
  rewrite Hs at 1. cbn [String.length trim_right_fuel]. rewrite Hu at 1.
  by rewrite trailing_graph.
Qed.

Lemma rev_app_spec s t : String.rev_app s t = String.rev s +:+ t.
Proof.
  unfold String.rev. revert t. assert (∀ u t, String.rev_app s (u +:+ t) = String.rev_app s u +:+ t) as H.
  { induction s as [|a s IH]; intros u t; [done|]. simpl. by rewrite <- IH. }
  intros t. by rewrite <- H.
Qed.

Lemma rev_involutive s : String.rev (String.rev s) = s.
Proof.
  assert (∀ t, String.rev (String.rev_app s t) = String.rev t +:+ s) as H.
  { induction s as [|a s IH]; intros t; [by rewrite sapp_nil_r|]. simpl. rewrite IH.
    unfold String.rev at 1. simpl. rewrite rev_app_spec, sapp_assoc. done. }
  apply (H "").
Qed.

(** Fields of words separated by single blanks. *)
Definition word (w : string) : Prop := w ≠ "" ∧ graph_str w = true.

Lemma fields_word w rest fuel cur : graph_str w = true →
  fields_fuel (String.length w + fuel) cur (w +:+ rest) =
  fields_fuel fuel (String.rev_app w cur) rest.
Proof.
  revert cur. induction w as [|a w IH]; intros cur Hw; [done|].
  simpl in Hw. apply andb_true_iff in Hw as [Ha Hw]. rewrite sapp_cons.
  cbn [String.length Nat.add fields_fuel]. rewrite leading_graph by done.
  by rewrite IH.
Qed.

Lemma rev_nonempty w : w ≠ "" → String.rev w ≠ "".
Proof. intros Hw Hr. apply Hw. by rewrite <- (rev_involutive w), Hr. Qed.

Lemma Fields_words ws fuel : Forall word ws → ws ≠ [] →
  String.length (Join ws " ") < fuel → fields_fuel fuel "" (Join ws " ") = ws.
Proof.
  intros Hws. revert fuel. induction Hws as [|w ws [Hne Hw] Hws IH]; intros fuel Hn Hf; [done|].
  destruct ws as [|w2 ws].
  - simpl in *. destruct (Nat.le_exists_sub (String.length w) fuel) as (k & -> & _); [lia|].
    pose proof (fields_word w "" k "" Hw) as Hfw. rewrite sapp_nil_r in Hfw.
    rewrite Nat.add_comm, Hfw. destruct k; [lia|]. simpl. rewrite decide_False by (by apply rev_nonempty).
    f_equal. apply rev_involutive.
  - rewrite Join_cons in *. rewrite !length_sapp in Hf. change (String.length " ") with 1 in Hf.
    destruct (Nat.le_exists_sub (String.length w + 1) fuel) as (k & -> & _); [lia|].
    replace (k + (String.length w + 1)) with (String.length w + S k) by lia.
    rewrite fields_word by done. change (" " +:+ ?x) with (String " " x).
    cbn [fields_fuel]. rewrite leading_blank.
    rewrite decide_False by (by apply rev_nonempty). cbn [sdrop].
    rewrite IH; [|done|lia]. simpl. f_equal. apply rev_involutive.
Qed.

Lemma Fields_Join ws : Forall word ws → Fields (Join ws " ") = ws.
Proof.
  intros Hws. destruct ws as [|w ws]; [done|]. apply Fields_words; [done|done|lia].
Qed.

Lemma graph_last s : s ≠ "" → graph_str s = true →
  ∃ u a, s = u +:+ str1 a ∧ graph a = true.
Proof.
  induction s as [|a s IH]; intros Hne Hs; [done|].
  simpl in Hs. apply andb_true_iff in Hs as [Ha Hs].
  destruct s as [|b s]; [by exists "", a|].
  destruct IH as (u & c & Hu & Hc); [done|done|]. exists (String a u), c.
  by rewrite sapp_cons, <- Hu.
Qed.

Lemma Join_words ws : Forall word ws → ws ≠ [] →
  (∃ a t, Join ws " " = String a t ∧ graph a = true) ∧
  (∃ u b, Join ws " " = u +:+ str1 b ∧ graph b = true).
Proof.
  intros Hws. induction Hws as [|w ws [Hne Hw] Hws IH]; intros Hn; [done|].
  assert (∃ a t, w = String a t ∧ graph a = true) as (a & t & Hat & Ha).
  { destruct w as [|a t]; [done|]. simpl in Hw. apply andb_true_iff in Hw as [? _]. eauto. }
  destruct ws as [|w2 ws].
  - split; [eauto|]. by apply graph_last.
  - rewrite Join_cons. split.
    + rewrite Hat, sapp_cons. eauto.
    + destruct IH as [_ (u & b & -> & Hb)]; [done|].
      exists (w +:+ " " +:+ u), b. by rewrite !sapp_assoc.
Qed.

Lemma TrimSpace_words ws : Forall word ws → TrimSpace (Join ws " ") = Join ws " ".
Proof.
  intros Hws. destruct (decide (ws = [])) as [->|Hn]; [done|].
  destruct (Join_words ws Hws Hn) as [(a & t & H1 & Ha) (u & b & H2 & Hb)].
  by eapply TrimSpace_id; [exact H1|exact Ha|exists u; exact H2|exact Hb].
Qed.

End GoStr.
