(* ===== verification/GoPath.v ===== *)
(** * The [path] package of Go, as far as the sources use it

    [path.Clean], [path.Join], [path.Dir] and [path.Base] on slash-separated
    paths.  [Clean] is defined on the list of path elements, by the four rules of
    its documentation (collapse slashes, drop [.], resolve inner [..], drop a
    leading [..] of a rooted path). *)
From S2P Require Import Prelude GoStrings.
Import GoStr.

Module GoPath.

(** One path element against the (reversed) elements kept so far. *)
Definition clean_step (rooted : bool) (st : list string) (c : string) : list string :=
  if decide (c = "" ∨ c = ".") then st
  else if decide (c = "..") then
    match st with
    | [] => if rooted then [] else [".."]
    | t :: rest => if decide (t = "..") then ".." :: st else rest
    end
  else c :: st.

Definition clean_elems (rooted : bool) (l : list string) : list string :=
  reverse (fold_left (clean_step rooted) l []).

Definition is_rooted (p : string) : bool := HasPrefix p "/".

(** [path.Clean]. *)
Definition Clean (p : string) : string :=
  if decide (p = "") then "."
  else
    let body := Join (clean_elems (is_rooted p) (Split p slash)) "/" in
    if is_rooted p then "/" +:+ body
    else if decide (body = "") then "." else body.

(** [path.Join] of two elements: empty ones are ignored. *)
Definition Join2 (a b : string) : string :=
  match filter (λ s, s ≠ "") [a; b] with
  | [] => ""
  | l => Clean (Join l "/")
  end.

(** [path.Join] of three elements. *)
Definition Join3 (a b c : string) : string :=
  match filter (λ s, s ≠ "") [a; b; c] with
  | [] => ""
  | l => Clean (Join l "/")
  end.

(** [path.Dir]: [Clean] of everything up to and including the last slash. *)
Definition Dir (p : string) : string :=
  Clean (match LastIndexByte p slash with
         | Some i => stake (S i) p
         | None => ""
         end).

(** [path.Base]. *)
Definition Base (p : string) : string :=
  if decide (p = "") then "."
  else
    let q := TrimRight p [slash] in
    let r := match LastIndexByte q slash with
             | Some i => sdrop (S i) q
             | None => q
             end in
    if decide (r = "") then "/" else r.

(** ** Element names *)

(** A name that [Clean] leaves alone: nonempty, no slash, not [.] or [..]. *)
Definition plain_name (n : string) : Prop :=
  n ≠ "" ∧ n ≠ "." ∧ n ≠ ".." ∧ no_byte slash n.

#[export] Instance plain_name_dec n : Decision (plain_name n).
Proof. unfold plain_name. apply _. Defined.

(** The rooted path with the given elements. *)
Definition rooted_path (l : list string) : string := "/" +:+ Join l "/".

Lemma clean_step_plain r st c : plain_name c → clean_step r st c = c :: st.
Proof.
  intros (H1 & H2 & H3 & _). unfold clean_step.
  rewrite decide_False by naive_solver. by rewrite decide_False.
Qed.

Lemma clean_fold_plain r l st :
  Forall plain_name l → fold_left (clean_step r) l st = reverse l ++ st.
Proof.
  intros Hl. revert st. induction Hl as [|c l Hc Hl IH]; intros st; [done|].
  simpl. rewrite (clean_step_plain _ _ _ Hc), IH, reverse_cons.
  by rewrite <- (assoc_L (++)).
Qed.

Lemma clean_elems_plain r l : Forall plain_name l → clean_elems r l = l.
Proof.
  intros Hl. unfold clean_elems. rewrite clean_fold_plain by done.
  by rewrite (right_id_L [] (++)), reverse_involutive.
Qed.

(** Cleaning a rooted path leaves only plain names: no empty element, no [.],
    no [..], so nothing can climb above the root. *)
Lemma clean_elems_rooted l :
  Forall (no_byte slash) l → Forall plain_name (clean_elems true l).
Proof.
  intros Hl. unfold clean_elems. apply Forall_reverse.
  assert (Forall plain_name []) as Hst by done. revert Hst. generalize (@nil string).
  induction Hl as [|c l Hc Hl IH]; intros st Hst; [done|]. simpl. apply IH.
  unfold clean_step. case_decide; [done|]. case_decide.
  - destruct st as [|t st]; [done|]. apply Forall_cons in Hst as [Ht Hst].
    rewrite decide_False; [done|]. by destruct Ht as (_ & _ & ? & _).
  - constructor; [|done]. unfold plain_name. naive_solver.
Qed.

Lemma clean_elems_cons_empty r l : clean_elems r ("" :: l) = clean_elems r l.
Proof. unfold clean_elems. simpl. unfold clean_step at 2. by rewrite decide_True by auto. Qed.

Lemma is_rooted_slash p : is_rooted (String slash p) = true.
Proof. unfold is_rooted. apply HasPrefix_spec. by exists p. Qed.

Lemma Clean_rooted p :
  Clean (String slash p) = rooted_path (clean_elems true (Split p slash)).
Proof.
  unfold Clean, rooted_path. rewrite decide_False by done.
  rewrite is_rooted_slash.
  change (String slash p) with ("" +:+ String slash p).
  rewrite (Split_app "" slash p) by done. by rewrite clean_elems_cons_empty.
Qed.

Lemma plain_no_slash l : Forall plain_name l → Forall (no_byte slash) l.
Proof. intros Hl. eapply Forall_impl; [done|]. by intros ? (_ & _ & _ & ?). Qed.

Lemma Clean_rooted_path l : l ≠ [] → Forall plain_name l →
  Clean (rooted_path l) = rooted_path l.
Proof.
  intros Hne Hl. unfold rooted_path at 1.
  change ("/" +:+ ?x) with (String slash x). rewrite Clean_rooted.
  change "/" with (str1 slash). rewrite Split_Join.
  - by rewrite clean_elems_plain.
  - done.
  - by apply plain_no_slash.
Qed.

(** [path.Clean] is idempotent on rooted paths. *)
Lemma Clean_idemp p : Clean (Clean (String slash p)) = Clean (String slash p).
Proof.
  rewrite Clean_rooted.
  pose proof (clean_elems_rooted _ (Split_parts p slash)) as Hpl.
  destruct (clean_elems true (Split p slash)) as [|x l]; [done|].
  by apply Clean_rooted_path.
Qed.

(** Extending a clean rooted path by a plain name. *)
Lemma Join_snoc l x : l ≠ [] → Join (l ++ [x]) "/" = Join l "/" +:+ "/" +:+ x.
Proof.
  induction l as [|y l IH]; [done|]. intros _. destruct l as [|z l]; [done|].
  change ((y :: z :: l) ++ [x]) with (y :: z :: (l ++ [x])).
  rewrite !Join_cons. change (z :: l ++ [x]) with ((z :: l) ++ [x]).
  rewrite IH by done. by rewrite !sapp_assoc.
Qed.

Lemma Join_rooted l n : Forall plain_name l → plain_name n →
  Join2 (rooted_path l) n = rooted_path (l ++ [n]).
Proof.
  intros Hl Hn. unfold Join2.
  assert (filter (λ s, s ≠ "") [rooted_path l; n] = [rooted_path l; n]) as ->.
  { rewrite !filter_cons_True; [done|by destruct Hn|].
    unfold rooted_path. by rewrite sapp_cons. }
  change (Join [rooted_path l; n] "/") with (rooted_path l +:+ "/" +:+ n).
  unfold rooted_path at 1. rewrite sapp_assoc.
  change ("/" +:+ ?x) with (String slash x) at 1. rewrite Clean_rooted.
  f_equal. destruct l as [|y l].
  - change (Join [] "/" +:+ "/" +:+ n) with ("" +:+ String slash n).
    rewrite Split_app by done. rewrite clean_elems_cons_empty.
    rewrite Split_no_byte by (by destruct Hn as (_&_&_&?)).
    apply clean_elems_plain. by constructor.
  - assert (Forall plain_name ((y :: l) ++ [n])) as Hall by (by apply Forall_app; split; [|constructor]).
    rewrite <- Join_snoc by done. change "/" with (str1 slash).
    rewrite Split_Join; [by apply clean_elems_plain|by destruct l|].
    by apply plain_no_slash.
Qed.

End GoPath.
