(* ===== verification/GoJson.v ===== *)
(** * encoding/json as the code uses it

    A byte-level parser and printer for JSON text, and the decoding of a JSON
    value into Go structs, maps and scalars: field names match without regard to
    case, a repeated key is applied again, [null] leaves a scalar untouched, and a
    value of the wrong type is skipped and makes the whole call fail at the end. *)
From S2P Require Import Prelude.
From Stdlib Require Import Ascii.

Module GoJson.

(** ** Values *)

(** An object keeps its members in the order of the text. A number keeps its
    literal. *)
Inductive json :=
  | JNull
  | JBool (b : bool)
  | JNum (lit : string)
  | JStr (s : string)
  | JArr (l : list json)
  | JObj (l : list (string * json)).

#[export] Instance json_eq_dec : EqDecision json.
Proof.
  refine (fix go (x y : json) : Decision (x = y) :=
    match x, y with
    | JNull, JNull => left eq_refl
    | JBool a, JBool b => cast_if (decide (a = b))
    | JNum a, JNum b => cast_if (decide (a = b))
    | JStr a, JStr b => cast_if (decide (a = b))
    | JArr a, JArr b =>
        let _ : EqDecision json := go in cast_if (decide (a = b))
    | JObj a, JObj b =>
        let _ : EqDecision json := go in cast_if (decide (a = b))
    | _, _ => right _
    end); abstract congruence.
Defined.

(** ** Bytes and UTF-8 *)

Definition bval (a : ascii) : Z := Z.of_N (N_of_ascii a).
Definition chr (z : Z) : ascii := ascii_of_N (Z.to_N z).

Lemma bval_range a : (0 ≤ bval a < 256)%Z.
Proof. destruct a as [[] [] [] [] [] [] [] []]; vm_compute; split; congruence. Qed.

Lemma chr_bval a : chr (bval a) = a.
Proof. by destruct a as [[] [] [] [] [] [] [] []]. Qed.

Definition in_range (lo hi z : Z) : bool := (lo <=? z)%Z && (z <=? hi)%Z.

Definition RuneError : Z := 65533.

(** [utf8.EncodeRune] (a surrogate or a value out of range is the error rune). *)
Definition utf8_encode (r : Z) : string :=
  let r := if in_range 0 1114111 r && negb (in_range 55296 57343 r)
           then r else RuneError in
  if (r <? 128)%Z then String (chr r) ""
  else if (r <? 2048)%Z then
    String (chr (192 + Z.shiftr r 6)) (String (chr (128 + Z.land r 63)) "")
  else if (r <? 65536)%Z then
    String (chr (224 + Z.shiftr r 12))
      (String (chr (128 + Z.land (Z.shiftr r 6) 63))
        (String (chr (128 + Z.land r 63)) ""))
  else
    String (chr (240 + Z.shiftr r 18))
      (String (chr (128 + Z.land (Z.shiftr r 12) 63))
        (String (chr (128 + Z.land (Z.shiftr r 6) 63))
          (String (chr (128 + Z.land r 63)) ""))).

(** [utf8.DecodeRune] of a nonempty string: the rune and what follows it; an
    ill-formed sequence is the error rune, of one byte. *)
Definition utf8_decode (a : ascii) (s : string) : Z * string :=
  let b0 := bval a in
  let bad := (RuneError, s) in
  let cont z := in_range 128 191 z in
  if (b0 <? 128)%Z then (b0, s)
  else if in_range 194 223 b0 then
    match s with
    | String a1 s1 =>
        let b1 := bval a1 in
        if cont b1 then ((Z.land b0 31) * 64 + Z.land b1 63, s1)%Z else bad
    | _ => bad
    end
  else if in_range 224 239 b0 then
    match s with
    | String a1 (String a2 s2) =>
        let b1 := bval a1 in let b2 := bval a2 in
        let lo := if (b0 =? 224)%Z then 160%Z else 128%Z in
        let hi := if (b0 =? 237)%Z then 159%Z else 191%Z in
        if in_range lo hi b1 && cont b2
        then ((Z.land b0 15) * 4096 + Z.land b1 63 * 64 + Z.land b2 63, s2)%Z
        else bad
    | _ => bad
    end
  else if in_range 240 244 b0 then
    match s with
    | String a1 (String a2 (String a3 s3)) =>
        let b1 := bval a1 in let b2 := bval a2 in let b3 := bval a3 in
        let lo := if (b0 =? 240)%Z then 144%Z else 128%Z in
        let hi := if (b0 =? 244)%Z then 143%Z else 191%Z in
        if in_range lo hi b1 && cont b2 && cont b3
        then ((Z.land b0 7) * 262144 + Z.land b1 63 * 4096
              + Z.land b2 63 * 64 + Z.land b3 63, s3)%Z
        else bad
    | _ => bad
    end
  else bad.

(** ** Parsing *)

Definition is_ws (a : ascii) : bool :=
  bool_decide (a ∈ [" "; "009"; "010"; "013"]%char).

Fixpoint skip_ws (s : string) : string :=
  match s with
  | String a s' => if is_ws a then skip_ws s' else s
  | EmptyString => s
  end.

Definition is_digit (a : ascii) : bool := in_range 48 57 (bval a).

Fixpoint digits (s : string) : string * string :=
  match s with
  | String a s' =>
      if is_digit a then let (d, r) := digits s' in (String a d, r) else ("", s)
  | EmptyString => ("", "")
  end.

Definition cut_minus (s : string) : string * string :=
  match s with String "-" r => ("-", r) | _ => ("", s) end.

(** A single zero, or a run of digits. *)
Definition int_part (s : string) : string * string :=
  match s with String "0" r => ("0", r) | _ => digits s end.

(** The literal of a number and what follows it. *)
Definition lex_number (s : string) : option (string * string) :=
  let (sign, s) := cut_minus s in
  let (int, s) := int_part s in
  if decide (int = "") then None
  else
    '(frac, s) ← match s with
                 | String "." s' =>
                     let (d, r) := digits s' in
                     if decide (d = "") then None else Some ("." +:+ d, r)
                 | _ => Some ("", s)
                 end;
    '(exp, s) ← match s with
                | String (("e" | "E") as e) s' =>
                    let (sg, s') := match s' with
                                    | String (("+" | "-") as g) r => (String g "", r)
                                    | _ => ("", s')
                                    end in
                    let (d, r) := digits s' in
                    if decide (d = "") then None else Some (String e (sg +:+ d), r)
                | _ => Some ("", s)
                end;
    Some (sign +:+ int +:+ frac +:+ exp, s).

Definition hex_val (a : ascii) : option Z :=
  let z := bval a in
  if in_range 48 57 z then Some (z - 48)%Z
  else if in_range 97 102 z then Some (z - 87)%Z
  else if in_range 65 70 z then Some (z - 55)%Z
  else None.

(** Four hex digits. *)
Definition lex_u4 (s : string) : option (Z * string) :=
  match s with
  | String a (String b (String c (String d r))) =>
      va ← hex_val a; vb ← hex_val b; vc ← hex_val c; vd ← hex_val d;
      Some (va * 4096 + vb * 256 + vc * 16 + vd, r)%Z
  | _ => None
  end.

(** [utf16.DecodeRune] of two surrogates. *)
Definition surrogate_pair (hi lo : Z) : option Z :=
  if in_range 55296 56319 hi && in_range 56320 57343 lo
  then Some ((hi - 55296) * 1024 + (lo - 56320) + 65536)%Z else None.

Definition simple_escape (a : ascii) : option string :=
  match a with
  | "034"%char => Some (String "034" "")
  | "\"%char => Some "\"
  | "/"%char => Some "/"
  | "b"%char => Some (String "008" "")
  | "f"%char => Some (String "012" "")
  | "n"%char => Some (String "010" "")
  | "r"%char => Some (String "013" "")
  | "t"%char => Some (String "009" "")
  | _ => None
  end.

(** The body of a string literal after its opening quote. *)
Fixpoint lex_string (fuel : nat) (s : string) : option (string * string) :=
  match fuel with
  | O => None
  | S fuel =>
      match s with
      | EmptyString => None
      | String "034" r => Some ("", r)
      | String "\" (String "u" r) =>
          '(u, r) ← lex_u4 r;
          let single u r := '(t, r) ← lex_string fuel r; Some (utf8_encode u +:+ t, r) in
          if in_range 55296 57343 u then
            match r with
            | String "\" (String "u" r') =>
                '(u', r') ← lex_u4 r';
                match surrogate_pair u u' with
                | Some v => single v r'
                | None => single RuneError r
                end
            | _ => single RuneError r
            end
          else single u r
      | String "\" (String e r) =>
          c ← simple_escape e;
          '(t, r) ← lex_string fuel r; Some (c +:+ t, r)
      | String a r =>
          if (bval a <? 32)%Z then None
          else
            let (u, r) := utf8_decode a r in
            '(t, r) ← lex_string fuel r; Some (utf8_encode u +:+ t, r)
      end
  end.

Definition max_depth : N := 10000.

(** The text after the byte [c], blanks before it skipped. *)
Definition eat (c : ascii) (s : string) : option string :=
  match skip_ws s with
  | String a r => if decide (a = c) then Some r else None
  | EmptyString => None
  end.

(** A value at the head of [s] (blanks skipped), and what follows it.  Every call
    consumes fuel; [parse] gives more than any text of that length needs. *)
Fixpoint value (fuel : nat) (depth : N) (s : string) : option (json * string) :=
  match fuel with
  | O => None
  | S fuel =>
      match skip_ws s with
      | String "034" r => '(t, r) ← lex_string fuel r; Some (JStr t, r)
      | String "{" r =>
          if (depth <? max_depth)%N then
            match eat "}" r with
            | Some r => Some (JObj [], r)
            | None => '(l, r) ← members fuel (depth + 1) r; Some (JObj l, r)
            end
          else None
      | String "[" r =>
          if (depth <? max_depth)%N then
            match eat "]" r with
            | Some r => Some (JArr [], r)
            | None => '(l, r) ← elements fuel (depth + 1) r; Some (JArr l, r)
            end
          else None
      | String "n" (String "u" (String "l" (String "l" r))) => Some (JNull, r)
      | String "t" (String "r" (String "u" (String "e" r))) => Some (JBool true, r)
      | String "f" (String "a" (String "l" (String "s" (String "e" r)))) =>
          Some (JBool false, r)
      | r => '(l, r) ← lex_number r; Some (JNum l, r)
      end
  end
with elements (fuel : nat) (depth : N) (s : string) : option (list json * string) :=
  match fuel with
  | O => None
  | S fuel =>
      '(v, r) ← value fuel depth s;
      match eat "]" r with
      | Some r => Some ([v], r)
      | None => r ← eat "," r; '(l, r) ← elements fuel depth r; Some (v :: l, r)
      end
  end
with members (fuel : nat) (depth : N) (s : string)
    : option (list (string * json) * string) :=
  match fuel with
  | O => None
  | S fuel =>
      r ← eat "034" s;
      '(k, r) ← lex_string fuel r;
      r ← eat ":" r;
      '(v, r) ← value fuel depth r;
      match eat "}" r with
      | Some r => Some ([(k, v)], r)
      | None => r ← eat "," r; '(l, r) ← members fuel depth r; Some ((k, v) :: l, r)
      end
  end.

Definition fuel_of (s : string) : nat := 2 * String.length s + 2.

(** One value at the head of a stream ([Decoder.Decode]). *)
Definition parse_prefix (s : string) : option (json * string) :=
  value (fuel_of s) 0 s.

(** The whole text is one value ([Unmarshal]). *)
Definition parse (s : string) : option json :=
  '(v, r) ← parse_prefix s;
  if decide (skip_ws r = "") then Some v else None.

(** ** Decoding into Go values *)

(** The folding under which [encoding/json] matches a key with a field name:
    ASCII letters without regard to case, and the two non-ASCII letters (long s,
    Kelvin sign) whose fold is ASCII. *)
Fixpoint fold_name (s : string) : string :=
  match s with
  | EmptyString => ""
  | String "197" (String "191" r) => String "S" (fold_name r)
  | String "226" (String "132" (String "170" r)) => String "K" (fold_name r)
  | String a r =>
      let z := bval a in
      String (if in_range 97 122 z then chr (z - 32) else a) (fold_name r)
  end.

(** Decoding assigns into a target and says whether every value had the right
    type so far. *)
Definition decoder (S : Type) : Type := json → S → S * bool.

Definition scalar {S} (get : S → json → option S) : decoder S :=
  λ v s, match v with
         | JNull => (s, true)
         | _ => match get s v with Some s' => (s', true) | None => (s, false) end
         end.

Definition field_string {S} (set : S → string → S) : decoder S :=
  scalar (λ s v, match v with JStr t => Some (set s t) | _ => None end).

Definition field_bool {S} (set : S → bool → S) : decoder S :=
  scalar (λ s v, match v with JBool b => Some (set s b) | _ => None end).

(** [strconv.ParseInt(lit, 10, 64)] of a number literal: no fraction or exponent,
    and in range. *)
Fixpoint digits_val (acc : Z) (s : string) : option Z :=
  match s with
  | EmptyString => Some acc
  | String a r => if is_digit a then digits_val (acc * 10 + (bval a - 48)) r else None
  end.

Definition int_lit (lit : string) : option Z :=
  let (sign, d) := cut_minus lit in
  z ← digits_val 0 d;
  let z := if decide (sign = "") then z else Z.opp z in
  if decide (in_i64 z) then Some z else None.

Definition field_int {S} (set : S → Z → S) : decoder S :=
  scalar (λ s v, match v with JNum l => set s <$> int_lit l | _ => None end).

(** A [[]int]; the slice is rebuilt, and elements of the wrong type stay zero. *)
Definition field_ints {S} (set : S → list Z → S) : decoder S :=
  λ v s, match v with
         | JNull => (set s [], true)
         | JArr l =>
             let rs := (λ v, field_int (λ _ z, z) v 0%Z) <$> l in
             (set s rs.*1, forallb id rs.*2)
         | _ => (s, false)
         end.

(** An object into a struct, given the decoders of its fields: members apply in
    the order of the text, members without a field are ignored. *)
Definition find_field {S} (fields : list (string * decoder S)) (key : string)
  : option (decoder S) :=
  snd <$> find (λ f, bool_decide (fold_name f.1 = fold_name key)) fields.

Definition members_into {S} (fields : list (string * decoder S))
    (l : list (string * json)) (s : S) : S * bool :=
  fold_left (λ acc kv,
    match find_field fields kv.1 with
    | Some d => let (s', ok) := d kv.2 acc.1 in (s', acc.2 && ok)
    | None => acc
    end) l (s, true).

Definition struct_of {S} (fields : list (string * decoder S)) : decoder S :=
  λ v s, match v with
         | JNull => (s, true)
         | JObj l => members_into fields l s
         | _ => (s, false)
         end.

(** [json.Unmarshal(raw, &s)]: text that does not parse changes nothing. *)
Definition Unmarshal {S} (d : decoder S) (raw : string) (s : S) : S * bool :=
  match parse raw with
  | Some v => d v s
  | None => (s, false)
  end.

(** [json.NewDecoder(r).Decode(&s)]: the first value of the stream. *)
Definition Decode_stream {S} (d : decoder S) (raw : string) (s : S) : S * bool :=
  match parse_prefix raw with
  | Some (v, _) => d v s
  | None => (s, false)
  end.

End GoJson.
