(* ===== verification/GoUtf8.v ===== *)
(** * unicode/utf8: what encoding/json makes of a string

    A Go string is any bytes; printing one as JSON replaces every ill-formed byte by
    the error rune.  [coerce] is that replacement, and text is what it leaves alone. *)
From S2P Require Import Prelude GoStrings GoJson.
Import GoStr GoJson.

Module UTF8.

Lemma bval_chr z : (0 ≤ z < 256)%Z → bval (chr z) = z.
Proof.
  intros Hz. unfold bval, chr. rewrite Ascii.N_ascii_embedding by lia. by rewrite Z2N.id by lia.
Qed.

Lemma chr_inv z a : (0 ≤ z < 256)%Z → bval a = z → chr z = a.
Proof. intros Hz <-. apply chr_bval. Qed.

(** Bit fields as divisions. *)
Lemma land_low z n m : (0 ≤ n)%Z → m = Z.ones n → (Z.land z m = z mod 2 ^ n)%Z.
Proof. intros Hn ->. by apply Z.land_ones. Qed.

Ltac fields :=
  rewrite ?(land_low _ 6 63), ?(land_low _ 5 31), ?(land_low _ 4 15), ?(land_low _ 3 7),
    ?Z.shiftr_div_pow2 in * by (done || lia).

(** Decoding at the head of a text: either one ill-formed byte, or a sequence that is
    the encoding of its rune and is decoded alike whatever follows. *)
Definition well_formed (a : ascii) (u : Z) (t : string) : Prop :=
  t ≠ "" ∧ utf8_encode u = String a t ∧ ∀ r, utf8_decode a (t +:+ r) = (u, r).

Lemma in_range_spec lo hi z : in_range lo hi z = true ↔ (lo ≤ z ≤ hi)%Z.
Proof. unfold in_range. by rewrite andb_true_iff, !Z.leb_le. Qed.

Ltac ranges := repeat match goal with
  | H : in_range _ _ _ = true |- _ => pose proof (proj1 (in_range_spec _ _ _) H); revert H
  end; intros.

Lemma encode_two u : (128 ≤ u < 2048)%Z →
  utf8_encode u = String (chr (192 + u / 64)) (String (chr (128 + u mod 64)) "").
Proof.
  intros Hu. unfold utf8_encode, in_range.
  destruct (Z.leb_spec 0 u), (Z.leb_spec u 1114111), (Z.leb_spec 55296 u); try lia. simpl.
  destruct (Z.ltb_spec u 128), (Z.ltb_spec u 2048); try lia. by fields.
Qed.

Lemma encode_three u : (2048 ≤ u < 65536)%Z → ¬ (55296 ≤ u ≤ 57343)%Z →
  utf8_encode u = String (chr (224 + u / 4096))
    (String (chr (128 + u / 64 mod 64)) (String (chr (128 + u mod 64)) "")).
Proof.
  intros Hu Hs. unfold utf8_encode, in_range.
  destruct (Z.leb_spec 0 u), (Z.leb_spec u 1114111); try lia. simpl.
  destruct (Z.leb_spec 55296 u), (Z.leb_spec u 57343); try lia; simpl;
  destruct (Z.ltb_spec u 128), (Z.ltb_spec u 2048), (Z.ltb_spec u 65536); try lia; by fields.
Qed.

Lemma encode_four u : (65536 ≤ u < 1114112)%Z →
  utf8_encode u = String (chr (240 + u / 262144)) (String (chr (128 + u / 4096 mod 64))
    (String (chr (128 + u / 64 mod 64)) (String (chr (128 + u mod 64)) ""))).
Proof.
  intros Hu. unfold utf8_encode, in_range.
  destruct (Z.leb_spec 0 u), (Z.leb_spec u 1114111), (Z.leb_spec 55296 u), (Z.leb_spec u 57343);
    try lia; simpl.
  destruct (Z.ltb_spec u 128), (Z.ltb_spec u 2048), (Z.ltb_spec u 65536); try lia; by fields.
Qed.

Lemma chr_is z a : z = bval a → chr z = a.
Proof. intros ->. apply chr_bval. Qed.

Ltac euclid := Z.to_euclidean_division_equations; lia.

(** The sequences [utf8_decode] accepts. *)
Lemma decode_two a b : in_range 194 223 (bval a) = true → in_range 128 191 (bval b) = true →
  well_formed a (bval a mod 32 * 64 + bval b mod 64)%Z (String b "").
Proof.
  intros Ha Hb. ranges.
  split; [done|]. split.
  - rewrite encode_two by euclid. f_equal; [|f_equal]; apply chr_is; euclid.
  - intros r'. unfold utf8_decode. destruct (Z.ltb_spec (bval a) 128); [lia|].
    rewrite Ha. simpl. rewrite Hb. by fields.
Qed.

Lemma decode_three a b c : in_range 224 239 (bval a) = true →
  in_range (if (bval a =? 224)%Z then 160 else 128) (if (bval a =? 237)%Z then 159 else 191) (bval b)
    = true → in_range 128 191 (bval c) = true →
  well_formed a (bval a mod 16 * 4096 + bval b mod 64 * 64 + bval c mod 64)%Z
    (String b (String c "")).
Proof.
  intros Ha Hb Hc. ranges.
  split; [done|]. split.
  - destruct (Z.eqb_spec (bval a) 224), (Z.eqb_spec (bval a) 237);
      (rewrite encode_three by euclid; f_equal; [|f_equal; [|f_equal]]; apply chr_is; euclid).
  - intros r'. unfold utf8_decode.
    destruct (Z.ltb_spec (bval a) 128); [lia|]. simpl. rewrite Ha, Hb, Hc.
    destruct (in_range 194 223 (bval a)) eqn:Hr; [apply in_range_spec in Hr; lia|]. by fields.
Qed.

Lemma decode_four a b c d : in_range 240 244 (bval a) = true →
  in_range (if (bval a =? 240)%Z then 144 else 128) (if (bval a =? 244)%Z then 143 else 191) (bval b)
    = true → in_range 128 191 (bval c) = true → in_range 128 191 (bval d) = true →
  well_formed a (bval a mod 8 * 262144 + bval b mod 64 * 4096 + bval c mod 64 * 64
                 + bval d mod 64)%Z (String b (String c (String d ""))).
Proof.
  intros Ha Hb Hc Hd. ranges. split; [done|]. split.
  - destruct (Z.eqb_spec (bval a) 240), (Z.eqb_spec (bval a) 244);
      (rewrite encode_four by euclid; f_equal; [|f_equal; [|f_equal; [|f_equal]]];
       apply chr_is; euclid).
  - intros r'. unfold utf8_decode.
    destruct (Z.ltb_spec (bval a) 128); [lia|]. simpl. rewrite Ha, Hb, Hc, Hd.
    destruct (in_range 194 223 (bval a)) eqn:Hr; [apply in_range_spec in Hr; lia|].
    destruct (in_range 224 239 (bval a)) eqn:Hr2; [apply in_range_spec in Hr2; lia|]. by fields.
Qed.

Lemma decode_cases a s u r : utf8_decode a s = (u, r) → (128 ≤ bval a)%Z →
  (u = RuneError ∧ r = s) ∨ ∃ t, s = t +:+ r ∧ well_formed a u t.
Proof.
  unfold utf8_decode. intros Hd Ha. destruct (Z.ltb_spec (bval a) 128); [lia|]. cbv zeta in Hd.
  destruct (in_range 194 223 (bval a)) eqn:H2; [|destruct (in_range 224 239 (bval a)) eqn:H3;
    [|destruct (in_range 240 244 (bval a)) eqn:H4; [|simplify_eq; by left]]].
  - destruct s as [|b s]; [simplify_eq; by left|].
    destruct (in_range 128 191 (bval b)) eqn:Hb; simplify_eq; [right|by left].
    exists (String b ""). split; [done|]. fields. by apply decode_two.
  - destruct s as [|b [|c s]]; [simplify_eq; by left..|].
    destruct (_ && _) eqn:Hbc in Hd; simplify_eq; [right|by left].
    apply andb_true_iff in Hbc as [Hb Hc].
    exists (String b (String c "")). split; [done|]. fields. by apply decode_three.
  - destruct s as [|b [|c [|d s]]]; [simplify_eq; by left..|].
    destruct (_ && _) eqn:Hbc in Hd; simplify_eq; [right|by left].
    apply andb_true_iff in Hbc as [[Hb Hc]%andb_true_iff Hdd].
    exists (String b (String c (String d ""))). split; [done|]. fields. by apply decode_four.
Qed.

(** ** Coercion to text *)

Fixpoint coerce_fuel (n : nat) (s : string) : string :=
  match n, s with
  | S n, String a r =>
      if (bval a <? 128)%Z then String a (coerce_fuel n r)
      else let (u, r') := utf8_decode a r in utf8_encode u +:+ coerce_fuel n r'
  | _, _ => ""
  end.

Definition coerce (s : string) : string := coerce_fuel (String.length s) s.

Definition utf8_str (s : string) : bool := bool_decide (coerce s = s).

Fixpoint ascii_str (s : string) : bool :=
  match s with EmptyString => true | String a r => (bval a <? 128)%Z && ascii_str r end.

Lemma decode_shorter a s u r : utf8_decode a s = (u, r) → (128 ≤ bval a)%Z →
  String.length r ≤ String.length s.
Proof.
  intros Hd Ha. destruct (decode_cases _ _ _ _ Hd Ha) as [[_ ->]|(t & -> & _)]; [done|].
  rewrite length_sapp. lia.
Qed.

Lemma coerce_fuel_irrel n m s : String.length s ≤ n → String.length s ≤ m →
  coerce_fuel n s = coerce_fuel m s.
Proof.
  revert m s. induction n as [|n IH]; intros m s Hn Hm.
  { destruct s; [|simpl in Hn; lia]. by destruct m. }
  destruct s as [|a s]; [by destruct m|]. destruct m as [|m]; [simpl in Hm; lia|].
  simpl in *. destruct (Z.ltb_spec (bval a) 128).
  - f_equal. apply IH; lia.
  - destruct (utf8_decode a s) as [u r] eqn:Hd. apply decode_shorter in Hd; [|done].
    f_equal. apply IH; lia.
Qed.

Lemma coerce_ascii a s : (bval a < 128)%Z → coerce (String a s) = String a (coerce s).
Proof. intros Ha. unfold coerce. simpl. by destruct (Z.ltb_spec (bval a) 128); [|lia]. Qed.

Lemma coerce_rune a s u r : (128 ≤ bval a)%Z → utf8_decode a s = (u, r) →
  coerce (String a s) = utf8_encode u +:+ coerce r.
Proof.
  intros Ha Hd. unfold coerce. simpl. destruct (Z.ltb_spec (bval a) 128); [lia|].
  rewrite Hd. f_equal. apply decode_shorter in Hd; [|done]. by apply coerce_fuel_irrel.
Qed.

Lemma ascii_utf8 s : ascii_str s = true → utf8_str s = true.
Proof.
  intros Hs. apply bool_decide_eq_true. induction s as [|a s IH]; [done|].
  simpl in Hs. apply andb_true_iff in Hs as [Ha Hs]. apply Z.ltb_lt in Ha.
  by rewrite coerce_ascii, IH.
Qed.

End UTF8.
