(* ===== verification/GoFloat.v ===== *)
(** * Numbers of a [map[string]any]: float64 values and their conversion

    [encoding/json] stores a number in an [any] as the float64 nearest to its
    literal (a value beyond the range is an error), and the code converts some of
    them to integers. *)
From S2P Require Import Prelude GoJson.
From Stdlib Require Import SpecFloat.
Import GoJson.

Module GoFloat.

(** The literal as [(-1)^neg * mant * 10^exp]. *)
Definition lit_parts (lit : string) : bool * Z * Z :=
  let (sign, s) := cut_minus lit in
  let neg := bool_decide (sign ≠ "") in
  let (int, s) := digits s in
  let (frac, s) := match s with
                   | String "." r => digits r
                   | _ => ("", s)
                   end in
  let exp := match s with
             | String ("e" | "E") (String "-" r) => Z.opp (default 0%Z (digits_val 0 r))
             | String ("e" | "E") (String "+" r) => default 0%Z (digits_val 0 r)
             | String ("e" | "E") r => default 0%Z (digits_val 0 r)
             | _ => 0%Z
             end in
  (neg, default 0%Z (digits_val 0 (int +:+ frac)), (exp - Z.of_nat (String.length frac))%Z).

Definition prec : Z := 53.
Definition emax : Z := 1024.

(** [strconv.ParseFloat(lit, 64)], round to nearest even; [None] when the value is
    out of range.  A negative power of ten is divided out with enough bits and a
    sticky bit, so that the final rounding is the only one. *)
Definition parse_float (lit : string) : option spec_float :=
  let '(neg, m, e) := lit_parts lit in
  let round x ex :=
    match binary_normalize prec emax (if neg then - x else x)%Z ex neg with
    | S754_infinity _ => None
    | f => Some f
    end in
  if (m =? 0)%Z then Some (S754_zero neg)
  else if (400 <? e + Z.log2 m / 4)%Z then None
  else if (e + Z.log2 m <? -400)%Z then Some (S754_zero neg)
  else if (0 <=? e)%Z then round (m * 10 ^ e)%Z 0%Z
  else
    let d := (10 ^ (- e))%Z in
    let k := Z.max 0 (Z.log2 d - Z.log2 m + 64) in
    let q := (Z.shiftl m k / d)%Z in
    let sticky := if (Z.shiftl m k mod d =? 0)%Z then 0%Z else 1%Z in
    round (2 * q + sticky)%Z (- k - 1)%Z.

(** The conversion of a float64 to [int64]: truncation, and the minimum when the
    value does not fit (what amd64 and arm64 do differs there; this is amd64). *)
Definition trunc_i64 (f : spec_float) : Z :=
  match f with
  | S754_finite s m e =>
      let a := if (0 <=? e)%Z then Z.shiftl (Zpos m) e else Z.shiftr (Zpos m) (- e) in
      let z := if s then Z.opp a else a in
      if decide (in_i64 z) then z else (- two63)%Z
  | S754_zero _ => 0%Z
  | _ => (- two63)%Z
  end.

(** Whether every number of a value has a float64 (else decoding it into an [any]
    is an error). *)
Fixpoint any_ok (v : json) : bool :=
  match v with
  | JNum l => bool_decide (is_Some (parse_float l))
  | JArr l => forallb any_ok l
  | JObj l => forallb (λ kv, any_ok kv.2) l
  | _ => true
  end.

(** Members into a [map[string]any]: they are added to what the map holds, a
    repeated key keeping its last value. *)
Definition into_map (l : list (string * json)) (m : gmap string json) : gmap string json :=
  fold_left (λ m kv, <[kv.1 := kv.2]> m) l m.

Definition field_map {S} (get : S → gmap string json) (set : S → gmap string json → S)
  : decoder S :=
  λ v s, match v with
         | JNull => (set s ∅, true)
         | JObj l => (set s (into_map l (get s)), any_ok v)
         | _ => (s, false)
         end.

(** Maps print with their keys in order. *)
Definition jmap (m : gmap string json) : json := JObj (sort_by fst (map_to_list m)).

(** Lookup of a member in a decoded object kept as a list: the last one wins. *)
Definition obj_lookup (k : string) (l : list (string * json)) : option json :=
  into_map l ∅ !! k.

End GoFloat.
