(* ===== verification/GoJsonPrint.v ===== *)
(** * Printing JSON as [json.Marshal] does, and reading it back

    The literal of a string escapes quotes, control characters and the three
    characters of HTML; the theorem at the end is the round trip for values whose
    strings are text (valid UTF-8), which covers every frame the code builds itself
    (base64, hex, UUIDs, numbers, fixed words). *)
From S2P Require Import Prelude GoJson GoStrings GoUtf8.
From stdpp Require Import pretty.
Import GoStr GoJson UTF8.

Module JsonPrint.

(** ** Printing *)

Definition hex_digit (z : Z) : ascii := chr (if (z <? 10)%Z then z + 48 else z + 87).

(** [\u00XX] *)
Definition escape_u (z : Z) : string :=
  "\u00" +:+ String (hex_digit (z / 16)) (String (hex_digit (z mod 16)) "").

(** One ASCII character inside a literal. *)
Definition quote_ascii (a : ascii) : string :=
  let z := bval a in
  if (z =? 34)%Z then String "\" (String "034" "")
  else if (z =? 92)%Z then "\\"
  else if (z =? 8)%Z then "\b"
  else if (z =? 12)%Z then "\f"
  else if (z =? 10)%Z then "\n"
  else if (z =? 13)%Z then "\r"
  else if (z =? 9)%Z then "\t"
  else if (z <? 32)%Z || (z =? 60)%Z || (z =? 62)%Z || (z =? 38)%Z then escape_u z
  else String a "".

(** The bytes of [s] that a suffix [r] of it does not cover. *)
Definition consumed (s r : string) : string :=
  stake (String.length s - String.length r) s.

Fixpoint quote_body (fuel : nat) (s : string) : string :=
  match fuel, s with
  | S fuel, String a r =>
      if (bval a <? 128)%Z then quote_ascii a +:+ quote_body fuel r
      else
        let (u, r') := utf8_decode a r in
        let raw := consumed s r' in
        (if bool_decide (u = RuneError) && bool_decide (String.length raw = 1)
         then "\ufffd"
         else if (u =? 8232)%Z then "\u2028"
         else if (u =? 8233)%Z then "\u2029"
         else raw) +:+ quote_body fuel r'
  | _, _ => ""
  end.

Definition dq : string := String "034" "".

Definition quote (s : string) : string := dq +:+ quote_body (String.length s) s +:+ dq.

Fixpoint print (j : json) : string :=
  match j with
  | JNull => "null"
  | JBool true => "true"
  | JBool false => "false"
  | JNum l => l
  | JStr s => quote s
  | JArr l => "[" +:+ Join (List.map print l) "," +:+ "]"
  | JObj l =>
      "{" +:+ Join (List.map (λ kv, quote kv.1 +:+ ":" +:+ print kv.2) l) "," +:+ "}"
  end.

(** An integer value. *)
Definition JInt (z : Z) : json := JNum (pretty z).

(** ** Reading literals back *)

Lemma lex_quote_ascii a fuel r : (bval a < 128)%Z →
  lex_string (S fuel) (quote_ascii a +:+ r) =
  '(t, r) ← lex_string fuel r; Some (String a t, r).
Proof.
  destruct a as [[] [] [] [] [] [] [] []]; intros H; try (by vm_compute in H); reflexivity.
Qed.

Lemma lex_high a fuel r : (128 ≤ bval a)%Z →
  lex_string (S fuel) (String a r) =
  (let (u, r) := utf8_decode a r in
   '(t, r) ← lex_string fuel r; Some (utf8_encode u +:+ t, r)).
Proof.
  destruct a as [[] [] [] [] [] [] [] []]; intros H; try (by vm_compute in H); reflexivity.
Qed.

Lemma consumed_app t r : consumed (t +:+ r) r = t.
Proof. unfold consumed. by rewrite length_sapp, Nat.add_sub, stake_app. Qed.

(** The literal of any string, read back: the string with its ill-formed bytes
    replaced. *)
Lemma lex_quote_body n s fuel rest : String.length s ≤ n → String.length s < fuel →
  lex_string fuel (quote_body n s +:+ dq +:+ rest) = Some (coerce s, rest).
Proof.
  revert s fuel. induction n as [|n IH]; intros s fuel Hn Hf.
  { destruct s; [|simpl in Hn; lia]. destruct fuel; [simpl in Hf; lia|]. done. }
  destruct fuel as [|fuel]; [lia|]. destruct s as [|a s]; [done|].
  cbn [String.length] in Hn, Hf. cbn [quote_body].
  destruct (Z.ltb_spec (bval a) 128).
  { rewrite sapp_assoc, lex_quote_ascii, IH, coerce_ascii by (done || lia). done. }
  destruct (utf8_decode a s) as [u r] eqn:Hd. rewrite (coerce_rune _ _ _ _ H Hd).
  pose proof (decode_shorter _ _ _ _ Hd H) as Hlen.
  assert (IHr := IH r fuel ltac:(lia) ltac:(lia)).
  destruct (decode_cases _ _ _ _ Hd H) as [[-> ->]|(t & -> & Ht & Henc & Hdec)].
  - assert (consumed (String a s) s = String a "") as -> by apply (consumed_app (String a "") s).
    rewrite (bool_decide_true (RuneError = RuneError)), bool_decide_true by done.
    cbn [andb]. rewrite sapp_assoc.
    change (lex_string (S fuel) ("\ufffd" +:+ ?x)) with
      ('(t, r) ← lex_string fuel x; Some (utf8_encode RuneError +:+ t, r)).
    by rewrite IHr.
  - assert (consumed (String a (t +:+ r)) r = String a t) as -> by apply (consumed_app (String a t) r).
    rewrite (bool_decide_false (String.length (String a t) = 1)) by (by destruct t).
    rewrite andb_false_r.
    destruct (Z.eqb_spec u 8232) as [->|]; [|destruct (Z.eqb_spec u 8233) as [->|]].
    + rewrite sapp_assoc. change (lex_string (S fuel) ("\u2028" +:+ ?x)) with
        ('(t, r) ← lex_string fuel x; Some (utf8_encode 8232 +:+ t, r)). by rewrite IHr.
    + rewrite sapp_assoc. change (lex_string (S fuel) ("\u2029" +:+ ?x)) with
        ('(t, r) ← lex_string fuel x; Some (utf8_encode 8233 +:+ t, r)). by rewrite IHr.
    + rewrite sapp_assoc, sapp_cons, lex_high, Hdec by done. by rewrite IHr.
Qed.

Lemma lex_coerce s fuel rest : String.length s < fuel →
  lex_string fuel (quote_body (String.length s) s +:+ dq +:+ rest) = Some (coerce s, rest).
Proof. intros. by apply lex_quote_body. Qed.

Lemma lex_quote s fuel rest : utf8_str s = true → String.length s < fuel →
  lex_string fuel (quote_body (String.length s) s +:+ dq +:+ rest) = Some (s, rest).
Proof. intros Hs%bool_decide_eq_true Hf. by rewrite lex_coerce, Hs. Qed.

(** ** Reading numbers back *)

(** What may follow a number. *)
Definition follow (rest : string) : Prop :=
  match rest with
  | EmptyString => True
  | String a _ => a ∈ [","; "]"; "}"; " "; "010"]%char
  end.

Definition num_lit (l : string) : Prop :=
  (∃ a r, l = String a r ∧ (a = "-"%char ∨ is_digit a = true)) ∧
  ∀ rest, follow rest → lex_number (l +:+ rest) = Some (l, rest).

Fixpoint all_digits (s : string) : bool :=
  match s with EmptyString => true | String a r => is_digit a && all_digits r end.

Lemma digits_app s rest : all_digits s = true → follow rest →
  digits (s +:+ rest) = (s, rest).
Proof.
  intros Hs Hr. induction s as [|a s IH].
  - rewrite sapp_nil_l. destruct rest as [|b rest]; [done|]. simpl.
    destruct (is_digit b) eqn:Hb; [|done]. simpl in Hr.
    repeat (apply elem_of_cons in Hr as [->|Hr]; [done|]). by apply elem_of_nil in Hr.
  - simpl in Hs. apply andb_true_iff in Hs as [Ha Hs]. rewrite sapp_cons. simpl.
    by rewrite Ha, IH.
Qed.

Lemma pretty_char_digit x : (x < 10)%N →
  is_digit (pretty_N_char x) = true ∧ (bval (pretty_N_char x) - 48 = Z.of_N x)%Z ∧
  (x ≠ 0%N → pretty_N_char x ≠ "0"%char).
Proof.
  intros Hx. assert (x ∈ (N.of_nat <$> seq 0 10)) as Hin.
  { apply list_elem_of_fmap. exists (N.to_nat x). split; [lia|]. apply elem_of_seq. lia. }
  clear Hx; revert x Hin. apply Forall_forall. by repeat (constructor; [by vm_compute|]).
Qed.

(** The digits of a positive number: digits, no leading zero, and its value. *)
Lemma pretty_N_go_spec x s : (0 < x)%N → all_digits s = true →
  ∃ a r, pretty_N_go x s = String a r ∧ a ≠ "0"%char ∧
    all_digits (String a r) = true ∧
    digits_val 0 (String a r) = digits_val (Z.of_N x) s.
Proof.
  revert s. induction (N.lt_wf_0 x) as [x _ IH]; intros s Hx Hs.
  rewrite pretty_N_go_step by done.
  assert (x `mod` 10 < 10)%N as Hm by (by apply N.mod_lt).
  destruct (pretty_char_digit _ Hm) as (Hd & Hv & Hz).
  assert (digits_val (Z.of_N (x `div` 10)) (String (pretty_N_char (x `mod` 10)) s) =
    digits_val (Z.of_N x) s) as Hdv.
  { cbn [digits_val]. rewrite Hd. f_equal. rewrite Hv.
    rewrite (N.div_mod x 10) at 3 by done. lia. }
  pose proof (N.div_mod x 10 ltac:(done)) as Hdm.
  destruct (decide (x `div` 10 = 0)%N) as [H0|H0].
  - rewrite H0, pretty_N_go_0 in *. eexists _, _. split; [done|]. split_and!.
    + apply Hz. intros Hz'. lia.
    + simpl. by rewrite Hd, Hs.
    + done.
  - destruct (IH (x `div` 10)%N) with (s := String (pretty_N_char (x `mod` 10)) s)
      as (a & r & H1 & H2 & H3 & H4).
    + by apply N.div_lt.
    + lia.
    + simpl. by rewrite Hd, Hs.
    + exists a, r. by rewrite H4.
Qed.

Lemma pretty_N_spec x : ∃ a r, pretty x = String a r ∧
  (a = "0"%char → r = "") ∧ all_digits (String a r) = true ∧
  digits_val 0 (String a r) = Some (Z.of_N x).
Proof.
  unfold pretty, pretty_N. case_decide as Hx; [subst; by exists "0"%char, ""|].
  destruct (pretty_N_go_spec x "") as (a & r & H1 & H2 & H3 & H4); [lia|done|].
  exists a, r. by rewrite H4.
Qed.

Lemma pretty_Z_cases z :
  pretty z = if (z <? 0)%Z then "-" +:+ pretty (Z.abs_N z) else pretty (Z.abs_N z).
Proof. by destruct z. Qed.

(** An unsigned literal is read up to whatever may follow it. *)
Lemma int_part_digits a r rest :
  (a = "0"%char → r = "") → all_digits (String a r) = true → follow rest →
  int_part (String a r +:+ rest) = (String a r, rest).
Proof.
  intros H0 Hd Hr. rewrite <- (digits_app (String a r) rest Hd Hr), sapp_cons.
  destruct (decide (a = "0"%char)) as [->|Hne].
  - rewrite (H0 eq_refl), sapp_nil_l.
    exact (eq_sym (digits_app "0" rest eq_refl Hr)).
  - destruct a as [[] [] [] [] [] [] [] []]; try reflexivity. done.
Qed.

Lemma cut_minus_digit a r : is_digit a = true →
  cut_minus (String a r) = ("", String a r).
Proof. by destruct a as [[] [] [] [] [] [] [] []]. Qed.

Lemma lex_number_end sign a r rest :
  (a = "0"%char → r = "") → all_digits (String a r) = true → follow rest →
  cut_minus (sign +:+ String a r +:+ rest) = (sign, String a r +:+ rest) →
  lex_number (sign +:+ String a r +:+ rest) = Some (sign +:+ String a r, rest).
Proof.
  intros H0 Hd Hr Hs. unfold lex_number. rewrite Hs, int_part_digits by done.
  rewrite decide_False by done.
  destruct rest as [|b rest]; simpl; [by rewrite sapp_nil_r|]. simpl in Hr.
  repeat (apply elem_of_cons in Hr as [->|Hr]; [simpl; by rewrite sapp_nil_r|]).
  by apply elem_of_nil in Hr.
Qed.

Lemma num_lit_pretty (z : Z) : num_lit (pretty z).
Proof.
  unfold num_lit. rewrite pretty_Z_cases.
  destruct (pretty_N_spec (Z.abs_N z)) as (a & r & -> & H0 & Hd & _).
  assert (is_digit a = true) as Ha by (simpl in Hd; by apply andb_true_iff in Hd as [? _]).
  destruct (z <? 0)%Z; (split; [eexists _, _; split; [done|by (left + right)]|]);
    intros rest Hr.
  - rewrite sapp_assoc. by apply lex_number_end.
  - rewrite <- (sapp_nil_l (String a r +:+ rest)). rewrite lex_number_end; [done..|].
    rewrite sapp_nil_l, sapp_cons. by apply cut_minus_digit.
Qed.

Lemma int_lit_pretty (z : Z) : in_i64 z → int_lit (pretty z) = Some z.
Proof.
  intros Hz. rewrite pretty_Z_cases. unfold int_lit.
  destruct (pretty_N_spec (Z.abs_N z)) as (a & r & -> & H0 & Hd & Hv).
  assert (is_digit a = true) as Ha by (simpl in Hd; by apply andb_true_iff in Hd as [? _]).
  destruct (z <? 0)%Z eqn:Hneg.
  - rewrite sapp_cons, sapp_nil_l. cbn [cut_minus]. rewrite Hv. simpl.
    replace (- Z.of_N (Z.abs_N z))%Z with z by lia. by rewrite decide_True.
  - rewrite cut_minus_digit, Hv by done. simpl.
    replace (Z.of_N (Z.abs_N z))%Z with z by lia. by rewrite decide_True.
Qed.

(** ** Reading values back *)

(** A value that is well formed but for its strings, with the nesting it needs. *)
Inductive shape : N → json → Prop :=
  | shape_null d : shape d JNull
  | shape_bool d b : shape d (JBool b)
  | shape_num d l : num_lit l → shape d (JNum l)
  | shape_str d s : shape d (JStr s)
  | shape_arr d l : Forall (shape d) l → shape (d + 1) (JArr l)
  | shape_obj d l : Forall (λ kv, shape d kv.2) l → shape (d + 1) (JObj l).

(** What is read back of a value: its strings as text. *)
Fixpoint coerced (j : json) : json :=
  match j with
  | JStr s => JStr (coerce s)
  | JArr l => JArr (List.map coerced l)
  | JObj l => JObj (List.map (λ kv, (coerce kv.1, coerced kv.2)) l)
  | _ => j
  end.

Definition coerced_member (kv : string * json) : string * json := (coerce kv.1, coerced kv.2).

(** Values the round trip is about, with the nesting they need. *)
Inductive jok : N → json → Prop :=
  | jok_null d : jok d JNull
  | jok_bool d b : jok d (JBool b)
  | jok_num d l : num_lit l → jok d (JNum l)
  | jok_str d s : utf8_str s = true → jok d (JStr s)
  | jok_arr d l : Forall (jok d) l → jok (d + 1) (JArr l)
  | jok_obj d l : Forall (λ kv, utf8_str kv.1 = true ∧ jok d kv.2) l →
      jok (d + 1) (JObj l).

Lemma jok_shape : ∀ d j, jok d j → shape d j ∧ coerced j = j.
Proof.
  fix IH 3. intros d j [?|?|? l Hl|? s Hs|? l Hl|? l Hl]; try by (split; [constructor|]).
  - split; [constructor|]. simpl. apply bool_decide_eq_true in Hs. by rewrite Hs.
  - split.
    + constructor. induction Hl as [|v l Hv Hl IHl]; constructor; [apply IH, Hv|exact IHl].
    + simpl. f_equal. induction Hl as [|v l Hv Hl IHl]; [done|]. simpl.
      f_equal; [apply (IH _ _ Hv)|exact IHl].
  - split.
    + constructor. induction Hl as [|v l [_ Hv] Hl IHl]; constructor; [apply IH, Hv|exact IHl].
    + simpl. f_equal. induction Hl as [|[k v] l [Hk Hv] Hl IHl]; [done|]. simpl in *.
      apply bool_decide_eq_true in Hk. f_equal; [|exact IHl].
      by rewrite Hk, (proj2 (IH _ _ Hv)).
Qed.

(** The first byte of a printed value. *)
Definition starts_value (s : string) : Prop :=
  ∃ a r, s = String a r ∧ is_ws a = false ∧ a ≠ "]"%char ∧ a ≠ "}"%char.

Lemma starts_value_app s t : starts_value s → starts_value (s +:+ t).
Proof. intros (a & r & -> & H). exists a, (r +:+ t). done. Qed.

Lemma is_digit_plain a : is_digit a = true →
  is_ws a = false ∧ a ≠ "]"%char ∧ a ≠ "}"%char.
Proof. by destruct a as [[] [] [] [] [] [] [] []]. Qed.

Lemma eat_other c s : starts_value s → c = "]"%char ∨ c = "}"%char → eat c s = None.
Proof.
  intros (a & r & -> & Hws & H1 & H2) Hc. unfold eat. simpl. rewrite Hws.
  rewrite decide_False; [done|]. naive_solver.
Qed.

Lemma eat_sep c a r : is_ws a = false →
  eat c (String a r) = if decide (a = c) then Some r else None.
Proof. intros H. unfold eat. simpl. by rewrite H. Qed.

Lemma value_num fuel d l rest : num_lit l → follow rest →
  value (S fuel) d (l +:+ rest) = Some (JNum l, rest).
Proof.
  intros [(a & r & -> & Ha) Hl] Hr. specialize (Hl _ Hr). rewrite sapp_cons in *.
  destruct Ha as [->|Ha].
  - simpl. simpl in Hl. by rewrite Hl.
  - cbn [value skip_ws]. destruct (is_digit_plain a Ha) as (-> & _ & _).
    destruct a as [[] [] [] [] [] [] [] []]; try discriminate Ha; by rewrite Hl.
Qed.

Lemma value_str fuel d s rest : String.length s < fuel →
  value (S fuel) d (quote s +:+ rest) = Some (JStr (coerce s), rest).
Proof.
  intros Hf. unfold quote. rewrite !sapp_assoc.
  change (value (S fuel) d (dq +:+ ?x)) with ('(t, r) ← lex_string fuel x; Some (JStr t, r)).
  by rewrite lex_coerce.
Qed.

Lemma length_quote_ascii a : 1 ≤ String.length (quote_ascii a).
Proof. destruct a as [[] [] [] [] [] [] [] []]; vm_compute; lia. Qed.

Lemma length_quote_body n s : String.length s ≤ n →
  String.length s ≤ String.length (quote_body n s).
Proof.
  revert s. induction n as [|n IH]; intros s Hn; [destruct s; simpl in *; lia|].
  destruct s as [|a s]; [simpl; lia|]. cbn [String.length] in *. cbn [quote_body].
  destruct (Z.ltb_spec (bval a) 128).
  { rewrite length_sapp. pose proof (length_quote_ascii a). specialize (IH s ltac:(lia)). lia. }
  destruct (utf8_decode a s) as [u r] eqn:Hd. rewrite length_sapp.
  pose proof (decode_shorter _ _ _ _ Hd H) as Hlen. specialize (IH r ltac:(lia)).
  destruct (decode_cases _ _ _ _ Hd H) as [[-> ->]|(t & -> & _ & Henc & _)].
  - assert (consumed (String a s) s = String a "") as -> by apply (consumed_app (String a "") s).
    rewrite (bool_decide_true (RuneError = RuneError)), bool_decide_true by done. simpl. lia.
  - assert (consumed (String a (t +:+ r)) r = String a t) as -> by apply (consumed_app (String a t) r).
    rewrite length_sapp.
    assert (u = 8232%Z ∨ u = 8233%Z → String.length t = 2) as Ht.
    { intros [-> | ->]; injection Henc as _ <-; done. }
    destruct (_ && _) eqn:Hbad.
    { apply andb_true_iff in Hbad as [_ Hl]. apply bool_decide_eq_true in Hl. simpl in *. lia. }
    destruct (Z.eqb_spec u 8232); [|destruct (Z.eqb_spec u 8233)]; simpl; lia.
Qed.

Lemma length_quote s : String.length s + 2 ≤ String.length (quote s).
Proof.
  unfold quote. rewrite !length_sapp. simpl. pose proof (length_quote_body _ s (le_n _)). lia.
Qed.

Lemma follow_sep a r : bool_decide (a ∈ [","; "]"; "}"; " "; "010"]%char) = true →
  follow (String a r).
Proof. by rewrite bool_decide_eq_true. Qed.

(** *** Layouts

    A layout puts blanks after an opening bracket and a comma, before a closing
    bracket, and after a colon: none in [json.Marshal], line breaks with two spaces
    per level in [json.MarshalIndent]. *)

Definition blank (s : string) : Prop := ∀ t, skip_ws (s +:+ t) = skip_ws t.

Record layout := MkLayout { nl : nat → string; gap : string }.

Class Layout (st : layout) : Prop := {
  nl_blank d : blank (nl st d);
  gap_blank : blank (gap st);
  nl_follow d c r : is_ws c = false → follow (String c r) → follow (nl st d +:+ String c r);
}.

Section layout.
Context (st : layout).

Definition bracket (d : nat) (l r : string) (items : list string) : string :=
  match items with
  | [] => l +:+ r
  | _ => l +:+ nl st (S d) +:+ Join items ("," +:+ nl st (S d)) +:+ nl st d +:+ r
  end.

(** The text of a value at nesting [d]. *)
Fixpoint render (d : nat) (j : json) : string :=
  match j with
  | JNull => "null"
  | JBool true => "true"
  | JBool false => "false"
  | JNum l => l
  | JStr s => quote s
  | JArr l => bracket d "[" "]" (List.map (render (S d)) l)
  | JObj l =>
      bracket d "{" "}"
        (List.map (λ kv, quote kv.1 +:+ ":" +:+ gap st +:+ render (S d) kv.2) l)
  end.

Definition render_member (d : nat) (kv : string * json) : string :=
  quote kv.1 +:+ ":" +:+ gap st +:+ render d kv.2.

Context `{!Layout st}.

Lemma starts_render d k j : shape k j → starts_value (render d j).
Proof.
  intros []; simpl; try (by eexists _, _).
  - destruct b; by eexists _, _.
  - destruct H as [(a & r & -> & [->|Ha]) _]; eexists _, _; (split; [done|]); [done|].
    by apply is_digit_plain.
  - unfold bracket. destruct (List.map _ l); by eexists _, _.
  - unfold bracket. destruct (List.map _ l); by eexists _, _.
Qed.

Lemma eat_blank c b s : blank b → eat c (b +:+ s) = eat c s.
Proof. intros Hb. unfold eat. by rewrite Hb. Qed.

Lemma value_blank fuel d b s : blank b → value fuel d (b +:+ s) = value fuel d s.
Proof. intros Hb. destruct fuel; [done|]. cbn [value]. by rewrite Hb. Qed.

Lemma elements_blank fuel d b s : blank b → elements fuel d (b +:+ s) = elements fuel d s.
Proof. intros Hb. destruct fuel; [done|]. cbn [elements]. by rewrite value_blank. Qed.

Lemma members_blank fuel d b s : blank b → members fuel d (b +:+ s) = members fuel d s.
Proof. intros Hb. destruct fuel; [done|]. cbn [members]. by rewrite eat_blank. Qed.

(** What is read, with enough fuel: a value at any nesting of the layout, and the
    items of a bracket up to its end. *)
Definition reads_value (fuel : nat) : Prop := ∀ e d k j rest,
  shape k j → (d + k ≤ max_depth)%N → follow rest → 2 * String.length (render e j) ≤ fuel →
  value fuel d (render e j +:+ rest) = Some (coerced j, rest).

Definition reads_elements (fuel : nat) : Prop := ∀ e d k v l rest,
  Forall (shape k) (v :: l) → (d + k ≤ max_depth)%N →
  2 * String.length (Join (render (S e) <$> v :: l) ("," +:+ nl st (S e))) + 1 ≤ fuel →
  elements fuel d (Join (render (S e) <$> v :: l) ("," +:+ nl st (S e)) +:+ nl st e +:+ "]" +:+ rest)
  = Some (coerced <$> v :: l, rest).

Definition reads_members (fuel : nat) : Prop := ∀ e d k v l rest,
  Forall (λ kv, shape k kv.2) (v :: l) → (d + k ≤ max_depth)%N →
  2 * String.length (Join (render_member (S e) <$> v :: l) ("," +:+ nl st (S e))) + 1 ≤ fuel →
  members fuel d
    (Join (render_member (S e) <$> v :: l) ("," +:+ nl st (S e)) +:+ nl st e +:+ "}" +:+ rest)
  = Some (coerced_member <$> v :: l, rest).

Lemma follow_close e c rest : c = "]"%char ∨ c = "}"%char →
  follow (nl st e +:+ str1 c +:+ rest).
Proof. intros [->| ->]; (apply nl_follow; [done|by apply follow_sep]). Qed.

(** An element or a member followed by another one. *)
Lemma Join_two (x y : string) l sep t :
  Join (x :: y :: l) ("," +:+ sep) +:+ t =
  x +:+ String "," (sep +:+ Join (y :: l) ("," +:+ sep) +:+ t).
Proof. by rewrite Join_cons, !sapp_assoc. Qed.

Lemma reads_elements_step fuel :
  reads_value fuel → reads_elements fuel → reads_elements (S fuel).
Proof.
  intros Hv He e d k v l rest Hj Hd Hf. apply Forall_cons in Hj as [Hjv Hjl].
  destruct l as [|w l].
  - cbn [fmap list_fmap Join] in *. cbn [elements].
    rewrite (Hv _ _ _ _ _ Hjv Hd); [|apply follow_close; auto|lia].
    cbn [mbind option_bind]. by rewrite eat_blank by apply nl_blank.
  - cbn [fmap list_fmap] in *. rewrite Join_two. rewrite Join_cons, !length_sapp in Hf.
    change (String.length ",") with 1 in Hf. cbn [elements].
    rewrite (Hv _ _ _ _ _ Hjv Hd); [|by apply follow_sep|lia].
    cbn [mbind option_bind]. rewrite !eat_sep by done.
    rewrite decide_False, decide_True by done.
    cbn [mbind option_bind]. rewrite elements_blank by apply nl_blank.
    specialize (He e _ _ _ _ rest Hjl Hd).
    cbn [fmap list_fmap] in He. rewrite He; [done|lia].
Qed.

(** One member, up to what follows its value. *)
Lemma members_head fuel d e key v t : String.length key < fuel →
  members (S fuel) d (render_member e (key, v) +:+ t) =
    '(v, r) ← value fuel d (render e v +:+ t);
    match eat "}" r with
    | Some r => Some ([(coerce key, v)], r)
    | None => r ← eat "," r; '(l, r) ← members fuel d r; Some ((coerce key, v) :: l, r)
    end.
Proof.
  intros Hf. unfold render_member, quote. cbn [fst snd]. rewrite !sapp_assoc.
  change (members (S fuel) d (dq +:+ ?x)) with (
    '(k, r) ← lex_string fuel x; r ← eat ":" r; '(v, r) ← value fuel d r;
    match eat "}" r with
    | Some r => Some ([(k, v)], r)
    | None => r ← eat "," r; '(l, r) ← members fuel d r; Some ((k, v) :: l, r)
    end).
  rewrite lex_coerce by done. cbn [mbind option_bind].
  change (eat ":" (":" +:+ ?x)) with (Some x). cbn [mbind option_bind].
  by rewrite value_blank by apply gap_blank.
Qed.

Lemma reads_members_step fuel :
  reads_value fuel → reads_members fuel → reads_members (S fuel).
Proof.
  intros Hv He e d k [key v] l rest Hj Hd Hf. apply Forall_cons in Hj as [Hjv Hjl].
  simpl in Hjv. pose proof (length_quote key) as Hq.
  assert (String.length key + 2 + String.length (render (S e) v) ≤
    String.length (render_member (S e) (key, v))) as Hkl.
  { unfold render_member. rewrite !length_sapp. cbn [fst snd]. lia. }
  destruct l as [|w l].
  - cbn [fmap list_fmap Join] in *. rewrite members_head by (done || lia).
    rewrite (Hv _ _ _ _ _ Hjv Hd); [|apply follow_close; auto|lia].
    cbn [mbind option_bind]. by rewrite eat_blank by apply nl_blank.
  - cbn [fmap list_fmap] in *. rewrite Join_cons, !length_sapp in Hf.
    change (String.length ",") with 1 in Hf. rewrite Join_two, members_head by (done || lia).
    rewrite (Hv _ _ _ _ _ Hjv Hd); [|by apply follow_sep|lia].
    cbn [mbind option_bind]. rewrite !eat_sep by done.
    rewrite decide_False, decide_True by done.
    cbn [mbind option_bind]. rewrite members_blank by apply nl_blank.
    specialize (He e _ _ _ _ rest Hjl Hd).
    cbn [fmap list_fmap] in He. rewrite He; [done|lia].
Qed.

Lemma starts_Join {A} (f : A → string) x l sep :
  starts_value (f x) → starts_value (Join (f <$> x :: l) sep).
Proof.
  intros H. destruct l; [done|]. cbn [fmap list_fmap]. rewrite Join_cons.
  by apply starts_value_app.
Qed.

Lemma reads_value_step fuel :
  reads_elements fuel → reads_members fuel → reads_value (S fuel).
Proof.
  intros He Hm e d k j rest Hj Hd Hr Hf.
  destruct Hj as [?|? b|? l Hl|? s|? l Hl|? l Hl]; [done|by destruct b| | | |].
  - by apply value_num.
  - cbn [render] in *. pose proof (length_quote s). apply value_str. lia.
  - cbn [render] in *. change (List.map (render (S e)) l) with (render (S e) <$> l) in *.
    assert ((d <? max_depth)%N = true) as Hlt by (apply N.ltb_lt; lia).
    destruct l as [|v l]; [cbn [fmap list_fmap bracket]; rewrite sapp_assoc;
      cbn [value]; simpl; by rewrite Hlt|].
    unfold bracket in *. cbn [fmap list_fmap] in Hf |- *. rewrite !length_sapp in Hf.
    change (String.length "[") with 1 in Hf. change (String.length "]") with 1 in Hf.
    rewrite !sapp_assoc.
    change (value (S fuel) d ("[" +:+ ?x)) with (
      if (d <? max_depth)%N then
        match eat "]" x with
        | Some r => Some (JArr [], r)
        | None => '(l, r) ← elements fuel (d + 1) x; Some (JArr l, r)
        end
      else None).
    rewrite Hlt, eat_blank, elements_blank by apply nl_blank.
    rewrite eat_other; [|apply starts_value_app, starts_Join|by left].
    + specialize (He e (d + 1)%N _ _ _ rest Hl ltac:(lia)). cbn [fmap list_fmap] in He.
      rewrite He; [done|lia].
    + apply Forall_cons in Hl as [Hv _]. by eapply starts_render.
  - cbn [render] in *.
    change (List.map (λ kv, quote kv.1 +:+ ":" +:+ gap st +:+ render (S e) kv.2) l)
      with (render_member (S e) <$> l) in *.
    assert ((d <? max_depth)%N = true) as Hlt by (apply N.ltb_lt; lia).
    destruct l as [|v l]; [cbn [fmap list_fmap bracket]; rewrite sapp_assoc;
      cbn [value]; simpl; by rewrite Hlt|].
    unfold bracket in *. cbn [fmap list_fmap] in Hf |- *. rewrite !length_sapp in Hf.
    change (String.length "{") with 1 in Hf. change (String.length "}") with 1 in Hf.
    rewrite !sapp_assoc.
    change (value (S fuel) d ("{" +:+ ?x)) with (
      if (d <? max_depth)%N then
        match eat "}" x with
        | Some r => Some (JObj [], r)
        | None => '(l, r) ← members fuel (d + 1) x; Some (JObj l, r)
        end
      else None).
    rewrite Hlt, eat_blank, members_blank by apply nl_blank.
    rewrite eat_other; [|apply starts_value_app, starts_Join|by right].
    + specialize (Hm e (d + 1)%N _ _ _ rest Hl ltac:(lia)). cbn [fmap list_fmap] in Hm.
      rewrite Hm; [done|lia].
    + by eexists _, _.
Qed.

Lemma render_nonempty e k j : shape k j → 1 ≤ String.length (render e j).
Proof. intros (a & r & -> & _)%(starts_render e). simpl. lia. Qed.

Lemma reads_all fuel : reads_value fuel ∧ reads_elements fuel ∧ reads_members fuel.
Proof.
  induction fuel as [|fuel (IHv & IHe & IHm)].
  - split_and!.
    + intros e d k j rest Hj _ _ Hf. pose proof (render_nonempty e _ _ Hj). lia.
    + intros e d k v l rest _ _ Hf. lia.
    + intros e d k v l rest _ _ Hf. lia.
  - split_and!; [by apply reads_value_step|by apply reads_elements_step
      |by apply reads_members_step].
Qed.

(** A printed value at the head of a text, whatever the layout. *)
Lemma parse_prefix_render k j rest : shape k j → (k ≤ max_depth)%N → follow rest →
  parse_prefix (render 0 j +:+ rest) = Some (coerced j, rest).
Proof.
  intros Hj Hk Hr. unfold parse_prefix, fuel_of.
  destruct (reads_all (2 * String.length (render 0 j +:+ rest) + 2)) as [Hv _].
  apply (Hv 0 0%N k j rest Hj); [lia|done|]. rewrite length_sapp. lia.
Qed.

(** The round trip. *)
Lemma parse_render k j : jok k j → (k ≤ max_depth)%N → parse (render 0 j) = Some j.
Proof.
  intros [Hj Hc]%jok_shape Hk. unfold parse.
  rewrite <- (sapp_nil_r (render 0 j)), (parse_prefix_render k) by done. by rewrite Hc.
Qed.
End layout.

(** *** The two layouts of the standard library *)

Definition compact : layout := MkLayout (λ _, "") "".

Definition spaces (n : nat) : string := String.concat "" (replicate n "  ").

Definition indented : layout := MkLayout (λ d, str1 newline +:+ spaces d) " ".

#[export] Instance compact_layout : Layout compact.
Proof. by split. Qed.

#[export] Instance indented_layout : Layout indented.
Proof.
  split.
  - intros d t. unfold indented. cbn [nl]. rewrite sapp_assoc. simpl.
    induction d as [|d IH]; [done|]. unfold spaces in *. simpl.
    by destruct (replicate d "  ") eqn:E; rewrite <- IH.
  - done.
  - intros d c r _ _. unfold indented. cbn [nl]. rewrite sapp_assoc. by apply follow_sep.
Qed.

(** [json.MarshalIndent] of a value, without prefix and with two spaces. *)
Definition MarshalIndent (j : json) : string := render indented 0 j.

Lemma json_ind_nested (P : json → Prop) :
  P JNull → (∀ b, P (JBool b)) → (∀ l, P (JNum l)) → (∀ s, P (JStr s)) →
  (∀ l, Forall P l → P (JArr l)) → (∀ l, Forall (λ kv, P kv.2) l → P (JObj l)) → ∀ j, P j.
Proof.
  intros H1 H2 H3 H4 H5 H6. fix IH 1. intros [|b|n|t|l|l].
  - exact H1.
  - exact (H2 b).
  - exact (H3 n).
  - exact (H4 t).
  - apply H5. induction l as [|x l IHl]; constructor; [apply IH|exact IHl].
  - apply H6. induction l as [|x l IHl]; constructor; [apply IH|exact IHl].
Qed.

Lemma render_compact d j : render compact d j = print j.
Proof.
  revert d. induction j as [| | | |l Hl|l Hl] using json_ind_nested; intros d; [done..| |].
  - simpl. assert (List.map (render compact (S d)) l = List.map print l) as ->.
    { induction Hl as [|v l Hv Hl IH]; [done|]. simpl. by rewrite Hv, IH. }
    by destruct (List.map print l).
  - simpl. assert (List.map (λ kv, quote kv.1 +:+ ":" +:+ "" +:+ render compact (S d) kv.2) l =
      List.map (λ kv, quote kv.1 +:+ ":" +:+ print kv.2) l) as Hm.
    { induction Hl as [|v l Hv Hl IH]; [done|]. simpl. by rewrite Hv, IH. }
    change (gap compact) with "". rewrite Hm.
    by destruct (List.map (λ kv, quote kv.1 +:+ ":" +:+ print kv.2) l).
Qed.

Lemma parse_print_value k j : jok k j → (k ≤ max_depth)%N → parse (print j) = Some j.
Proof. intros. rewrite <- (render_compact 0). by eapply parse_render; [apply _|..]. Qed.

Lemma parse_prefix_print k j rest : shape k j → (k ≤ max_depth)%N → follow rest →
  parse_prefix (print j +:+ rest) = Some (coerced j, rest).
Proof. intros. rewrite <- (render_compact 0). by eapply parse_prefix_render; [apply _|..]. Qed.

Lemma parse_MarshalIndent k j : jok k j → (k ≤ max_depth)%N →
  parse (MarshalIndent j) = Some j.
Proof. intros. by eapply parse_render; [apply _|..]. Qed.

End JsonPrint.
