(* ===== verification/GoJsonRaw.v ===== *)
(** * encoding/json: raw values and re-indentation

    A [json.RawMessage] is the text of a value as it stood, and [json.Indent] moves the
    blanks of a text without touching anything else.  Both are about texts, so this file
    says which texts spell which value ([text]), that the parser accepts exactly those, and
    that indenting one gives another text of the same value. *)
From S2P Require Import Prelude GoJson GoStrings GoUtf8 GoJsonPrint.
From Stdlib Require Import Ascii.
Import GoStr GoJson UTF8 JsonPrint.

Module JsonRaw.

(** ** Raw values *)

(** [Decode] into a [RawMessage]: the text of the next value, and what follows it. *)
Definition raw_value (s : string) : option (string * string) :=
  '(_, r) ← parse_prefix s; Some (consumed (skip_ws s) r, r).

(** ** [json.Indent(dst, src, "", "  ")] *)

Inductive imode := Out | InStr | InEsc.

(** Where the scanner is, whether a bracket has just been opened, and the nesting. *)
Record istate := MkI { mode : imode; need : bool; depth : nat }.

Definition newline_at (d : nat) : string := nl indented d.

Definition istep (st : istate) (c : ascii) : string * istate :=
  match mode st with
  | InEsc => (str1 c, MkI InStr (need st) (depth st))
  | InStr =>
      (str1 c, MkI (if decide (c = "034"%char) then Out
                    else if decide (c = "\"%char) then InEsc else InStr) (need st) (depth st))
  | Out =>
      if is_ws c then ("", st)
      else
        let closing := bool_decide (c = "}"%char ∨ c = "]"%char) in
        let opened := need st && negb closing in
        let d := if opened then S (depth st) else depth st in
        let pre := if opened then newline_at d else "" in
        if decide (c = "034"%char) then (pre +:+ str1 c, MkI InStr false d)
        else if decide (c = "{"%char ∨ c = "["%char) then (pre +:+ str1 c, MkI Out true d)
        else if decide (c = ","%char) then (pre +:+ str1 c +:+ newline_at d, MkI Out false d)
        else if decide (c = ":"%char) then (pre +:+ str1 c +:+ " ", MkI Out false d)
        else if closing then
          if need st then (str1 c, MkI Out false d)
          else (newline_at (pred d) +:+ str1 c, MkI Out false (pred d))
        else (pre +:+ str1 c, MkI Out false d)
  end.

Fixpoint irun (st : istate) (s : string) : string * istate :=
  match s with
  | EmptyString => ("", st)
  | String c r =>
      let (o, st) := istep st c in
      let (o', st) := irun st r in (o +:+ o', st)
  end.

(** The blanks after the value, which [Indent] keeps, are not modelled: no caller has any. *)
Definition Indent (s : string) : option string :=
  match parse s with
  | None => None
  | Some _ => Some (irun (MkI Out false 0) s).1
  end.

Lemma irun_app st s t :
  irun st (s +:+ t) = let (o, st) := irun st s in let (o', st) := irun st t in (o +:+ o', st).
Proof.
  revert st. induction s as [|c s IH]; intros st; cbn [irun].
  { rewrite sapp_nil_l. cbn [irun]. by destruct (irun st t). }
  rewrite sapp_cons. cbn [irun]. destruct (istep st c) as [o st1]. rewrite IH.
  destruct (irun st1 s) as [o1 st2], (irun st2 t) as [o2 st3]. by rewrite sapp_assoc.
Qed.

(** ** Blanks *)

Fixpoint ws_str (s : string) : bool :=
  match s with EmptyString => true | String a r => is_ws a && ws_str r end.

Lemma ws_blank b : ws_str b = true → blank b.
Proof.
  intros Hb t. induction b as [|a b IH]; [done|]. simpl in Hb. apply andb_true_iff in Hb as [Ha Hb].
  rewrite sapp_cons. simpl. by rewrite Ha, IH.
Qed.

Lemma skip_ws_split s : ∃ b, s = b +:+ skip_ws s ∧ ws_str b = true.
Proof.
  induction s as [|a s (b & Hb & Hw)]; [by exists ""|]. simpl. destruct (is_ws a) eqn:Ha.
  - exists (String a b). simpl. rewrite Ha, sapp_cons. by rewrite <- Hb.
  - by exists "".
Qed.

Lemma ws_app a b : ws_str (a +:+ b) = ws_str a && ws_str b.
Proof. induction a as [|c a IH]; [done|]. rewrite sapp_cons. simpl. by rewrite IH, andb_assoc. Qed.

Lemma skip_ws_fix s : skip_ws (skip_ws s) = skip_ws s.
Proof. induction s as [|a s IH]; [done|]. simpl. destruct (is_ws a) eqn:Ha; [done|]. simpl. by rewrite Ha. Qed.

Lemma irun_ws n d b : ws_str b = true → irun (MkI Out n d) b = ("", MkI Out n d).
Proof.
  induction b as [|a b IH]; [done|]. simpl. intros [Ha Hb]%andb_true_iff.
  unfold istep. cbn [mode]. by rewrite Ha, IH.
Qed.

(** ** Numbers *)

Definition frac_of (s : string) : option (string * string) :=
  match s with
  | String "." s' => let (d, r) := digits s' in if decide (d = "") then None else Some ("." +:+ d, r)
  | _ => Some ("", s)
  end.

Definition sign_of (s : string) : string * string :=
  match s with String (("+" | "-") as g) r => (String g "", r) | _ => ("", s) end.

Definition exp_of (s : string) : option (string * string) :=
  match s with
  | String (("e" | "E") as e) s' =>
      let (sg, s') := sign_of s' in
      let (d, r) := digits s' in if decide (d = "") then None else Some (String e (sg +:+ d), r)
  | _ => Some ("", s)
  end.

Lemma lex_number_eq s : lex_number s =
  let (sg, s) := cut_minus s in
  let (i, s) := int_part s in
  if decide (i = "") then None
  else '(f, s) ← frac_of s; '(e, s) ← exp_of s; Some (sg +:+ i +:+ f +:+ e, s).
Proof. reflexivity. Qed.

(** The first byte of a text is none of these. *)
Definition head_not (P : ascii → bool) (s : string) : Prop :=
  match s with EmptyString => True | String a _ => P a = false end.

Definition num_char (a : ascii) : bool := is_digit a || bool_decide (a ∈ ["."; "e"; "E"]%char).

Definition ends_num : string → Prop := head_not num_char.

Lemma digits_split s : let (d, r) := digits s in s = d +:+ r ∧ all_digits d = true.
Proof.
  induction s as [|a s IH]; [done|]. simpl. destruct (is_digit a) eqn:Ha; [|done].
  destruct (digits s) as [d r]. destruct IH as [-> Hd]. simpl. by rewrite Ha.
Qed.

Lemma digits_stop d rest : all_digits d = true → head_not is_digit rest → digits (d +:+ rest) = (d, rest).
Proof.
  intros Hd Hr. induction d as [|a d IH].
  - rewrite sapp_nil_l. destruct rest as [|b rest]; [done|]. simpl in *. by rewrite Hr.
  - simpl in Hd. apply andb_true_iff in Hd as [Ha Hd]. rewrite sapp_cons. simpl. by rewrite Ha, IH.
Qed.

Lemma frac_other s : head_not (λ a, bool_decide (a = "."%char)) s → frac_of s = Some ("", s).
Proof.
  destruct s as [|a s]; [done|]. simpl. intros H%bool_decide_eq_false.
  by destruct a as [[] [] [] [] [] [] [] []].
Qed.

Lemma exp_other s : head_not (λ a, bool_decide (a = "e"%char ∨ a = "E"%char)) s → exp_of s = Some ("", s).
Proof.
  destruct s as [|a s]; [done|]. simpl. intros H%bool_decide_eq_false.
  destruct a as [[] [] [] [] [] [] [] []]; try done; exfalso; apply H; auto.
Qed.

Lemma frac_split s f r : frac_of s = Some (f, r) → s = f +:+ r ∧
  (f = "" ∨ ∃ d, f = "." +:+ d ∧ all_digits d = true ∧ d ≠ "").
Proof.
  destruct s as [|a s]; [by intros [= <- <-]; auto|].
  destruct (decide (a = "."%char)) as [->|Hne].
  - simpl. pose proof (digits_split s) as Hs. destruct (digits s) as [d r']. destruct Hs as [-> Hd].
    case_decide; [done|]. intros [= <- <-]. split; [done|right; by exists d].
  - rewrite frac_other by by apply bool_decide_eq_false. intros [= <- <-]. auto.
Qed.

Lemma sign_split s : let (sg, r) := sign_of s in s = sg +:+ r ∧ (sg = "" ∨ sg = "+" ∨ sg = "-").
Proof. destruct s as [|a s]; [simpl; auto|]. destruct a as [[] [] [] [] [] [] [] []]; simpl; auto. Qed.

Lemma exp_split s e r : exp_of s = Some (e, r) → s = e +:+ r ∧
  (e = "" ∨ ∃ c sg d, e = String c (sg +:+ d) ∧ (c = "e"%char ∨ c = "E"%char) ∧
    (sg = "" ∨ sg = "+" ∨ sg = "-") ∧ all_digits d = true ∧ d ≠ "").
Proof.
  destruct s as [|a s]; [by intros [= <- <-]; auto|].
  destruct (decide (a = "e"%char ∨ a = "E"%char)) as [Ha|Hne].
  - assert (exp_of (String a s) = let (sg, s') := sign_of s in let (d, r) := digits s' in
      if decide (d = "") then None else Some (String a (sg +:+ d), r)) as -> by by destruct Ha as [-> | ->].
    pose proof (sign_split s) as Hs. destruct (sign_of s) as [sg s']. destruct Hs as [-> Hsg].
    pose proof (digits_split s') as Hs. destruct (digits s') as [d r']. destruct Hs as [-> Hd].
    case_decide; [done|]. intros [= <- <-]. split; [by rewrite !sapp_assoc || by rewrite sapp_cons, sapp_assoc|].
    right. by exists a, sg, d.
  - rewrite exp_other by by apply bool_decide_eq_false. intros [= <- <-]. auto.
Qed.

Lemma sign_digit a r : is_digit a = true → sign_of (String a r) = ("", String a r).
Proof. by destruct a as [[] [] [] [] [] [] [] []]. Qed.

Lemma ends_exp e rest : ends_num rest → (e = "" ∨ ∃ c sg d, e = String c (sg +:+ d) ∧
    (c = "e"%char ∨ c = "E"%char) ∧ (sg = "" ∨ sg = "+" ∨ sg = "-") ∧ all_digits d = true ∧ d ≠ "") →
  exp_of (e +:+ rest) = Some (e, rest) ∧ head_not is_digit (e +:+ rest) ∧
  head_not (λ a, bool_decide (a = "."%char)) (e +:+ rest).
Proof.
  intros Hr He. assert (head_not is_digit rest ∧ head_not (λ a, bool_decide (a = "."%char)) rest ∧
    head_not (λ a, bool_decide (a = "e"%char ∨ a = "E"%char)) rest) as (H1 & H2 & H3).
  { destruct rest as [|a rest]; [done|]. simpl in *. unfold num_char in Hr.
    apply orb_false_iff in Hr as [Hd Hn%bool_decide_eq_false]. split_and!; [done|..];
      apply bool_decide_eq_false; set_solver. }
  destruct He as [->|(c & sg & d & -> & Hc & Hsg & Hd & Hne)].
  - rewrite sapp_nil_l. by rewrite exp_other.
  - rewrite sapp_cons, sapp_assoc. split; [|by destruct Hc as [-> | ->]].
    assert (exp_of (String c (sg +:+ d +:+ rest)) = let (sg, s') := sign_of (sg +:+ d +:+ rest) in
      let (d, r) := digits s' in if decide (d = "") then None else Some (String c (sg +:+ d), r))
      as -> by by destruct Hc as [-> | ->].
    assert (sign_of (sg +:+ d +:+ rest) = (sg, d +:+ rest)) as ->.
    { destruct Hsg as [->|[-> | ->]]; [|done..]. rewrite sapp_nil_l. destruct d as [|a d]; [done|].
      simpl in Hd. apply andb_true_iff in Hd as [Ha _]. rewrite sapp_cons. by apply sign_digit. }
    rewrite digits_stop by done. by rewrite decide_False.
Qed.

(** The literals of numbers, as texts. *)
Definition plain (a : ascii) : bool :=
  negb (is_ws a) && negb (bool_decide (a ∈ ["034"; "{"; "}"; "["; "]"; ","; ":"]%char)).

Fixpoint all_plain (s : string) : bool :=
  match s with EmptyString => true | String a r => plain a && all_plain r end.

Definition num_text (l : string) : Prop :=
  (∃ a r, l = String a r ∧ (a = "-"%char ∨ is_digit a = true)) ∧ all_plain l = true ∧
  ∀ rest, ends_num rest → lex_number (l +:+ rest) = Some (l, rest).

Lemma plain_app a b : all_plain (a +:+ b) = all_plain a && all_plain b.
Proof. induction a as [|c a IH]; [done|]. rewrite sapp_cons. simpl. by rewrite IH, andb_assoc. Qed.

Lemma plain_digits d : all_digits d = true → all_plain d = true.
Proof.
  induction d as [|a d IH]; [done|]. simpl. intros [Ha Hd]%andb_true_iff. rewrite IH, andb_true_r by done.
  by destruct a as [[] [] [] [] [] [] [] []].
Qed.

Lemma cut_split s : let (sg, r) := cut_minus s in s = sg +:+ r ∧ (sg = "" ∨ sg = "-").
Proof. destruct s as [|a s]; [simpl; auto|]. destruct a as [[] [] [] [] [] [] [] []]; simpl; auto. Qed.

Lemma int_split s : let (i, r) := int_part s in s = i +:+ r ∧ all_digits i = true ∧
  ∀ rest, i ≠ "" → head_not is_digit rest → int_part (i +:+ rest) = (i, rest).
Proof.
  destruct s as [|a s]; [done|]. destruct (decide (a = "0"%char)) as [->|Hne]; [done|].
  assert (∀ t, int_part (String a t) = digits (String a t)) as Hi
    by (intros t; by destruct a as [[] [] [] [] [] [] [] []]).
  rewrite Hi. pose proof (digits_split (String a s)) as Hs. destruct (digits (String a s)) as [d r] eqn:Hd.
  destruct Hs as [Heq Hall]. split; [done|]. split; [done|]. intros rest Hdne Hr.
  destruct d as [|b d]; [done|]. rewrite sapp_cons in Heq. injection Heq as <- _.
  rewrite sapp_cons, Hi, <- sapp_cons. by apply digits_stop.
Qed.

Lemma lex_number_text s l r : lex_number s = Some (l, r) → s = l +:+ r ∧ num_text l.
Proof.
  rewrite lex_number_eq. pose proof (cut_split s) as Hs. destruct (cut_minus s) as [sg s1].
  destruct Hs as [-> Hsg]. pose proof (int_split s1) as Hs. destruct (int_part s1) as [i s2].
  destruct Hs as (-> & Hi & Hint). case_decide as Hne; [done|].
  destruct (frac_of s2) as [[f s3]|] eqn:Hf; [|done]. cbn [mbind option_bind].
  destruct (exp_of s3) as [[e s4]|] eqn:He; [|done]. cbn [mbind option_bind]. intros [= <- <-].
  apply frac_split in Hf as [-> Hf]. apply exp_split in He as [-> He].
  split; [by rewrite !sapp_assoc|]. destruct i as [|a i]; [done|]. split; [|split].
  - destruct Hsg as [-> | ->].
    + exists a, (i +:+ f +:+ e). split; [done|]. right. simpl in Hi. by apply andb_true_iff in Hi as [? _].
    + eexists "-"%char, _. split; [done|]. by left.
  - rewrite !plain_app, (plain_digits _ Hi). destruct Hsg as [-> | ->];
      (destruct Hf as [->|(d & -> & Hd & _)]; [|rewrite plain_app, (plain_digits _ Hd)]);
      (destruct He as [->|(c & sg' & d' & -> & Hc & Hsg' & Hd' & _)];
       [|change (all_plain (String c (sg' +:+ d'))) with (plain c && all_plain (sg' +:+ d'));
         rewrite plain_app, (plain_digits _ Hd'); destruct Hc as [-> | ->], Hsg' as [->|[-> | ->]]]); done.
  - intros rest Hr. destruct (ends_exp e rest Hr He) as (Hx & H1 & H2).
    rewrite lex_number_eq, !sapp_assoc.
    assert (cut_minus (sg +:+ String a i +:+ f +:+ e +:+ rest) = (sg, String a i +:+ f +:+ e +:+ rest)) as ->.
    { destruct Hsg as [-> | ->]; [|done]. rewrite sapp_nil_l, sapp_cons. apply cut_minus_digit.
      simpl in Hi. by apply andb_true_iff in Hi as [? _]. }
    assert (frac_of (f +:+ e +:+ rest) = Some (f, e +:+ rest) ∧ head_not is_digit (f +:+ e +:+ rest)) as [Hfr Hh].
    { destruct Hf as [->|(d & -> & Hd & Hdne)]; [rewrite sapp_nil_l; by rewrite frac_other|].
      rewrite sapp_assoc. split; [|done].
      change (frac_of ("." +:+ d +:+ e +:+ rest)) with (let (d, r) := digits (d +:+ e +:+ rest) in
        if decide (d = "") then None else Some ("." +:+ d, r)).
      rewrite digits_stop by done. by rewrite decide_False. }
    rewrite Hint by done. rewrite decide_False by done. rewrite Hfr. cbn [mbind option_bind].
    rewrite Hx. cbn [mbind option_bind]. done.
Qed.

(** ** Strings *)

Fixpoint all_high (s : string) : bool :=
  match s with EmptyString => true | String a r => (128 <=? bval a)%Z && all_high r end.

(** The bytes of a sequence after its first one. *)
Lemma encode_tail u a t : utf8_encode u = String a t → all_high t = true.
Proof.
  unfold utf8_encode. generalize (if in_range 0 1114111 u && negb (in_range 55296 57343 u) then u else RuneError).
  intros v. cbv zeta.
  assert (∀ n, (128 <=? bval (chr (128 + Z.land n 63)))%Z = true) as Hc.
  { intros n. rewrite (land_low n 6 63) by done. rewrite bval_chr; [apply Z.leb_le|];
      pose proof (Z.mod_pos_bound n 64 ltac:(done)); change (2 ^ 6)%Z with 64%Z; lia. }
  repeat case_match; intros [= <- <-]; cbn [all_high]; by rewrite ?Hc.
Qed.

(** Bytes that neither end a literal nor escape. *)
Fixpoint calm (s : string) : bool :=
  match s with
  | EmptyString => true
  | String a r => negb (bool_decide (a = "034"%char ∨ a = "\"%char)) && calm r
  end.

Lemma high_calm t : all_high t = true → calm t = true.
Proof.
  induction t as [|a t IH]; [done|]. simpl. intros [Ha Ht]%andb_true_iff. rewrite IH, andb_true_r by done.
  apply negb_true_iff, bool_decide_eq_false. intros [-> | ->]; by vm_compute in Ha.
Qed.

(** What is before the end of a literal. *)
Lemma calm_prefix t x y z : calm t = true → x +:+ dq +:+ y = t +:+ z → ∃ x', x = t +:+ x' ∧ z = x' +:+ dq +:+ y.
Proof.
  revert x. induction t as [|a t IH]; intros x Ht Heq; [by exists x|].
  simpl in Ht. apply andb_true_iff in Ht as [Ha Ht].
  destruct x as [|b x]; [injection Heq as <- _; done|].
  rewrite !sapp_cons in Heq. injection Heq as -> Heq. destruct (IH x Ht Heq) as (x' & -> & ->).
  exists x'. by rewrite sapp_cons.
Qed.

(** Decoding inside a literal does not look behind its end. *)
Lemma decode_inside a x y u r y' : (128 ≤ bval a)%Z → utf8_decode a (x +:+ dq +:+ y) = (u, r) →
  ∃ x', r = x' +:+ dq +:+ y ∧ utf8_decode a (x +:+ dq +:+ y') = (u, x' +:+ dq +:+ y').
Proof.
  intros Ha Hd. destruct (decode_cases _ _ _ _ Hd Ha) as [[-> ->]|(t & Heq & Hne & Henc & Hall)].
  - exists x. split; [done|].
    destruct (utf8_decode a (x +:+ dq +:+ y')) as [u' r'] eqn:Hd'.
    destruct (decode_cases _ _ _ _ Hd' Ha) as [[-> ->]|(t & Heq & Hne & Henc & Hall)]; [done|exfalso].
    destruct (calm_prefix t x y' r' (high_calm _ (encode_tail _ _ _ Henc)) Heq) as (x' & -> & ->).
    rewrite sapp_assoc, Hall in Hd. injection Hd as _ Hd. apply (f_equal String.length) in Hd.
    rewrite !length_sapp in Hd. destruct t; [done|]. simpl in Hd. lia.
  - destruct (calm_prefix t x y r (high_calm _ (encode_tail _ _ _ Henc)) Heq) as (x' & -> & ->).
    exists x'. split; [done|]. rewrite sapp_assoc. by rewrite Hall.
Qed.

(** *** Encoded runes are text *)

Definition encodes (v : Z) : Prop := ∃ a b, well_formed a v b ∧ (128 ≤ bval a)%Z.

Lemma encodes_two v : (128 ≤ v < 2048)%Z → encodes v.
Proof.
  intros Hv. set (a := chr (192 + v / 64)). set (b := chr (128 + v mod 64)).
  assert (bval a = 192 + v / 64)%Z as Ea by (apply bval_chr; euclid).
  assert (bval b = 128 + v mod 64)%Z as Eb by (apply bval_chr; euclid).
  assert (bval a mod 32 * 64 + bval b mod 64 = v)%Z as E by (rewrite Ea, Eb; euclid).
  exists a, (String b ""). split; [|euclid]. rewrite <- E. apply decode_two; apply in_range_spec; euclid.
Qed.

Lemma encodes_three v : (2048 ≤ v < 65536)%Z → ¬ (55296 ≤ v ≤ 57343)%Z → encodes v.
Proof.
  intros Hv Hs. set (a := chr (224 + v / 4096)). set (b := chr (128 + v / 64 mod 64)).
  set (c := chr (128 + v mod 64)).
  assert (bval a = 224 + v / 4096)%Z as Ea by (apply bval_chr; euclid).
  assert (bval b = 128 + v / 64 mod 64)%Z as Eb by (apply bval_chr; euclid).
  assert (bval c = 128 + v mod 64)%Z as Ec by (apply bval_chr; euclid).
  assert (bval a mod 16 * 4096 + bval b mod 64 * 64 + bval c mod 64 = v)%Z as E
    by (rewrite Ea, Eb, Ec; euclid).
  exists a, (String b (String c "")). split; [|euclid]. rewrite <- E.
  apply decode_three; apply in_range_spec; [euclid| |euclid].
  destruct (Z.eqb_spec (bval a) 224), (Z.eqb_spec (bval a) 237); euclid.
Qed.

Lemma encodes_four v : (65536 ≤ v < 1114112)%Z → encodes v.
Proof.
  intros Hv. set (a := chr (240 + v / 262144)). set (b := chr (128 + v / 4096 mod 64)).
  set (c := chr (128 + v / 64 mod 64)). set (d := chr (128 + v mod 64)).
  assert (bval a = 240 + v / 262144)%Z as Ea by (apply bval_chr; euclid).
  assert (bval b = 128 + v / 4096 mod 64)%Z as Eb by (apply bval_chr; euclid).
  assert (bval c = 128 + v / 64 mod 64)%Z as Ec by (apply bval_chr; euclid).
  assert (bval d = 128 + v mod 64)%Z as Ed by (apply bval_chr; euclid).
  assert (bval a mod 8 * 262144 + bval b mod 64 * 4096 + bval c mod 64 * 64 + bval d mod 64 = v)%Z as E
    by (rewrite Ea, Eb, Ec, Ed; euclid).
  exists a, (String b (String c (String d ""))). split; [|euclid]. rewrite <- E.
  apply decode_four; apply in_range_spec; [euclid| |euclid|euclid].
  destruct (Z.eqb_spec (bval a) 240), (Z.eqb_spec (bval a) 244); euclid.
Qed.

Lemma coerce_rune_text v t : (0 ≤ v ≤ 1114111)%Z → ¬ (55296 ≤ v ≤ 57343)%Z →
  coerce (utf8_encode v +:+ t) = utf8_encode v +:+ coerce t.
Proof.
  intros Hv Hs. destruct (Z.ltb_spec v 128) as [Hlt|Hge].
  - assert (utf8_encode v = String (chr v) "") as ->.
    { unfold utf8_encode, in_range. destruct (Z.leb_spec 0 v), (Z.leb_spec v 1114111), (Z.leb_spec 55296 v);
        try lia. simpl. by destruct (Z.ltb_spec v 128); [|lia]. }
    rewrite !sapp_cons, !sapp_nil_l. apply coerce_ascii. by rewrite bval_chr by lia.
  - assert (encodes v) as (a & b & (_ & Henc & Hall) & Ha).
    { destruct (Z.ltb_spec v 2048); [by apply encodes_two|].
      destruct (Z.ltb_spec v 65536); [by apply encodes_three|apply encodes_four; lia]. }
    rewrite Henc at 1. rewrite sapp_cons. by apply coerce_rune.
Qed.

Lemma coerce_encode u t : coerce (utf8_encode u +:+ t) = utf8_encode u +:+ coerce t.
Proof.
  destruct (in_range 0 1114111 u && negb (in_range 55296 57343 u)) eqn:Hu.
  - apply andb_true_iff in Hu as [H1%in_range_spec H2%negb_true_iff]. apply coerce_rune_text; [done|].
    intros H3. by rewrite (proj2 (in_range_spec 55296 57343 u) H3) in H2.
  - assert (utf8_encode u = utf8_encode RuneError) as -> by (unfold utf8_encode; by rewrite Hu).
    apply coerce_rune_text; [done|by intros [? ?]].
Qed.

Lemma sapp_cancel x y r : x +:+ r = y +:+ r → x = y.
Proof. intros H. by rewrite <- (consumed_app x r), H, consumed_app. Qed.

(** *** Literals *)

(** The scanner's view of a body: [None] when the literal ends inside it. *)
Fixpoint escape_after (esc : bool) (s : string) : option bool :=
  match s with
  | EmptyString => Some esc
  | String c r =>
      if esc then escape_after false r
      else if decide (c = "034"%char) then None
      else escape_after (bool_decide (c = "\"%char)) r
  end.

(** [b] spells [t] between two quotes. *)
Record str_body (b t : string) : Prop := {
  body_lex fuel rest : String.length b < fuel → lex_string fuel (b +:+ dq +:+ rest) = Some (t, rest);
  body_esc : escape_after false b = Some false;
}.

Lemma lex_u fuel r : lex_string (S fuel) (String "\" (String "u" r)) =
  '(u, r) ← lex_u4 r;
  let single u r := '(t, r) ← lex_string fuel r; Some (utf8_encode u +:+ t, r) in
  if in_range 55296 57343 u then
    match r with
    | String "\" (String "u" r') =>
        '(u', r') ← lex_u4 r';
        match surrogate_pair u u' with
        | Some v => single v r'
        | None => single RuneError r
        end
    | _ => single RuneError r
    end
  else single u r.
Proof. reflexivity. Qed.

Lemma lex_escape fuel e r : e ≠ "u"%char → lex_string (S fuel) (String "\" (String e r)) =
  (c ← simple_escape e; '(t, r) ← lex_string fuel r; Some (c +:+ t, r)).
Proof. intros He. destruct e as [[] [] [] [] [] [] [] []]; try reflexivity. done. Qed.

Lemma lex_char fuel a r : a ≠ "034"%char → a ≠ "\"%char → lex_string (S fuel) (String a r) =
  if (bval a <? 32)%Z then None
  else let (u, r) := utf8_decode a r in '(t, r) ← lex_string fuel r; Some (utf8_encode u +:+ t, r).
Proof. intros H1 H2. destruct a as [[] [] [] [] [] [] [] []]; try reflexivity; done. Qed.

Lemma escape_calm x b : calm x = true → escape_after false (x +:+ b) = escape_after false b.
Proof.
  induction x as [|a x IH]; [done|]. simpl. intros [Ha%negb_true_iff%bool_decide_eq_false Hx]%andb_true_iff.
  rewrite decide_False by tauto. rewrite bool_decide_false by tauto. by apply IH.
Qed.

Lemma hex_calm a v : hex_val a = Some v → negb (bool_decide (a = "034"%char ∨ a = "\"%char)) = true.
Proof. by destruct a as [[] [] [] [] [] [] [] []]. Qed.

Lemma lex_u4_split s u r : lex_u4 s = Some (u, r) →
  ∃ x, s = x +:+ r ∧ calm x = true ∧ ∀ r', lex_u4 (x +:+ r') = Some (u, r').
Proof.
  destruct s as [|a [|b [|c [|d s]]]]; try done. cbn [lex_u4].
  destruct (hex_val a) as [va|] eqn:Ha; [|done]. destruct (hex_val b) as [vb|] eqn:Hb; [|done].
  destruct (hex_val c) as [vc|] eqn:Hc; [|done]. destruct (hex_val d) as [vd|] eqn:Hd; [|done].
  cbn [mbind option_bind]. intros [= <- <-]. exists (String a (String b (String c (String d "")))).
  split; [done|]. split.
  - cbn [calm]. by rewrite (hex_calm _ _ Ha), (hex_calm _ _ Hb), (hex_calm _ _ Hc), (hex_calm _ _ Hd).
  - intros r'. rewrite !sapp_cons, sapp_nil_l. cbn [lex_u4]. by rewrite Ha, Hb, Hc, Hd.
Qed.

Lemma str_body_calm x b t c : calm x = true → str_body b t →
  (∀ fuel rest, String.length (x +:+ b) < S fuel →
     lex_string (S fuel) (x +:+ b +:+ dq +:+ rest) = ('(t, r) ← lex_string fuel (b +:+ dq +:+ rest); Some (c +:+ t, r))) →
  x ≠ "" → str_body (x +:+ b) (c +:+ t).
Proof.
  intros Hx [Hb He] Hlex Hne. split; [|by rewrite escape_calm].
  intros fuel rest Hf. destruct fuel as [|fuel]; [lia|]. rewrite sapp_assoc, Hlex by done.
  rewrite length_sapp in Hf. destruct x; [done|]. simpl in Hf. by rewrite Hb by lia.
Qed.

(** A [\u] escape: what the decoder does with its value depends on what is next. *)
Lemma str_body_u x u c b t : calm x = true → str_body b t →
  (∀ fuel rest, lex_string (S fuel) (String "\" (String "u" (x +:+ b +:+ dq +:+ rest))) =
     ('(t, r) ← lex_string fuel (b +:+ dq +:+ rest); Some (utf8_encode u +:+ t, r))) →
  c = utf8_encode u → str_body (String "\" (String "u" (x +:+ b))) (c +:+ t).
Proof.
  intros Hx [Hb He] Hlex ->. split.
  - intros fuel rest Hf. destruct fuel as [|fuel]; [lia|]. rewrite !sapp_cons, sapp_assoc, Hlex.
    simpl in Hf. rewrite length_sapp in Hf. by rewrite Hb by lia.
  - change (escape_after false (String "\" (String "u" (x +:+ b)))) with (escape_after false (x +:+ b)).
    by rewrite escape_calm.
Qed.

Lemma escape_plain e c : simple_escape e = Some c → utf8_str c = true ∧ ∀ t, coerce (c +:+ t) = c +:+ coerce t.
Proof.
  assert (∀ a t, (bval a < 128)%Z → coerce (str1 a +:+ t) = str1 a +:+ coerce t) as Hc
    by (intros; by apply coerce_ascii).
  destruct e as [[] [] [] [] [] [] [] []]; intros [= <-]; (split; [done|intros; by apply Hc]).
Qed.

Lemma str_body_nil : str_body "" "".
Proof. split; [|done]. intros [|fuel] rest Hf; [simpl in Hf; lia|]. done. Qed.

Lemma str_body_escape e c b t : e ≠ "u"%char → simple_escape e = Some c → str_body b t →
  str_body (String "\" (String e b)) (c +:+ t).
Proof.
  intros He Hc [Hb Hq]. split; [|done]. intros fuel rest Hf. destruct fuel as [|fuel]; [lia|].
  rewrite !sapp_cons, lex_escape, Hc by done. cbn [mbind option_bind]. simpl in Hf. by rewrite Hb by lia.
Qed.

Lemma str_body_char a x u b t : a ≠ "034"%char → a ≠ "\"%char → (bval a <? 32)%Z = false → calm x = true →
  (∀ rest, utf8_decode a (x +:+ b +:+ dq +:+ rest) = (u, b +:+ dq +:+ rest)) →
  str_body b t → str_body (String a (x +:+ b)) (utf8_encode u +:+ t).
Proof.
  intros H1 H2 H3 Hx Hd [Hb He]. split.
  - intros fuel rest Hf. destruct fuel as [|fuel]; [lia|].
    rewrite sapp_cons, sapp_assoc, lex_char, H3, Hd by done. simpl in Hf. rewrite length_sapp in Hf.
    by rewrite Hb by lia.
  - cbn [escape_after]. rewrite decide_False by done. rewrite bool_decide_false by done.
    by rewrite escape_calm.
Qed.

Definition literal (s t r : string) : Prop := ∃ b, s = b +:+ dq +:+ r ∧ str_body b t ∧ coerce t = t.

Lemma literal_char fuel a s t r :
  (∀ s t r, lex_string fuel s = Some (t, r) → literal s t r) → a ≠ "034"%char → a ≠ "\"%char →
  lex_string (S fuel) (String a s) = Some (t, r) → literal (String a s) t r.
Proof.
  intros IH H1 H2. rewrite lex_char by done. destruct (bval a <? 32)%Z eqn:H3; [done|].
  destruct (utf8_decode a s) as [u s'] eqn:Hd. destruct (lex_string fuel s') as [[t' r']|] eqn:Hs; [|done].
  cbn [mbind option_bind]. intros [= <- <-]. destruct (IH _ _ _ Hs) as (b & -> & Hb & Ht).
  assert (∃ x, s = x +:+ b +:+ dq +:+ r' ∧ calm x = true ∧
    ∀ rest, utf8_decode a (x +:+ b +:+ dq +:+ rest) = (u, b +:+ dq +:+ rest)) as (x & -> & Hx & Hall).
  { destruct (Z.ltb_spec (bval a) 128) as [Hlt|Hge].
    - assert (∀ y, utf8_decode a y = (bval a, y)) as Hy.
      { intros y. unfold utf8_decode. by destruct (Z.ltb_spec (bval a) 128); [|lia]. }
      rewrite Hy in Hd. injection Hd as <- ->. exists "". rewrite sapp_nil_l. split_and!; [done..|].
      intros rest. rewrite sapp_nil_l. apply Hy.
    - destruct (decode_cases _ _ _ _ Hd Hge) as [[-> <-]|(x & -> & Hne & Henc & Hall)].
      + exists "". rewrite sapp_nil_l. split_and!; [done..|]. intros rest. rewrite sapp_nil_l.
        destruct (decode_inside a b r' _ _ rest Hge Hd) as (x' & Heq & Hd').
        by apply sapp_cancel in Heq as <-.
      + exists x. split; [done|]. split; [by eapply high_calm, encode_tail|].
        intros rest. apply Hall. }
  exists (String a (x +:+ b)). split; [by rewrite sapp_cons, sapp_assoc|]. split; [by apply str_body_char|].
  by rewrite coerce_encode, Ht.
Qed.

(** The rest of a text that starts with another [\u]. *)
Definition starts_u (s : string) : option string :=
  match s with String "\" (String "u" r) => Some r | _ => None end.

Lemma lex_u_starts fuel r : lex_string (S fuel) (String "\" (String "u" r)) =
  '(u, r) ← lex_u4 r;
  let single u r := '(t, r) ← lex_string fuel r; Some (utf8_encode u +:+ t, r) in
  if in_range 55296 57343 u then
    match starts_u r with
    | Some r' =>
        '(u', r') ← lex_u4 r';
        match surrogate_pair u u' with
        | Some v => single v r'
        | None => single RuneError r
        end
    | None => single RuneError r
    end
  else single u r.
Proof.
  rewrite lex_u. destruct (lex_u4 r) as [[u r']|]; [|done]. cbn [mbind option_bind].
  destruct (in_range 55296 57343 u); [|done]. destruct r' as [|a r']; [done|].
  destruct (decide (a = "\"%char)) as [->|Ha].
  - destruct r' as [|b r']; [done|]. by destruct b as [[] [] [] [] [] [] [] []].
  - by destruct a as [[] [] [] [] [] [] [] []].
Qed.

Lemma starts_u_inside b r : 
  match starts_u (b +:+ dq +:+ r) with
  | Some s => ∃ b', b = String "\" (String "u" b') ∧ s = b' +:+ dq +:+ r
  | None => ∀ rest, starts_u (b +:+ dq +:+ rest) = None
  end.
Proof.
  destruct b as [|a b]; [done|]. destruct (decide (a = "\"%char)) as [->|Ha].
  - destruct b as [|c b]; [done|]. destruct (decide (c = "u"%char)) as [->|Hc]; [by exists b|].
    by destruct c as [[] [] [] [] [] [] [] []].
  - by destruct a as [[] [] [] [] [] [] [] []].
Qed.

(** A pair of [\u] escapes. *)
Lemma str_body_pair x x' u u' v b t : calm x = true → calm x' = true →
  (∀ r, lex_u4 (x +:+ r) = Some (u, r)) → (∀ r, lex_u4 (x' +:+ r) = Some (u', r)) →
  in_range 55296 57343 u = true → surrogate_pair u u' = Some v → str_body b t →
  str_body (String "\" (String "u" (x +:+ String "\" (String "u" (x' +:+ b))))) (utf8_encode v +:+ t).
Proof.
  intros Hx Hx' Hu Hu' Hr Hp [Hb He]. split.
  - intros fuel rest Hf. destruct fuel as [|fuel]; [lia|].
    rewrite !sapp_cons, sapp_assoc, !sapp_cons, sapp_assoc, lex_u_starts, Hu. cbn [mbind option_bind].
    rewrite Hr. cbn [starts_u]. rewrite Hu'. cbn [mbind option_bind]. rewrite Hp.
    simpl in Hf. rewrite length_sapp in Hf. simpl in Hf. rewrite length_sapp in Hf. by rewrite Hb by lia.
  - change (escape_after false (x +:+ String "\" (String "u" (x' +:+ b))) = Some false).
    rewrite escape_calm by done. change (escape_after false (x' +:+ b) = Some false). by rewrite escape_calm.
Qed.

Lemma literal_u fuel s t r : (∀ s t r, lex_string fuel s = Some (t, r) → literal s t r) →
  lex_string (S fuel) (String "\" (String "u" s)) = Some (t, r) → literal (String "\" (String "u" s)) t r.
Proof.
  intros IH. rewrite lex_u_starts. destruct (lex_u4 s) as [[u s1]|] eqn:Hu4; [|done]. cbn [mbind option_bind].
  destruct (lex_u4_split _ _ _ Hu4) as (x & -> & Hx & Hall).
  assert (∀ c, ('(t, r) ← lex_string fuel s1; Some (utf8_encode c +:+ t, r)) = Some (t, r) →
    (∀ fuel b rest, s1 = b +:+ dq +:+ r →
       lex_string (S fuel) (String "\" (String "u" (x +:+ b +:+ dq +:+ rest))) =
       ('(t, r) ← lex_string fuel (b +:+ dq +:+ rest); Some (utf8_encode c +:+ t, r))) →
    literal (String "\" (String "u" (x +:+ s1))) t r) as Hsingle.
  { intros c Hs Hlex. destruct (lex_string fuel s1) as [[t' r']|] eqn:Hs1; [|done].
    injection Hs as <- <-. destruct (IH _ _ _ Hs1) as (b & -> & Hb & Ht).
    exists (String "\" (String "u" (x +:+ b))). split; [by rewrite !sapp_cons, sapp_assoc|].
    split; [|by rewrite coerce_encode, Ht]. eapply (str_body_u _ c); [done..| |done]. intros. by apply Hlex. }
  cbv zeta. destruct (in_range 55296 57343 u) eqn:Hsur.
  2: { intros Hs. apply (Hsingle u Hs). intros fuel' b rest ->. rewrite lex_u_starts, Hall.
       cbn [mbind option_bind]. by rewrite Hsur. }
  destruct (starts_u s1) as [s2|] eqn:Hst.
  2: { intros Hs. apply (Hsingle RuneError Hs). intros fuel' b rest ->. rewrite lex_u_starts, Hall.
       cbn [mbind option_bind]. rewrite Hsur. pose proof (starts_u_inside b r) as Hi. rewrite Hst in Hi.
       by rewrite Hi. }
  destruct (lex_u4 s2) as [[u' s3]|] eqn:Hu4'; [|done]. cbn [mbind option_bind].
  destruct (lex_u4_split _ _ _ Hu4') as (x' & -> & Hx' & Hall').
  destruct (surrogate_pair u u') as [v|] eqn:Hp.
  - intros Hs. destruct (lex_string fuel s3) as [[t' r']|] eqn:Hs3; [|done]. injection Hs as <- <-.
    destruct (IH _ _ _ Hs3) as (b & -> & Hb & Ht).
    assert (s1 = String "\" (String "u" (x' +:+ b +:+ dq +:+ r'))) as ->.
    { destruct s1 as [|c1 [|c2 s1]]; [done|by destruct c1 as [[] [] [] [] [] [] [] []]|].
      destruct (decide (c1 = "\"%char)) as [->|H1]; [|by destruct c1 as [[] [] [] [] [] [] [] []]].
      destruct (decide (c2 = "u"%char)) as [->|H2]; [|by destruct c2 as [[] [] [] [] [] [] [] []]].
      by injection Hst as ->. }
    exists (String "\" (String "u" (x +:+ String "\" (String "u" (x' +:+ b))))).
    split; [by rewrite !sapp_cons, sapp_assoc, !sapp_cons, sapp_assoc|].
    split; [by eapply str_body_pair|by rewrite coerce_encode, Ht].
  - intros Hs. apply (Hsingle RuneError Hs). intros fuel' b rest ->. rewrite lex_u_starts, Hall.
    cbn [mbind option_bind]. rewrite Hsur. pose proof (starts_u_inside b r) as Hi. rewrite Hst in Hi.
    destruct Hi as (b2 & -> & Heq). rewrite !sapp_cons. cbn [starts_u].
    destruct (calm_prefix x' b2 r s3 Hx' (eq_sym Heq)) as (b3 & -> & _).
    rewrite sapp_assoc, Hall'. cbn [mbind option_bind]. by rewrite Hp.
Qed.

Lemma lex_string_text fuel s t r : lex_string fuel s = Some (t, r) → literal s t r.
Proof.
  revert s t r. induction fuel as [|fuel IH]; [done|]. intros [|a s] t r; [done|].
  destruct (decide (a = "034"%char)) as [->|Hq].
  { intros [= <- <-]. exists "". split; [done|]. split; [apply str_body_nil|done]. }
  destruct (decide (a = "\"%char)) as [->|Hb]; [|by apply literal_char].
  destruct s as [|e s]; [by destruct fuel|].
  destruct (decide (e = "u"%char)) as [->|He]; [by apply literal_u|].
  rewrite lex_escape by done. destruct (simple_escape e) as [c|] eqn:Hc; [|done]. cbn [mbind option_bind].
  destruct (lex_string fuel s) as [[t' r']|] eqn:Hs; [|done]. cbn [mbind option_bind]. intros [= <- <-].
  destruct (IH _ _ _ Hs) as (b & -> & Hbody & Ht). exists (String "\" (String e b)).
  split; [done|]. split; [by apply str_body_escape|].
  destruct (escape_plain _ _ Hc) as [_ Hce]. by rewrite Hce, Ht.
Qed.

End JsonRaw.
