(* ===== verification/GoJsonText.v ===== *)
(** * encoding/json: which texts spell which value

    [text t v]: the text [t], without blanks around it, is a spelling of [v].  The parser
    accepts exactly these texts (up to its limit on nesting), and [json.Indent] turns one
    spelling of a value into another. *)
From S2P Require Import Prelude GoJson GoStrings GoUtf8 GoJsonPrint GoJsonRaw.
Import GoStr GoJson UTF8 JsonPrint JsonRaw.

Module JsonText.

Inductive text : string → json → Prop :=
  | text_null : text "null" JNull
  | text_bool (b : bool) : text (if b then "true" else "false") (JBool b)
  | text_num l : num_text l → text l (JNum l)
  | text_str b s : str_body b s → coerce s = s → text (dq +:+ b +:+ dq) (JStr s)
  | text_arr_nil b : ws_str b = true → text ("[" +:+ b +:+ "]") (JArr [])
  | text_arr x l : items x l → text ("[" +:+ x +:+ "]") (JArr l)
  | text_obj_nil b : ws_str b = true → text ("{" +:+ b +:+ "}") (JObj [])
  | text_obj x l : mems x l → text ("{" +:+ x +:+ "}") (JObj l)
with items : string → list json → Prop :=
  | items_one b t b' v : ws_str b = true → text t v → ws_str b' = true → items (b +:+ t +:+ b') [v]
  | items_cons b t b' v x l : ws_str b = true → text t v → ws_str b' = true → items x l →
      items (b +:+ t +:+ b' +:+ "," +:+ x) (v :: l)
with mems : string → list (string * json) → Prop :=
  | mems_one b m b' kv : ws_str b = true → member m kv → ws_str b' = true → mems (b +:+ m +:+ b') [kv]
  | mems_cons b m b' kv x l : ws_str b = true → member m kv → ws_str b' = true → mems x l →
      mems (b +:+ m +:+ b' +:+ "," +:+ x) (kv :: l)
with member : string → string * json → Prop :=
  | member_intro kb k b b' t v : str_body kb k → coerce k = k → ws_str b = true → ws_str b' = true →
      text t v → member (dq +:+ kb +:+ dq +:+ b +:+ ":" +:+ b' +:+ t) (k, v).

Scheme text_mut := Induction for text Sort Prop
  with items_mut := Induction for items Sort Prop
  with mems_mut := Induction for mems Sort Prop
  with member_mut := Induction for member Sort Prop.
Combined Scheme text_combined from text_mut, items_mut, mems_mut, member_mut.

(** How deep brackets nest in a value. *)
Fixpoint nest (j : json) : N :=
  match j with
  | JArr l => 1 + foldr N.max 0 (nest <$> l)
  | JObj l => 1 + foldr N.max 0 ((λ kv, nest kv.2) <$> l)
  | _ => 0
  end%N.

Definition nests (l : list json) : N := foldr N.max 0%N (nest <$> l).
Definition nests_of (l : list (string * json)) : N := foldr N.max 0%N ((λ kv, nest kv.2) <$> l).

Definition fits (d : N) (v : json) : Prop := (d + nest v ≤ max_depth)%N.

(** ** The first byte *)

Lemma starts_text t v : text t v → starts_value t.
Proof.
  intros []; try (by eexists _, _).
  - destruct b; by eexists _, _.
  - destruct H as [(a & r & -> & [->|Ha]) _]; eexists _, _; (split; [done|]); [done|by apply is_digit_plain].
Qed.

Lemma starts_member m kv : member m kv → starts_value m.
Proof. intros []. by eexists _, _. Qed.

(** ** The parser accepts only texts *)

Definition value_ok (fuel : nat) : Prop := ∀ d s v r, (d ≤ max_depth)%N → value fuel d s = Some (v, r) →
  ∃ b t, s = b +:+ t +:+ r ∧ ws_str b = true ∧ text t v ∧ fits d v.

Definition elements_ok (fuel : nat) : Prop := ∀ d s l r, (d ≤ max_depth)%N → elements fuel d s = Some (l, r) →
  ∃ x, s = x +:+ "]" +:+ r ∧ items x l ∧ Forall (fits d) l.

Definition members_ok (fuel : nat) : Prop := ∀ d s l r, (d ≤ max_depth)%N → members fuel d s = Some (l, r) →
  ∃ x, s = x +:+ "}" +:+ r ∧ mems x l ∧ Forall (λ kv, fits d kv.2) l.

Lemma eat_split c s r : eat c s = Some r → ∃ b, s = b +:+ String c r ∧ ws_str b = true.
Proof.
  unfold eat. destruct (skip_ws_split s) as (b & Hs & Hb). destruct (skip_ws s) as [|a r'] eqn:E; [done|].
  case_decide; [|done]. intros [= <-]. subst a. by exists b.
Qed.

Lemma elements_ok_step fuel : value_ok fuel → elements_ok fuel → elements_ok (S fuel).
Proof.
  intros Hv He d s l r Hdm. cbn [elements]. destruct (value fuel d s) as [[v s1]|] eqn:Hval; [|done].
  cbn [mbind option_bind]. destruct (Hv _ _ _ _ Hdm Hval) as (b & t & -> & Hb & Ht & Hd).
  destruct (eat "]" s1) as [r1|] eqn:E1.
  - intros [= <- <-]. destruct (eat_split _ _ _ E1) as (b' & -> & Hb').
    exists (b +:+ t +:+ b'). split; [by rewrite !sapp_assoc|]. split; [by constructor|by constructor].
  - destruct (eat "," s1) as [r1|] eqn:E2; [|done]. cbn [mbind option_bind].
    destruct (elements fuel d r1) as [[l' r2]|] eqn:Hl; [|done]. cbn [mbind option_bind]. intros [= <- <-].
    destruct (eat_split _ _ _ E2) as (b' & -> & Hb'). destruct (He _ _ _ _ Hdm Hl) as (x & -> & Hx & Hn).
    exists (b +:+ t +:+ b' +:+ "," +:+ x). split; [by rewrite !sapp_assoc|]. split; by constructor.
Qed.

Lemma members_ok_step fuel : value_ok fuel → members_ok fuel → members_ok (S fuel).
Proof.
  intros Hv Hm d s l r Hdm. cbn [members]. destruct (eat "034" s) as [s1|] eqn:E0; [|done].
  cbn [mbind option_bind]. destruct (lex_string fuel s1) as [[k s2]|] eqn:Hk; [|done]. cbn [mbind option_bind].
  destruct (eat ":" s2) as [s3|] eqn:E1; [|done]. cbn [mbind option_bind].
  destruct (value fuel d s3) as [[v s4]|] eqn:Hval; [|done]. cbn [mbind option_bind].
  destruct (eat_split _ _ _ E0) as (b0 & -> & Hb0). destruct (lex_string_text _ _ _ _ Hk) as (kb & -> & Hkb & Hkc).
  destruct (eat_split _ _ _ E1) as (b1 & -> & Hb1). destruct (Hv _ _ _ _ Hdm Hval) as (b2 & t & -> & Hb2 & Ht & Hd).
  assert (member (dq +:+ kb +:+ dq +:+ b1 +:+ ":" +:+ b2 +:+ t) (k, v)) as Hmem by by constructor.
  set (m := dq +:+ kb +:+ dq +:+ b1 +:+ ":" +:+ b2 +:+ t) in *.
  assert (∀ z, b0 +:+ String "034" (kb +:+ dq +:+ b1 +:+ String ":" (b2 +:+ t +:+ z)) = b0 +:+ m +:+ z) as ->
    by (intros z; unfold m; by rewrite !sapp_assoc).
  destruct (eat "}" s4) as [r1|] eqn:E2.
  - intros [= <- <-]. destruct (eat_split _ _ _ E2) as (b' & -> & Hb').
    exists (b0 +:+ m +:+ b'). split; [by rewrite !sapp_assoc|]. split; [by constructor|by constructor].
  - destruct (eat "," s4) as [r1|] eqn:E3; [|done]. cbn [mbind option_bind].
    destruct (members fuel d r1) as [[l' r2]|] eqn:Hl; [|done]. cbn [mbind option_bind]. intros [= <- <-].
    destruct (eat_split _ _ _ E3) as (b' & -> & Hb'). destruct (Hm _ _ _ _ Hdm Hl) as (x & -> & Hx & Hn).
    exists (b0 +:+ m +:+ b' +:+ "," +:+ x). split; [by rewrite !sapp_assoc|]. split; by constructor.
Qed.

(** The three words. *)
Definition keyword (s : string) : option (json * string) :=
  match s with
  | String "n" (String "u" (String "l" (String "l" r))) => Some (JNull, r)
  | String "t" (String "r" (String "u" (String "e" r))) => Some (JBool true, r)
  | String "f" (String "a" (String "l" (String "s" (String "e" r)))) => Some (JBool false, r)
  | _ => None
  end.

Ltac bits a := destruct a as [[] [] [] [] [] [] [] []]; try reflexivity.

Lemma value_eq fuel d s : value (S fuel) d s =
  match skip_ws s with
  | String "034" r => '(t, r) ← lex_string fuel r; Some (JStr t, r)
  | String "{" r =>
      if (d <? max_depth)%N then
        match eat "}" r with
        | Some r => Some (JObj [], r)
        | None => '(l, r) ← members fuel (d + 1) r; Some (JObj l, r)
        end
      else None
  | String "[" r =>
      if (d <? max_depth)%N then
        match eat "]" r with
        | Some r => Some (JArr [], r)
        | None => '(l, r) ← elements fuel (d + 1) r; Some (JArr l, r)
        end
      else None
  | c => match keyword c with Some vr => Some vr | None => '(l, r) ← lex_number c; Some (JNum l, r) end
  end.
Proof.
  cbn [value]. destruct (skip_ws s) as [|a1 r]; [reflexivity|]. bits a1.
  - destruct r as [|a2 r]; [reflexivity|]. bits a2. destruct r as [|a3 r]; [reflexivity|]. bits a3.
    destruct r as [|a4 r]; [reflexivity|]. bits a4.
  - destruct r as [|a2 r]; [reflexivity|]. bits a2. destruct r as [|a3 r]; [reflexivity|]. bits a3.
    destruct r as [|a4 r]; [reflexivity|]. bits a4. destruct r as [|a5 r]; [reflexivity|]. bits a5.
  - destruct r as [|a2 r]; [reflexivity|]. bits a2. destruct r as [|a3 r]; [reflexivity|]. bits a3.
    destruct r as [|a4 r]; [reflexivity|]. bits a4.
Qed.

Lemma keyword_split c v r : keyword c = Some (v, r) → ∃ t, c = t +:+ r ∧ text t v ∧ nest v = 0%N.
Proof.
  intros H. assert ((c = "null" +:+ r ∧ v = JNull) ∨ (c = "true" +:+ r ∧ v = JBool true) ∨
    (c = "false" +:+ r ∧ v = JBool false)) as Hc.
  { destruct c as [|a1 c]; [done|].
    destruct (decide (a1 = "n"%char)) as [->|H1]; [|destruct (decide (a1 = "t"%char)) as [->|H2];
      [|destruct (decide (a1 = "f"%char)) as [->|H3]; [|by bits a1]]].
    all: repeat (destruct c as [|a1 c]; [done|]; bits a1; try done); injection H as <- <-; auto. }
  destruct Hc as [[-> ->]|[[-> ->]|[-> ->]]]; eexists; (split; [done|]); (split; [|done]).
  - constructor.
  - apply (text_bool true).
  - apply (text_bool false).
Qed.

Lemma nests_fits d l : (d < max_depth)%N → Forall (fits (d + 1)) l → (d + (1 + nests l) ≤ max_depth)%N.
Proof.
  intros Hd. unfold fits, nests. induction 1 as [|v l Hv Hl IH]; [simpl; lia|].
  cbn [fmap list_fmap foldr]. lia.
Qed.

Lemma nests_of_fits d l : (d < max_depth)%N → Forall (λ kv, fits (d + 1) kv.2) l →
  (d + (1 + nests_of l) ≤ max_depth)%N.
Proof.
  intros Hd. unfold fits, nests_of. induction 1 as [|v l Hv Hl IH]; [simpl; lia|].
  cbn [fmap list_fmap foldr]. lia.
Qed.

Lemma value_ok_step fuel : elements_ok fuel → members_ok fuel → value_ok (S fuel).
Proof.
  intros He Hm d s v r Hdm. rewrite value_eq. destruct (skip_ws_split s) as (b & Hs & Hb). intros Hv.
  cut (∃ t, skip_ws s = t +:+ r ∧ text t v ∧ fits d v).
  { intros (t & Ht & Htv & Hn). exists b, t. rewrite <- Ht. by split_and!. }
  clear Hs Hb. destruct (skip_ws s) as [|a c] eqn:Hc; [done|]. clear Hc.
  destruct (decide (a = "034"%char)) as [->|H1].
  { destruct (lex_string fuel c) as [[t r']|] eqn:Hl; [|done]. injection Hv as <- <-.
    destruct (lex_string_text _ _ _ _ Hl) as (kb & -> & Hkb & Hk). exists (dq +:+ kb +:+ dq).
    split; [by rewrite !sapp_assoc|]. split; [by constructor|]. unfold fits; cbn [nest fmap list_fmap foldr]; lia. }
  destruct (decide (a = "{"%char)) as [->|H2].
  { destruct (N.ltb_spec d max_depth) as [Hlt|]; [|done]. destruct (eat "}" c) as [r1|] eqn:E1.
    - injection Hv as <- <-. destruct (eat_split _ _ _ E1) as (b0 & -> & Hb). exists ("{" +:+ b0 +:+ "}").
      split; [by rewrite sapp_assoc, sapp_assoc|]. split; [by constructor|]. unfold fits; cbn [nest fmap list_fmap foldr]; lia.
    - destruct (members fuel (d + 1) c) as [[l r1]|] eqn:Hl; [|done]. injection Hv as <- <-.
      destruct (Hm (d + 1)%N _ _ _ ltac:(lia) Hl) as (x & -> & Hx & Hn). exists ("{" +:+ x +:+ "}").
      split; [by rewrite sapp_assoc, sapp_assoc|]. split; [by constructor|]. by apply nests_of_fits. }
  destruct (decide (a = "["%char)) as [->|H3].
  { destruct (N.ltb_spec d max_depth) as [Hlt|]; [|done]. destruct (eat "]" c) as [r1|] eqn:E1.
    - injection Hv as <- <-. destruct (eat_split _ _ _ E1) as (b0 & -> & Hb). exists ("[" +:+ b0 +:+ "]").
      split; [by rewrite sapp_assoc, sapp_assoc|]. split; [by constructor|]. unfold fits; cbn [nest fmap list_fmap foldr]; lia.
    - destruct (elements fuel (d + 1) c) as [[l r1]|] eqn:Hl; [|done]. injection Hv as <- <-.
      destruct (He (d + 1)%N _ _ _ ltac:(lia) Hl) as (x & -> & Hx & Hn). exists ("[" +:+ x +:+ "]").
      split; [by rewrite sapp_assoc, sapp_assoc|]. split; [by constructor|]. by apply nests_fits. }
  assert (match keyword (String a c) with Some vr => Some vr
          | None => '(l, r) ← lex_number (String a c); Some (JNum l, r) end = Some (v, r)) as Hv'
    by (rewrite <- Hv; by bits a).
  destruct (keyword (String a c)) as [[v' r']|] eqn:Hk.
  - injection Hv' as -> ->. destruct (keyword_split _ _ _ Hk) as (t & Ht & Htv & Hn). exists t.
    split_and!; [done..|]. unfold fits. lia.
  - destruct (lex_number (String a c)) as [[l r']|] eqn:Hl; [|done]. injection Hv' as <- <-.
    apply lex_number_text in Hl as [Hl Hn]. exists l. split; [done|]. split; [by constructor|].
    unfold fits; cbn [nest fmap list_fmap foldr]; lia.
Qed.

Lemma parser_ok fuel : value_ok fuel ∧ elements_ok fuel ∧ members_ok fuel.
Proof.
  induction fuel as [|fuel (IHv & IHe & IHm)]; [by split_and!|].
  split_and!; [by apply value_ok_step|by apply elements_ok_step|by apply members_ok_step].
Qed.

Lemma parse_prefix_text s v r : parse_prefix s = Some (v, r) →
  ∃ b t, s = b +:+ t +:+ r ∧ ws_str b = true ∧ text t v ∧ (nest v ≤ max_depth)%N.
Proof.
  intros H. destruct (parser_ok (fuel_of s)) as [Hv _].
  destruct (Hv 0%N s v r ltac:(done) H) as (b & t & Hs & Hb & Ht & Hn). exists b, t. by split_and!.
Qed.

Lemma parse_text s v : parse s = Some v →
  ∃ b t b', s = b +:+ t +:+ b' ∧ ws_str b = true ∧ ws_str b' = true ∧ text t v ∧ (nest v ≤ max_depth)%N.
Proof.
  unfold parse. destruct (parse_prefix s) as [[v' r]|] eqn:Hp; [|done]. cbn [mbind option_bind].
  case_decide as Hr; [|done]. intros [= ->]. destruct (parse_prefix_text _ _ _ Hp) as (b & t & -> & Hb & Ht & Hn).
  destruct (skip_ws_split r) as (b' & Heq & Hb'). rewrite Hr, sapp_nil_r in Heq. subst b'.
  exists b, t, r. by split_and!.
Qed.

(** ** The parser accepts every text *)

Lemma ends_ws b rest : ws_str b = true → ends_num rest → ends_num (b +:+ rest).
Proof.
  destruct b as [|a b]; [by rewrite sapp_nil_l|]. simpl. intros [Ha _]%andb_true_iff _.
  by destruct a as [[] [] [] [] [] [] [] []].
Qed.

Lemma eat_blank_sep c b a r : ws_str b = true → is_ws a = false →
  eat c (b +:+ String a "" +:+ r) = if decide (a = c) then Some r else None.
Proof. intros Hb Ha. rewrite eat_blank by by apply ws_blank. by apply (eat_sep c a r). Qed.

Definition allowed {A} (d n : N) (o : option A) : option A := if (d + n <=? max_depth)%N then o else None.

Lemma allowed_max {A} d n m (o : option A) :
  allowed d n (allowed d m o) = allowed d (N.max n m) o.
Proof.
  unfold allowed. destruct (N.leb_spec (d + n) max_depth), (N.leb_spec (d + m) max_depth),
    (N.leb_spec (d + N.max n m) max_depth); done || lia.
Qed.

Definition reads_text (t : string) (v : json) : Prop := ∀ fuel d rest, ends_num rest →
  2 * String.length t ≤ fuel → (d ≤ max_depth)%N → value fuel d (t +:+ rest) = allowed d (nest v) (Some (v, rest)).

Definition reads_items (x : string) (l : list json) : Prop := ∀ fuel d rest,
  2 * String.length x + 1 ≤ fuel → (d ≤ max_depth)%N →
  elements fuel d (x +:+ "]" +:+ rest) = allowed d (nests l) (Some (l, rest)).

Definition reads_mems (x : string) (l : list (string * json)) : Prop := ∀ fuel d rest,
  2 * String.length x + 1 ≤ fuel → (d ≤ max_depth)%N →
  members fuel d (x +:+ "}" +:+ rest) = allowed d (nests_of l) (Some (l, rest)).

Definition reads_member (m : string) (kv : string * json) : Prop := ∀ fuel d rest, ends_num rest →
  2 * String.length m ≤ fuel → (d ≤ max_depth)%N →
  members (S fuel) d (m +:+ rest) = allowed d (nest kv.2)
    match eat "}" rest with
    | Some r => Some ([kv], r)
    | None => r ← eat "," rest; '(l, r) ← members fuel d r; Some (kv :: l, r)
    end.

Lemma text_length t v : text t v → 1 ≤ String.length t.
Proof. intros (a & r & -> & _)%starts_text. simpl. lia. Qed.

Lemma allowed_0 {A} d (o : option A) : (d ≤ max_depth)%N → allowed d 0 o = o.
Proof. intros H. unfold allowed. destruct (N.leb_spec (d + 0) max_depth); [done|lia]. Qed.

Lemma bind_allowed {A B} d n (a : A) (k : A → option B) : (allowed d n (Some a) ≫= k) = allowed d n (k a).
Proof. unfold allowed. by case_match. Qed.

Lemma reads_items_one b t b' v : ws_str b = true → text t v → reads_text t v → ws_str b' = true →
  reads_items (b +:+ t +:+ b') [v].
Proof.
  intros Hb _ Ht Hb' fuel d rest Hf Hd. destruct fuel as [|fuel]; [lia|].
  rewrite !length_sapp in Hf. rewrite !sapp_assoc. cbn [elements].
  rewrite value_blank by by apply ws_blank. rewrite Ht by (done || lia || by apply ends_ws).
  unfold nests. cbn [fmap list_fmap foldr]. rewrite N.max_0_r, bind_allowed. by rewrite eat_blank_sep.
Qed.

Lemma reads_items_cons b t b' v x l : ws_str b = true → reads_text t v → ws_str b' = true →
  reads_items x l → reads_items (b +:+ t +:+ b' +:+ "," +:+ x) (v :: l).
Proof.
  intros Hb Ht Hb' Hx fuel d rest Hf Hd. destruct fuel as [|fuel]; [lia|].
  rewrite !length_sapp in Hf. simpl in Hf. rewrite !sapp_assoc. cbn [elements].
  rewrite value_blank by by apply ws_blank. rewrite Ht by (done || lia || by apply ends_ws).
  change (nests (v :: l)) with (N.max (nest v) (nests l)). rewrite bind_allowed, <- allowed_max. f_equal. cbn [mbind option_bind]. rewrite !eat_blank_sep, decide_False, decide_True by done.
  cbn [mbind option_bind]. rewrite Hx by (done || lia). by rewrite bind_allowed.
Qed.

Lemma reads_mems_one b m b' kv : ws_str b = true → reads_member m kv → ws_str b' = true →
  reads_mems (b +:+ m +:+ b') [kv].
Proof.
  intros Hb Hm Hb' fuel d rest Hf Hd. destruct fuel as [|fuel]; [lia|].
  rewrite !length_sapp in Hf. rewrite !sapp_assoc. rewrite members_blank by by apply ws_blank.
  rewrite Hm by (done || lia || by apply ends_ws). rewrite eat_blank_sep, decide_True by done.
  unfold nests_of. cbn [fmap list_fmap foldr]. by rewrite N.max_0_r.
Qed.

Lemma reads_mems_cons b m b' kv x l : ws_str b = true → reads_member m kv → ws_str b' = true →
  reads_mems x l → reads_mems (b +:+ m +:+ b' +:+ "," +:+ x) (kv :: l).
Proof.
  intros Hb Hm Hb' Hx fuel d rest Hf Hd. destruct fuel as [|fuel]; [lia|].
  rewrite !length_sapp in Hf. simpl in Hf. rewrite !sapp_assoc. rewrite members_blank by by apply ws_blank.
  rewrite Hm by (done || lia || by apply ends_ws).
  rewrite !eat_blank_sep, decide_False, decide_True by done. cbn [mbind option_bind].
  rewrite Hx by (done || lia). change (nests_of (kv :: l)) with (N.max (nest kv.2) (nests_of l)).
  rewrite <- allowed_max. f_equal. by rewrite bind_allowed.
Qed.

Lemma reads_member_intro kb k b b' t v : str_body kb k → ws_str b = true → ws_str b' = true →
  reads_text t v → 1 ≤ String.length t → reads_member (dq +:+ kb +:+ dq +:+ b +:+ ":" +:+ b' +:+ t) (k, v).
Proof.
  intros [Hk _] Hb Hb' Ht H1 fuel d rest Hr Hf Hd. rewrite !length_sapp in Hf. rewrite !sapp_assoc.
  change (members (S fuel) d (dq +:+ ?x)) with (
    '(k, r) ← lex_string fuel x; r ← eat ":" r; '(v, r) ← value fuel d r;
    match eat "}" r with
    | Some r => Some ([(k, v)], r)
    | None => r ← eat "," r; '(l, r) ← members fuel d r; Some ((k, v) :: l, r)
    end).
  rewrite Hk by lia. cbn [mbind option_bind]. rewrite eat_blank_sep, decide_True by done.
  cbn [mbind option_bind]. rewrite value_blank by by apply ws_blank. rewrite Ht by (done || lia).
  by rewrite bind_allowed.
Qed.

Lemma items_eat x l y : items x l → eat "]" (x +:+ y) = None.
Proof.
  intros [b t b' v Hb Ht Hb'|b t b' v x' l' Hb Ht Hb' Hx]; rewrite !sapp_assoc, eat_blank by (by apply ws_blank);
    apply eat_other; [|by left| |by left]; apply starts_value_app; by eapply starts_text.
Qed.

Lemma mems_eat x l y : mems x l → eat "}" (x +:+ y) = None.
Proof.
  intros [b m b' kv Hb Hm Hb'|b m b' kv x' l' Hb Hm Hb' Hx]; rewrite !sapp_assoc, eat_blank by (by apply ws_blank);
    apply eat_other; [|by right| |by right]; apply starts_value_app; by eapply starts_member.
Qed.

Lemma value_arr fuel d x : value (S fuel) d ("[" +:+ x) =
  if (d <? max_depth)%N then
    match eat "]" x with
    | Some r => Some (JArr [], r)
    | None => '(l, r) ← elements fuel (d + 1) x; Some (JArr l, r)
    end
  else None.
Proof. reflexivity. Qed.

Lemma value_obj fuel d x : value (S fuel) d ("{" +:+ x) =
  if (d <? max_depth)%N then
    match eat "}" x with
    | Some r => Some (JObj [], r)
    | None => '(l, r) ← members fuel (d + 1) x; Some (JObj l, r)
    end
  else None.
Proof. reflexivity. Qed.

Lemma reads_arr x l : items x l → reads_items x l → reads_text ("[" +:+ x +:+ "]") (JArr l).
Proof.
  intros Hx Hr fuel d rest _ Hf Hd. destruct fuel as [|fuel]; [simpl in Hf; lia|].
  rewrite !length_sapp in Hf. simpl in Hf. rewrite !sapp_assoc.
  rewrite value_arr, (items_eat _ _ _ Hx). change (nest (JArr l)) with (1 + nests l)%N. unfold allowed.
  destruct (N.ltb_spec d max_depth); [|by destruct (N.leb_spec (d + (1 + nests l)) max_depth); [lia|]].
  rewrite Hr by lia. unfold allowed. rewrite N.add_assoc. by case_match.
Qed.

Lemma reads_obj x l : mems x l → reads_mems x l → reads_text ("{" +:+ x +:+ "}") (JObj l).
Proof.
  intros Hx Hr fuel d rest _ Hf Hd. destruct fuel as [|fuel]; [simpl in Hf; lia|].
  rewrite !length_sapp in Hf. simpl in Hf. rewrite !sapp_assoc.
  rewrite value_obj, (mems_eat _ _ _ Hx). change (nest (JObj l)) with (1 + nests_of l)%N. unfold allowed.
  destruct (N.ltb_spec d max_depth); [|by destruct (N.leb_spec (d + (1 + nests_of l)) max_depth); [lia|]].
  rewrite Hr by lia. unfold allowed. rewrite N.add_assoc. by case_match.
Qed.

(** Brackets with nothing inside. *)
Lemma reads_empty b : ws_str b = true →
  reads_text ("[" +:+ b +:+ "]") (JArr []) ∧ reads_text ("{" +:+ b +:+ "}") (JObj []).
Proof.
  intros Hb. split; intros fuel d rest _ Hf Hd; (destruct fuel as [|fuel]; [simpl in Hf; lia|]);
    rewrite !sapp_assoc; change (nest _) with 1%N; unfold allowed.
  - rewrite value_arr, eat_blank_sep, decide_True by done.
    by destruct (N.ltb_spec d max_depth), (N.leb_spec (d + 1) max_depth); try lia.
  - rewrite value_obj, eat_blank_sep, decide_True by done.
    by destruct (N.ltb_spec d max_depth), (N.leb_spec (d + 1) max_depth); try lia.
Qed.

Lemma value_number fuel d a r rest : a = "-"%char ∨ is_digit a = true →
  value (S fuel) d (String a r +:+ rest) = '(l, r) ← lex_number (String a r +:+ rest); Some (JNum l, r).
Proof.
  rewrite sapp_cons. intros [->|Ha]; [reflexivity|]. cbn [value skip_ws].
  destruct (is_digit_plain a Ha) as (-> & _ & _). by destruct a as [[] [] [] [] [] [] [] []].
Qed.

Lemma text_reads :
  (∀ t v, text t v → reads_text t v) ∧ (∀ x l, items x l → reads_items x l) ∧
  (∀ x l, mems x l → reads_mems x l) ∧ (∀ m kv, member m kv → reads_member m kv).
Proof.
  apply text_combined; intros.
  - intros [|fuel] d rest _ Hf Hd; [simpl in Hf; lia|]. by rewrite allowed_0.
  - intros [|fuel] d rest _ Hf Hd; [destruct b; simpl in Hf; lia|]. rewrite allowed_0 by done. by destruct b.
  - intros fuel d rest Hr Hf Hd. rewrite allowed_0 by done. destruct n as ((a & r & -> & Ha) & _ & Hl).
    destruct fuel as [|fuel]; [simpl in Hf; lia|]. rewrite value_number by done. by rewrite (Hl _ Hr).
  - intros fuel d rest _ Hf Hd. rewrite allowed_0 by done. destruct fuel as [|fuel]; [simpl in Hf; lia|].
    rewrite !length_sapp in Hf. simpl in Hf. rewrite !sapp_assoc.
    change (value (S fuel) d (dq +:+ ?x)) with ('(t, r) ← lex_string fuel x; Some (JStr t, r)).
    destruct s0 as [Hb _]. by rewrite Hb by lia.
  - by apply reads_empty.
  - by apply reads_arr.
  - by apply reads_empty.
  - by apply reads_obj.
  - by apply reads_items_one.
  - by apply reads_items_cons.
  - by apply reads_mems_one.
  - by apply reads_mems_cons.
  - apply reads_member_intro; try done. by eapply text_length.
Qed.

Lemma parse_prefix_of b t v rest : ws_str b = true → text t v → ends_num rest →
  parse_prefix (b +:+ t +:+ rest) = allowed 0 (nest v) (Some (v, rest)).
Proof.
  intros Hb Ht Hr. unfold parse_prefix, fuel_of. rewrite value_blank by by apply ws_blank.
  apply (proj1 text_reads); [done..| |done]. rewrite !length_sapp. lia.
Qed.

Lemma parse_of b t v b' : ws_str b = true → text t v → ws_str b' = true →
  parse (b +:+ t +:+ b') = allowed 0 (nest v) (Some v).
Proof.
  intros Hb Ht Hb'. unfold parse. rewrite (parse_prefix_of _ _ v) by
    (done || (rewrite <- (sapp_nil_r b'); by apply ends_ws)).
  rewrite bind_allowed. f_equal. cbn beta match. rewrite decide_True; [done|].
  rewrite <- (sapp_nil_r b'). by rewrite ws_blank.
Qed.

(** A text spells one value. *)
Lemma text_fun t v v' : text t v → parse t = Some v' → v = v'.
Proof.
  intros Ht Hp. pose proof (parse_of "" t v "" eq_refl Ht eq_refl) as H.
  rewrite sapp_nil_l, sapp_nil_r, Hp in H. unfold allowed in H. case_match; congruence.
Qed.

(** ** Indenting *)

(** [s] becomes [s'], at nesting [d] and outside a literal. *)
Definition indents (d : nat) (s s' : string) : Prop := irun (MkI Out false d) s = (s', MkI Out false d).

Lemma indents_app d a a' b b' : indents d a a' → indents d b b' → indents d (a +:+ b) (a' +:+ b').
Proof. unfold indents. intros Ha Hb. by rewrite irun_app, Ha, Hb. Qed.

Lemma indents_ws d b : ws_str b = true → indents d b "".
Proof. apply irun_ws. Qed.

Lemma indents_plain d s : all_plain s = true → indents d s s.
Proof.
  unfold indents. induction s as [|a s IH]; [done|]. simpl. intros [Ha Hs]%andb_true_iff.
  assert (istep (MkI Out false d) a = (str1 a, MkI Out false d)) as -> by by bits a.
  by rewrite IH.
Qed.

Lemma irun_str n d e b e' : escape_after e b = Some e' →
  irun (MkI (if e then InEsc else InStr) n d) b = (b, MkI (if e' then InEsc else InStr) n d).
Proof.
  revert e. induction b as [|a b IH]; intros e; [by intros [= <-]|]. cbn [escape_after irun].
  destruct e.
  - intros He. change (istep _ a) with (str1 a, MkI InStr n d). cbv beta match.
    by rewrite (IH false He).
  - case_decide as Hq; [done|]. intros He. specialize (IH _ He).
    assert (istep (MkI InStr n d) a =
      (str1 a, MkI (if bool_decide (a = "\"%char) then InEsc else InStr) n d)) as ->.
    { unfold istep. cbn [mode need depth]. rewrite decide_False by done. by repeat case_decide. }
    by rewrite IH.
Qed.

Lemma indents_str d b t : str_body b t → indents d (dq +:+ b +:+ dq) (dq +:+ b +:+ dq).
Proof.
  intros [_ He]. unfold indents. rewrite irun_app.
  change (irun (MkI Out false d) dq) with (dq, MkI InStr false d). cbn beta match.
  rewrite irun_app, (irun_str false d false b false He). done.
Qed.

Lemma newline_ws d : ws_str (newline_at d) = true.
Proof.
  unfold newline_at, indented. cbn [nl]. rewrite ws_app. simpl. induction d as [|d IH]; [done|].
  unfold spaces in *. cbn [replicate]. destruct (replicate d "  ") eqn:E; [done|].
  change (String.concat "" ("  " :: s :: l)) with ("  " +:+ "" +:+ String.concat "" (s :: l)).
  rewrite !ws_app. by rewrite IH.
Qed.

(** After an opening bracket the first item gets a line of its own. *)
Lemma irun_open d b s s' : ws_str b = true → starts_value s → indents (S d) (b +:+ s) s' →
  irun (MkI Out true d) (b +:+ s) = (newline_at (S d) +:+ s', MkI Out false (S d)).
Proof.
  intros Hb (a & r & -> & Ha & H1 & H2). unfold indents. rewrite !irun_app, (irun_ws false), (irun_ws true) by done.
  cbn [irun].
  assert (istep (MkI Out true d) a =
    let (o, st) := istep (MkI Out false (S d)) a in (newline_at (S d) +:+ o, st)) as ->.
  { unfold istep. cbn [mode need depth]. rewrite Ha, bool_decide_false by naive_solver. cbn [negb andb].
    repeat case_decide; by rewrite ?sapp_nil_l, ?sapp_assoc. }
  destruct (istep (MkI Out false (S d)) a) as [o st1]. destruct (irun st1 r) as [o' st2].
  rewrite !sapp_nil_l. intros [= <- ->]. by rewrite sapp_assoc.
Qed.

Definition indents_text (t : string) (v : json) : Prop := ∀ d, ∃ t', indents d t t' ∧ text t' v.
Definition indents_items (x : string) (l : list json) : Prop := ∀ d, ∃ x', indents d x x' ∧
  ∀ b b', ws_str b = true → ws_str b' = true → items (b +:+ x' +:+ b') l.
Definition indents_mems (x : string) (l : list (string * json)) : Prop := ∀ d, ∃ x', indents d x x' ∧
  ∀ b b', ws_str b = true → ws_str b' = true → mems (b +:+ x' +:+ b') l.
Definition indents_member (m : string) (kv : string * json) : Prop := ∀ d, ∃ m', indents d m m' ∧ member m' kv.

(** A bracket around items that indent. *)
Lemma indents_bracket d l r x x' : (l = "[" ∧ r = "]") ∨ (l = "{" ∧ r = "}") →
  (∃ b s, x = b +:+ s ∧ ws_str b = true ∧ starts_value s) → indents (S d) x x' →
  indents d (l +:+ x +:+ r) (l +:+ (newline_at (S d) +:+ x' +:+ newline_at d) +:+ r).
Proof.
  intros Hlr (b & s & -> & Hb & Hs) Hx. unfold indents. rewrite irun_app.
  assert (irun (MkI Out false d) l = (l, MkI Out true d)) as -> by by destruct Hlr as [[-> _]|[-> _]].
  rewrite irun_app, (irun_open d b s x') by done.
  assert (irun (MkI Out false (S d)) r = (newline_at d +:+ r, MkI Out false d)) as ->
    by (destruct Hlr as [[_ ->]|[_ ->]]; unfold irun, istep; cbn [mode need depth]; simpl; by rewrite ?sapp_nil_r).
  by rewrite !sapp_assoc.
Qed.

Lemma items_first x l : items x l → ∃ b s, x = b +:+ s ∧ ws_str b = true ∧ starts_value s.
Proof. intros []; eexists _, _; (split; [done|]); (split; [done|]); apply starts_value_app; by eapply starts_text. Qed.

Lemma mems_first x l : mems x l → ∃ b s, x = b +:+ s ∧ ws_str b = true ∧ starts_value s.
Proof. intros []; eexists _, _; (split; [done|]); (split; [done|]); apply starts_value_app; by eapply starts_member. Qed.

Lemma indents_colon d : indents d ":" ": ".
Proof. reflexivity. Qed.


Lemma indents_item d b t t' b' : ws_str b = true → ws_str b' = true → indents d t t' →
  indents d (b +:+ t +:+ b') t'.
Proof.
  unfold indents. intros Hb Hb' Ht. rewrite irun_app, irun_ws, irun_app, Ht, irun_ws by done.
  by rewrite sapp_nil_r.
Qed.

Lemma indents_comma d b t t' b' x x' : ws_str b = true → ws_str b' = true → indents d t t' →
  indents d x x' → indents d (b +:+ t +:+ b' +:+ "," +:+ x) (t' +:+ "," +:+ newline_at d +:+ x').
Proof.
  unfold indents. intros Hb Hb' Ht Hx.
  rewrite irun_app, irun_ws, irun_app, Ht, irun_app, irun_ws, irun_app by done.
  assert (irun (MkI Out false d) "," = ("," +:+ newline_at d, MkI Out false d)) as ->
    by (unfold irun, istep; cbn [mode need depth]; simpl; by rewrite sapp_nil_r).
  rewrite Hx. by rewrite !sapp_nil_l, sapp_assoc.
Qed.

Lemma text_indents :
  (∀ t v, text t v → indents_text t v) ∧ (∀ x l, items x l → indents_items x l) ∧
  (∀ x l, mems x l → indents_mems x l) ∧ (∀ m kv, member m kv → indents_member m kv).
Proof.
  apply text_combined; intros.
  - intros d. exists "null". split; [done|constructor].
  - intros d. exists (if b then "true" else "false"). split; [by destruct b|constructor].
  - intros d. exists l. split; [|by constructor]. destruct n as (_ & Hp & _). by apply indents_plain.
  - intros d. exists (dq +:+ b +:+ dq). split; [by eapply indents_str|by constructor].
  - intros d. exists "[]". split; [|by apply (text_arr_nil "")]. unfold indents.
    rewrite irun_app. change (irun (MkI Out false d) "[") with ("[", MkI Out true d). cbv beta match.
    by rewrite irun_app, irun_ws.
  - intros d. destruct (H (S d)) as (x' & Hx & Hit). eexists. split.
    + apply indents_bracket; [by left|by eapply items_first|done].
    + constructor. apply Hit; apply newline_ws.
  - intros d. exists "{}". split; [|by apply (text_obj_nil "")]. unfold indents.
    rewrite irun_app. change (irun (MkI Out false d) "{") with ("{", MkI Out true d). cbv beta match.
    by rewrite irun_app, irun_ws.
  - intros d. destruct (H (S d)) as (x' & Hx & Hit). eexists. split.
    + apply indents_bracket; [by right|by eapply mems_first|done].
    + constructor. apply Hit; apply newline_ws.
  - intros d. destruct (H d) as (t' & Hi & Ht'). exists t'. split; [by apply indents_item|].
    intros. by constructor.
  - intros d. destruct (H d) as (t' & Hi & Ht'), (H0 d) as (x' & Hx & Hit).
    eexists. split; [by apply indents_comma|]. intros c c' Hc Hc'. rewrite !sapp_assoc.
    apply (items_cons c t' ""); [done..|]. apply Hit; [apply newline_ws|done].
  - intros d. destruct (H d) as (m' & Hi & Hm). exists m'. split; [by apply indents_item|].
    intros. by constructor.
  - intros d. destruct (H d) as (m' & Hi & Hm), (H0 d) as (x' & Hx & Hit).
    eexists. split; [by apply indents_comma|]. intros c c' Hc Hc'. rewrite !sapp_assoc.
    apply (mems_cons c m' ""); [done..|]. apply Hit; [apply newline_ws|done].
  - intros d. destruct (H d) as (t' & Hi & Ht').
    exists ((dq +:+ kb +:+ dq) +:+ ":" +:+ " " +:+ t'). split.
    + replace (dq +:+ kb +:+ dq +:+ b +:+ ":" +:+ b' +:+ t) with ((dq +:+ kb +:+ dq) +:+ b +:+ ":" +:+ b' +:+ t)
        by by rewrite !sapp_assoc.
      apply indents_app; [by eapply indents_str|]. unfold indents.
      rewrite irun_app, irun_ws, irun_app by done.
      change (irun (MkI Out false d) ":") with (": ", MkI Out false d). cbv beta match.
      by rewrite irun_app, irun_ws, Hi.
    + rewrite !sapp_assoc. by apply (member_intro kb k "" " ").
Qed.

(** [json.Indent] of the text of a value that does not nest too deep. *)
Lemma Indent_text t v : text t v → (nest v ≤ max_depth)%N → ∃ t', Indent t = Some t' ∧ text t' v.
Proof.
  intros Ht Hn. destruct (proj1 text_indents t v Ht 0) as (t' & Hi & Ht'). exists t'. split; [|done].
  unfold Indent. pose proof (parse_of "" t v "" eq_refl Ht eq_refl) as Hp.
  rewrite sapp_nil_l, sapp_nil_r in Hp. unfold allowed in Hp. rewrite (proj2 (N.leb_le _ _)) in Hp by lia.
  rewrite Hp. by rewrite Hi.
Qed.

Lemma Indent_fits t v t' : text t v → Indent t = Some t' → (nest v ≤ max_depth)%N ∧ text t' v.
Proof.
  intros Ht. unfold Indent. destruct (parse t) as [v'|] eqn:Hp; [|done]. intros [= <-].
  destruct (proj1 text_indents t v Ht 0) as (t' & Hi & Ht'). rewrite Hi. split; [|done].
  pose proof (parse_of "" t v "" eq_refl Ht eq_refl) as Hq. rewrite sapp_nil_l, sapp_nil_r, Hp in Hq.
  unfold allowed in Hq. destruct (N.leb_spec (0 + nest v) max_depth); [lia|done].
Qed.

(** ** Raw values *)

Lemma raw_value_text s t r : raw_value s = Some (t, r) →
  ∃ b v, s = b +:+ t +:+ r ∧ ws_str b = true ∧ text t v ∧ parse_prefix s = Some (v, r) ∧ parse t = Some v.
Proof.
  unfold raw_value. destruct (parse_prefix s) as [[v r']|] eqn:Hp; [|done]. cbn [mbind option_bind].
  intros [= <- <-]. destruct (parse_prefix_text _ _ _ Hp) as (b & t & -> & Hb & Ht & Hn).
  assert (consumed (skip_ws (b +:+ t +:+ r')) r' = t) as ->.
  { rewrite (ws_blank b Hb). destruct (starts_text _ _ Ht) as (a & z & -> & Ha & _).
    rewrite sapp_cons. simpl. rewrite Ha, <- sapp_cons. apply consumed_app. }
  exists b, v. split_and!; [done..|]. pose proof (parse_of "" t v "" eq_refl Ht eq_refl) as Hq.
  rewrite sapp_nil_l, sapp_nil_r in Hq. rewrite Hq. unfold allowed. by rewrite (proj2 (N.leb_le _ _)) by lia.
Qed.

(** A printed string. *)
Lemma quote_spells s : str_body (quote_body (String.length s) s) (coerce s) ∧ coerce (coerce s) = coerce s.
Proof.
  destruct (lex_string_text _ _ _ _ (lex_coerce s (S (String.length s)) "" ltac:(lia))) as (b & Hb & Hs & Hc).
  apply sapp_cancel in Hb as <-. done.
Qed.

Lemma text_quote s : text (quote s) (JStr (coerce s)).
Proof. destruct (quote_spells s). by constructor. Qed.

Lemma member_quote k t v : text t v → member (quote k +:+ ":" +:+ t) (coerce k, v).
Proof.
  intros Ht. destruct (quote_spells k) as [Hk Hc]. unfold quote. rewrite !sapp_assoc.
  by apply (member_intro _ _ "" "").
Qed.

(** Printed members with a comma between them. *)
Lemma mems_Join {A} (f : A → string) (g : A → string * json) x l :
  (∀ y, y ∈ x :: l → member (f y) (g y)) → mems (Join (f <$> x :: l) ",") (g <$> x :: l).
Proof.
  revert x. induction l as [|y l IH]; intros x H.
  - cbn [fmap list_fmap Join]. rewrite <- (sapp_nil_r (f x)), <- (sapp_nil_l (f x +:+ "")).
    apply mems_one; [done| |done]. apply H. by left.
  - cbn [fmap list_fmap] in *. rewrite Join_cons. rewrite <- (sapp_nil_l (f x +:+ _)).
    apply (mems_cons "" (f x) ""); [done|apply H; by left|done|]. apply IH. intros z Hz. apply H. by right.
Qed.

Lemma items_Join {A} (f : A → string) (g : A → json) x l :
  (∀ y, y ∈ x :: l → text (f y) (g y)) → items (Join (f <$> x :: l) ",") (g <$> x :: l).
Proof.
  revert x. induction l as [|y l IH]; intros x H.
  - cbn [fmap list_fmap Join]. rewrite <- (sapp_nil_r (f x)), <- (sapp_nil_l (f x +:+ "")).
    apply items_one; [done| |done]. apply H. by left.
  - cbn [fmap list_fmap] in *. rewrite Join_cons. rewrite <- (sapp_nil_l (f x +:+ _)).
    apply (items_cons "" (f x) ""); [done|apply H; by left|done|]. apply IH. intros z Hz. apply H. by right.
Qed.

(** The strings of an array of strings are text. *)
Lemma items_strings x l : items x l → ∀ s, JStr s ∈ l → coerce s = s.
Proof.
  assert (∀ t s, text t (JStr s) → coerce s = s) as Hs by (intros t s Ht; by inversion Ht).
  induction 1 as [b t b' v Hb Ht Hb'|b t b' v x l Hb Ht Hb' Hx IH]; intros s Hin.
  - apply list_elem_of_singleton in Hin as <-. by eapply Hs.
  - apply elem_of_cons in Hin as [<-|Hin]; [by eapply Hs|by apply IH].
Qed.

Lemma text_strings t l : text t (JArr l) → ∀ s, JStr s ∈ l → coerce s = s.
Proof.
  intros Ht s Hs. inversion Ht as [| | | | |x l' Hx| |]; subst; [by apply elem_of_nil in Hs|].
  by eapply items_strings.
Qed.

End JsonText.
