(* ===== verification/GoFloatFacts.v ===== *)
(** * Integers have a float64

    The nearest float64 of an [int64] is finite, so a number the program prints as an
    integer can always be decoded into an [any]. *)
From stdpp Require Import pretty.
From S2P Require Import Prelude GoStrings GoJson GoFloat GoJsonPrint.
From Stdlib Require Import SpecFloat.
Import GoStr GoJson GoFloat JsonPrint.

Module FloatFacts.

(** ** Digits *)

Lemma digits2_size p : Zpos (digits2_pos p) = Zpos (Pos.size p).
Proof. reflexivity. Qed.

Lemma Zdigits2_bound m k : (0 ≤ m < 2 ^ k)%Z → (0 ≤ k)%Z → (Zdigits2 m ≤ k)%Z.
Proof.
  intros Hm Hk. destruct m as [|p|p]; simpl; [lia| |lia]. rewrite digits2_size.
  pose proof (Pos.size_le p) as Hs.
  assert (2 ^ Zpos (Pos.size p) ≤ 2 * Zpos p)%Z as Hs'.
  { rewrite <- Pos2Z.inj_pow. lia. }
  destruct (decide (Zpos (Pos.size p) ≤ k)%Z) as [|Hgt]; [done|].
  assert (2 ^ (k + 1) ≤ 2 ^ Zpos (Pos.size p))%Z by (apply Z.pow_le_mono_r; lia).
  rewrite Z.pow_add_r in * by lia. lia.
Qed.

(** ** Shifting right *)

Lemma shr_1_m r : (0 ≤ shr_m r → 0 ≤ shr_m (shr_1 r) ≤ shr_m r)%Z.
Proof. destruct r as [m r s]. destruct m as [|[p|p|]|[p|p|]]; simpl; lia. Qed.

Lemma iter_shr_m n r : (0 ≤ shr_m r → 0 ≤ shr_m (iter_pos shr_1 n r) ≤ shr_m r)%Z.
Proof.
  revert r. induction n as [n IH|n IH|]; intros r Hr; cbn [iter_pos]; [| |by apply shr_1_m].
  - pose proof (shr_1_m r Hr). pose proof (IH (shr_1 r)). pose proof (IH (iter_pos shr_1 n (shr_1 r))). lia.
  - pose proof (IH r Hr). pose proof (IH (iter_pos shr_1 n r)). lia.
Qed.

Lemma shr_bounds r e n : (0 ≤ shr_m r)%Z →
  (0 ≤ shr_m (shr r e n).1 ≤ shr_m r)%Z ∧ (shr r e n).2 = (e + Z.max 0 n)%Z.
Proof.
  intros Hr. destruct n as [|n|n]; simpl; [split; lia| |split; lia].
  pose proof (iter_shr_m n r Hr). split; lia.
Qed.

Lemma shr_fexp_bounds m e l k : (0 ≤ m < 2 ^ k)%Z → (0 ≤ k)%Z →
  (0 ≤ shr_m (shr_fexp prec emax m e l).1 ≤ m)%Z ∧
  ((shr_fexp prec emax m e l).2 ≤ Z.max e (fexp prec emax (k + e)))%Z.
Proof.
  intros Hm Hk. unfold shr_fexp.
  assert (shr_m (shr_record_of_loc m l) = m) as Hrec by by destruct l as [|[]].
  pose proof (shr_bounds (shr_record_of_loc m l) e
    (fexp prec emax (Zdigits2 m + e) - e)%Z ltac:(rewrite Hrec; lia)) as [H1 H2].
  rewrite Hrec in H1. split; [done|]. rewrite H2. pose proof (Zdigits2_bound m k Hm Hk).
  unfold fexp in *. lia.
Qed.

Lemma round_bound m l : (0 ≤ m → 0 ≤ round_nearest_even m l ≤ m + 1)%Z.
Proof. intros Hm. unfold round_nearest_even. destruct l as [|[]]; try (destruct (Z.even m)); lia. Qed.

(** ** Rounding an integer *)

Lemma round_aux_finite sx m e l : (0 ≤ m < 2 ^ 64)%Z → (e ≤ 0)%Z →
  is_Some (match binary_round_aux prec emax sx m e l with
           | S754_infinity _ => None | f => Some f end).
Proof.
  intros Hm He. unfold binary_round_aux.
  destruct (shr_fexp_bounds m e l 64 Hm ltac:(lia)) as [H1 H2].
  destruct (shr_fexp prec emax m e l) as [r1 e1]. simpl in H1, H2.
  pose proof (round_bound (shr_m r1) (loc_of_shr_record r1) ltac:(lia)) as Hr.
  set (m2 := round_nearest_even _ _) in *.
  destruct (shr_fexp_bounds m2 e1 loc_Exact 65 ltac:(lia) ltac:(lia)) as [H3 H4].
  destruct (shr_fexp prec emax m2 e1 loc_Exact) as [r2 e2]. simpl in H3, H4.
  destruct (shr_m r2) as [|p|p]; [by eexists| |by eexists].
  destruct (Z.leb_spec e2 (emax - prec)) as [|Hbig]; [by eexists|].
  exfalso. unfold fexp, emin, prec, emax in *. lia.
Qed.

Lemma size_iter p d : Zpos (Pos.size (Pos.iter xO p d)) = (Zpos (Pos.size p) + Zpos d)%Z.
Proof.
  induction d as [|d IH] using Pos.peano_ind; [simpl; lia|].
  rewrite Pos.iter_succ. cbn [Pos.size]. lia.
Qed.

Lemma normalize_finite m s : (- 2 ^ 64 < m < 2 ^ 64)%Z →
  is_Some (match binary_normalize prec emax m 0 s with S754_infinity _ => None | f => Some f end).
Proof.
  assert (∀ b p, (Zpos p < 2 ^ 64)%Z →
    is_Some (match binary_round prec emax b p 0 with S754_infinity _ => None | f => Some f end)) as Hr.
  { intros b p Hp. unfold binary_round, shl_align.
    pose proof (Zdigits2_bound (Zpos p) 64 ltac:(lia) ltac:(lia)) as Hd. simpl in Hd.
    set (ex := fexp prec emax (Zpos (digits2_pos p) + 0)).
    destruct (ex - 0)%Z as [|d|d] eqn:He; [by apply round_aux_finite|by apply round_aux_finite|].
    apply round_aux_finite; [|unfold ex in *; lia]. split; [lia|].
    pose proof (Pos.size_gt (Pos.iter xO p d)) as Hs.
    assert (Zpos (Pos.iter xO p d) < 2 ^ Zpos (Pos.size (Pos.iter xO p d)))%Z as Hs'
      by (rewrite <- Pos2Z.inj_pow; lia).
    rewrite size_iter, <- digits2_size in Hs'.
    assert (Zpos (digits2_pos p) + Zpos d ≤ 64)%Z.
    { unfold ex, fexp, emin, prec, emax in He. lia. }
    assert (2 ^ (Zpos (digits2_pos p) + Zpos d) ≤ 2 ^ 64)%Z by (apply Z.pow_le_mono_r; lia). lia. }
  intros Hm. destruct m as [|p|p]; simpl; [by eexists|apply Hr; lia|apply Hr; lia].
Qed.

(** ** Printed integers *)

Lemma lit_parts_pretty (z : Z) : lit_parts (pretty z) = ((z <? 0)%Z, Z.abs z, 0%Z).
Proof.
  rewrite pretty_Z_cases. unfold lit_parts.
  destruct (pretty_N_spec (Z.abs_N z)) as (a & r & -> & H0 & Hd & Hv).
  assert (is_digit a = true) as Ha by (simpl in Hd; by apply andb_true_iff in Hd as [? _]).
  assert (digits (String a r) = (String a r, "")) as Hdig.
  { pose proof (digits_app (String a r) "" Hd I) as Hx. by rewrite sapp_nil_r in Hx. }
  destruct (z <? 0)%Z eqn:Hneg.
  - rewrite sapp_cons, sapp_nil_l. cbn [cut_minus]. rewrite Hdig, sapp_nil_r, Hv. simpl.
    repeat f_equal; lia.
  - rewrite cut_minus_digit, Hdig, sapp_nil_r, Hv by done. simpl. repeat f_equal; lia.
Qed.

Lemma any_ok_int z : in_i64 z → any_ok (JInt z) = true.
Proof.
  intros Hz. unfold JInt, any_ok. apply bool_decide_eq_true. unfold parse_float.
  rewrite lit_parts_pretty. destruct (Z.eqb_spec (Z.abs z) 0) as [|Hne]; [by eexists|].
  assert (0 ≤ Z.log2 (Z.abs z) < 64)%Z as Hlog.
  { split; [apply Z.log2_nonneg|]. apply Z.log2_lt_pow2; [lia|]. unfold in_i64, two63 in Hz. lia. }
  destruct (Z.ltb_spec 400 (0 + Z.log2 (Z.abs z) / 4)) as [Hbig|_].
  { exfalso. assert (Z.log2 (Z.abs z) / 4 ≤ Z.log2 (Z.abs z))%Z by (apply Z.div_le_upper_bound; lia). lia. }
  destruct (Z.ltb_spec (0 + Z.log2 (Z.abs z)) (-400)); [lia|]. cbn [Z.leb Z.compare].
  apply normalize_finite. unfold in_i64, two63 in Hz. destruct (z <? 0)%Z; lia.
Qed.

End FloatFacts.
