(* ===== verification/GoBase64.v ===== *)
(** * encoding/base64: the standard encoding

    [EncodeToString] and [DecodeString], over bytes as numbers: line breaks are
    skipped, padding is required and ends the input. *)
From S2P Require Import Prelude GoJson.
Import GoJson.

Module Base64.

Definition enc6 (v : Z) : ascii :=
  if (v <? 26)%Z then chr (65 + v)
  else if (v <? 52)%Z then chr (71 + v)
  else if (v <? 62)%Z then chr (v - 4)
  else if (v =? 62)%Z then "+"%char else "/"%char.

Definition dec6 (a : ascii) : option Z :=
  let z := bval a in
  if in_range 65 90 z then Some (z - 65)%Z
  else if in_range 97 122 z then Some (z - 71)%Z
  else if in_range 48 57 z then Some (z + 4)%Z
  else if (z =? 43)%Z then Some 62%Z
  else if (z =? 47)%Z then Some 63%Z
  else None.

(** [EncodeToString] of a Go string holding the bytes. *)
Fixpoint Encode (s : string) : string :=
  match s with
  | EmptyString => ""
  | String a EmptyString =>
      let x := bval a in
      String (enc6 (Z.shiftr x 2)) (String (enc6 (Z.land x 3 * 16)) "==")
  | String a (String b EmptyString) =>
      let x := (bval a * 256 + bval b)%Z in
      String (enc6 (Z.shiftr x 10)) (String (enc6 (Z.land (Z.shiftr x 4) 63))
        (String (enc6 (Z.land x 15 * 4)) "="))
  | String a (String b (String c r)) =>
      let x := (bval a * 65536 + bval b * 256 + bval c)%Z in
      String (enc6 (Z.shiftr x 18)) (String (enc6 (Z.land (Z.shiftr x 12) 63))
        (String (enc6 (Z.land (Z.shiftr x 6) 63)) (String (enc6 (Z.land x 63))
          (Encode r))))
  end.

Fixpoint strip_newlines (s : string) : string :=
  match s with
  | EmptyString => ""
  | String a r =>
      if bool_decide (a = "010"%char ∨ a = "013"%char) then strip_newlines r
      else String a (strip_newlines r)
  end.

Fixpoint quanta (s : string) : option string :=
  match s with
  | EmptyString => Some ""
  | String a (String b (String c (String d r))) =>
      va ← dec6 a; vb ← dec6 b;
      if bool_decide (d = "="%char ∧ r = "") then
        if bool_decide (c = "="%char) then
          Some (String (chr (va * 4 + Z.shiftr vb 4)) "")
        else
          vc ← dec6 c;
          Some (String (chr (va * 4 + Z.shiftr vb 4))
                 (String (chr (Z.land vb 15 * 16 + Z.shiftr vc 2)) ""))
      else
        vc ← dec6 c; vd ← dec6 d; t ← quanta r;
        Some (String (chr (va * 4 + Z.shiftr vb 4))
               (String (chr (Z.land vb 15 * 16 + Z.shiftr vc 2))
                 (String (chr (Z.land vc 3 * 64 + vd)) t)))
  | _ => None
  end.

(** [DecodeString]; [None] is a [CorruptInputError]. *)
Definition Decode (s : string) : option string := quanta (strip_newlines s).

(** *** The URL alphabet without padding ([RawURLEncoding]) *)

Definition url_char (a : ascii) : option ascii :=
  if decide (a = "-"%char) then Some "+"%char
  else if decide (a = "_"%char) then Some "/"%char
  else if decide (a = "+"%char ∨ a = "/"%char ∨ a = "="%char) then None
  else Some a.

Fixpoint url_chars (s : string) : option string :=
  match s with
  | EmptyString => Some ""
  | String a r => b ← url_char a; t ← url_chars r; Some (String b t)
  end.

Definition RawURLDecode (s : string) : option string :=
  t ← url_chars (strip_newlines s);
  match String.length t mod 4 with
  | 0 => quanta t
  | 2 => quanta (t +:+ "==")
  | 3 => quanta (t +:+ "=")
  | _ => None
  end.

Fixpoint to_url (s : string) : string :=
  match s with
  | EmptyString => ""
  | String a r =>
      if decide (a = "="%char) then to_url r
      else String (if decide (a = "+"%char) then "-"%char
                   else if decide (a = "/"%char) then "_"%char else a) (to_url r)
  end.

Definition RawURLEncode (s : string) : string := to_url (Encode s).

(** ** Round trip *)

(** A property of the six-bit values, checked on each of them. *)
Lemma six_bits (P : Z → Prop) `{∀ v, Decision (P v)} :
  bool_decide (Forall P (Z.of_nat <$> seq 0 64)) = true → ∀ v, (0 ≤ v < 64)%Z → P v.
Proof.
  rewrite bool_decide_eq_true, Forall_forall. intros HP v Hv. apply HP, list_elem_of_fmap.
  exists (Z.to_nat v). split; [lia|]. apply elem_of_seq. lia.
Qed.

Lemma dec6_enc6 v : (0 ≤ v < 64)%Z → dec6 (enc6 v) = Some v.
Proof. revert v. apply six_bits with (H := _). by vm_compute. Qed.

Lemma enc6_plain v : (0 ≤ v < 64)%Z →
  enc6 v ≠ "="%char ∧ enc6 v ≠ "010"%char ∧ enc6 v ≠ "013"%char.
Proof. revert v. apply six_bits with (H := _). by vm_compute. Qed.

Lemma land3 x : Z.land x 3 = (x mod 4)%Z.
Proof. apply (Z.land_ones x 2). done. Qed.
Lemma land15 x : Z.land x 15 = (x mod 16)%Z.
Proof. apply (Z.land_ones x 4). done. Qed.
Lemma land63 x : Z.land x 63 = (x mod 64)%Z.
Proof. apply (Z.land_ones x 6). done. Qed.

(** Shifts and masks as division and remainder, which [lia] decides. *)
Ltac bits :=
  rewrite ?land3, ?land15, ?land63, ?Z.shiftr_div_pow2 by lia;
  change (2 ^ 2)%Z with 4%Z; change (2 ^ 4)%Z with 16%Z; change (2 ^ 6)%Z with 64%Z;
  change (2 ^ 10)%Z with 1024%Z; change (2 ^ 12)%Z with 4096%Z;
  change (2 ^ 18)%Z with 262144%Z;
  Z.to_euclidean_division_equations; lia.

Lemma strip_cons v r : (0 ≤ v < 64)%Z →
  strip_newlines (String (enc6 v) r) = String (enc6 v) (strip_newlines r).
Proof.
  intros Hv. destruct (enc6_plain v Hv) as (_ & H1 & H2). cbn [strip_newlines].
  by rewrite bool_decide_eq_false_2 by naive_solver.
Qed.

(** A quantum of four digits without padding. *)
Lemma quanta_cons va vb vc vd r :
  (0 ≤ va < 64)%Z → (0 ≤ vb < 64)%Z → (0 ≤ vc < 64)%Z → (0 ≤ vd < 64)%Z →
  quanta (String (enc6 va) (String (enc6 vb) (String (enc6 vc) (String (enc6 vd) r)))) =
  t ← quanta r;
  Some (String (chr (va * 4 + Z.shiftr vb 4))
         (String (chr (Z.land vb 15 * 16 + Z.shiftr vc 2))
           (String (chr (Z.land vc 3 * 64 + vd)) t))).
Proof.
  intros Ha Hb Hc Hd. cbn [quanta]. rewrite !dec6_enc6 by done. simpl.
  destruct (enc6_plain vd Hd) as [Hne _].
  rewrite bool_decide_eq_false_2 by naive_solver. done.
Qed.

(** Two and one digits before the padding. *)
Lemma quanta_pad1 va vb vc :
  (0 ≤ va < 64)%Z → (0 ≤ vb < 64)%Z → (0 ≤ vc < 64)%Z →
  quanta (String (enc6 va) (String (enc6 vb) (String (enc6 vc) "="))) =
  Some (String (chr (va * 4 + Z.shiftr vb 4))
         (String (chr (Z.land vb 15 * 16 + Z.shiftr vc 2)) "")).
Proof.
  intros Ha Hb Hc. cbn [quanta]. rewrite !dec6_enc6 by done. simpl.
  destruct (enc6_plain vc Hc) as [Hne _].
  rewrite bool_decide_eq_false_2 by done. done.
Qed.

Lemma quanta_pad2 va vb :
  (0 ≤ va < 64)%Z → (0 ≤ vb < 64)%Z →
  quanta (String (enc6 va) (String (enc6 vb) "==")) =
  Some (String (chr (va * 4 + Z.shiftr vb 4)) "").
Proof. intros Ha Hb. cbn [quanta]. by rewrite !dec6_enc6. Qed.

Lemma chr_eq z a : z = bval a → chr z = a.
Proof. intros ->. apply chr_bval. Qed.

(** Induction three bytes at a time. *)
Lemma string_ind3 (P : string → Prop) :
  P "" → (∀ a, P (String a "")) → (∀ a b, P (String a (String b ""))) →
  (∀ a b c r, P r → P (String a (String b (String c r)))) → ∀ s, P s.
Proof.
  intros H0 H1 H2 H3 s. remember (String.length s) as n eqn:Hn. revert s Hn.
  induction (lt_wf n) as [n _ IH]. intros s ->.
  destruct s as [|a [|b [|c r]]]; [done|done|done|].
  apply H3. eapply IH; [|done]. simpl. lia.
Qed.

Lemma strip_Encode s : strip_newlines (Encode s) = Encode s.
Proof.
  induction s as [|a|a b|a b c r IH] using string_ind3; [done|..]; cbn [Encode];
    pose proof (bval_range a); try pose proof (bval_range b); try pose proof (bval_range c);
    repeat (rewrite strip_cons; [f_equal|bits]); done.
Qed.

Lemma Decode_Encode s : Decode (Encode s) = Some s.
Proof.
  unfold Decode. rewrite strip_Encode.
  induction s as [|a|a b|a b c r IH] using string_ind3; [done|..]; cbn [Encode];
    pose proof (bval_range a); try pose proof (bval_range b); try pose proof (bval_range c).
  - rewrite quanta_pad2 by bits. repeat f_equal. apply chr_eq. bits.
  - rewrite quanta_pad1 by bits. repeat f_equal; apply chr_eq; bits.
  - rewrite quanta_cons by bits. rewrite IH. simpl. repeat f_equal; apply chr_eq; bits.
Qed.

End Base64.
