(* ===== verification/MemFS.v ===== *)
(** * internal/vfs/memfs.go: the in-memory file system

    The tree of inodes is owned by one [MemFS]: no pointer into it escapes (reads
    copy, [Stat] returns a shallow copy without body and children), so a tree
    value models it, and an assignment through a node pointer is the replacement
    of the subtree at that location ([put]).  The mutex makes every method one
    atomic step.  Ghost component: [released] collects the body buffers that
    became unreachable, with the contents they had at that moment. *)
From S2P Require Import Prelude GoStrings GoPath.
Import GoStr GoPath.

Module MemFS.

(** ** Data *)

Inductive error :=
  | ErrNotFound | ErrExists | ErrNotDir | ErrIsDir | ErrQuota | ErrInvalidPath
  | ErrDirNotEmpty.

#[export] Instance error_eq_dec : EqDecision error.
Proof. solve_decision. Defined.

(** [Node]: [Data] is meaningful for files, [Children] for directories; a nil
    slice or map is the empty one. *)
Inductive Node := MkNode {
  Name : string;
  IsDir : bool;
  Mode : Z;
  ModTime : Z;
  Data : bytes;
  Children : gmap string Node;
}.

Record MemFS := MkMemFS {
  root : Node;
  used : Z;
  quota : Z;
  version : Z;
  released : list bytes;
}.

Record ManifestEntry := MkEntry {
  Path : string;
  SHA : string;
  Size : Z;
  EModTime : Z;
}.

(** [fs.ModeDir] is bit 31 of a [FileMode]. *)
Definition ModeDir : Z := (2 ^ 31)%Z.

(** The readings of [time.Now()] during one call, in order. *)
Definition clock : Type := nat → Z.

Definition new_dir (name : string) (mode now : Z) : Node :=
  MkNode name true (Z.lor mode ModeDir) now [] ∅.

Definition new_file (name : string) (mode now : Z) (data : bytes) : Node :=
  MkNode name false (Z.ldiff mode ModeDir) now data ∅.

Definition new_root (now : Z) : Node := new_dir "/" 493 now.

(** [New]. *)
Definition New (now : clock) (quotaBytes : Z) : MemFS :=
  MkMemFS (new_root (now 0)) 0 quotaBytes 0 [].

Definition Used (m : MemFS) : Z := used m.
Definition Version (m : MemFS) : Z := version m.

Definition set_root (m : MemFS) (r : Node) : MemFS :=
  MkMemFS r (used m) (quota m) (version m) (released m).

(** Commit of a mutation: new tree and usage, [m.version++]. *)
Definition commit (m : MemFS) (r : Node) (u : Z) (freed : list bytes) : MemFS :=
  MkMemFS r u (quota m) (i64 (version m + 1)) (freed ++ released m).

Definition with_children (n : Node) (ch : gmap string Node) : Node :=
  MkNode (Name n) (IsDir n) (Mode n) (ModTime n) (Data n) ch.

Definition with_mtime (n : Node) (t : Z) : Node :=
  MkNode (Name n) (IsDir n) (Mode n) t (Data n) (Children n).

Definition with_data (n : Node) (b : bytes) : Node :=
  MkNode (Name n) (IsDir n) (Mode n) (ModTime n) b (Children n).

(** [zeroBytes]: the loop stores 0 at every index. *)
Definition zeroBytes (b : bytes) : bytes := (λ _, Byte.x00) <$> b.

(** ** Paths *)

Definition normalize (p : string) : result error (list string) :=
  if decide (p = "") then Err ErrInvalidPath
  else
    let p := Clean ("/" +:+ p) in
    if decide (p = "/") then Ok []
    else if Contains p ".." then Err ErrInvalidPath
    else Ok (Split (TrimPrefix p "/") slash).

Fixpoint walk (n : Node) (parts : list string) : result error Node :=
  match parts with
  | [] => Ok n
  | part :: rest =>
      if negb (IsDir n) then Err ErrNotDir
      else match Children n !! part with
           | None => Err ErrNotFound
           | Some child => walk child rest
           end
  end.

(** The parent pointer is returned as its location with the node found there. *)
Definition walkParent (r : Node) (parts : list string)
  : result error (list string * Node * string) :=
  match last parts with
  | None => Err ErrInvalidPath
  | Some name =>
      let dir := List.removelast parts in
      let? parent := walk r dir in
      if negb (IsDir parent) then Err ErrNotDir else Ok (dir, parent, name)
  end.

(** Assignment through the pointer to the node at [loc]. *)
Fixpoint put (n : Node) (loc : list string) (x : Node) : Node :=
  match loc with
  | [] => x
  | k :: loc =>
      match Children n !! k with
      | Some c => with_children n (<[k := put c loc x]> (Children n))
      | None => n
      end
  end.

(** ** Operations *)

Definition Mkdir (now : clock) (m : MemFS) (p : string) (mode : Z)
  : result error unit * MemFS :=
  match normalize p with
  | Err e => (Err e, m)
  | Ok parts =>
      if decide (parts = []) then (Err ErrExists, m)
      else match walkParent (root m) parts with
      | Err e => (Err e, m)
      | Ok (dir, parent, name) =>
          match Children parent !! name with
          | Some _ => (Err ErrExists, m)
          | None =>
              let ch := <[name := new_dir name mode (now 0)]> (Children parent) in
              let parent' := with_mtime (with_children parent ch) (now 1) in
              (Ok tt, commit m (put (root m) dir parent') (used m) [])
          end
      end
  end.

(** The loop of [MkdirAll]; [i] counts the directories created so far, each of
    which reads the clock once. *)
Fixpoint mkdir_loop (now : clock) (i : nat) (mode : Z) (cur : Node)
    (parts : list string) : result error unit * Node :=
  match parts with
  | [] => (Ok tt, cur)
  | part :: rest =>
      match Children cur !! part with
      | None =>
          let child := new_dir part mode (now i) in
          let (r, child') := mkdir_loop now (S i) mode child rest in
          (r, with_children cur (<[part := child']> (Children cur)))
      | Some child =>
          if negb (IsDir child) then (Err ErrNotDir, cur)
          else
            let (r, child') := mkdir_loop now i mode child rest in
            (r, with_children cur (<[part := child']> (Children cur)))
      end
  end.

Definition MkdirAll (now : clock) (m : MemFS) (p : string) (mode : Z)
  : result error unit * MemFS :=
  match normalize p with
  | Err e => (Err e, m)
  | Ok parts =>
      match mkdir_loop now 0 mode (root m) parts with
      | (Err e, r) => (Err e, set_root m r)
      | (Ok _, r) => (Ok tt, commit m r (used m) [])
      end
  end.

(** [m.quota > 0 && m.used-oldSize+newSize > m.quota], in [int64]. *)
Definition over_quota (m : MemFS) (oldSize newSize : Z) : bool :=
  (0 <? quota m)%Z && (quota m <? i64 (i64 (used m - oldSize) + newSize))%Z.

Definition Write (now : clock) (m : MemFS) (p : string) (data : bytes) (mode : Z)
  : result error unit * MemFS :=
  match normalize p with
  | Err e => (Err e, m)
  | Ok parts =>
      if decide (parts = []) then (Err ErrIsDir, m)
      else match walkParent (root m) parts with
      | Err e => (Err e, m)
      | Ok (dir, parent, name) =>
          (* [oldSize], the children after [zeroBytes(existing.Data)], and the
             buffer the new node will replace *)
          let proceed oldSize ch freed :=
            let newSize := len data in
            if over_quota m oldSize newSize
            then (Err ErrQuota, set_root m (put (root m) dir (with_children parent ch)))
            else
              let ch' := <[name := new_file name mode (now 0) data]> ch in
              let parent' := with_mtime (with_children parent ch') (now 1) in
              (Ok tt, commit m (put (root m) dir parent')
                             (i64 (i64 (used m - oldSize) + newSize)) freed)
          in
          match Children parent !! name with
          | Some existing =>
              if IsDir existing then (Err ErrIsDir, m)
              else
                let z := zeroBytes (Data existing) in
                proceed (len (Data existing))
                        (<[name := with_data existing z]> (Children parent)) [z]
          | None => proceed 0%Z (Children parent) []
          end
      end
  end.

Definition Read (m : MemFS) (p : string) : result error bytes :=
  let? parts := normalize p in
  let? n := walk (root m) parts in
  if IsDir n then Err ErrIsDir else Ok (Data n).

Definition Remove (now : clock) (m : MemFS) (p : string)
  : result error unit * MemFS :=
  match normalize p with
  | Err e => (Err e, m)
  | Ok parts =>
      if decide (parts = []) then (Err ErrInvalidPath, m)
      else match walkParent (root m) parts with
      | Err e => (Err e, m)
      | Ok (dir, parent, name) =>
          match Children parent !! name with
          | None => (Err ErrNotFound, m)
          | Some child =>
              if IsDir child && negb (bool_decide (Children child = ∅))
              then (Err ErrDirNotEmpty, m)
              else
                let ch := delete name (Children parent) in
                let parent' := with_mtime (with_children parent ch) (now 0) in
                let r := put (root m) dir parent' in
                if IsDir child then (Ok tt, commit m r (used m) [])
                else (Ok tt, commit m r (i64 (used m - len (Data child)))
                                    [zeroBytes (Data child)])
          end
      end
  end.

Definition Stat (m : MemFS) (p : string) : result error Node :=
  let? parts := normalize p in
  let? n := walk (root m) parts in
  Ok (MkNode (Name n) (IsDir n) (Mode n) (ModTime n) [] ∅).

Definition List (m : MemFS) (p : string) : result error (list string) :=
  let? parts := normalize p in
  let? n := walk (root m) parts in
  if negb (IsDir n) then Err ErrNotDir
  else Ok (sort_strings (map_to_list (Children n)).*1).

(** The walk of [Manifest] and [Snapshot]: every file body with its path, in the
    order the map happens to be iterated (here [map_to_list]'s). *)
Fixpoint files (prefix : string) (n : Node) : list (string * Node) :=
  match n with
  | MkNode _ dir _ _ _ ch =>
      if dir then map_fold (λ name c acc, files (Join2 prefix name) c ++ acc) [] ch
      else [(prefix, n)]
  end.

Section Manifest.
(** [hex.EncodeToString(sha256.Sum256(b))]. *)
Context (sha256_hex : bytes → string).

Definition manifest_entry (f : string * Node) : ManifestEntry :=
  MkEntry f.1 (sha256_hex (Data f.2)) (len (Data f.2)) (ModTime f.2).

Definition Manifest (m : MemFS) : list ManifestEntry :=
  sort_by Path (manifest_entry <$> files "/" (root m)).
End Manifest.

Definition Snapshot (m : MemFS) : gmap string bytes :=
  list_to_map ((λ f, (f.1, Data f.2)) <$> files "/" (root m)).

(** The buffers the walk of [Wipe] zeroes and drops. *)
Fixpoint wipe_walk (n : Node) : list bytes :=
  match n with
  | MkNode _ dir _ _ data ch =>
      if dir then map_fold (λ _ c acc, wipe_walk c ++ acc) [] ch
      else [zeroBytes data]
  end.

Definition Wipe (now : clock) (m : MemFS) : MemFS :=
  commit m (new_root (now 0)) 0 (wipe_walk (root m)).

End MemFS.
