(* ===== verification/MemFSFacts.v ===== *)
(** * The in-memory file system: well-formedness, usage accounting, locations

    The vocabulary the theorems about [MemFS] are stated in (well-formed trees,
    bytes held by a tree, what a location shows) and the lemmas that relate it to
    the walks and pointer assignments of the code. *)
From S2P Require Import Prelude GoStrings GoPath MemFS.
Import GoStr GoPath MemFS.

Module FSFacts.

(** ** Names and well-formed trees *)

(** A key of a children map: a plain path element without [..] inside. *)
Definition valid_name (n : string) : Prop := plain_name n ∧ Contains n ".." = false.

#[export] Instance valid_name_dec n : Decision (valid_name n).
Proof. unfold valid_name. apply _. Defined.

Inductive wf_node : Node → Prop :=
  | wf_file name mode t data :
      Z.testbit mode 31 = false → wf_node (MkNode name false mode t data ∅)
  | wf_dir name mode t ch :
      Z.testbit mode 31 = true →
      map_Forall (λ k c, Name c = k ∧ valid_name k ∧ wf_node c) ch →
      wf_node (MkNode name true mode t [] ch).

(** Bytes held by a tree. *)
Fixpoint total (n : Node) : Z :=
  match n with
  | MkNode _ dir _ _ data ch =>
      if dir then map_fold (λ _ c acc, (total c + acc)%Z) 0%Z ch else len data
  end.

Lemma total_file n : IsDir n = false → total n = len (Data n).
Proof. destruct n. simpl. by intros ->. Qed.

Lemma total_dir n : IsDir n = true → total n = msum total (Children n).
Proof. destruct n. simpl. by intros ->. Qed.

(** Induction on trees. *)
Fixpoint height (n : Node) : nat :=
  match n with
  | MkNode _ _ _ _ _ ch => S (map_fold (λ _ c acc, height c `max` acc) 0 ch)
  end.

Lemma height_child n k c : Children n !! k = Some c → height c < height n.
Proof.
  destruct n as [nm d mo t b ch]. simpl. intros Hk.
  assert (height c ≤ map_fold (λ _ c acc, height c `max` acc) 0 ch); [|lia].
  induction ch as [|j x ch Hj IH] using map_ind; [by rewrite lookup_empty in Hk|].
  rewrite map_fold_insert_L; [|intros; lia|done].
  destruct (decide (k = j)) as [->|Hne].
  - rewrite lookup_insert_eq in Hk. simplify_eq. lia.
  - rewrite lookup_insert_ne in Hk by done. specialize (IH Hk). lia.
Qed.

Lemma Node_ind_children (P : Node → Prop) :
  (∀ n, (∀ k c, Children n !! k = Some c → P c) → P n) → ∀ n, P n.
Proof.
  intros Hstep n. remember (height n) as h eqn:Hh. revert n Hh.
  induction (lt_wf h) as [h _ IH]. intros n ->. apply Hstep. intros k c Hc.
  eapply IH; [by eapply height_child|done].
Qed.

Lemma total_nonneg n : (0 ≤ total n)%Z.
Proof.
  induction n as [n IH] using Node_ind_children.
  destruct (IsDir n) eqn:Hd.
  - rewrite total_dir by done. clear Hd. induction (Children n) as [|k c ch Hk IHm] using map_ind.
    + by rewrite msum_empty.
    + rewrite msum_insert by done.
      assert (0 ≤ total c)%Z by (apply (IH k); by rewrite lookup_insert_eq).
      assert (0 ≤ msum total ch)%Z; [|lia]. apply IHm. intros j x Hj.
      apply (IH j). rewrite lookup_insert_ne by congruence. done.
  - rewrite total_file by done. apply len_nonneg.
Qed.

Lemma total_child_le n k c :
  IsDir n = true → Children n !! k = Some c → (total c ≤ total n)%Z.
Proof.
  intros Hd Hc. rewrite (total_dir n) by done.
  pose proof (msum_delete total _ _ _ Hc).
  pose proof (msum_nonneg total (delete k (Children n)) total_nonneg). lia.
Qed.

(** ** Locations *)

(** The node at a location, following children regardless of their kind. *)
Fixpoint at_path (n : Node) (ps : list string) : option Node :=
  match ps with
  | [] => Some n
  | p :: ps => c ← Children n !! p; at_path c ps
  end.

Lemma at_path_app n ps qs : at_path n (ps ++ qs) = x ← at_path n ps; at_path x qs.
Proof.
  revert n. induction ps as [|p ps IH]; intros n; [done|]. simpl.
  destruct (Children n !! p); simpl; [apply IH|done].
Qed.

Lemma wf_child n k c : wf_node n → Children n !! k = Some c →
  IsDir n = true ∧ Name c = k ∧ valid_name k ∧ wf_node c.
Proof.
  intros [] Hk; simpl in *; [by rewrite lookup_empty in Hk|].
  split; [done|]. by apply H0.
Qed.

Lemma wf_at_path n ps x : wf_node n → at_path n ps = Some x → wf_node x.
Proof.
  revert n. induction ps as [|p ps IH]; intros n Hwf Hx; simplify_eq/=; [done|].
  apply bind_Some in Hx as (c & Hc & Hx). eapply IH; [|done].
  by eapply wf_child.
Qed.

(** On well-formed trees the code's walk finds exactly the node at the path. *)
Lemma walk_at_path n ps x : wf_node n → walk n ps = Ok x ↔ at_path n ps = Some x.
Proof.
  revert n. induction ps as [|p ps IH]; intros n Hwf; simpl; [naive_solver|].
  destruct (Children n !! p) as [c|] eqn:Hc; simpl.
  - destruct (wf_child _ _ _ Hwf Hc) as (-> & _ & _ & Hwc). by apply IH.
  - by destruct (IsDir n).
Qed.

Lemma walk_ok_at_path n ps x : walk n ps = Ok x → at_path n ps = Some x.
Proof.
  revert n. induction ps as [|p ps IH]; intros n; simpl; [naive_solver|].
  destruct (IsDir n); [simpl|done]. destruct (Children n !! p); [apply IH|done].
Qed.

(** What a location shows: nothing, a directory, or a file with its body. *)
Inductive entry := EDir | EFile (b : bytes).

Definition entry_of (n : Node) : entry := if IsDir n then EDir else EFile (Data n).

Definition view_node (n : Node) (q : list string) : option entry :=
  entry_of <$> at_path n q.

Definition view (m : MemFS) : list string → option entry := view_node (root m).

Lemma view_node_cons n k q :
  view_node n (k :: q) = c ← Children n !! k; view_node c q.
Proof. unfold view_node. simpl. by destruct (Children n !! k). Qed.

Lemma view_file n q : wf_node n → IsDir n = false → q ≠ [] → view_node n q = None.
Proof.
  intros [] Hd Hq; [|done]. destruct q; [done|].
  rewrite view_node_cons. simpl. by rewrite lookup_empty.
Qed.

(** *** Assignment through a pointer *)

Lemma put_app n loc k x c : at_path n loc = Some c →
  put n (loc ++ [k]) x =
  match Children c !! k with
  | Some _ => put n loc (with_children c (<[k:=x]> (Children c)))
  | None => put n loc c
  end.
Proof.
  revert n. induction loc as [|l loc IH]; intros n Hc; simplify_eq/=.
  - by case_match.
  - apply bind_Some in Hc as (d & Hd & Hc). rewrite Hd, (IH _ Hc). by case_match.
Qed.

Lemma at_put_same n loc x y q : at_path n loc = Some y →
  at_path (put n loc x) (loc ++ q) = at_path x q.
Proof.
  revert n. induction loc as [|l loc IH]; intros n Hy; simplify_eq/=; [done|].
  apply bind_Some in Hy as (d & Hd & Hy). rewrite Hd. simpl.
  rewrite lookup_insert_eq. simpl. by apply IH.
Qed.

(** Replacing the node at [loc] by one that differs in the child [k] only
    changes what is shown at [loc ++ [k]] and below it. *)
Lemma view_put_child_in n loc p p' k q :
  at_path n loc = Some p →
  view_node (put n loc p') (loc ++ k :: q) = c ← Children p' !! k; view_node c q.
Proof.
  intros Hp. unfold view_node at 1. rewrite (at_put_same _ _ _ _ _ Hp).
  change (entry_of <$> at_path p' (k :: q)) with (view_node p' (k :: q)).
  apply view_node_cons.
Qed.

Lemma view_put_child_out n loc p p' k q :
  at_path n loc = Some p → entry_of p' = entry_of p →
  (∀ j, j ≠ k → Children p' !! j = Children p !! j) →
  ¬ (loc ++ [k]) `prefix_of` q →
  view_node (put n loc p') q = view_node n q.
Proof.
  intros Hp He Hch. revert n q Hp. induction loc as [|l loc IH]; intros n q Hp Hq.
  - simplify_eq/=. destruct q as [|j q]; [unfold view_node; simpl; by rewrite He|].
    rewrite !view_node_cons, Hch; [done|]. intros ->. apply Hq. by exists q.
  - simpl in Hp. apply bind_Some in Hp as (d & Hd & Hp). simpl. rewrite Hd.
    destruct q as [|j q]; [done|]. rewrite !view_node_cons. simpl.
    destruct (decide (j = l)) as [->|Hne].
    + rewrite lookup_insert_eq, Hd. simpl. apply IH; [done|].
      intros [r Hr]. apply Hq. exists r. simpl. by rewrite Hr.
    + by rewrite lookup_insert_ne.
Qed.

Lemma put_same_shape n loc p p' :
  at_path n loc = Some p → loc ≠ [] ∨ (Name p' = Name p ∧ IsDir p' = IsDir p) →
  Name (put n loc p') = Name n ∧ IsDir (put n loc p') = IsDir n.
Proof.
  destruct loc as [|l loc]; simpl; [naive_solver|].
  intros Hp _. apply bind_Some in Hp as (d & -> & _). done.
Qed.

Lemma wf_with_child n k c :
  wf_node n → Children n !! k = Some c → ∀ c', wf_node c' → Name c' = Name c →
  wf_node (with_children n (<[k:=c']> (Children n))).
Proof.
  intros Hn Hc c' Hc' Hname. destruct Hn as [|nm mo t ch Hm Hch]; simpl in *.
  { by rewrite lookup_empty in Hc. }
  constructor; [done|]. destruct (Hch _ _ Hc) as (Hk & Hv & _).
  apply map_Forall_insert_2; [|done]. rewrite Hname. done.
Qed.

Lemma put_name n loc p p' :
  at_path n loc = Some p → Name p' = Name p → Name (put n loc p') = Name n.
Proof.
  destruct loc as [|l loc]; simpl; [naive_solver|].
  intros Hp _. by apply bind_Some in Hp as (d & -> & _).
Qed.

Lemma wf_put n loc p p' :
  wf_node n → at_path n loc = Some p → wf_node p' → Name p' = Name p →
  wf_node (put n loc p').
Proof.
  intros Hn Hp Hp' Hname. revert n Hn Hp.
  induction loc as [|l loc IH]; intros n Hn Hp; [done|]. simpl in *.
  apply bind_Some in Hp as (d & Hd & Hp). rewrite Hd.
  apply (wf_with_child _ _ _ Hn Hd).
  - apply IH; [|done]. by eapply wf_child.
  - by eapply put_name.
Qed.

Lemma total_put n loc p p' :
  wf_node n → at_path n loc = Some p →
  total (put n loc p') = (total n - total p + total p')%Z.
Proof.
  intros Hn Hp. revert n Hn Hp. induction loc as [|l loc IH]; intros n Hn Hp.
  - simplify_eq/=. lia.
  - simpl in *. apply bind_Some in Hp as (d & Hd & Hp). rewrite Hd.
    destruct (wf_child _ _ _ Hn Hd) as (Hdir & _ & _ & Hwd).
    rewrite total_dir by (by destruct n). rewrite (total_dir n) by done. simpl.
    rewrite (msum_replace _ _ _ _ _ Hd), (IH _ Hwd Hp). lia.
Qed.

Lemma total_at_path_le n ps x :
  wf_node n → at_path n ps = Some x → (total x ≤ total n)%Z.
Proof.
  revert n. induction ps as [|p ps IH]; intros n Hwf Hx; simplify_eq/=; [done|].
  apply bind_Some in Hx as (c & Hc & Hx).
  destruct (wf_child _ _ _ Hwf Hc) as (Hd & _ & _ & Hwc).
  pose proof (total_child_le _ _ _ Hd Hc). specialize (IH _ Hwc Hx). lia.
Qed.

(** ** Zeroing *)

Lemma zeroBytes_zeros b : zeroBytes b = zeros (length b).
Proof.
  unfold zeroBytes, zeros. induction b as [|x b IH]; [done|].
  rewrite fmap_cons, IH. done.
Qed.

Lemma zeroBytes_all_zero b : all_zero (zeroBytes b).
Proof. rewrite zeroBytes_zeros. apply zeros_all_zero. Qed.

Lemma len_zeroBytes b : len (zeroBytes b) = len b.
Proof. unfold len, zeroBytes. by rewrite length_fmap. Qed.

(** ** Paths given to the methods *)

Lemma walkParent_ok r parts dir p name :
  walkParent r parts = Ok (dir, p, name) →
  parts = dir ++ [name] ∧ at_path r dir = Some p ∧ IsDir p = true.
Proof.
  unfold walkParent. destruct (last parts) as [n|] eqn:Hl; [|done].
  apply last_Some in Hl as [l ->]. rewrite List.removelast_last.
  destruct (walk r l) as [q|] eqn:Hw; [|done].
  destruct (IsDir q) eqn:Hd; [|done]. simpl. intros. simplify_eq.
  split; [done|]. split; [by apply walk_ok_at_path|done].
Qed.

Lemma rooted_path_not_root l : l ≠ [] → Forall plain_name l → rooted_path l ≠ "/".
Proof.
  intros Hne Hl Heq. destruct Hl as [|x l (Hx & _) _]; [done|].
  unfold rooted_path in Heq. rewrite sapp_cons in Heq. simplify_eq.
  destruct x as [|a x]; [done|]. by destruct l.
Qed.

Lemma Contains_app s t p : Contains s p = true → Contains (s +:+ t) p = true.
Proof.
  rewrite !Contains_spec. intros (u & v & ->). exists u, (v +:+ t).
  by rewrite !sapp_assoc.
Qed.

Lemma Contains_app_r s t p : Contains t p = true → Contains (s +:+ t) p = true.
Proof.
  rewrite !Contains_spec. intros (u & v & ->). exists (s +:+ u), v.
  by rewrite !sapp_assoc.
Qed.

Lemma Contains_Join l x p sep :
  x ∈ l → Contains x p = true → Contains (Join l sep) p = true.
Proof.
  intros Hx Hp. induction Hx as [x l|x y l Hx IH].
  - destruct l; [done|]. rewrite Join_cons. by apply Contains_app.
  - destruct l as [|z l]; [by apply elem_of_nil in Hx|]. rewrite Join_cons.
    apply Contains_app_r, Contains_app_r. by apply IH.
Qed.

Lemma normalize_valid p parts : normalize p = Ok parts → Forall valid_name parts.
Proof.
  unfold normalize. case_decide; [done|].
  change ("/" +:+ p) with (String slash p). rewrite Clean_rooted.
  pose proof (clean_elems_rooted _ (Split_parts p slash)) as Hpl.
  set (l := clean_elems true (Split p slash)) in *. clearbody l.
  case_decide as Hroot; [intros; by simplify_eq|].
  destruct (Contains (rooted_path l) "..") eqn:Hc; [done|]. intros Heq. simplify_eq.
  unfold rooted_path at 1. rewrite TrimPrefix_app.
  assert (l ≠ []) by (by intros ->).
  change "/" with (str1 slash). rewrite Split_Join by (by try apply plain_no_slash).
  apply Forall_forall. intros x Hx. rewrite Forall_forall in Hpl.
  split; [by apply Hpl|]. apply not_true_iff_false. intros Hd.
  apply not_true_iff_false in Hc. apply Hc. unfold rooted_path.
  apply Contains_app_r. by eapply Contains_Join.
Qed.

(** A byte that does not occur in the pattern keeps its two sides apart. *)
Lemma HasPrefix_sep s t c p : no_byte c p →
  HasPrefix (s +:+ String c t) p = HasPrefix s p.
Proof.
  intros Hp. revert s. induction p as [|b p IH]; intros s; [by destruct s|].
  apply no_byte_cons in Hp as [Hb Hp]. destruct s as [|a s]; simpl.
  - by rewrite bool_decide_eq_false_2.
  - f_equal. by apply IH.
Qed.

Lemma Contains_sep s t c p : no_byte c p → p ≠ "" →
  Contains (s +:+ String c t) p = Contains s p || Contains t p.
Proof.
  intros Hp Hne. pose proof (HasPrefix_sep) as Hs.
  induction s as [|a s IH].
  - specialize (Hs "" t c p Hp). simpl in *. rewrite Hs. by destruct p.
  - specialize (Hs (String a s) t c p Hp). rewrite sapp_cons in *. cbn [Contains].
    rewrite Hs. fold (HasPrefix (String a s) p). rewrite IH. apply orb_assoc.
Qed.

Lemma Contains_Join_false l p : no_byte slash p → p ≠ "" →
  Forall (λ x, Contains x p = false) l → Contains (Join l "/") p = false.
Proof.
  intros Hp Hne Hl. induction Hl as [|x l Hx Hl IH]; [by destruct p|].
  destruct l as [|y l]; [done|]. rewrite Join_cons.
  change ("/" +:+ ?s) with (String slash s). rewrite Contains_sep by done. by rewrite Hx.
Qed.

Lemma normalize_rooted_path parts :
  Forall valid_name parts → normalize (rooted_path parts) = Ok parts.
Proof.
  intros Hv. assert (Forall plain_name parts) as Hpl
    by (eapply Forall_impl; [done|by intros ? []]).
  unfold normalize. rewrite decide_False by done.
  assert (Clean ("/" +:+ rooted_path parts) = rooted_path parts) as ->.
  { change ("/" +:+ ?x) with (String slash x). rewrite Clean_rooted. unfold rooted_path at 1.
    change (Split (rooted_path parts) slash) with ("" :: Split (Join parts "/") slash).
    rewrite clean_elems_cons_empty. destruct (decide (parts = [])) as [->|Hne]; [done|].
    change "/" with (str1 slash). rewrite Split_Join by (by try apply plain_no_slash).
    by rewrite clean_elems_plain. }
  destruct (decide (parts = [])) as [->|Hne]; [done|].
  rewrite decide_False by (by apply rooted_path_not_root).
  assert (Contains (rooted_path parts) ".." = false) as ->.
  { refine (eq_trans (Contains_sep "" (Join parts "/") slash ".." _ _) _); [done..|]. simpl.
    apply Contains_Join_false; [done|done|]. eapply Forall_impl; [exact Hv|by intros ? []]. }
  unfold rooted_path at 1. rewrite TrimPrefix_app. change "/" with (str1 slash).
  by rewrite Split_Join by (by try apply plain_no_slash).
Qed.

End FSFacts.
