(* ===== verification/MemFSSpec.v ===== *)
(** * The in-memory file system: invariant, abstract specification, refinement

    [FSSpec] is what the package promises, on a map from locations to entries;
    the lemmas below show that each operation of [MemFS] keeps the invariant and
    implements its abstract counterpart. *)
From S2P Require Import Prelude GoStrings GoPath MemFS MemFSFacts.
Import GoStr GoPath MemFS FSFacts.

(** ** The invariant of a [MemFS] *)

Module FSInv.

Record inv (m : MemFS) : Prop := {
  inv_wf : wf_node (root m);
  inv_dir : IsDir (root m) = true;
  inv_used : used m = i64 (total (root m));
  inv_released : Forall all_zero (released m);
}.

(** Bytes in the tree respect a positive quota. *)
Definition quota_ok (m : MemFS) : Prop :=
  (0 < quota m → total (root m) ≤ quota m)%Z.

(** No [int64] overflow when [n] more bytes arrive (a slice never reaches
    [2^63] bytes on a real machine). *)
Definition fits (m : MemFS) (n : Z) : Prop := (total (root m) + n < two63)%Z.

(** *** One child replaced under a directory *)

Section update.
Context (r p : Node) (dir : list string) (name : string).
Context (ch' : gmap string Node) (t : Z).
Hypothesis Hwf : wf_node r.
Hypothesis Hp : at_path r dir = Some p.
Hypothesis Hdir : IsDir p = true.
Hypothesis Hagree : ∀ j, j ≠ name → ch' !! j = Children p !! j.

Definition upd_node : Node := with_mtime (with_children p ch') t.

Lemma wf_upd :
  valid_name name →
  (∀ c, ch' !! name = Some c → Name c = name ∧ wf_node c) →
  wf_node (put r dir upd_node).
Proof.
  intros Hv Hc. eapply wf_put; [done..| |done].
  pose proof (wf_at_path _ _ _ Hwf Hp) as Hwp. unfold upd_node. clear Hp.
  destruct Hwp as [|nm mo tm ch Hm Hch]; [done|]. simpl in *.
  constructor; [done|]. intros k c Hk. destruct (decide (k = name)) as [->|Hne].
  - destruct (Hc _ Hk). done.
  - rewrite Hagree in Hk by done. by apply Hch.
Qed.

Lemma dir_upd : IsDir (put r dir upd_node) = IsDir r.
Proof.
  destruct dir as [|k l]; simpl in *; [naive_solver|].
  by apply bind_Some in Hp as (c & -> & _).
Qed.

(** When what was at the child and what is there now have nothing below them,
    only the location of the child itself changes. *)
Lemma view_upd q :
  (∀ c q, Children p !! name = Some c → q ≠ [] → view_node c q = None) →
  (∀ c q, ch' !! name = Some c → q ≠ [] → view_node c q = None) →
  view_node (put r dir upd_node) q =
    if decide (q = dir ++ [name]) then entry_of <$> ch' !! name
    else view_node r q.
Proof.
  intros Hold Hnew.
  destruct (decide ((dir ++ [name]) `prefix_of` q)) as [[q' ->]|Hout].
  - rewrite <- (assoc_L (++)). simpl. rewrite (view_put_child_in _ _ _ _ _ _ Hp). simpl.
    destruct q' as [|k q'].
    + rewrite decide_True by done. unfold view_node. simpl. by destruct (ch' !! name).
    + rewrite decide_False by (intros Heq; apply (f_equal length) in Heq;
        rewrite !length_app in Heq; simpl in Heq; lia).
      transitivity (@None entry).
      * destruct (ch' !! name) as [c|] eqn:Hc; [|done]. by apply (Hnew c).
      * unfold view_node. rewrite at_path_app, Hp. simpl.
        destruct (Children p !! name) as [c|] eqn:Hc; [|done]. simpl.
        symmetry. exact (Hold c (k :: q') eq_refl ltac:(done)).
  - rewrite (view_put_child_out _ _ _ upd_node name _ Hp eq_refl Hagree Hout).
    rewrite decide_False; [done|]. intros ->. by apply Hout.
Qed.

Lemma total_upd : total (put r dir upd_node) =
  (total r - msum total (Children p) + msum total ch')%Z.
Proof.
  rewrite (total_put _ _ _ _ Hwf Hp), (total_dir p) by done.
  by rewrite (total_dir upd_node) by exact Hdir.
Qed.
End update.

Lemma view_new_dir name mode t q : q ≠ [] → view_node (new_dir name mode t) q = None.
Proof. destruct q; [done|]. intros _. rewrite view_node_cons. simpl. by rewrite lookup_empty. Qed.

Lemma view_new_file name mode t b q : q ≠ [] → view_node (new_file name mode t b) q = None.
Proof. destruct q; [done|]. intros _. rewrite view_node_cons. simpl. by rewrite lookup_empty. Qed.

Lemma wf_new_dir name mode t : wf_node (new_dir name mode t).
Proof.
  constructor; [|by apply map_Forall_empty].
  unfold ModeDir. rewrite Z.lor_spec, Z.pow2_bits_true by done. apply orb_true_r.
Qed.

Lemma wf_new_file name mode t b : wf_node (new_file name mode t b).
Proof.
  constructor. unfold ModeDir. rewrite Z.ldiff_spec, Z.pow2_bits_true by done.
  apply andb_false_r.
Qed.

Lemma total_new_dir name mode t : total (new_dir name mode t) = 0%Z.
Proof. done. Qed.

Lemma view_empty_dir n q : IsDir n = true → Children n = ∅ → q ≠ [] → view_node n q = None.
Proof.
  destruct q; [done|]. intros _ Hch _. rewrite view_node_cons, Hch, lookup_empty. done.
Qed.

End FSInv.

#[export] Hint Resolve FSInv.wf_new_dir FSInv.wf_new_file FSInv.view_new_dir
  FSInv.view_new_file FSFacts.zeroBytes_all_zero FSFacts.total_nonneg : valet.

(** ** The abstract file system *)

Module FSSpec.

Record spec := Spec {
  sview : list string → option entry;
  sused : Z;
  squota : Z;
}.

Definition abs (m : MemFS) : spec := Spec (view m) (total (root m)) (quota m).

Inductive op :=
  | OMkdir (p : string) (mode : Z)
  | OMkdirAll (p : string) (mode : Z)
  | OWrite (p : string) (data : bytes) (mode : Z)
  | ORemove (p : string)
  | OWipe.

(** Walking the abstract map, one element at a time. *)
Fixpoint resolve (v : list string → option entry) (loc rest : list string)
  : result error entry :=
  match v loc with
  | None => Err ErrNotFound
  | Some e =>
      match rest with
      | [] => Ok e
      | k :: rest =>
          match e with
          | EDir => resolve v (loc ++ [k]) rest
          | EFile _ => Err ErrNotDir
          end
      end
  end.

Definition old_size (e : option entry) : Z :=
  match e with Some (EFile b) => len b | _ => 0%Z end.

(** The operations addressed by a parent directory and a name. *)
Definition path_of (o : op) : option string :=
  match o with
  | OMkdir p _ | OWrite p _ _ | ORemove p => Some p
  | OMkdirAll _ _ | OWipe => None
  end.

Inductive fails (s : spec) : op → error → Prop :=
  | fail_path o p e : path_of o = Some p → normalize p = Err e → fails s o e
  | fail_path_all p mode e : normalize p = Err e → fails s (OMkdirAll p mode) e
  | fail_parent o p dir name e :
      path_of o = Some p → normalize p = Ok (dir ++ [name]) →
      resolve (sview s) [] dir = Err e → fails s o e
  | fail_parent_file o p dir name b :
      path_of o = Some p → normalize p = Ok (dir ++ [name]) →
      resolve (sview s) [] dir = Ok (EFile b) → fails s o ErrNotDir
  | fail_mkdir p mode parts :
      normalize p = Ok parts → is_Some (sview s parts) →
      fails s (OMkdir p mode) ErrExists
  | fail_mkdir_all p mode parts pre b :
      normalize p = Ok parts → pre `prefix_of` parts →
      sview s pre = Some (EFile b) → fails s (OMkdirAll p mode) ErrNotDir
  | fail_write_dir p data mode parts :
      normalize p = Ok parts → sview s parts = Some EDir →
      fails s (OWrite p data mode) ErrIsDir
  | fail_write_quota p data mode parts :
      normalize p = Ok parts → (0 < squota s)%Z →
      (squota s < sused s - old_size (sview s parts) + len data)%Z →
      fails s (OWrite p data mode) ErrQuota
  | fail_remove_root p : normalize p = Ok [] → fails s (ORemove p) ErrInvalidPath
  | fail_remove_missing p parts :
      normalize p = Ok parts → sview s parts = None → fails s (ORemove p) ErrNotFound
  | fail_remove_nonempty p parts k :
      normalize p = Ok parts → sview s parts = Some EDir →
      is_Some (sview s (parts ++ [k])) → fails s (ORemove p) ErrDirNotEmpty.

Definition upd (v : list string → option entry) (l : list string) (e : option entry)
  : list string → option entry := λ q, if decide (q = l) then e else v q.

(** New view (pointwise), new usage; the quota never changes. *)
Definition becomes (s s' : spec) (v : list string → option entry) (u : Z) : Prop :=
  (∀ q, sview s' q = v q) ∧ sused s' = u ∧ squota s' = squota s.

Inductive succeeds (s s' : spec) : op → Prop :=
  | ok_mkdir p mode dir name :
      normalize p = Ok (dir ++ [name]) → resolve (sview s) [] dir = Ok EDir →
      sview s (dir ++ [name]) = None →
      becomes s s' (upd (sview s) (dir ++ [name]) (Some EDir)) (sused s) →
      succeeds s s' (OMkdir p mode)
  | ok_mkdir_all p mode parts :
      normalize p = Ok parts →
      (∀ pre b, pre `prefix_of` parts → sview s pre ≠ Some (EFile b)) →
      becomes s s' (λ q, if decide (q `prefix_of` parts ∧ sview s q = None)
                         then Some EDir else sview s q) (sused s) →
      succeeds s s' (OMkdirAll p mode)
  | ok_write p data mode dir name :
      normalize p = Ok (dir ++ [name]) → resolve (sview s) [] dir = Ok EDir →
      sview s (dir ++ [name]) ≠ Some EDir →
      (0 < squota s →
        sused s - old_size (sview s (dir ++ [name])) + len data ≤ squota s)%Z →
      becomes s s' (upd (sview s) (dir ++ [name]) (Some (EFile data)))
        (sused s - old_size (sview s (dir ++ [name])) + len data)%Z →
      succeeds s s' (OWrite p data mode)
  | ok_remove p dir name e :
      normalize p = Ok (dir ++ [name]) → resolve (sview s) [] dir = Ok EDir →
      sview s (dir ++ [name]) = Some e →
      (e = EDir → ∀ k, sview s (dir ++ [name; k]) = None) →
      becomes s s' (upd (sview s) (dir ++ [name]) None) (sused s - old_size (Some e))%Z →
      succeeds s s' (ORemove p)
  | ok_wipe :
      becomes s s' (λ q, if decide (q = []) then Some EDir else None) 0%Z →
      succeeds s s' OWipe.

(** Success and failure exclude each other. *)
Lemma succeeds_not_fails s s' o e : succeeds s s' o → ¬ fails s o e.
Proof.
  intros [] Hf; inversion Hf; simplify_eq/=;
    repeat match goal with
    | H1 : ?x = Ok _, H2 : ?x = Ok _ |- _ => rewrite H1 in H2; injection H2 as H2
    | H : ?a ++ [_] = ?b ++ [_] |- _ => apply app_inj_tail in H as [??]; subst
    | H : is_Some _ |- _ => destruct H
    end; subst; try congruence; try lia; try (by destruct dir).
  - by eapply H0.
  - rewrite <- (assoc_L (++)) in H4. simpl in H4. assert (e0 = EDir) as -> by congruence.
    by rewrite H2 in H4.
Qed.

(** The concrete operations under one type. *)
Definition exec (now : clock) (m : MemFS) (o : op) : result error unit * MemFS :=
  match o with
  | OMkdir p mode => Mkdir now m p mode
  | OMkdirAll p mode => MkdirAll now m p mode
  | OWrite p data mode => Write now m p data mode
  | ORemove p => Remove now m p
  | OWipe => (Ok tt, Wipe now m)
  end.

(** Bytes an operation may add. *)
Definition incoming (o : op) : Z :=
  match o with OWrite _ data _ => len data | _ => 0%Z end.

End FSSpec.
