(* ===== verification/MemFSRefine.v ===== *)
(** * The in-memory file system implements its specification

    Each mutation is simulated by one step of the abstract file system, keeps the
    invariant and touches nothing on failure; reads are the abstract lookups. *)
From S2P Require Import Prelude GoStrings GoPath MemFS MemFSFacts MemFSSpec.
Import GoStr GoPath MemFS FSFacts FSInv FSSpec.

Module FSRefine.

(** ** Resolution of paths *)

Lemma resolve_eq v loc rest :
  resolve v loc rest =
  match v loc, rest with
  | None, _ => Err ErrNotFound
  | Some e, [] => Ok e
  | Some EDir, k :: rest => resolve v (loc ++ [k]) rest
  | Some (EFile _), _ :: _ => Err ErrNotDir
  end.
Proof. destruct rest; simpl; repeat case_match; done. Qed.

(** The walk of the code computes the abstract resolution. *)
Lemma resolve_walk n loc x rest : at_path n loc = Some x →
  resolve (view_node n) loc rest = entry_of <$> walk x rest.
Proof.
  revert loc x. induction rest as [|k rest IH]; intros loc x Hx;
    rewrite resolve_eq; unfold view_node at 1; rewrite Hx; simpl;
    [by destruct (entry_of x)|].
  unfold entry_of at 1. destruct (IsDir x); [simpl|done].
  assert (at_path n (loc ++ [k]) = Children x !! k) as Hk.
  { rewrite at_path_app, Hx. simpl. by destruct (Children x !! k). }
  destruct (Children x !! k) as [c|]; [by apply IH|].
  rewrite resolve_eq. unfold view_node. by rewrite Hk.
Qed.

Lemma resolve_root m rest :
  resolve (view m) [] rest = entry_of <$> walk (root m) rest.
Proof. by apply resolve_walk. Qed.

Lemma view_walk m parts : inv m →
  view m parts = match walk (root m) parts with Ok n => Some (entry_of n) | Err _ => None end.
Proof.
  intros Hm. unfold view, view_node.
  destruct (at_path (root m) parts) as [n|] eqn:Hn.
  - by apply walk_at_path in Hn as ->; [|apply Hm].
  - destruct (walk (root m) parts) as [n|] eqn:Hw; [|done].
    apply walk_ok_at_path in Hw. congruence.
Qed.

(** What [walkParent] reports, abstractly. *)
Lemma walkParent_spec m o p parts :
  inv m → path_of o = Some p → normalize p = Ok parts → parts ≠ [] →
  match walkParent (root m) parts with
  | Err e => fails (abs m) o e
  | Ok (dir, n, name) =>
      parts = dir ++ [name] ∧ at_path (root m) dir = Some n ∧ IsDir n = true ∧
      resolve (view m) [] dir = Ok EDir ∧ valid_name name ∧
      view m parts = entry_of <$> Children n !! name
  end.
Proof.
  intros Hm Ho Hp Hne. destruct (walkParent (root m) parts) as [[[dir n] name]|e] eqn:Hw.
  - pose proof (walkParent_ok _ _ _ _ _ Hw) as (-> & Hn & Hd).
    split_and!; [done..| | |].
    + rewrite resolve_root. apply walk_at_path in Hn; [|apply Hm]. rewrite Hn. simpl.
      unfold entry_of. by rewrite Hd.
    + apply normalize_valid in Hp. apply Forall_app in Hp as [_ Hp].
      by apply (proj1 (Forall_singleton _ _)) in Hp.
    + unfold view, view_node. rewrite at_path_app, Hn. simpl. by destruct (Children n !! name).
  - destruct (exists_last Hne) as (dir & name & ->).
    unfold walkParent in Hw. rewrite last_snoc, List.removelast_last in Hw.
    pose proof (resolve_root m dir) as Hr.
    destruct (walk (root m) dir) as [n|e'] eqn:Hwd; simplify_eq/=.
    + destruct (IsDir n) eqn:Hd; simplify_eq/=.
      unfold entry_of in Hr. rewrite Hd in Hr. by eapply fail_parent_file.
    + by eapply fail_parent.
Qed.

(** ** The mutations *)

(** One step of the concrete file system [m] to [m'] with result [r] implements
    the abstract operation [o]; every error but [ErrQuota] leaves [m] as it was. *)
Definition refines (m : MemFS) (o : op) (r : result error unit) (m' : MemFS) : Prop :=
  inv m' ∧
  match r with
  | Ok _ => succeeds (abs m) (abs m') o ∧ version m' = i64 (version m + 1)
  | Err e => fails (abs m) o e ∧ (e ≠ ErrQuota → m' = m)
  end.

Lemma refines_err m o e : inv m → fails (abs m) o e → refines m o (Err e) m.
Proof. done. Qed.

Lemma refines_path m o p e : inv m → path_of o = Some p → normalize p = Err e →
  refines m o (Err e) m.
Proof. intros. apply refines_err; [done|]. by eapply fail_path. Qed.

Lemma inv_commit m r u freed : inv m →
  wf_node r → IsDir r = true → u = i64 (total r) → Forall all_zero freed →
  inv (commit m r u freed).
Proof.
  intros Hm **. split; simpl; [done..|]. apply Forall_app. split; [done|apply Hm].
Qed.

Lemma view_root m : inv m → view m [] = Some EDir.
Proof.
  intros Hm. unfold view, view_node. simpl. unfold entry_of. by rewrite (inv_dir _ Hm).
Qed.

(** *** A child replaced under its parent directory *)
Section child.
Context (m : MemFS) (dir : list string) (n : Node) (name : string).
Context (ch : gmap string Node) (t : Z).
Context (Hm : inv m) (Hn : at_path (root m) dir = Some n) (Hd : IsDir n = true).
Context (Hv : valid_name name).
Context (Hag : ∀ j, j ≠ name → ch !! j = Children n !! j).
Context (Hnew : ∀ c, ch !! name = Some c →
  Name c = name ∧ wf_node c ∧ ∀ q, q ≠ [] → view_node c q = None).

Lemma child_tree :
  let r := put (root m) dir (upd_node n ch t) in
  wf_node r ∧ IsDir r = true ∧
  total r = (total (root m) - msum total (Children n) + msum total ch)%Z.
Proof.
  split_and!.
  - eapply wf_upd; [apply Hm|done..|]. intros c Hc. by destruct (Hnew c Hc) as (?&?&_).
  - erewrite dir_upd by (done || apply Hm). apply Hm.
  - apply (total_upd _ _ _ _ _ (inv_wf _ Hm) Hn Hd).
Qed.

Lemma child_becomes u freed :
  (∀ c q, Children n !! name = Some c → q ≠ [] → view_node c q = None) →
  becomes (abs m) (abs (commit m (put (root m) dir (upd_node n ch t)) u freed))
    (upd (view m) (dir ++ [name]) (entry_of <$> ch !! name))
    (total (root m) - msum total (Children n) + msum total ch)%Z.
Proof.
  intros Hold. split; [|split; [apply child_tree|done]]. intros q.
  refine (eq_trans (view_upd _ _ _ name _ _ Hn Hag q Hold _) eq_refl).
  intros c q' Hc. by apply Hnew.
Qed.
End child.

Lemma Mkdir_refines now m p mode r m' : inv m →
  Mkdir now m p mode = (r, m') → refines m (OMkdir p mode) r m'.
Proof.
  intros Hm. unfold Mkdir. destruct (normalize p) as [parts|e] eqn:Hp;
    [|intros; simplify_eq; by eapply refines_path].
  case_decide as Hne.
  { intros. simplify_eq. apply refines_err; [done|]. eapply fail_mkdir; [done|].
    simpl. rewrite view_root; done. }
  pose proof (walkParent_spec m (OMkdir p mode) p parts Hm eq_refl Hp Hne) as Hw.
  destruct (walkParent (root m) parts) as [[[dir n] name]|e]; [|by intros; simplify_eq].
  destruct Hw as (-> & Hn & Hd & Hr & Hv & Hview).
  destruct (Children n !! name) as [c|] eqn:Hc; intros; simplify_eq.
  { apply refines_err; [done|]. eapply fail_mkdir; [done|]. simpl. by rewrite Hview. }
  set (ch := <[name:=_]> (Children n)).
  assert (∀ j, j ≠ name → ch !! j = Children n !! j) as Hag
    by (intros j Hj; by apply lookup_insert_ne).
  assert (ch !! name = Some (new_dir name mode (now 0))) as Hnew by apply lookup_insert_eq.
  assert (msum total ch = msum total (Children n)) as Hsum
    by (unfold ch; by rewrite msum_insert, total_new_dir by done).
  assert (∀ c, ch !! name = Some c →
    Name c = name ∧ wf_node c ∧ ∀ q, q ≠ [] → view_node c q = None) as Hleaf.
  { intros c. rewrite Hnew. intros. simplify_eq. eauto with valet. }
  destruct (child_tree m dir n name ch (now 1) Hm Hn Hd Hv Hag Hleaf) as (H1 & H2 & H3).
  split; [|split; [|done]].
  - apply inv_commit; [done..| |done]. rewrite (inv_used _ Hm). f_equal.
    refine (eq_trans _ (eq_sym H3)). lia.
  - eapply ok_mkdir; [done..|].
    pose proof (child_becomes m dir n name ch (now 1) Hm Hn Hd Hv Hag Hleaf (used m) []) as Hb.
    rewrite Hnew, Hsum in Hb. replace (_ - _ + _)%Z with (total (root m)) in Hb by lia.
    apply Hb. congruence.
Qed.

(** *** Write *)

Lemma over_quota_spec m old new : inv m →
  (0 ≤ old ≤ total (root m))%Z → (0 ≤ new)%Z → fits m new →
  over_quota m old new = true ↔
    (0 < quota m)%Z ∧ (quota m < total (root m) - old + new)%Z.
Proof.
  intros Hm Hold Hnew Hf. unfold over_quota, fits in *. rewrite (inv_used _ Hm).
  rewrite i64_sub_l, i64_add_l, i64_id; [|unfold in_i64, two63 in *; lia].
  rewrite andb_true_iff, !Z.ltb_lt. done.
Qed.

(** The part of [Write] after the old body, if any, has been zeroed in [ch]. *)
Definition write_tail (now : clock) (m : MemFS) (dir : list string) (parent : Node)
    (name : string) (data : bytes) (mode oldSize : Z) (ch : gmap string Node)
    (freed : list bytes) : result error unit * MemFS :=
  if over_quota m oldSize (len data)
  then (Err ErrQuota, set_root m (put (root m) dir (with_children parent ch)))
  else
    let ch' := <[name := new_file name mode (now 0) data]> ch in
    let parent' := with_mtime (with_children parent ch') (now 1) in
    (Ok tt, commit m (put (root m) dir parent')
                   (i64 (i64 (used m - oldSize) + len data)) freed).

Section write_tail.
Context (now : clock) (m : MemFS) (p : string) (dir : list string) (n : Node).
Context (name : string) (data : bytes) (mode : Z) (ch : gmap string Node).
Context (Hm : inv m) (Hf : fits m (len data)).
Context (Hp : normalize p = Ok (dir ++ [name])).
Context (Hn : at_path (root m) dir = Some n) (Hd : IsDir n = true).
Context (Hr : resolve (view m) [] dir = Ok EDir) (Hv : valid_name name).
Context (Hview : view m (dir ++ [name]) = entry_of <$> Children n !! name).
Context (Hag : ∀ j, j ≠ name → ch !! j = Children n !! j).
Context (Hleaf : ∀ c, ch !! name = Some c →
  Name c = name ∧ wf_node c ∧ ∀ q, q ≠ [] → view_node c q = None).
Context (Hfile : ∀ c, Children n !! name = Some c → wf_node c ∧ IsDir c = false).
Context (Hsum : msum total ch = msum total (Children n)).

Let old : Z := old_size (view m (dir ++ [name])).

Lemma old_total :
  msum total (<[name:=new_file name mode (now 0) data]> (Children n)) =
    (msum total (Children n) - old + len data)%Z ∧ (0 ≤ old ≤ total (root m))%Z.
Proof.
  unfold old. rewrite Hview. destruct (Children n !! name) as [c|] eqn:Hc; simpl.
  - destruct (Hfile c eq_refl) as [Hwc Hdc].
    rewrite (msum_replace _ _ _ _ _ Hc). unfold entry_of. rewrite Hdc.
    rewrite (total_file c) by done. split; [done|].
    assert (total c ≤ total (root m))%Z as Hle.
    { apply (total_at_path_le _ (dir ++ [name])); [apply Hm|].
      rewrite at_path_app, Hn. simpl. by rewrite Hc. }
    rewrite total_file in Hle by done. pose proof (len_nonneg (Data c)). lia.
  - rewrite msum_insert by done. pose proof (total_nonneg (root m)).
    change (total (new_file name mode (now 0) data)) with (len data). lia.
Qed.

Lemma write_tail_refines freed r m' : Forall all_zero freed →
  write_tail now m dir n name data mode old ch freed = (r, m') →
  refines m (OWrite p data mode) r m'.
Proof.
  intros Hfreed. destruct old_total as [Htot Hold]. unfold write_tail.
  pose proof (over_quota_spec m old (len data) Hm Hold (len_nonneg data) Hf) as Hq.
  destruct (over_quota m old (len data)); intros Heq; simplify_eq.
  - destruct (child_tree m dir n name ch (ModTime n) Hm Hn Hd Hv Hag Hleaf) as (H1&H2&H3).
    split; [|split; [|done]].
    + split; [done..| |apply Hm]. simpl. rewrite (inv_used _ Hm). f_equal.
      refine (eq_trans _ (eq_sym H3)). lia.
    + destruct Hq as [Hq _]. destruct (Hq eq_refl). by eapply fail_write_quota.
  - set (ch' := <[name:=_]> ch).
    assert (ch' = <[name:=new_file name mode (now 0) data]> (Children n)) as Hch'.
    { apply map_eq. intros j. unfold ch'. destruct (decide (j = name)) as [->|Hj].
      - by rewrite !lookup_insert_eq.
      - rewrite !lookup_insert_ne by done. by apply Hag. }
    assert (∀ j, j ≠ name → ch' !! j = Children n !! j) as Hag'
      by (intros j Hj; rewrite Hch'; by apply lookup_insert_ne).
    assert (ch' !! name = Some (new_file name mode (now 0) data)) as Hnew
      by (apply lookup_insert_eq).
    assert (∀ c, ch' !! name = Some c →
      Name c = name ∧ wf_node c ∧ ∀ q, q ≠ [] → view_node c q = None) as Hleaf'.
    { intros c. rewrite Hnew. intros. simplify_eq. eauto with valet. }
    destruct (child_tree m dir n name ch' (now 1) Hm Hn Hd Hv Hag' Hleaf') as (H1&H2&H3).
    rewrite Hch', Htot in H3.
    split; [|split; [|done]].
    + apply inv_commit; [done..| |done]. rewrite (inv_used _ Hm), i64_sub_l, i64_add_l.
      f_equal. rewrite <- Hch' in H3. refine (eq_trans _ (eq_sym H3)). lia.
    + eapply ok_write; [done..| | |].
      * simpl. rewrite Hview. destruct (Children n !! name) as [c|] eqn:Hc; [|done].
        destruct (Hfile c eq_refl) as [_ Hdc]. simpl. unfold entry_of. by rewrite Hdc.
      * simpl. fold old. intros Hpos. apply Znot_gt_le. intros Hgt.
        destruct Hq as [_ Hq]. discriminate Hq. lia.
      * pose proof (child_becomes m dir n name ch' (now 1) Hm Hn Hd Hv Hag' Hleaf'
          (i64 (i64 (used m - old) + len data)) freed) as Hb.
        rewrite Hnew in Hb. rewrite Hch' in Hb at 2. rewrite Htot in Hb. simpl. fold old.
        replace (total (root m) - old + len data)%Z with
          (total (root m) - msum total (Children n) +
            (msum total (Children n) - old + len data))%Z by lia.
        apply Hb. intros c q Hc Hq'. destruct (Hfile c Hc). by apply view_file.
Qed.
End write_tail.

Lemma Write_refines now m p data mode r m' : inv m → fits m (len data) →
  Write now m p data mode = (r, m') → refines m (OWrite p data mode) r m'.
Proof.
  intros Hm Hf. unfold Write. destruct (normalize p) as [parts|e] eqn:Hp;
    [|intros; simplify_eq; by eapply refines_path].
  case_decide as Hne.
  { intros. simplify_eq. apply refines_err; [done|].
    eapply fail_write_dir; [done|]. simpl. by apply view_root. }
  pose proof (walkParent_spec m (OWrite p data mode) p parts Hm eq_refl Hp Hne) as Hw.
  destruct (walkParent (root m) parts) as [[[dir n] name]|e]; [|by intros; simplify_eq].
  destruct Hw as (-> & Hn & Hd & Hr & Hv & Hview).
  destruct (Children n !! name) as [c|] eqn:Hc.
  - assert (wf_node c ∧ Name c = name) as [Hwc Hnc].
    { pose proof (wf_child n name c (wf_at_path _ _ _ (inv_wf _ Hm) Hn) Hc). naive_solver. }
    destruct (IsDir c) eqn:Hdc.
    { intros. simplify_eq. apply refines_err; [done|]. eapply fail_write_dir; [done|].
      simpl. rewrite Hview. simpl. unfold entry_of. by rewrite Hdc. }
    intros Heq. rewrite <- Hc in Hview.
    eapply (write_tail_refines now m p dir n name data mode
      (<[name := with_data c (zeroBytes (Data c))]> (Children n))); [done..| | | | | |].
    + intros j Hj. by apply lookup_insert_ne.
    + intros c' Hc'. rewrite lookup_insert_eq in Hc'. simplify_eq.
      assert (wf_node (with_data c (zeroBytes (Data c)))) as Hwz.
      { destruct Hwc; [by constructor|done]. }
      split; [done|]. split; [done|]. intros q. by apply view_file.
    + intros c' Hc'. simplify_eq. done.
    + rewrite (msum_replace _ _ _ _ _ Hc). rewrite (total_file c) by done.
      rewrite total_file by done. simpl. rewrite len_zeroBytes. lia.
    + apply Forall_singleton, zeroBytes_all_zero.
    + rewrite <- Heq. rewrite Hview, Hc. simpl. unfold entry_of. rewrite Hdc. done.
  - intros Heq. rewrite <- Hc in Hview.
    eapply (write_tail_refines now m p dir n name data mode (Children n));
      [done..| | | | | |].
    + done.
    + intros c. congruence.
    + intros c. congruence.
    + done.
    + by apply Forall_nil.
    + rewrite <- Heq. rewrite Hview, Hc. done.
Qed.

(** *** Remove *)

Lemma Remove_refines now m p r m' : inv m →
  Remove now m p = (r, m') → refines m (ORemove p) r m'.
Proof.
  intros Hm. unfold Remove. destruct (normalize p) as [parts|e] eqn:Hp;
    [|intros; simplify_eq; by eapply refines_path].
  case_decide as Hne.
  { intros. simplify_eq. apply refines_err; [done|]. by eapply fail_remove_root. }
  pose proof (walkParent_spec m (ORemove p) p parts Hm eq_refl Hp Hne) as Hw.
  destruct (walkParent (root m) parts) as [[[dir n] name]|e]; [|by intros; simplify_eq].
  destruct Hw as (-> & Hn & Hd & Hr & Hv & Hview).
  destruct (Children n !! name) as [c|] eqn:Hc;
    [|intros; simplify_eq; apply refines_err; [done|];
      by eapply fail_remove_missing; [|simpl; by rewrite Hview]].
  pose proof (wf_child n name c (wf_at_path _ _ _ (inv_wf _ Hm) Hn) Hc) as (_&_&_&Hwc).
  assert (view m (dir ++ [name]) = Some (entry_of c)) as Hvc by (by rewrite Hview).
  assert (∀ q, view m (dir ++ name :: q) = view_node c q) as Hbelow.
  { intros q. unfold view, view_node. rewrite at_path_app, Hn. simpl. by rewrite Hc. }
  destruct (IsDir c && negb (bool_decide (Children c = ∅))) eqn:Hfull.
  { intros. simplify_eq. apply refines_err; [done|].
    apply andb_true_iff in Hfull as [Hdc Hfull%negb_true_iff%bool_decide_eq_false].
    apply map_choose in Hfull as (k & x & Hk). eapply fail_remove_nonempty; [done| |].
    - simpl. rewrite Hvc. unfold entry_of. by rewrite Hdc.
    - simpl. rewrite <- (assoc_L (++)). simpl. rewrite Hbelow, view_node_cons, Hk. by eexists. }
  assert (IsDir c = true → Children c = ∅) as Hempty.
  { intros Hdc. rewrite Hdc in Hfull. simpl in Hfull.
    by apply negb_false_iff, bool_decide_eq_true in Hfull. }
  assert (∀ c' q, Children n !! name = Some c' → q ≠ [] → view_node c' q = None) as Hleaf.
  { intros c' q Hc' Hq. simplify_eq. destruct (IsDir c) eqn:Hdc.
    - by apply view_empty_dir; [|apply Hempty|].
    - by apply view_file. }
  set (ch := delete name (Children n)).
  assert (∀ j, j ≠ name → ch !! j = Children n !! j) as Hag
    by (intros j Hj; by apply lookup_delete_ne).
  assert (ch !! name = None) as Hnew by apply lookup_delete_eq.
  destruct (child_tree m dir n name ch (now 0) Hm Hn Hd Hv Hag) as (H1&H2&H3);
    [intros; congruence|].
  pose proof (msum_delete total _ _ _ Hc : msum total ch = _) as Hsum.
  assert (total c = old_size (Some (entry_of c))) as Htc.
  { unfold entry_of. destruct (IsDir c) eqn:Hdc; simpl.
    - rewrite total_dir, Hempty by done. apply msum_empty.
    - by rewrite total_file. }
  assert (∀ u freed, u = i64 (total (root m) - total c) → Forall all_zero freed →
    refines m (ORemove p) (Ok tt)
      (commit m (put (root m) dir (upd_node n ch (now 0))) u freed)) as Hdone.
  { intros u freed -> Hfreed. split; [|split; [|done]].
    - apply inv_commit; [done..| |done]. f_equal.
      refine (eq_trans _ (eq_sym H3)). lia.
    - eapply ok_remove; [done|done|exact Hvc| |].
      + intros Hed k. simpl. rewrite Hbelow. apply (Hleaf c [k]); [done|done].
      + pose proof (child_becomes m dir n name ch (now 0) Hm Hn Hd Hv Hag) as Hb.
        rewrite Hnew in Hb. rewrite <- Htc.
        replace (sused (abs m) - total c)%Z with
          (total (root m) - msum total (Children n) + msum total ch)%Z by (simpl; lia).
        apply Hb; [congruence|done]. }
  destruct (IsDir c) eqn:Hdc; intros Heq; simplify_eq.
  - apply Hdone; [|done]. rewrite (inv_used _ Hm), (total_dir c), Hempty, msum_empty by done.
    f_equal. lia.
  - apply Hdone; [|apply Forall_singleton, zeroBytes_all_zero].
    rewrite (inv_used _ Hm), i64_sub_l, (total_file c) by done. done.
Qed.

(** *** MkdirAll *)

Lemma with_children_id n k c : Children n !! k = Some c →
  with_children n (<[k:=c]> (Children n)) = n.
Proof. intros Hc. rewrite insert_id by done. by destruct n. Qed.

(** A child directory added to, or updated in, a directory. *)
Lemma child_grown cur k child child' :
  wf_node cur → IsDir cur = true → valid_name k → wf_node child' → Name child' = k →
  total child' = total child →
  Children cur !! k = Some child ∨ (Children cur !! k = None ∧ total child = 0%Z) →
  let cur' := with_children cur (<[k:=child']> (Children cur)) in
  wf_node cur' ∧ IsDir cur' = true ∧ Name cur' = Name cur ∧ total cur' = total cur.
Proof.
  intros Hwf Hd Hk Hwc Hnc Ht Hold cur'. split_and!; [|done..|].
  - unfold cur'. destruct Hwf as [|nm mo t ch Hm Hch]; [done|]. simpl in *.
    constructor; [done|]. by apply map_Forall_insert_2.
  - unfold cur'. rewrite total_dir by done. rewrite (total_dir cur) by done. simpl.
    destruct Hold as [Hold|[Hold H0]].
    + rewrite (msum_replace _ _ _ _ _ Hold). lia.
    + rewrite msum_insert by done. lia.
Qed.

Lemma view_with_child cur k child' q :
  view_node (with_children cur (<[k:=child']> (Children cur))) q =
  match q with
  | [] => view_node cur []
  | j :: q' => if decide (j = k) then view_node child' q' else view_node cur q
  end.
Proof.
  destruct q as [|j q]; [done|]. rewrite !view_node_cons. simpl.
  case_decide as Hj; [subst; by rewrite lookup_insert_eq|by rewrite lookup_insert_ne].
Qed.

Lemma prefix_cons_iff (j k : string) q l :
  (j :: q) `prefix_of` (k :: l) ↔ j = k ∧ q `prefix_of` l.
Proof.
  split; [|intros [-> Hq]; by apply prefix_cons].
  intros Hp. split; [by eapply prefix_cons_inv_1|by eapply prefix_cons_inv_2].
Qed.

(** What a successful run of the loop makes of a directory's view. *)
Definition grown (parts : list string) (v v' : list string → option entry) : Prop :=
  (∀ pre b, pre `prefix_of` parts → v pre ≠ Some (EFile b)) ∧
  ∀ q, v' q = if decide (q `prefix_of` parts ∧ v q = None) then Some EDir else v q.

(** What a failed run has met. *)
Definition blocked (parts : list string) (v : list string → option entry) : Prop :=
  ∃ pre b, pre `prefix_of` parts ∧ v pre = Some (EFile b).

(** The loop below one child lifts to the directory that holds the child. *)
Lemma grown_cons cur k parts child child' :
  IsDir cur = true → IsDir child = true →
  Children cur !! k = Some child ∨
    (Children cur !! k = None ∧ ∀ q, q ≠ [] → view_node child q = None) →
  grown parts (view_node child) (view_node child') →
  grown (k :: parts) (view_node cur)
    (view_node (with_children cur (<[k:=child']> (Children cur)))).
Proof.
  intros Hd Hdc Hold [Hnf Hv].
  assert (∀ q, view_node cur (k :: q) = view_node child q ∨
    (view_node cur (k :: q) = None ∧ Children cur !! k = None)) as Hkq.
  { intros q. rewrite view_node_cons. destruct Hold as [->|[-> _]]; [by left|by right]. }
  assert (view_node cur [] = Some EDir) as Hroot
    by (unfold view_node; simpl; unfold entry_of; by rewrite Hd).
  split.
  - intros [|j pre] b Hpre; [by rewrite Hroot|]. apply prefix_cons_iff in Hpre as [-> Hpre].
    destruct (Hkq pre) as [->|[-> _]]; [by apply Hnf|done].
  - intros q. rewrite view_with_child. destruct q as [|j q].
    { rewrite decide_False; [done|]. rewrite Hroot. naive_solver. }
    case_decide as Hj; [subst j|].
    2:{ rewrite decide_False; [done|]. rewrite prefix_cons_iff. naive_solver. }
    rewrite Hv. destruct Hold as [Hc|[Hc Hnone]].
    + assert (view_node cur (k :: q) = view_node child q) as ->
        by (rewrite view_node_cons, Hc; done).
      apply decide_ext. rewrite prefix_cons_iff. naive_solver.
    + assert (view_node cur (k :: q) = None) as ->
        by (rewrite view_node_cons, Hc; done).
      destruct q as [|j q].
      * rewrite (decide_True (P := _ ∧ None = None));
          [|split; [by apply prefix_cons_iff; split; [|apply prefix_nil]|done]].
        assert (view_node child [] = Some EDir) as ->
          by (unfold view_node; simpl; unfold entry_of; by rewrite Hdc).
        by case_decide.
      * rewrite (Hnone (j :: q)) by done. apply decide_ext. split.
        -- intros [Hp _]. split; [by apply prefix_cons|done].
        -- intros [[_ Hp]%prefix_cons_iff _]. done.
Qed.

Lemma grown_nil cur : IsDir cur = true → grown [] (view_node cur) (view_node cur).
Proof.
  intros Hd. assert (view_node cur [] = Some EDir) as Hroot
    by (unfold view_node; simpl; unfold entry_of; by rewrite Hd).
  split; [intros pre b ->%prefix_nil_inv; by rewrite Hroot|].
  intros q. case_decide as Hq; [|done]. destruct Hq as [->%prefix_nil_inv Hq]. done.
Qed.

Lemma mkdir_loop_spec now mode parts : ∀ i cur r cur',
  wf_node cur → IsDir cur = true → Forall valid_name parts →
  mkdir_loop now i mode cur parts = (r, cur') →
  wf_node cur' ∧ IsDir cur' = true ∧ Name cur' = Name cur ∧ total cur' = total cur ∧
  match r with
  | Ok _ => grown parts (view_node cur) (view_node cur')
  | Err e => e = ErrNotDir ∧ cur' = cur ∧ blocked parts (view_node cur)
  end.
Proof.
  induction parts as [|k parts IH]; intros i cur r cur' Hwf Hd Hv Heq.
  { simplify_eq/=. split_and!; [done..|]. by apply grown_nil. }
  apply Forall_cons in Hv as [Hk Hv]. simpl in Heq.
  destruct (Children cur !! k) as [child|] eqn:Hc.
  - pose proof (wf_child _ _ _ Hwf Hc) as (_ & Hnc & _ & Hwc).
    destruct (IsDir child) eqn:Hdc; simplify_eq/=.
    2:{ split_and!; [done..|]. exists [Name child], (Data child). split.
        - apply prefix_cons_iff. split; [done|apply prefix_nil].
        - rewrite view_node_cons, Hc. unfold view_node, entry_of. simpl. by rewrite Hdc. }
    destruct (mkdir_loop now i mode child parts) as [r0 child'] eqn:Hl. simplify_eq/=.
    destruct (IH _ _ _ _ Hwc Hdc Hv Hl) as (Hw' & Hd' & Hn' & Ht' & Hr).
    destruct (child_grown cur (Name child) child child' Hwf Hd Hk Hw' Hn' Ht' (or_introl Hc))
      as (G1 & G2 & G3 & G4).
    split_and!; [done..|]. destruct r as [u|e].
    + apply (grown_cons _ _ _ child); [done|done|by left|done].
    + destruct Hr as (-> & -> & pre & b & Hpre & Hb). split_and!; [done| |].
      * by apply with_children_id.
      * exists (Name child :: pre), b. split; [by apply prefix_cons|].
        by rewrite view_node_cons, Hc.
  - destruct (mkdir_loop now (S i) mode (new_dir k mode (now i)) parts) as [r0 child'] eqn:Hl.
    simplify_eq/=.
    destruct (IH _ _ _ _ (wf_new_dir k mode (now i)) eq_refl Hv Hl)
      as (Hw' & Hd' & Hn' & Ht' & Hr).
    assert (∀ q, q ≠ [] → view_node (new_dir k mode (now i)) q = None) as Hnone
      by eauto with valet.
    destruct (child_grown cur k (new_dir k mode (now i)) child' Hwf Hd Hk Hw' Hn' Ht'
      (or_intror (conj Hc eq_refl))) as (G1 & G2 & G3 & G4).
    split_and!; [done..|]. destruct r as [u|e].
    + apply (grown_cons _ _ _ (new_dir k mode (now i))); [done|done|by right|done].
    + destruct Hr as (_ & _ & pre & b & _ & Hb). destruct pre as [|j pre]; [done|].
      by rewrite Hnone in Hb.
Qed.

Lemma MkdirAll_refines now m p mode r m' : inv m →
  MkdirAll now m p mode = (r, m') → refines m (OMkdirAll p mode) r m'.
Proof.
  intros Hm. unfold MkdirAll. destruct (normalize p) as [parts|e] eqn:Hp;
    [|intros; simplify_eq; apply refines_err; [done|by eapply fail_path_all]].
  destruct (mkdir_loop now 0 mode (root m) parts) as [r0 t] eqn:Hl.
  destruct (mkdir_loop_spec _ _ _ _ _ _ _ (inv_wf _ Hm) (inv_dir _ Hm)
    (normalize_valid _ _ Hp) Hl) as (H1 & H2 & H3 & H4 & H5).
  destruct r0 as [u|e]; intros; simplify_eq.
  - split; [|split; [|done]].
    + apply inv_commit; [done..| |done]. rewrite (inv_used _ Hm). by rewrite H4.
    + destruct H5 as [Hnf Hv]. eapply ok_mkdir_all; [done|exact Hnf|].
      split; [exact Hv|done].
  - destruct H5 as (-> & -> & pre & b & Hpre & Hb).
    assert (set_root m (root m) = m) as -> by (by destruct m).
    apply refines_err; [done|]. by eapply fail_mkdir_all.
Qed.

(** *** Wipe *)

Lemma wipe_walk_zero n : Forall all_zero (wipe_walk n).
Proof.
  induction n as [n IH] using Node_ind_children. destruct n as [nm d mo t data ch]; simpl in *.
  destruct d; [|apply Forall_singleton, zeroBytes_all_zero].
  induction ch as [|k c ch Hk Hfst IHm] using map_first_key_ind; [by rewrite map_fold_empty|].
  rewrite map_fold_insert_first_key by done. apply Forall_app. split.
  - apply (IH k). by rewrite lookup_insert_eq.
  - apply IHm. intros j x Hj. apply (IH j). rewrite lookup_insert_ne by congruence. done.
Qed.

Lemma Wipe_refines now m : inv m → refines m OWipe (Ok tt) (Wipe now m).
Proof.
  intros Hm. split; [|split; [|done]].
  - apply inv_commit; [done|apply wf_new_dir|done..|apply wipe_walk_zero].
  - apply ok_wipe. split; [|done]. intros q. simpl. unfold view. simpl.
    destruct q as [|k q]; [done|]. rewrite decide_False by done. by apply view_new_dir.
Qed.

End FSRefine.
