(* ===== verification/MemFSWalk.v ===== *)
(** * Walks over the whole tree: [Manifest], [Snapshot] and map iteration order

    Go iterates a map in an unspecified order.  [walks] is the relation between a
    tree and every sequence of files its recursive walk can produce; [files] is
    one of them, and sorting by path makes the choice invisible. *)
From S2P Require Import Prelude GoStrings GoPath MemFS MemFSFacts MemFSSpec.
Import GoStr GoPath MemFS FSFacts FSInv.

Module FSWalk.

Inductive walks (prefix : string) : Node → list (string * Node) → Prop :=
  | walks_file n : IsDir n = false → walks prefix n [(prefix, n)]
  | walks_dir n order outs :
      IsDir n = true →
      order ≡ₚ map_to_list (Children n) →
      Forall2 (λ kc out, walks (Join2 prefix kc.1) kc.2 out) order outs →
      walks prefix n (mjoin outs).

Lemma files_file prefix n : IsDir n = false → files prefix n = [(prefix, n)].
Proof. destruct n. simpl. by intros ->. Qed.

Lemma files_dir prefix n : IsDir n = true →
  files prefix n =
  mjoin ((λ kc, files (Join2 prefix kc.1) kc.2) <$> map_to_list (Children n)).
Proof.
  destruct n as [nm d mo t data ch]. simpl. intros ->. rewrite map_fold_foldr.
  induction (map_to_list ch) as [|[k c] l IH]; [done|]. simpl. by rewrite IH.
Qed.

Lemma files_walks prefix n : walks prefix n (files prefix n).
Proof.
  revert prefix. induction n as [n IH] using Node_ind_children. intros prefix.
  destruct (IsDir n) eqn:Hd.
  - rewrite files_dir by done. eapply walks_dir; [done|done|].
    apply Forall2_fmap_r, Forall_Forall2_diag, Forall_forall.
    intros [k c] Hkc%elem_of_map_to_list. by eapply IH.
  - rewrite files_file by done. by constructor.
Qed.

(** Any two walks of the same tree visit the same files. *)
Lemma walks_perm prefix n l : walks prefix n l → l ≡ₚ files prefix n.
Proof.
  revert prefix l. induction n as [n IH] using Node_ind_children. intros prefix l Hw.
  inversion Hw as [n' Hd|n' order outs Hd Hp Hf]; subst.
  - by rewrite files_file.
  - rewrite files_dir by done. rewrite <- Hp.
    assert (∀ k c, (k, c) ∈ order → Children n !! k = Some c) as Hin.
    { intros k c Hkc. rewrite Hp in Hkc. by apply elem_of_map_to_list in Hkc. }
    clear Hp Hw. induction Hf as [|[k c] out order outs Hk Hf IHf]; [done|]. simpl.
    f_equiv.
    + eapply IH; [|done]. apply Hin. by left.
    + apply IHf. intros j x Hj. apply Hin. by right.
Qed.

(** ** Paths of the files *)

Lemma rooted_path_inj l1 l2 : Forall plain_name l1 → Forall plain_name l2 →
  rooted_path l1 = rooted_path l2 → l1 = l2.
Proof.
  intros H1 H2 Heq. unfold rooted_path in Heq. rewrite !sapp_cons in Heq. simplify_eq.
  destruct l1 as [|x l1], l2 as [|y l2]; [done| | |].
  - exfalso. apply Forall_cons in H2 as [(Hy&_) _]. by destruct y, l2.
  - exfalso. apply Forall_cons in H1 as [(Hx&_) _]. by destruct x, l1.
  - assert (Split (Join (x :: l1) (str1 slash)) slash = Split (Join (y :: l2) (str1 slash)) slash)
      as Hs by (by f_equal).
    rewrite !Split_Join in Hs; [done|done|by apply plain_no_slash|done|by apply plain_no_slash].
Qed.

Lemma at_path_plain n q x : wf_node n → at_path n q = Some x → Forall plain_name q.
Proof.
  revert n. induction q as [|k q IH]; intros n Hwf Hx; [done|]. simpl in Hx.
  apply bind_Some in Hx as (c & Hc & Hx).
  destruct (wf_child _ _ _ Hwf Hc) as (_ & _ & [Hk _] & Hwc).
  constructor; [done|by eapply IH].
Qed.

(** The walk visits exactly the files of the tree, each under its path. *)
Lemma elem_of_files n loc p x : wf_node n → Forall plain_name loc →
  (p, x) ∈ files (rooted_path loc) n ↔
  ∃ q, p = rooted_path (loc ++ q) ∧ at_path n q = Some x ∧ IsDir x = false.
Proof.
  revert loc p x. induction n as [n IH] using Node_ind_children. intros loc p x Hwf Hloc.
  destruct (IsDir n) eqn:Hd.
  - rewrite files_dir, list_elem_of_join by done. split.
    + intros (l & Hpx & ([k c] & -> & Hkc%elem_of_map_to_list)%list_elem_of_fmap).
      destruct (wf_child _ _ _ Hwf Hkc) as (_ & _ & [Hk _] & Hwc). simpl in Hpx.
      rewrite Join_rooted in Hpx by done.
      apply (IH _ _ Hkc) in Hpx as (q & -> & Hq & Hx);
        [|done|by apply Forall_snoc].
      exists (k :: q). rewrite <- (assoc_L (++)). simpl. rewrite Hkc. done.
    + intros ([|k q] & -> & Hq & Hx); simpl in Hq; [congruence|].
      apply bind_Some in Hq as (c & Hkc & Hq).
      destruct (wf_child _ _ _ Hwf Hkc) as (_ & _ & [Hk _] & Hwc).
      exists (files (Join2 (rooted_path loc) k) c). split.
      * rewrite Join_rooted by done. apply (IH _ _ Hkc);
          [done|by apply Forall_snoc|].
        exists q. by rewrite <- (assoc_L (++)).
      * apply list_elem_of_fmap. exists (k, c). split; [done|]. by apply elem_of_map_to_list.
  - rewrite files_file, list_elem_of_singleton by done. split.
    + intros Heq. simplify_eq. exists []. by rewrite (right_id_L [] (++)).
    + intros ([|k q] & -> & Hq & Hx).
      * simplify_eq/=. by rewrite (right_id_L [] (++)).
      * simpl in Hq. apply bind_Some in Hq as (c & Hkc & Hq).
        destruct (wf_child _ _ _ Hwf Hkc) as [Hd' _]. congruence.
Qed.

Lemma files_NoDup n loc : wf_node n → Forall plain_name loc →
  NoDup (files (rooted_path loc) n).*1.
Proof.
  revert loc. induction n as [n IH] using Node_ind_children. intros loc Hwf Hloc.
  destruct (IsDir n) eqn:Hd; [|rewrite files_file by done; by apply NoDup_singleton].
  rewrite files_dir by done.
  assert (∀ k c, (k, c) ∈ map_to_list (Children n) → Children n !! k = Some c) as Hin
    by (intros; by apply elem_of_map_to_list).
  pose proof (NoDup_fst_map_to_list (Children n)) as Hnd.
  induction (map_to_list (Children n)) as [|[k c] l IHl]; [by apply NoDup_nil|].
  simpl in *. apply NoDup_cons in Hnd as [Hk Hnd].
  assert (Children n !! k = Some c) as Hkc by (apply Hin; by left).
  destruct (wf_child _ _ _ Hwf Hkc) as (_ & _ & [Hpk _] & Hwc).
  rewrite fmap_app. apply NoDup_app. split_and!.
  - rewrite Join_rooted by done. apply (IH k c); [done|done|].
    by apply Forall_snoc.
  - intros p [[p1 x] [-> Hp1]]%list_elem_of_fmap [[p2 y] [Heq Hp2]]%list_elem_of_fmap.
    simpl in Heq. subst p2. rewrite Join_rooted in Hp1 by done.
    apply elem_of_files in Hp1 as (q & -> & Hq & _);
      [|done|by apply Forall_snoc].
    apply list_elem_of_join in Hp2 as (out & Hp2 & ([j d] & -> & Hj)%list_elem_of_fmap).
    simpl in Hp2. assert (Children n !! j = Some d) as Hjd by (apply Hin; by right).
    destruct (wf_child _ _ _ Hwf Hjd) as (_ & _ & [Hpj _] & Hwd).
    rewrite Join_rooted in Hp2 by done.
    apply elem_of_files in Hp2 as (q' & Heq & Hq' & _);
      [|done|by apply Forall_snoc].
    rewrite <- !(assoc_L (++)) in Heq. apply rooted_path_inj in Heq.
    + apply (app_inv_head loc) in Heq. simplify_eq/=. apply Hk.
      apply list_elem_of_fmap. by eexists (_, _).
    + apply Forall_app; split; [done|]. apply (at_path_plain n (k :: q) x); [done|]. simpl. by rewrite Hkc.
    + apply Forall_app; split; [done|]. apply (at_path_plain n (j :: q') y); [done|]. simpl. by rewrite Hjd.
  - apply IHl; [|done]. intros. apply Hin. by right.
Qed.

Lemma root_prefix : "/" = rooted_path [].
Proof. done. Qed.

End FSWalk.
