(* ===== verification/MemFSProps.v ===== *)
(** * The properties of the in-memory file system

    The statements a reader of [internal/vfs/memfs.go] relies on, each with a
    concrete run that meets its hypotheses. *)
From S2P Require Import Prelude GoStrings GoPath MemFS MemFSFacts MemFSSpec MemFSRefine MemFSWalk.
Import GoStr GoPath MemFS FSFacts FSInv FSSpec FSRefine FSWalk.

(** ** Reachable file systems *)

Module FSReach.

Inductive reach : MemFS → Prop :=
  | reach_new now q : reach (New now q)
  | reach_step now m o : reach m → fits m (incoming o) → reach (exec now m o).2.

Lemma exec_refines_spec now m o : inv m → fits m (incoming o) →
  refines m o (exec now m o).1 (exec now m o).2.
Proof.
  intros Hm Hf. destruct o as [p mode|p mode|p data mode|p|]; simpl.
  - eapply Mkdir_refines; [done|]. apply surjective_pairing.
  - eapply MkdirAll_refines; [done|]. apply surjective_pairing.
  - eapply Write_refines; [done|exact Hf|]. apply surjective_pairing.
  - eapply Remove_refines; [done|]. apply surjective_pairing.
  - by apply Wipe_refines.
Qed.

Lemma inv_New now q : inv (New now q).
Proof. split; [apply wf_new_dir|done|done|by constructor]. Qed.

Lemma reach_inv m : reach m → inv m.
Proof.
  induction 1 as [|now m o Hm IH Hf]; [apply inv_New|].
  apply (exec_refines_spec now m o IH Hf).
Qed.

(** *** A rejected overwrite *)

Lemma normalize_err p e : normalize p = Err e → e = ErrInvalidPath.
Proof. unfold normalize. intros. split_matches; done. Qed.

Lemma walk_err n parts e : walk n parts = Err e → e = ErrNotDir ∨ e = ErrNotFound.
Proof.
  revert n. induction parts as [|k parts IH]; intros n; simpl; [done|].
  destruct (IsDir n), (Children n !! k); simpl; naive_solver.
Qed.

Lemma resolve_err v loc rest e : resolve v loc rest = Err e → e ≠ ErrQuota.
Proof.
  revert loc. induction rest as [|k rest IH]; intros loc H ->; simpl in H;
    split_matches; naive_solver.
Qed.

Lemma walkParent_err r parts e : walkParent r parts = Err e → e ≠ ErrQuota.
Proof.
  unfold walkParent. intros H ->. split_matches.
  by edestruct walk_err as [?|?].
Qed.

Definition zeroed (e : option entry) : option entry :=
  match e with Some (EFile b) => Some (EFile (zeros (length b))) | _ => e end.

(** What a write rejected by the quota leaves behind. *)
Lemma Write_quota now m p data mode m' : inv m →
  Write now m p data mode = (Err ErrQuota, m') →
  used m' = used m ∧ version m' = version m ∧ quota m' = quota m ∧
  total (root m') = total (root m) ∧
  ∃ parts, normalize p = Ok parts ∧
    ∀ q, view m' q = if decide (q = parts) then zeroed (view m q) else view m q.
Proof.
  intros Hm. unfold Write. destruct (normalize p) as [parts|e] eqn:Hp;
    [|intros; simplify_eq; by apply normalize_err in Hp].
  case_decide as Hne; [done|].
  pose proof (walkParent_spec m (OWrite p data mode) p parts Hm eq_refl Hp Hne) as Hw.
  destruct (walkParent (root m) parts) as [[[dir n] name]|e] eqn:Hwp;
    [|intros; simplify_eq; by apply walkParent_err in Hwp].
  destruct Hw as (-> & Hn & Hd & Hr & Hv & Hview).
  destruct (Children n !! name) as [c|] eqn:Hc; simpl in Hview.
  - destruct (IsDir c) eqn:Hdc; [done|]. case_match; [|done]. intros. simplify_eq/=.
    destruct (wf_child _ _ _ (wf_at_path _ _ _ (inv_wf _ Hm) Hn) Hc) as (_&_&_&Hwc).
    split_and!; [done..| |].
    { rewrite (total_put _ _ _ _ (inv_wf _ Hm) Hn), (total_dir n) by done.
      rewrite (total_dir (with_children _ _)) by done. simpl.
      rewrite (msum_replace _ _ _ _ _ Hc), (total_file c), (total_file (with_data _ _)) by done.
      simpl. rewrite len_zeroBytes. lia. }
    eexists. split; [done|]. intros q. unfold view in *. simpl.
    set (ch := <[name:=_]> _).
    change (with_children n ch) with (upd_node n ch (ModTime n)).
    rewrite (view_upd _ _ _ name _ (ModTime n) Hn).
    + case_decide; [subst q|done]. rewrite Hview. subst ch. rewrite lookup_insert_eq. simpl.
      unfold entry_of. simpl. by rewrite Hdc, zeroBytes_zeros.
    + intros j Hj. subst ch. by rewrite lookup_insert_ne.
    + intros c' q' Hc' Hq'. simplify_eq. by apply view_file.
    + intros c' q' Hc' Hq'. subst ch. rewrite lookup_insert_eq in Hc'. simplify_eq.
      destruct q' as [|k q']; [done|]. rewrite view_node_cons. simpl.
      inversion Hwc; simplify_eq/=. by rewrite lookup_empty.
  - case_match; [|done]. intros. simplify_eq/=.
    split_and!; [done..| |].
    { rewrite (total_put _ _ _ _ (inv_wf _ Hm) Hn), (total_dir n) by done.
      rewrite (total_dir (with_children _ _)) by done. simpl. lia. }
    eexists. split; [done|]. intros q.
    change (with_children n (Children n)) with (upd_node n (Children n) (ModTime n)).
    unfold view in *. simpl.
    rewrite (view_upd _ _ _ name _ (ModTime n) Hn); [|done| |].
    + case_decide; [subst q|done]. by rewrite Hview, Hc.
    + intros c' q' Hc'. congruence.
    + intros c' q' Hc'. congruence.
Qed.

(** *** Readers *)

Lemma Read_view m p b : inv m →
  Read m p = Ok b ↔ ∃ parts, normalize p = Ok parts ∧ view m parts = Some (EFile b).
Proof.
  intros Hm. unfold Read. destruct (normalize p) as [parts|e]; [|naive_solver].
  pose proof (view_walk m parts Hm) as Hv.
  unfold entry_of in Hv.
  destruct (walk (root m) parts) as [n|e]; [destruct (IsDir n)|]; naive_solver.
Qed.

Lemma write_read now m p data mode m' :
  inv m → fits m (len data) → Write now m p data mode = (Ok tt, m') →
  Read m' p = Ok data ∧
  ∀ p' b, normalize p' ≠ normalize p → Read m' p' = Ok b ↔ Read m p' = Ok b.
Proof.
  intros Hm Hf Hw. destruct (Write_refines _ _ _ _ _ _ _ Hm Hf Hw) as [Hm' [Hs _]].
  inversion Hs as [| |? ? ? dir name Hp _ _ _ [Hv _]| |]; simplify_eq/=.
  unfold upd in Hv. split.
  - apply Read_view; [done|]. eexists. split; [done|]. rewrite Hv. by rewrite decide_True.
  - intros p' b Hne. rewrite !Read_view by done. split; intros (parts & Hp' & Hb);
      exists parts; (split; [done|]); [rewrite <- Hb, Hv|rewrite Hv];
      by rewrite decide_False by congruence.
Qed.

(** Making directories never disturbs a file. *)
Lemma mkdir_all_read now m p mode p' b : inv m →
  Read m p' = Ok b → Read (MkdirAll now m p mode).2 p' = Ok b.
Proof.
  intros Hm Hr. destruct (MkdirAll now m p mode) as [r m'] eqn:Hx. simpl.
  destruct (MkdirAll_refines _ _ _ _ _ _ Hm Hx) as [Hm' Hs].
  destruct r as [u|e]; [|destruct Hs as [Hf Hs]].
  - destruct Hs as [Hs _]. inversion Hs as [|? ? parts _ _ [Hv _]| | |]; simplify_eq/=.
    apply Read_view in Hr as (q & Hq & Hb); [|done]. apply Read_view; [done|].
    exists q. split; [done|]. rewrite Hv, decide_False; [done|]. intros [_ H]. congruence.
  - destruct (decide (e = ErrQuota)) as [->|Hne]; [|by rewrite Hs].
    exfalso. inversion Hf; simplify_eq/=;
      by match goal with H : normalize _ = Err _ |- _ => apply normalize_err in H end.
Qed.

Lemma List_view m p : inv m →
  match List m p with
  | Ok l => ∃ parts, normalize p = Ok parts ∧ view m parts = Some EDir ∧
      StronglySorted String.le l ∧ NoDup l ∧
      ∀ k, k ∈ l ↔ is_Some (view m (parts ++ [k]))
  | Err _ => ∀ parts, normalize p = Ok parts → view m parts ≠ Some EDir
  end.
Proof.
  intros Hm. unfold List. destruct (normalize p) as [parts|e]; [|done].
  pose proof (view_walk m parts Hm) as Hv.
  destruct (walk (root m) parts) as [n|e] eqn:Hw; [|intros; simplify_eq; congruence].
  destruct (IsDir n) eqn:Hd; simpl.
  - exists parts. unfold entry_of in Hv. rewrite Hd in Hv.
    split_and!; [done|done|apply sort_strings_sorted| |].
    + rewrite sort_strings_perm. apply NoDup_fst_map_to_list.
    + intros k. rewrite sort_strings_perm. apply walk_ok_at_path in Hw.
      unfold view, view_node. rewrite at_path_app, Hw. simpl.
      rewrite list_elem_of_fmap. split.
      * intros ([k' c] & -> & Hk%elem_of_map_to_list). simpl. rewrite Hk. simpl. by eexists.
      * destruct (Children n !! k) as [c|] eqn:Hk; simpl; [|by intros []].
        intros _. exists (k, c). split; [done|]. by apply elem_of_map_to_list.
  - intros parts' ?. simplify_eq. rewrite Hv. unfold entry_of. by rewrite Hd.
Qed.

Lemma elem_of_files_view m p b : inv m →
  (∃ x, (p, x) ∈ files "/" (root m) ∧ Data x = b) ↔
  ∃ parts, p = rooted_path parts ∧ view m parts = Some (EFile b).
Proof.
  intros Hm. rewrite root_prefix. setoid_rewrite elem_of_files; [|apply Hm|done].
  unfold view, view_node, entry_of. split.
  - intros (x & (q & -> & Hx & Hd) & <-). exists q. simpl. by rewrite Hx; simpl; rewrite Hd.
  - intros (q & -> & Hq). destruct (at_path (root m) q) as [x|] eqn:Hx; [|done].
    simpl in Hq. destruct (IsDir x) eqn:Hd; [done|]. simplify_eq. eauto 6.
Qed.

(** *** Usage *)

Lemma old_size_total m parts : inv m → (0 ≤ old_size (view m parts) ≤ total (root m))%Z.
Proof.
  intros Hm. pose proof (total_nonneg (root m)). unfold view, view_node.
  destruct (at_path (root m) parts) as [n|] eqn:Hn; simpl; [|lia].
  unfold entry_of. destruct (IsDir n) eqn:Hd; simpl; [lia|].
  pose proof (total_at_path_le _ _ _ (inv_wf _ Hm) Hn) as Hle.
  rewrite total_file in Hle by done. pose proof (len_nonneg (Data n)). lia.
Qed.

Lemma succeeds_total m m' o : inv m → succeeds (abs m) (abs m') o →
  quota m' = quota m ∧ (total (root m') ≤ total (root m) + incoming o)%Z ∧
  (quota_ok m → quota_ok m').
Proof.
  intros Hm Hs. unfold quota_ok.
  inversion Hs as [p mode dir name _ _ _ (_&Hu&Hq)|p mode parts _ _ (_&Hu&Hq)
    |p data mode dir name _ _ _ Hle (_&Hu&Hq)|p dir name e _ _ He _ (_&Hu&Hq)
    |(_&Hu&Hq)]; simpl in *; rewrite ?Hq, Hu; clear Hs.
  - split_and!; [done|lia|done].
  - split_and!; [done|lia|done].
  - pose proof (old_size_total m (dir ++ [name]) Hm). split_and!; [done|lia|lia].
  - pose proof (old_size_total m (dir ++ [name]) Hm) as Hold. rewrite He in Hold.
    unfold old_size in Hold. split_and!; [done|lia|lia].
  - pose proof (total_nonneg (root m)). split_and!; [done|lia|lia].
Qed.

Lemma exec_usage now m o : inv m → fits m (incoming o) →
  quota (exec now m o).2 = quota m ∧
  (total (root (exec now m o).2) ≤ total (root m) + incoming o)%Z ∧
  (quota_ok m → quota_ok (exec now m o).2).
Proof.
  intros Hm Hf. pose proof (exec_refines_spec now m o Hm Hf) as [_ Hr].
  destruct (exec now m o) as [[u|e] m'] eqn:Hx; simpl in *.
  { apply succeeds_total; [done|by destruct Hr]. }
  assert (0 ≤ incoming o)%Z by (destruct o; simpl; try lia; apply len_nonneg).
  destruct (decide (e = ErrQuota)) as [->|Hne].
  - destruct Hr as [Hr _]. assert (∃ p d mode, o = OWrite p d mode) as (p&d&mode&->).
    { inversion Hr; simplify_eq; eauto; exfalso; match goal with
        | H : normalize _ = Err _ |- _ => by apply normalize_err in H
        | H : resolve _ _ _ = Err _ |- _ => by apply resolve_err in H
        end. }
    destruct (Write_quota _ _ _ _ _ _ Hm Hx) as (_&_&Hq&Ht&_).
    unfold quota_ok. rewrite Hq, Ht. split_and!; [done|lia|done].
  - destruct Hr as [_ Hr]. rewrite (Hr Hne). split_and!; [done|lia|done].
Qed.

Lemma reach_usage_ok m : reach m →
  (total (root m) < two63)%Z ∧ quota_ok m.
Proof.
  induction 1 as [now q|now m o Hm IH Hf].
  - split; [done|]. unfold quota_ok. simpl. rewrite map_fold_empty. lia.
  - pose proof (exec_usage now m o (reach_inv _ Hm) Hf) as (Hq & Ht & Hok).
    unfold fits in Hf. split; [lia|]. naive_solver.
Qed.

End FSReach.

Import GoStr GoPath MemFS FSFacts FSInv FSSpec FSRefine FSWalk FSReach.

(** ** A small run *)

Module FSDemo.

Definition clk : clock := λ i, (1700000000 + Z.of_nat i)%Z.
Definition secret : bytes := of_string "secret".
Definition fs0 : MemFS := New clk 8.
Definition fs1 : MemFS := (exec clk fs0 (OMkdirAll "/etc/keys" 448)).2.
Definition fs2 : MemFS := (exec clk fs1 (OWrite "/etc/keys/id" secret 384)).2.

Lemma reach_fs0 : reach fs0.
Proof. apply reach_new. Defined.

Lemma reach_fs1 : reach fs1.
Proof. apply (reach_step clk fs0 (OMkdirAll "/etc/keys" 448) reach_fs0). vm_compute. done. Defined.

Lemma reach_fs2 : reach fs2.
Proof.
  apply (reach_step clk fs1 (OWrite "/etc/keys/id" secret 384) reach_fs1). vm_compute. done.
Defined.

Lemma inv_fs2 : inv fs2.
Proof. apply reach_inv, reach_fs2. Defined.

End FSDemo.

Module FSProps.
Import FSDemo.

(** C1: every operation implements the abstract file system: a success makes
    exactly the change the specification allows and bumps the version, and an
    error is one the specification gives a reason for, excludes every success
    and (but for a quota error) leaves the file system untouched. *)
Theorem exec_refines now m o r m' :
  reach m → fits m (incoming o) → exec now m o = (r, m') →
  match r with
  | Ok _ => succeeds (abs m) (abs m') o ∧ version m' = i64 (version m + 1)
  | Err e => fails (abs m) o e ∧ (∀ s, ¬ succeeds (abs m) s o) ∧ (e ≠ ErrQuota → m' = m)
  end.
Proof.
  intros Hr Hf Hx. pose proof (exec_refines_spec now m o (reach_inv _ Hr) Hf) as [_ H].
  rewrite Hx in H. simpl in H. destruct r as [u|e]; [done|]. destruct H as [H1 H2].
  split_and!; [done| |done]. intros s Hs. by eapply succeeds_not_fails.
Qed.

Lemma exec_refines_witness :
  succeeds (abs fs1) (abs fs2) (OWrite "/etc/keys/id" secret 384) ∧
  version fs2 = i64 (version fs1 + 1).
Proof.
  apply (exec_refines clk fs1 (OWrite "/etc/keys/id" secret 384) (Ok tt) fs2).
  - apply reach_fs1.
  - vm_compute. done.
  - vm_compute. done.
Defined.

(** C2: in every reachable file system the tree is well formed, the usage counter
    is the exact number of bytes held and never exceeds a positive quota, and
    every buffer let go of was zeroed first. *)
Theorem reach_accounting m :
  reach m →
  wf_node (root m) ∧ used m = total (root m) ∧
  (0 < quota m → used m ≤ quota m)%Z ∧ Forall all_zero (released m).
Proof.
  intros Hr. pose proof (reach_inv _ Hr) as Hm. destruct (reach_usage_ok _ Hr) as [Ht Hq].
  assert (used m = total (root m)) as Hu.
  { rewrite (inv_used _ Hm). apply i64_id. pose proof (total_nonneg (root m)).
    unfold in_i64, two63 in *. lia. }
  rewrite Hu. split_and!; [apply Hm|done|exact Hq|apply Hm].
Qed.

Lemma reach_accounting_witness :
  reach fs2 ∧ used fs2 = 6%Z ∧ (used fs2 ≤ quota fs2)%Z.
Proof.
  split; [apply reach_fs2|]. split; [vm_compute; done|].
  apply (reach_accounting fs2 reach_fs2). vm_compute. done.
Defined.

(** C3: [Wipe] overwrites with zeros the body of every file of the tree, whatever
    order the maps are walked in, and leaves an empty root that holds nothing. *)
Theorem Wipe_no_residue now m l :
  walks "/" (root m) l →
  released (Wipe now m) ≡ₚ ((λ f, zeros (length (Data f.2))) <$> l) ++ released m ∧
  used (Wipe now m) = 0%Z ∧
  ∀ q, view (Wipe now m) q = if decide (q = []) then Some EDir else None.
Proof.
  intros Hw. split; [|split; [done|]].
  - unfold Wipe, commit. simpl. f_equiv. rewrite (walks_perm _ _ _ Hw). clear Hw. generalize "/".
    induction (root m) as [n IH] using Node_ind_children. intros s.
    destruct n as [nm d mo t b ch]. simpl in *. destruct d; simpl.
    + induction ch as [|k c ch Hk Hfst IHm] using map_first_key_ind;
        [by rewrite !map_fold_empty|].
      rewrite !map_fold_insert_first_key by done. rewrite fmap_app. f_equiv.
      * apply (IH k c). by rewrite lookup_insert_eq.
      * apply IHm. intros j x Hj. apply (IH j x). by rewrite lookup_insert_ne by congruence.
    + by rewrite zeroBytes_zeros.
  - intros q. unfold view. simpl. case_decide as Hq; [by subst|by apply view_new_dir].
Qed.

Lemma Wipe_no_residue_witness :
  released (Wipe clk fs2) ≡ₚ [zeros 6] ∧ used (Wipe clk fs2) = 0%Z.
Proof.
  destruct (Wipe_no_residue clk fs2 (files "/" (root fs2)) (files_walks _ _)) as (H&H'&_).
  split; [exact H|exact H'].
Defined.

(** A write the quota rejects is not without effect: the file keeps its
    length but its body is now zeros, every other location is as before, and
    neither the usage nor the version shows the change. *)
Theorem Write_quota_zeroes now m p data mode m' :
  inv m → Write now m p data mode = (Err ErrQuota, m') →
  used m' = used m ∧ version m' = version m ∧
  ∃ parts, normalize p = Ok parts ∧
    ∀ q, view m' q = if decide (q = parts) then zeroed (view m q) else view m q.
Proof.
  intros Hm Hw. destruct (Write_quota _ _ _ _ _ _ Hm Hw) as (H1 & H2 & _ & _ & H3). exact (conj H1 (conj H2 H3)).
Qed.

Lemma Write_quota_zeroes_witness :
  version (Write clk fs2 "etc/keys/id" (zeros 9) 384).2 = version fs2 ∧
  Read fs2 "/etc/keys/id" = Ok secret ∧
  Read (Write clk fs2 "etc/keys/id" (zeros 9) 384).2 "/etc/keys/id" = Ok (zeros 6).
Proof.
  split; [|split; vm_compute; done].
  apply (Write_quota_zeroes clk fs2 "etc/keys/id" (zeros 9) 384 _ inv_fs2).
  vm_compute. done.
Defined.

(** C4: after a successful write the file reads back as written, and every other
    path that can be read is read as before. *)
Theorem Write_then_Read now m p data mode m' :
  inv m → fits m (len data) → Write now m p data mode = (Ok tt, m') →
  Read m' p = Ok data ∧
  ∀ p' b, normalize p' ≠ normalize p → Read m' p' = Ok b ↔ Read m p' = Ok b.
Proof.
  apply write_read.
Qed.

Lemma Write_then_Read_witness :
  Read fs2 "/etc/keys/../keys/id" = Ok secret.
Proof.
  refine (proj1 (Write_then_Read clk fs1 "/etc/keys/../keys/id" secret 384 fs2 _ _ _)).
  - apply reach_inv, reach_fs1.
  - vm_compute. done.
  - vm_compute. done.
Defined.

(** a listing succeeds exactly on a directory, and is the strictly sorted list
    of the names that exist below it. *)
Theorem List_children m p :
  inv m →
  match List m p with
  | Ok l => ∃ parts, normalize p = Ok parts ∧ view m parts = Some EDir ∧
      StronglySorted String.le l ∧ NoDup l ∧
      ∀ k, k ∈ l ↔ is_Some (view m (parts ++ [k]))
  | Err _ => ∀ parts, normalize p = Ok parts → view m parts ≠ Some EDir
  end.
Proof. apply List_view. Qed.

Lemma List_children_witness :
  List fs2 "/etc" = Ok ["keys"] ∧
  ∃ parts, normalize "/etc" = Ok parts ∧ view fs2 parts = Some EDir ∧
      StronglySorted String.le ["keys"] ∧ NoDup ["keys"] ∧
      ∀ k, k ∈ ["keys"] ↔ is_Some (view fs2 (parts ++ [k])).
Proof.
  split; [vm_compute; done|].
  exact (List_children fs2 "/etc" inv_fs2).
Defined.

(** The manifest does not depend on the order the maps are iterated in; it is
    sorted by path, names each file once, and holds exactly the files of the
    tree with the digest and size of their bodies. *)
Theorem Manifest_deterministic h m l :
  inv m → walks "/" (root m) l →
  sort_by Path (manifest_entry h <$> l) = Manifest h m ∧
  NoDup (Path <$> Manifest h m) ∧
  ∀ p d n, (∃ t, MkEntry p d n t ∈ Manifest h m) ↔
    ∃ parts b, p = rooted_path parts ∧ view m parts = Some (EFile b) ∧
      d = h b ∧ n = len b.
Proof.
  intros Hm Hw.
  assert (NoDup (Path <$> (manifest_entry h <$> files "/" (root m)))) as Hnd.
  { rewrite <- list_fmap_compose. apply (files_NoDup _ []); [apply Hm|done]. }
  split_and!.
  - unfold Manifest. symmetry. apply sort_by_unique; [done|].
    by rewrite (walks_perm _ _ _ Hw).
  - unfold Manifest. by rewrite sort_by_perm.
  - intros p d n. unfold Manifest. setoid_rewrite sort_by_perm.
    setoid_rewrite list_elem_of_fmap. split.
    + intros (t & [p' x] & Heq & Hx). unfold manifest_entry in Heq. simplify_eq/=.
      destruct (proj1 (elem_of_files_view m p' (Data x) Hm)) as (parts & Hp & Hv); [eauto|].
      eauto 6.
    + intros (parts & b & Hp & Hv & -> & ->).
      destruct (proj2 (elem_of_files_view m p b Hm)) as (x & Hx & <-); [eauto|].
      eexists. by exists (p, x).
Qed.

Lemma Manifest_deterministic_witness :
  Manifest (λ b, to_string b) fs2 = [MkEntry "/etc/keys/id" "secret" 6 1700000000] ∧
  NoDup (Path <$> Manifest (λ b, to_string b) fs2).
Proof.
  split; [vm_compute; done|].
  apply (Manifest_deterministic (λ b, to_string b) fs2 (files "/" (root fs2)) inv_fs2
    (files_walks _ _)).
Defined.

(** No path leaves the tree: what [normalize] accepts are exactly the lists of
    plain names (no empty element, no dot elements, no slash, no [..] inside),
    and the canonical path of such a list is accepted with that list. *)
Theorem normalize_confined parts :
  ((∃ p, normalize p = Ok parts) ↔ Forall valid_name parts) ∧
  ∀ p, normalize p = Ok parts → normalize (rooted_path parts) = Ok parts.
Proof.
  split.
  - split; [intros [p Hp]; by eapply normalize_valid|].
    intros Hv. eexists. by apply normalize_rooted_path.
  - intros p Hp. apply normalize_rooted_path. by eapply normalize_valid.
Qed.

Lemma normalize_confined_witness :
  normalize "../../etc/./x" = Ok ["etc"; "x"] ∧
  normalize (rooted_path ["etc"; "x"]) = Ok ["etc"; "x"].
Proof.
  split; [vm_compute; done|].
  apply (proj2 (normalize_confined ["etc"; "x"]) "../../etc/./x"). vm_compute. done.
Defined.

End FSProps.
