(* ===== verification/MemFSCases.v ===== *)
(** * Single calls on a reachable file system, by what is there

    What a caller that knows the contents may conclude from one [Write] or one
    [Remove]. *)
From S2P Require Import Prelude GoStrings GoPath MemFS MemFSFacts MemFSSpec MemFSRefine MemFSProps.
Import GoStr GoPath MemFS FSFacts.

Module FSPaths.

Lemma Split_snoc s c t : Split (s +:+ String c t) c = Split s c ++ Split t c.
Proof.
  induction s as [|a s IH].
  - refine (eq_trans (Split_app "" c t eq_refl) _). done.
  - rewrite sapp_cons. simpl. rewrite IH. case_decide; [done|].
    destruct (Split s c) eqn:Hs; [by apply Split_nonempty in Hs|done].
Qed.

(** The states of the two runs: the relative one may keep dots at its bottom. *)
Lemma clean_fold_dots b l : Forall (no_byte slash) l → ∀ pl n, Forall plain_name pl →
  ∃ pl' n', fold_left (clean_step b) l (pl ++ replicate n "..") = pl' ++ replicate n' ".." ∧
    Forall plain_name pl' ∧ fold_left (clean_step true) l pl = pl'.
Proof.
  induction 1 as [|c l Hc Hl IH]; intros pl n Hpl; [by eauto|]. simpl.
  unfold clean_step at 2 4.
  destruct (decide (c = "" ∨ c = ".")) as [|Hd]; [by apply IH|].
  destruct (decide (c = "..")) as [->|Hdd].
  - destruct Hpl as [|t pl Ht Hpl].
    + destruct n as [|n]; simpl; [destruct b; [by apply (IH [] 0)|by apply (IH [] 1)]|].
      by apply (IH [] (S (S n))).
    + simpl. assert (t ≠ "..") by (by destruct Ht as (_&_&?&_)).
      rewrite !decide_False by done. by apply IH.
  - apply (IH (c :: pl) n). constructor; [|done]. unfold plain_name. naive_solver.
Qed.

(** Resolving the dots of a path under the root forgets how it was spelled. *)
Lemma clean_elems_again b l : Forall (no_byte slash) l →
  clean_elems true (clean_elems b l) = clean_elems true l.
Proof.
  intros Hl. unfold clean_elems at 2 3.
  destruct (clean_fold_dots b l Hl [] 0 (Forall_nil_2 _)) as (pl & n & H1 & Hpl & H2).
  simpl in H1. rewrite H1, H2.
  unfold clean_elems. rewrite reverse_app, reverse_replicate, fold_left_app.
  assert (fold_left (clean_step true) (replicate n "..") [] = []) as ->.
  { clear. induction n as [|n IH]; [done|exact IH]. }
  rewrite clean_fold_plain by (by apply Forall_reverse).
  by rewrite (right_id_L [] (++)), reverse_involutive.
Qed.

(** The elements a path addresses under the root. *)
Definition elems (p : string) : list string := clean_elems true (Split p slash).

Lemma elems_plain p : Forall plain_name (elems p).
Proof. apply clean_elems_rooted, Split_parts. Qed.

Lemma elems_split_join l : Forall plain_name l → clean_elems true (Split (Join l "/") slash) = l.
Proof.
  intros Hl. destruct l as [|x l]; [done|]. change "/" with (str1 slash).
  rewrite Split_Join by (by try apply plain_no_slash). by apply clean_elems_plain.
Qed.

Lemma split_join l : l ≠ [] → Forall plain_name l → Split (Join l "/") slash = l.
Proof.
  intros Hne Hl. change "/" with (str1 slash). apply Split_Join; [done|].
  by apply plain_no_slash.
Qed.

Lemma Clean_slash_rooted l : Forall plain_name l → Clean ("/" +:+ rooted_path l) = rooted_path l.
Proof.
  intros Hl. change ("/" +:+ ?x) with (String slash x). rewrite Clean_rooted. unfold rooted_path at 1.
  change (Split (rooted_path l) slash) with ("" :: Split (Join l "/") slash).
  rewrite clean_elems_cons_empty. by rewrite elems_split_join.
Qed.

Lemma normalize_Clean p : p ≠ "" → normalize p = normalize (rooted_path (elems p)).
Proof.
  intros Hp. unfold normalize. rewrite decide_False by done.
  rewrite (decide_False (P:=rooted_path _ = "")) by done.
  change ("/" +:+ p) with (String slash p). rewrite Clean_rooted. fold (elems p).
  by rewrite (Clean_slash_rooted _ (elems_plain p)).
Qed.

Lemma normalize_elems p parts : normalize p = Ok parts → p ≠ "" ∧ elems p = parts.
Proof.
  intros Hn. assert (p ≠ "") as Hp by (by intros ->). split; [done|].
  rewrite normalize_Clean in Hn by done. unfold normalize in Hn.
  rewrite decide_False in Hn by done.
  pose proof (elems_plain p) as Hpl. rewrite (Clean_slash_rooted _ Hpl) in Hn.
  destruct (decide (elems p = [])) as [He|He].
  { rewrite He in Hn. simpl in Hn. simplify_eq. done. }
  rewrite decide_False in Hn by (by apply rooted_path_not_root).
  case_match; [done|]. simplify_eq. unfold rooted_path. rewrite TrimPrefix_app.
  by rewrite split_join.
Qed.

Lemma elems_normalize p : p ≠ "" → Forall valid_name (elems p) → normalize p = Ok (elems p).
Proof. intros Hp Hv. rewrite normalize_Clean by done. by apply normalize_rooted_path. Qed.

Lemma elems_Clean q : elems (Clean q) = elems q.
Proof.
  unfold Clean. case_decide as Hq; [by subst|].
  pose proof (Split_parts q slash) as Hsl. destruct (is_rooted q) eqn:Hr.
  - unfold is_rooted in Hr. apply HasPrefix_spec in Hr as [t ->].
    change ("/" +:+ t) with (String slash t) in *. unfold elems at 2.
    change (Split (String slash t) slash) with ("" :: Split t slash) in *.
    rewrite !clean_elems_cons_empty. fold (elems t). unfold elems at 1.
    change ("/" +:+ ?x) with (String slash x).
    change (Split (String slash ?x) slash) with ("" :: Split x slash).
    rewrite clean_elems_cons_empty. apply elems_split_join, elems_plain.
  - assert (Forall (no_byte slash) (clean_elems false (Split q slash))) as Hno.
    { unfold clean_elems. apply Forall_reverse. revert Hsl. generalize (Split q slash).
      assert (Forall (no_byte slash) []) as Hst by done. revert Hst. generalize (@nil string).
      intros st Hst l Hl. revert st Hst. induction Hl as [|c l Hc Hl IH]; intros st Hst; [done|].
      simpl. apply IH. unfold clean_step. case_decide; [done|]. case_decide; [|by constructor].
      destruct Hst as [|t st Ht Hst]; [by repeat constructor|]. case_decide; [|done].
      by repeat constructor. }
    pose proof (clean_elems_again false _ Hsl) as Hagain. unfold elems at 2. rewrite <- Hagain.
    destruct (clean_elems false (Split q slash)) as [|x l] eqn:He; [done|].
    case_decide as Hj.
    { destruct l as [|y l]; [simpl in Hj; by subst|]. rewrite Join_cons in Hj. by destruct x. }
    unfold elems. change "/" with (str1 slash). by rewrite Split_Join.
Qed.

Lemma elems_Join p c : p ≠ "" → plain_name c → elems (Join2 p c) = elems p ++ [c].
Proof.
  intros Hp Hc. unfold Join2.
  rewrite !filter_cons_True by (done || by destruct Hc).
  change (Join (p :: c :: filter _ []) "/") with (p +:+ "/" +:+ c). rewrite elems_Clean.
  unfold elems. change (p +:+ "/" +:+ c) with (p +:+ String slash c).
  rewrite Split_snoc, (Split_no_byte c) by (by destruct Hc as (_&_&_&?)).
  unfold clean_elems. rewrite fold_left_app. simpl.
  by rewrite (clean_step_plain _ _ _ Hc), reverse_cons.
Qed.

(** Joining a child's name to any spelling of a directory addresses the child. *)
Lemma normalize_Join p c parts : normalize p = Ok parts → valid_name c →
  normalize (Join2 p c) = Ok (parts ++ [c]).
Proof.
  intros Hn Hc. pose proof (normalize_valid _ _ Hn) as Hv.
  apply normalize_elems in Hn as [Hp <-]. rewrite <- elems_Join by (done || by destruct Hc).
  apply elems_normalize.
  - unfold Join2. rewrite !filter_cons_True by (done || by destruct Hc as [[]]).
    unfold Clean. case_decide; [done|]. case_match; [done|]. by case_decide.
  - rewrite elems_Join by (done || by destruct Hc). apply Forall_app. split; [done|].
    by constructor.
Qed.

End FSPaths.

Import GoStr GoPath MemFS FSFacts FSInv FSSpec FSRefine FSReach.

Module FSCases.

(** ** Where something exists *)

Lemma view_parent m dir name : inv m → is_Some (view m (dir ++ [name])) →
  resolve (view m) [] dir = Ok EDir.
Proof.
  intros Hm [e He]. unfold view, view_node in He. rewrite at_path_app in He.
  destruct (at_path (root m) dir) as [n|] eqn:Hn; [|done]. simpl in He.
  destruct (Children n !! name) as [c|] eqn:Hc; [|done].
  destruct (wf_child n name c (wf_at_path _ _ _ (inv_wf _ Hm) Hn) Hc) as (Hd & _).
  rewrite resolve_root. apply walk_at_path in Hn as ->; [|apply Hm]. simpl.
  unfold entry_of. by rewrite Hd.
Qed.

Lemma view_below m parts k : inv m → is_Some (view m (parts ++ [k])) →
  view m parts = Some EDir ∧ valid_name k.
Proof.
  intros Hm [e He]. unfold view, view_node in *. rewrite at_path_app in He.
  destruct (at_path (root m) parts) as [n|] eqn:Hn; [|done]. simpl in He.
  destruct (Children n !! k) as [c|] eqn:Hc; [|done].
  destruct (wf_child n k c (wf_at_path _ _ _ (inv_wf _ Hm) Hn) Hc) as (Hd & _ & Hv & _).
  simpl. unfold entry_of. by rewrite Hd.
Qed.

Lemma view_file_below m parts b q : inv m → view m parts = Some (EFile b) → q ≠ [] →
  view m (parts ++ q) = None.
Proof.
  intros Hm Hv Hq. unfold view, view_node in *. rewrite at_path_app.
  destruct (at_path (root m) parts) as [n|] eqn:Hn; [|done]. simpl in *.
  pose proof (wf_at_path _ _ _ (inv_wf _ Hm) Hn) as Hwf. unfold entry_of in Hv.
  destruct (IsDir n) eqn:Hd; [done|]. exact (view_file n q Hwf Hd Hq).
Qed.

Lemma view_down m parts q : view m parts = None → view m (parts ++ q) = None.
Proof.
  unfold view, view_node. rewrite at_path_app. by destruct (at_path (root m) parts).
Qed.

Lemma Stat_view m p parts : inv m → normalize p = Ok parts →
  match Stat m p with
  | Ok n => view m parts = Some EDir ∧ IsDir n = true ∨
            ∃ b, view m parts = Some (EFile b) ∧ IsDir n = false
  | Err e => view m parts = None
  end.
Proof.
  intros Hm Hp. unfold Stat. rewrite Hp, (view_walk m parts Hm). unfold entry_of.
  destruct (walk (root m) parts) as [n|]; [|done]. simpl.
  destruct (IsDir n) eqn:Hd; eauto.
Qed.

(** ** One removal *)

Lemma Remove_leaf now m p parts : reach m → normalize p = Ok parts → parts ≠ [] →
  is_Some (view m parts) → (∀ k, view m (parts ++ [k]) = None) →
  ∃ m', Remove now m p = (Ok tt, m') ∧ reach m' ∧
    ∀ q, view m' q = if decide (q = parts) then None else view m q.
Proof.
  intros Hr Hp Hne Hs Hleaf. pose proof (reach_inv _ Hr) as Hm.
  destruct (exists_last Hne) as (dir & name & ->).
  pose proof (view_parent _ _ _ Hm Hs) as Hdir.
  destruct (Remove now m p) as [r m'] eqn:Hx.
  pose proof (Remove_refines now m p r m' Hm Hx) as [_ Href].
  assert (reach m') as Hr'.
  { replace m' with (exec now m (ORemove p)).2 by (simpl; by rewrite Hx).
    apply reach_step; [done|]. unfold fits. simpl. pose proof (reach_usage_ok _ Hr). lia. }
  destruct r as [[]|e].
  - exists m'. split; [done|]. split; [done|]. intros q.
    destruct Href as [Hsucc _].
    inversion Hsucc as [| | |p' dir' name' e' Hp' _ _ _ (Hv & _)|]; simplify_eq/=.
    rewrite Hp in Hp'. injection Hp' as Hp'. rewrite Hv. unfold upd. by rewrite Hp'.
  - exfalso. destruct Href as [Hf _]. destruct Hs as [e0 He0].
    inversion Hf; simplify_eq/=;
      repeat match goal with
      | H1 : normalize ?p = Ok _, H2 : normalize ?p = Ok _ |- _ =>
          rewrite H1 in H2; injection H2 as H2
      | H : _ ++ [_] = _ ++ [_] |- _ => apply app_inj_tail in H as [??]; subst
      end; subst; try congruence.
    rewrite Hleaf in *. by match goal with H : is_Some None |- _ => destruct H end.
Qed.

Lemma Remove_root now m p : normalize p = Ok [] → Remove now m p = (Err ErrInvalidPath, m).
Proof. intros Hp. unfold Remove. by rewrite Hp. Qed.

(** ** One write *)

Lemma reach_Write now m p data mode r m' : reach m → fits m (len data) →
  Write now m p data mode = (r, m') → reach m'.
Proof.
  intros Hr Hf Hx. change m' with (r, m').2. rewrite <- Hx.
  by apply (reach_step now m (OWrite p data mode)).
Qed.

(** What one write does to the contents, whatever its result. *)
Definition write_outcome (m : MemFS) (parts : list string) (data : bytes)
    (r : result error unit) (m' : MemFS) : Prop :=
  match r with
  | Ok _ =>
      view m parts ≠ Some EDir ∧
      total (root m') = (total (root m) - old_size (view m parts) + len data)%Z ∧
      ∀ q, view m' q = if decide (q = parts) then Some (EFile data) else view m q
  | Err e =>
      if decide (e = ErrQuota) then
        total (root m') = total (root m) ∧
        ∀ q, view m' q = if decide (q = parts) then zeroed (view m q) else view m q
      else m' = m ∧ ∀ b, view m parts ≠ Some (EFile b)
  end.

Lemma Write_cases now m p data mode parts r m' : reach m → fits m (len data) →
  normalize p = Ok parts → Write now m p data mode = (r, m') →
  write_outcome m parts data r m'.
Proof.
  intros Hr Hf Hp Hx. pose proof (reach_inv _ Hr) as Hm. unfold write_outcome.
  pose proof (Write_refines now m p data mode r m' Hm Hf Hx) as [_ Href].
  destruct r as [[]|e].
  - destruct Href as [Hs _].
    inversion Hs as [| |? ? ? dir name Hp' _ Hne _ (Hv & Hu & _)| |]; simplify_eq/=.
    rewrite Hp in Hp'. injection Hp' as Hp'. rewrite <- Hp' in *. done.
  - destruct Href as [Hfail Hsame]. destruct (decide (e = ErrQuota)) as [->|Hq].
    + destruct (Write_quota _ _ _ _ _ _ Hm Hx) as (_&_&_&Ht&parts'&Hp'&Hv).
      rewrite Hp in Hp'. injection Hp' as <-. done.
    + split; [by apply Hsame|]. intros b Hb.
      destruct (decide (parts = [])) as [->|Hne]; [by rewrite view_root in Hb|].
      destruct (exists_last Hne) as (dir & name & ->).
      assert (is_Some (view m (dir ++ [name]))) as Hsome by (by eexists).
      pose proof (view_parent _ _ _ Hm Hsome) as Hdir.
      inversion Hfail; simplify_eq/=;
        repeat match goal with
        | H1 : normalize ?p = Ok _, H2 : normalize ?p = Ok _ |- _ =>
            rewrite H1 in H2; injection H2 as H2
        | H : _ ++ [_] = _ ++ [_] |- _ => apply app_inj_tail in H as [??]; subst
        end; subst; congruence.
Qed.

End FSCases.
