(* ===== verification/Frontend.v ===== *)
(** * internal/vfs: the WebDAV adapter and the FUSE callbacks

    webdav.go and mount_linux.go turn the calls of the two libraries into calls of
    the file system.  Offsets are int64; an index out of range is the run-time
    panic of Go. *)
From S2P Require Import Prelude GoStrings GoPath MemFS.
Import GoStr GoPath.

Module Frontend.

(** ** Byte buffers *)

(** [make([]byte, n)] then [copy(grown, data)], when the data is shorter. *)
Definition grow (data : bytes) (n : Z) : bytes :=
  if (len data <? n)%Z then data ++ zeros (Z.to_nat n - length data) else data.

(** [copy(data[ofs:], p)]; [None] when the slice expression panics. *)
Definition copy_at (data : bytes) (ofs : Z) (p : bytes) : option bytes :=
  if (ofs <? 0)%Z || (len data <? ofs)%Z then None
  else
    let o := Z.to_nat ofs in
    Some (take o data ++ take (length data - o) p ++ drop (o + length p) data).

(** [copy(buf, data[ofs:])] into a buffer of [n] bytes: what was read. *)
Definition read_at (data : bytes) (ofs : Z) (n : nat) : option bytes :=
  if (ofs <? 0)%Z then None else Some (take n (drop (Z.to_nat ofs) data)).

(** Extend to the end of the write, then copy; a negative length panics. *)
Definition patch (data : bytes) (ofs : Z) (p : bytes) : option bytes :=
  copy_at (grow data (i64 (ofs + len p))) ofs p.

(** ** The WebDAV adapter (webdav.go) *)

(** What the handler gets: the errors it knows, a file-system error as it is, and
    those of the adapter's own. *)
Inductive dav_error :=
  | OsNotExist | OsExist | OsInvalid | Raw (e : MemFS.error)
  | IsADirectory | EOF | Panic.

#[local] Existing Instance MemFS.error_eq_dec.

#[export] Instance dav_error_eq_dec : EqDecision dav_error.
Proof. solve_decision. Defined.

Definition mapErr (e : MemFS.error) : dav_error :=
  match e with
  | MemFS.ErrNotFound => OsNotExist
  | MemFS.ErrExists => OsExist
  | MemFS.ErrInvalidPath => OsInvalid
  | e => Raw e
  end.

Record webdavFile := MkFile { fname : string; offset : Z; isDir : bool }.

Definition data_of (m : MemFS.MemFS) (p : string) : bytes :=
  match MemFS.Read m p with Ok b => b | Err _ => [] end.

Definition to_dav {A} (conv : MemFS.error → dav_error)
    (r : result MemFS.error A * MemFS.MemFS) : result dav_error A * MemFS.MemFS :=
  match r with (Ok a, m) => (Ok a, m) | (Err e, m) => (Err (conv e), m) end.

Definition Mkdir (t : nat → MemFS.clock) (name : string) (perm : Z) (m : MemFS.MemFS)
  : result dav_error unit * MemFS.MemFS := to_dav Raw (MemFS.Mkdir (t 0) m name perm).

(** The node [OpenFile] ends up with: found, or created with its parents. *)
Definition open_node (t : nat → MemFS.clock) (name : string) (create : bool) (perm : Z)
    (m : MemFS.MemFS) : result dav_error (option MemFS.Node) * MemFS.MemFS :=
  match MemFS.Stat m name with
  | Ok n => (Ok (Some n), m)
  | Err e =>
      if negb create then (Err (mapErr e), m)
      else
        let dir := Dir name in
        let m := if bool_decide (dir ≠ "" ∧ dir ≠ "." ∧ dir ≠ "/")
                 then (MemFS.MkdirAll (t 0) m dir 448).2 else m in
        match MemFS.Write (t 1) m name [] perm with
        | (Err e, m) => (Err (mapErr e), m)
        | (Ok _, m) =>
            (Ok (match MemFS.Stat m name with Ok n => Some n | Err _ => None end), m)
        end
  end.

Definition OpenFile (t : nat → MemFS.clock) (name : string) (create trunc : bool) (perm : Z)
    (m : MemFS.MemFS) : result dav_error webdavFile * MemFS.MemFS :=
  match open_node t name create perm m with
  | (Err e, m) => (Err e, m)
  | (Ok n, m) =>
      let dir := match n with Some n => MemFS.IsDir n | None => false end in
      let file := MkFile name 0 dir in
      if trunc && bool_decide (is_Some n) && negb dir then
        match MemFS.Write (t 2) m name [] perm with
        | (Err e, m) => (Err (mapErr e), m)
        | (Ok _, m) => (Ok file, m)
        end
      else (Ok file, m)
  end.

(** [RemoveAll] removes one file or one empty directory. *)
Definition RemoveAll (t : nat → MemFS.clock) (name : string) (m : MemFS.MemFS)
  : result dav_error unit * MemFS.MemFS := to_dav Raw (MemFS.Remove (t 0) m name).

Definition Rename (t : nat → MemFS.clock) (oldName newName : string) (m : MemFS.MemFS)
  : result dav_error unit * MemFS.MemFS :=
  match MemFS.Read m oldName with
  | Err e => (Err (Raw e), m)
  | Ok data =>
      match MemFS.Write (t 0) m newName data 384 with
      | (Err e, m) => (Err (Raw e), m)
      | (Ok _, m) => to_dav Raw (MemFS.Remove (t 1) m oldName)
      end
  end.

(** A [FileInfo] is the node and its size. *)
Definition Stat (name : string) (m : MemFS.MemFS) : result dav_error (MemFS.Node * Z) :=
  match MemFS.Stat m name with
  | Err e => Err (mapErr e)
  | Ok n => Ok (n, if MemFS.IsDir n then 0%Z else len (data_of m name))
  end.

(** *** Open files *)

Definition with_offset (f : webdavFile) (o : Z) : webdavFile := MkFile (fname f) o (isDir f).

(** [Read] into a buffer of [n] bytes. *)
Definition file_Read (n : nat) (f : webdavFile) (m : MemFS.MemFS)
  : result dav_error bytes * webdavFile :=
  if isDir f then (Err IsADirectory, f)
  else match MemFS.Read m (fname f) with
  | Err e => (Err (mapErr e), f)
  | Ok data =>
      if (len data <=? offset f)%Z then (Err EOF, f)
      else match read_at data (offset f) n with
      | None => (Err Panic, f)
      | Some b => (Ok b, with_offset f (i64 (offset f + len b)))
      end
  end.

Definition file_Seek (ofs whence : Z) (f : webdavFile) (m : MemFS.MemFS) : Z * webdavFile :=
  let o := if (whence =? 0)%Z then ofs
           else if (whence =? 1)%Z then i64 (offset f + ofs)
           else if (whence =? 2)%Z then i64 (len (data_of m (fname f)) + ofs)
           else offset f in
  (o, with_offset f o).

Definition file_Write (t : MemFS.clock) (p : bytes) (f : webdavFile) (m : MemFS.MemFS)
  : result dav_error Z * webdavFile * MemFS.MemFS :=
  match patch (data_of m (fname f)) (offset f) p with
  | None => (Err Panic, f, m)
  | Some data =>
      match MemFS.Write t m (fname f) data 384 with
      | (Err e, m) => (Err (Raw e), f, m)
      | (Ok _, m) => (Ok (len p), with_offset f (i64 (offset f + len p)), m)
      end
  end.

Definition file_Readdir (count : Z) (f : webdavFile) (m : MemFS.MemFS)
  : result dav_error (list (MemFS.Node * Z)) :=
  match MemFS.List m (fname f) with
  | Err e => Err (mapErr e)
  | Ok names =>
      let out := omap (λ n, match Stat (Join2 (fname f) n) m with
                            | Ok i => Some i | Err _ => None end) names in
      Ok (if (0 <? count)%Z && (count <? Z.of_nat (length out))%Z
          then take (Z.to_nat count) out else out)
  end.

(** ** The FUSE callbacks (mount_linux.go); a negative result is an errno *)

Definition ENOENT : Z := 2.
Definition EIO : Z := 5.
Definition ENOSPC : Z := 28.

(** What [fillStat] sets from the node. *)
Record Stat_t := MkStat { st_dir : bool; st_mode : Z; st_nlink : Z; st_size : Z; st_mtim : Z }.

Definition S_IFDIR : Z := 16384.
Definition S_IFREG : Z := 32768.

Definition fillStat (n : MemFS.Node) (m : MemFS.MemFS) (p : string) : Stat_t :=
  if MemFS.IsDir n then MkStat true (Z.lor S_IFDIR 493) 2 0 (MemFS.ModTime n)
  else MkStat false (Z.lor S_IFREG 384) 1 (len (data_of m p)) (MemFS.ModTime n).

Definition Getattr (p : string) (m : MemFS.MemFS) : Z * option Stat_t :=
  match MemFS.Stat m p with
  | Err _ => ((- ENOENT)%Z, None)
  | Ok n => (0%Z, Some (fillStat n m p))
  end.

(** The entries filled in, the buffer being large enough; a child that cannot be
    looked up keeps the zero attributes. *)
Definition Readdir (p : string) (m : MemFS.MemFS) : Z * list (string * option Stat_t) :=
  match MemFS.List m p with
  | Err _ => ((- ENOENT)%Z, [])
  | Ok names =>
      (0%Z, (".", None) :: ("..", None) ::
        ((λ n, (n, match MemFS.Stat m (Join2 p n) with
                   | Ok x => Some (fillStat x m (Join2 p n)) | Err _ => None end)) <$> names))
  end.

Definition Open (p : string) (m : MemFS.MemFS) : Z :=
  if is_ok (MemFS.Stat m p) then 0%Z else (- ENOENT)%Z.

(** The number of bytes read, with the bytes; [None] is the panic of a negative
    offset. *)
Definition Read (p : string) (n : nat) (ofst : Z) (m : MemFS.MemFS) : option (Z * bytes) :=
  match MemFS.Read m p with
  | Err _ => Some ((- ENOENT)%Z, [])
  | Ok data =>
      if (len data <=? ofst)%Z then Some (0%Z, [])
      else b ← read_at data ofst n; Some (len b, b)
  end.

Definition Write (t : MemFS.clock) (p : string) (buff : bytes) (ofst : Z) (m : MemFS.MemFS)
  : option (Z * MemFS.MemFS) :=
  data ← patch (data_of m p) ofst buff;
  match MemFS.Write t m p data 384 with
  | (Ok _, m) => Some (len buff, m)
  | (Err e, m) => Some (if decide (e = MemFS.ErrQuota) then - ENOSPC else - EIO, m)%Z
  end.

Definition Create (t : MemFS.clock) (p : string) (m : MemFS.MemFS) : Z * MemFS.MemFS :=
  match MemFS.Write t m p [] 384 with
  | (Ok _, m) => (0%Z, m)
  | (Err e, m) => (if decide (e = MemFS.ErrExists) then 0 else - EIO, m)%Z
  end.

Definition Truncate (t : MemFS.clock) (p : string) (size : Z) (m : MemFS.MemFS)
  : option (Z * MemFS.MemFS) :=
  match MemFS.Read m p with
  | Err _ => Some ((- ENOENT)%Z, m)
  | Ok data =>
      if (size <? 0)%Z then None
      else
        let data := if (size <? len data)%Z then take (Z.to_nat size) data else grow data size in
        match MemFS.Write t m p data 384 with
        | (Ok _, m) => Some (0%Z, m)
        | (Err _, m) => Some ((- EIO)%Z, m)
        end
  end.

Definition Unlink (t : MemFS.clock) (p : string) (m : MemFS.MemFS) : Z * MemFS.MemFS :=
  match MemFS.Remove t m p with (Ok _, m) => (0%Z, m) | (Err _, m) => ((- ENOENT)%Z, m) end.

Definition FMkdir (t : MemFS.clock) (p : string) (m : MemFS.MemFS) : Z * MemFS.MemFS :=
  match MemFS.Mkdir t m p 493 with (Ok _, m) => (0%Z, m) | (Err _, m) => ((- EIO)%Z, m) end.

Definition Rmdir (t : MemFS.clock) (p : string) (m : MemFS.MemFS) : Z * MemFS.MemFS :=
  match MemFS.Remove t m p with (Ok _, m) => (0%Z, m) | (Err _, m) => ((- EIO)%Z, m) end.

End Frontend.
