(* ===== verification/FrontendProps.v ===== *)
(** * What the frontends make of the file system

    A FUSE write is POSIX [pwrite] on the bytes of the file, a WebDAV upload stores
    the concatenation of its chunks, a rename moves the body; and what each of
    them loses when it fails. *)
From S2P Require Import Prelude GoStrings GoPath MemFS MemFSFacts MemFSSpec.
From S2P Require Import MemFSRefine MemFSProps MemFSCases Frontend.
Import GoStr GoPath FSFacts FSInv FSSpec FSReach FSCases Frontend.

Module FrontendFacts.

(** ** Byte buffers *)

(** The contents after [pwrite]: a hole reads as zeros. *)
Definition pwrite (old : bytes) (o : nat) (b : bytes) : bytes :=
  take o (old ++ zeros (o - length old)) ++ b ++ drop (o + length b) old.

Lemma length_zeros n : length (zeros n) = n.
Proof. apply length_replicate. Qed.

Lemma patch_pwrite old ofs b : (0 ≤ ofs)%Z → (ofs + len b < two63)%Z →
  patch old ofs b = Some (pwrite old (Z.to_nat ofs) b).
Proof.
  intros Ho Hf. unfold patch, copy_at, grow, pwrite. pose proof (len_nonneg b).
  rewrite i64_id by (unfold in_i64, two63 in *; lia).
  set (o := Z.to_nat ofs). unfold len in *.
  destruct (Z.ltb_spec (Z.of_nat (length old)) (ofs + Z.of_nat (length b))) as [Hlt|Hge].
  - rewrite length_app, length_zeros.
    destruct (Z.ltb_spec ofs 0); [lia|]. cbn [orb].
    destruct (Z.ltb_spec (Z.of_nat (length old + (Z.to_nat (ofs + Z.of_nat (length b)) - length old)))
      ofs); [lia|].
    rewrite (drop_ge old) by lia. do 2 f_equal.
    + rewrite !take_app. f_equal. unfold zeros. rewrite !take_replicate. f_equal. lia.
    + rewrite take_ge by lia. f_equal. apply drop_ge. rewrite length_app, length_zeros. lia.
  - destruct (Z.ltb_spec ofs 0); [lia|]. cbn [orb].
    destruct (Z.ltb_spec (Z.of_nat (length old)) ofs); [lia|].
    rewrite (take_ge b) by lia. replace (o - length old) with 0 by lia.
    unfold zeros. cbn [replicate]. by rewrite (right_id_L [] (++)).
Qed.

Lemma length_pwrite old o b : length (pwrite old o b) = (o + length b) `max` length old.
Proof.
  unfold pwrite. rewrite !length_app, length_take, length_app, length_zeros, length_drop. lia.
Qed.

Lemma pwrite_end old b : pwrite old (length old) b = old ++ b.
Proof.
  unfold pwrite, zeros. rewrite Nat.sub_diag. cbn [replicate].
  rewrite (right_id_L [] (++) old), take_ge, drop_ge by lia. by rewrite (right_id_L [] (++)).
Qed.

(** ** Reading through the abstraction *)

Lemma data_of_view m p parts : inv m → MemFS.normalize p = Ok parts →
  data_of m p = match view m parts with Some (EFile b) => b | _ => [] end.
Proof.
  intros Hm Hp. unfold data_of. destruct (MemFS.Read m p) as [b|e] eqn:Hr.
  - apply Read_view in Hr as (parts' & Hp' & Hv); [|done].
    rewrite Hp in Hp'. injection Hp' as <-. by rewrite Hv.
  - destruct (view m parts) as [[|b]|] eqn:Hv; [done| |done].
    assert (MemFS.Read m p = Ok b) by (apply Read_view; eauto). congruence.
Qed.

Lemma Read_of_view m p parts b : inv m → MemFS.normalize p = Ok parts →
  view m parts = Some (EFile b) → MemFS.Read m p = Ok b.
Proof. intros. apply Read_view; eauto. Qed.

(** ** Uploads *)

(** Successive writes to an open file, until one fails. *)
Fixpoint write_all (t : nat → MemFS.clock) (i : nat) (f : webdavFile) (m : MemFS.MemFS)
    (chunks : list bytes) : result dav_error unit * MemFS.MemFS * list bytes :=
  match chunks with
  | [] => (Ok tt, m, [])
  | c :: chunks =>
      match file_Write (t i) c f m with
      | (Err e, _, m) => (Err e, m, [])
      | (Ok _, f, m) =>
          let '(r, m, done) := write_all t (S i) f m chunks in (r, m, c :: done)
      end
  end.

(** One chunk at the end of the file. *)
Lemma append_chunk t f m parts old c :
  reach m → MemFS.normalize (fname f) = Ok parts → view m parts = Some (EFile old) →
  offset f = len old → (len old + len c < two63)%Z → fits m (len old + len c) →
  match file_Write t c f m with
  | (Ok _, f', m') =>
      f' = with_offset f (len old + len c) ∧ reach m' ∧
      total (MemFS.root m') = (total (MemFS.root m) + len c)%Z ∧
      ∀ q, view m' q = if decide (q = parts) then Some (EFile (old ++ c)) else view m q
  | (Err e, f', m') =>
      e = Raw MemFS.ErrQuota ∧ f' = f ∧ reach m' ∧
      ∀ q, view m' q = if decide (q = parts) then Some (EFile (zeros (length old))) else view m q
  end.
Proof.
  intros Hr Hp Hv Ho Hl Hf. pose proof (reach_inv _ Hr) as Hm. pose proof (len_nonneg old).
  unfold file_Write. rewrite (data_of_view _ _ _ Hm Hp), Hv, Ho, patch_pwrite by lia.
  replace (Z.to_nat (len old)) with (length old) by (unfold len; lia). rewrite pwrite_end.
  assert (len (old ++ c) = len old + len c)%Z as Hlen by (unfold len; rewrite length_app; lia).
  destruct (MemFS.Write t m (fname f) (old ++ c) 384) as [r m'] eqn:Hx.
  assert (fits m (len (old ++ c))) as Hfit by (by rewrite Hlen).
  pose proof (reach_Write _ _ _ _ _ _ _ Hr Hfit Hx) as Hr'.
  pose proof (Write_cases _ _ _ _ _ _ _ _ Hr Hfit Hp Hx) as Hc. unfold write_outcome in Hc.
  destruct r as [[]|e].
  - destruct Hc as (_ & Ht & Hq). rewrite Hv in Ht. split_and!; [|done| |done].
    + f_equal. rewrite i64_id; [lia|]. unfold in_i64, two63 in *. pose proof (len_nonneg c). lia.
    + simpl in Ht. lia.
  - destruct (decide (e = MemFS.ErrQuota)) as [->|Hne].
    + destruct Hc as [_ Hq]. split_and!; [done..|]. intros q. rewrite Hq.
      case_decide; [|done]. subst. by rewrite Hv.
    + destruct Hc as [_ Hc]. by apply Hc in Hv.
Qed.

Lemma write_all_spec t chunks : ∀ i f m parts old,
  reach m → MemFS.normalize (fname f) = Ok parts → view m parts = Some (EFile old) →
  offset f = len old → (len old + len (concat chunks) < two63)%Z →
  (total (MemFS.root m) + len old + 2 * len (concat chunks) < two63)%Z →
  let '(r, m', stored) := write_all t i f m chunks in
  reach m' ∧ stored `prefix_of` chunks ∧
  match r with
  | Ok _ => stored = chunks ∧
      ∀ q, view m' q = if decide (q = parts) then Some (EFile (old ++ concat chunks)) else view m q
  | Err e => e = Raw MemFS.ErrQuota ∧
      ∀ q, view m' q = if decide (q = parts)
                       then Some (EFile (zeros (length (old ++ concat stored)))) else view m q
  end.
Proof.
  induction chunks as [|c chunks IH]; intros i f m parts old Hr Hp Hv Ho Hl Hf.
  { split_and!; [done|done|done|]. intros q. simpl. rewrite (right_id_L [] (++)).
    case_decide; [by subst|done]. }
  assert (len (concat (c :: chunks)) = len c + len (concat chunks))%Z as Hlen
    by (unfold len; simpl; rewrite length_app; lia).
  pose proof (len_nonneg c). pose proof (len_nonneg (concat chunks)).
  pose proof (append_chunk (t i) f m parts old c Hr Hp Hv Ho) as Ha. simpl write_all.
  destruct (file_Write (t i) c f m) as [[[z|e] f'] m1].
  - destruct Ha as (-> & Hr1 & Ht & Hv1); [lia|unfold fits; lia|].
    assert (len (old ++ c) = len old + len c)%Z as Hoc by (unfold len; rewrite length_app; lia).
    specialize (IH (S i) (with_offset f (len old + len c)) m1 parts (old ++ c)).
    destruct (write_all t (S i) _ m1 chunks) as [[r m'] stored].
    destruct IH as (Hr' & Hpre & Hres); [done|done|by rewrite Hv1, decide_True|done|lia|lia|].
    split; [done|]. split; [by apply prefix_cons|].
    destruct r as [[]|e]; destruct Hres as [Hr1' Hq]; (split; [by rewrite ?Hr1'|]);
      intros q; rewrite Hq; simpl; rewrite (assoc_L (++)); (case_decide; [done|]);
      rewrite Hv1; by rewrite decide_False.
  - destruct Ha as (-> & _ & Hr1 & Hv1); [lia|unfold fits; lia|].
    split_and!; [done|apply prefix_nil|done|]. intros q. rewrite Hv1. simpl.
    by rewrite (right_id_L [] (++)).
Qed.

End FrontendFacts.

Module FrontendTheorems.
Import FrontendFacts.

(** ** Opening a file to replace it *)

(** [m'] holds a file at [parts], empty, and every other file of [m]. *)
Definition emptied (m m' : MemFS.MemFS) (name : string) : Prop :=
  reach m' ∧ (total (MemFS.root m') ≤ total (MemFS.root m))%Z ∧
  MemFS.Read m' name = Ok [] ∧
  ∀ p b, MemFS.normalize p ≠ MemFS.normalize name → MemFS.Read m p = Ok b →
    MemFS.Read m' p = Ok b.

Lemma write_empty now m name perm m' : reach m →
  MemFS.Write now m name [] perm = (Ok tt, m') → emptied m m' name.
Proof.
  intros Hr Hx. pose proof (reach_inv _ Hr) as Hm.
  assert (fits m (len [])) as Hf by (pose proof (reach_usage_ok _ Hr); unfold fits, len; simpl; lia).
  destruct (write_read _ _ _ _ _ _ Hm Hf Hx) as [H1 H2].
  destruct (exec_usage now m (OWrite name [] perm) Hm Hf) as (_ & Ht & _).
  simpl in Ht. rewrite Hx in Ht. simpl in Ht. unfold len in Ht. simpl in Ht.
  split; [by eapply reach_Write|]. split; [lia|]. split; [done|].
  intros p b Hp Hb. by apply H2.
Qed.

Lemma mkdirs_keep t m dir perm : reach m →
  reach (MemFS.MkdirAll t m dir perm).2 ∧
  (total (MemFS.root (MemFS.MkdirAll t m dir perm).2) ≤ total (MemFS.root m))%Z ∧
  ∀ p b, MemFS.Read m p = Ok b → MemFS.Read (MemFS.MkdirAll t m dir perm).2 p = Ok b.
Proof.
  intros Hr. pose proof (reach_inv _ Hr) as Hm.
  assert (fits m (incoming (OMkdirAll dir perm))) as Hf
    by (pose proof (reach_usage_ok _ Hr); unfold fits; simpl; lia).
  split; [exact (reach_step t m (OMkdirAll dir perm) Hr Hf)|]. split.
  - destruct (exec_usage t m (OMkdirAll dir perm) Hm Hf) as (_ & Ht & _). simpl in Ht. lia.
  - intros p b. by apply mkdir_all_read.
Qed.

Lemma emptied_trans m1 m2 m3 name : emptied m1 m2 name → emptied m2 m3 name → emptied m1 m3 name.
Proof.
  intros (_&Ht&_&Ho) (Hr&Ht'&He&Ho'). split; [done|]. split; [lia|]. split; [done|].
  intros p b Hp Hb. apply Ho'; [done|]. by apply Ho.
Qed.

Lemma open_emptied t name perm m f m1 : reach m →
  OpenFile t name true true perm m = (Ok f, m1) → isDir f = false →
  f = MkFile name 0 false ∧ emptied m m1 name.
Proof.
  intros Hr Hx Hd. unfold OpenFile, open_node in Hx.
  destruct (MemFS.Stat m name) as [n|e].
  - cbn [negb andb] in Hx. destruct (MemFS.IsDir n) eqn:Hdn; [by simplify_eq/=|].
    rewrite bool_decide_eq_true_2 in Hx by eauto. cbn [negb andb] in Hx.
    destruct (MemFS.Write (t 2) m name [] perm) as [[[]|e] m2] eqn:Hw; simplify_eq.
    split; [done|]. by eapply write_empty.
  - cbn [negb] in Hx. set (m0 := if bool_decide _ then _ else m) in Hx.
    assert (reach m0 ∧ (total (MemFS.root m0) ≤ total (MemFS.root m))%Z ∧
      ∀ p b, MemFS.Read m p = Ok b → MemFS.Read m0 p = Ok b) as (Hr0 & Ht0 & Ho0).
    { subst m0. destruct (bool_decide _); [by apply mkdirs_keep|]. split; [done|]. split; [lia|done]. }
    clearbody m0. destruct (MemFS.Write (t 1) m0 name [] perm) as [[[]|e'] m2] eqn:Hw; [|done].
    assert (emptied m m2 name) as He.
    { destruct (write_empty _ _ _ _ _ Hr0 Hw) as (H1 & H2 & H3 & H4).
      split; [done|]. split; [lia|]. split; [done|]. eauto. }
    destruct (MemFS.Stat m2 name) as [n|e'] eqn:Hst.
    + destruct (MemFS.IsDir n) eqn:Hdn; [simplify_eq/=; by rewrite Hdn in Hd|].
      rewrite bool_decide_eq_true_2 in Hx by eauto. cbn [negb andb] in Hx.
      destruct (MemFS.Write (t 2) m2 name [] perm) as [[[]|e2] m3] eqn:Hw2; simplify_eq.
      split; [done|]. eapply emptied_trans; [done|]. eapply write_empty; [apply He|done].
    + rewrite bool_decide_eq_false_2 in Hx by (by intros []). simplify_eq/=. split; [done|exact He].
Qed.

(** C20: a WebDAV upload (open for replacement, then any sequence of writes) either
    stores exactly the concatenation of what was written, or stops at the quota
    and leaves as many zero bytes as it had stored: neither the new body nor the
    old one.  No other file changes. *)
Theorem webdav_put t t' name perm chunks m m1 f :
  reach m → (total (MemFS.root m) + 2 * len (concat chunks) < two63)%Z →
  OpenFile t name true true perm m = (Ok f, m1) → isDir f = false →
  let '(r, m', stored) := write_all t' 0 f m1 chunks in
  reach m' ∧
  (∀ p b, MemFS.normalize p ≠ MemFS.normalize name → MemFS.Read m p = Ok b →
     MemFS.Read m' p = Ok b) ∧
  match r with
  | Ok _ => MemFS.Read m' name = Ok (concat chunks)
  | Err e => e = Raw MemFS.ErrQuota ∧ stored `prefix_of` chunks ∧
      MemFS.Read m' name = Ok (zeros (length (concat stored)))
  end.
Proof.
  intros Hr Hf Hx Hd. destruct (open_emptied _ _ _ _ _ _ Hr Hx Hd) as (-> & Hr1 & Ht & He & Ho).
  pose proof (reach_inv _ Hr1) as Hm1.
  apply Read_view in He as (parts & Hp & Hv); [|done].
  pose proof (write_all_spec t' chunks 0 (MkFile name 0 false) m1 parts [] Hr1 Hp Hv eq_refl) as Hw.
  pose proof (total_nonneg (MemFS.root m)). pose proof (len_nonneg (concat chunks)).
  destruct (write_all t' 0 (MkFile name 0 false) m1 chunks) as [[r m'] stored].
  destruct Hw as (Hr' & Hpre & Hres); [unfold len at 1; simpl; lia..|].
  split; [done|]. split.
  - intros p b Hpn Hb. apply (Ho _ _ Hpn) in Hb. apply Read_view in Hb as (q & Hq & Hb); [|done].
    apply Read_view; [by apply reach_inv|]. exists q. split; [done|].
    destruct r as [[]|e]; destruct Hres as [_ Hres]; rewrite Hres, decide_False; congruence.
  - destruct r as [[]|e]; destruct Hres as [Heq Hres]; [|split; [done|split; [done|]]];
      (apply Read_view; [by apply reach_inv|]); exists parts; (split; [done|]);
      rewrite Hres; by rewrite decide_True.
Qed.

(** C21: a FUSE write is [pwrite]: the file then holds the old bytes with the buffer
    at the offset (a hole is zeros), every read at any offset returns those bytes,
    and no other file changes.  When the quota refuses it, the old bytes are gone
    too; any other refusal changes nothing. *)
Theorem fuse_write_posix t p buff ofst m :
  reach m → (0 ≤ ofst)%Z → (ofst + len buff < two63)%Z →
  (total (MemFS.root m) + (ofst + len buff) + len (data_of m p) < two63)%Z →
  let new := pwrite (data_of m p) (Z.to_nat ofst) buff in
  ∃ r m', Write t p buff ofst m = Some (r, m') ∧ reach m' ∧
    (r = len buff ∧
       (∀ n o, (0 ≤ o)%Z →
          Read p n o m' = Some (len (take n (drop (Z.to_nat o) new)), take n (drop (Z.to_nat o) new))) ∧
       (∀ p' b, MemFS.normalize p' ≠ MemFS.normalize p →
          MemFS.Read m' p' = Ok b ↔ MemFS.Read m p' = Ok b)
     ∨ r = (- ENOSPC)%Z ∧
       (is_ok (MemFS.Read m p) = true → MemFS.Read m' p = Ok (zeros (length (data_of m p))))
     ∨ r = (- EIO)%Z ∧ m' = m).
Proof.
  intros Hr Ho Hl Hf new. pose proof (reach_inv _ Hr) as Hm. unfold Write.
  rewrite patch_pwrite by done. fold new. cbn [mbind option_bind].
  destruct (MemFS.Write t m p new 384) as [r m'] eqn:Hx.
  assert (fits m (len new)) as Hfit.
  { unfold fits, len, new in *. rewrite length_pwrite. pose proof (reach_usage_ok _ Hr). lia. }
  pose proof (reach_Write _ _ _ _ _ _ _ Hr Hfit Hx) as Hr'.
  destruct r as [[]|e].
  - eexists _, _. split; [done|]. split; [done|]. left. split; [done|].
    destruct (write_read _ _ _ _ _ _ Hm Hfit Hx) as [H1 H2]. split; [|done].
    intros n o Hn. unfold Read. rewrite H1. destruct (Z.leb_spec (len new) o) as [Hle|Hlt].
    + rewrite drop_ge by (unfold len in *; lia). by destruct n.
    + unfold read_at. by destruct (Z.ltb_spec o 0); [lia|].
  - destruct (MemFS.normalize p) as [parts|e'] eqn:Hp.
    + pose proof (Write_cases _ _ _ _ _ _ _ _ Hr Hfit Hp Hx) as Hc. simpl in Hc.
      destruct (decide (e = MemFS.ErrQuota)) as [->|Hne].
      * eexists _, _. split; [done|]. split; [done|]. right. left. split; [done|].
        intros Hok. destruct Hc as [_ Hc]. apply Read_view; [by apply reach_inv|].
        exists parts. split; [done|]. rewrite Hc, decide_True by done.
        rewrite (data_of_view _ _ _ Hm Hp).
        destruct (MemFS.Read m p) as [b|] eqn:Hrd; [|done].
        apply Read_view in Hrd as (parts' & Hp' & Hv); [|done].
        rewrite Hp in Hp'. injection Hp' as <-. by rewrite Hv.
      * eexists _, _. split; [done|]. split; [done|]. right. right.
        by destruct Hc as [-> _].
    + eexists _, _. split; [done|]. split; [done|]. right. right.
      unfold MemFS.Write in Hx. rewrite Hp in Hx. simplify_eq.
      apply normalize_err in Hp as ->. done.
Qed.

(** A successful rename moves the body: the new path holds it, the old one is
    gone, and nothing else changes; but when both names spell the same path the
    file is lost.  A failed one leaves the source as it was. *)
Theorem webdav_rename t oldName newName m r m' data po :
  reach m → fits m (len data) → MemFS.normalize oldName = Ok po →
  MemFS.Read m oldName = Ok data → Rename t oldName newName m = (r, m') →
  match r with
  | Ok _ => ∃ pn, MemFS.normalize newName = Ok pn ∧ view m' po = None ∧
      view m' pn = (if decide (pn = po) then None else Some (EFile data)) ∧
      ∀ q, q ≠ po → q ≠ pn → view m' q = view m q
  | Err e => MemFS.normalize newName ≠ Ok po → MemFS.Read m' oldName = Ok data
  end.
Proof.
  intros Hr Hf Hpo Hd Hx. pose proof (reach_inv _ Hr) as Hm. unfold Rename in Hx. rewrite Hd in Hx.
  assert (view m po = Some (EFile data)) as Hvo.
  { apply Read_view in Hd as (q & Hq & Hv); [|done]. rewrite Hpo in Hq. by injection Hq as <-. }
  destruct (MemFS.Write (t 0) m newName data 384) as [rw m1] eqn:Hw.
  pose proof (reach_Write _ _ _ _ _ _ _ Hr Hf Hw) as Hr1.
  destruct (MemFS.normalize newName) as [pn|e] eqn:Hpn.
  2: { unfold MemFS.Write in Hw. rewrite Hpn in Hw. by simplify_eq. }
  pose proof (Write_cases _ _ _ _ _ _ _ _ Hr Hf Hpn Hw) as Hc.
  destruct rw as [[]|e].
  - destruct Hc as (_ & _ & Hv).
    assert (po ≠ []) as Hne by (intros ->; by rewrite FSRefine.view_root in Hvo).
    assert (view m1 po = Some (EFile data)) as Hv1 by (rewrite Hv; by case_decide).
    destruct (Remove_leaf (t 1) m1 oldName po Hr1 Hpo Hne) as (m2 & Hrm & _ & Hv2).
    { by rewrite Hv1. }
    { intros k. eapply view_file_below; [by apply reach_inv|done|done]. }
    rewrite Hrm in Hx. simplify_eq/=. exists pn. split; [done|]. rewrite !Hv2.
    split; [by rewrite decide_True|]. split.
    + case_decide; [done|]. by rewrite Hv, decide_True.
    + intros q Hq1 Hq2. by rewrite Hv2, decide_False, Hv, decide_False.
  - simplify_eq. intros Hdiff. apply Read_view; [by apply reach_inv|]. exists po. split; [done|].
    simpl in Hc. case_decide; destruct Hc as [? Hc]; [|by subst].
    rewrite Hc, decide_False; [done|]. intros ->. by apply Hdiff.
Qed.

(** ** Concrete runs, on the file system that holds one secret of six bytes *)

Definition ck : nat → MemFS.clock := λ _, FSDemo.clk.
Definition upload : list bytes := [of_string "abcde"; of_string "fghij"].
Definition opened := OpenFile ck "/etc/keys/../keys/id" true true 384 FSDemo.fs2.

Lemma webdav_put_witness :
  MemFS.Read FSDemo.fs2 "/etc/keys/id" = Ok (of_string "secret") ∧
  MemFS.Read (write_all ck 0 (MkFile "/etc/keys/../keys/id" 0 false) opened.2 upload).1.2
    "/etc/keys/../keys/id" = Ok (zeros 5).
Proof.
  split; [vm_compute; done|].
  pose proof (webdav_put ck ck "/etc/keys/../keys/id" 384 upload FSDemo.fs2 opened.2
    (MkFile "/etc/keys/../keys/id" 0 false) FSDemo.reach_fs2) as H.
  destruct (write_all ck 0 _ opened.2 upload) as [[r m'] stored] eqn:Hw.
  destruct H as (_ & _ & H); [vm_compute; done|vm_compute; done|done|].
  vm_compute in Hw. injection Hw as <- <- <-. apply H.
Defined.

Lemma fuse_write_posix_witness :
  ∃ m', Write FSDemo.clk "/etc/keys/id" (of_string "XY") 6 FSDemo.fs2 = Some (2%Z, m') ∧
    Read "/etc/keys/id" 3 5 m' = Some (3%Z, of_string "tXY").
Proof.
  destruct (fuse_write_posix FSDemo.clk "/etc/keys/id" (of_string "XY") 6 FSDemo.fs2
    FSDemo.reach_fs2) as (r & m' & Hw & _ & H); [lia|vm_compute; done|vm_compute; done|].
  destruct H as [(-> & H & _)|[[-> _]|[-> _]]].
  - exists m'. split; [exact Hw|]. exact (H 3 5%Z ltac:(lia)).
  - vm_compute in Hw. discriminate Hw.
  - vm_compute in Hw. discriminate Hw.
Defined.

Lemma webdav_rename_witness :
  (Rename ck "/etc/keys/id" "/etc//keys/id" FSDemo.fs2).1 = Ok tt ∧
  view (Rename ck "/etc/keys/id" "/etc//keys/id" FSDemo.fs2).2 ["etc"; "keys"; "id"] = None.
Proof.
  split; [vm_compute; done|].
  destruct (webdav_rename ck "/etc/keys/id" "/etc//keys/id" FSDemo.fs2 (Ok tt)
    (Rename ck "/etc/keys/id" "/etc//keys/id" FSDemo.fs2).2 (of_string "secret")
    ["etc"; "keys"; "id"] FSDemo.reach_fs2) as (pn & _ & H & _); [vm_compute; done..|exact H].
Defined.

End FrontendTheorems.
