(* ===== verification/GoTime.v ===== *)
(** * time: durations and RFC 3339 text

    A [time.Time] in UTC as nanoseconds since the Unix epoch, a [time.Duration] as
    nanoseconds in an [int64]. *)
From S2P Require Import Prelude.
From stdpp Require Import pretty.

Module GoTime.

Definition Second : Z := 1000000000.

(** [d * time.Second] in [int64]. *)
Definition seconds (n : Z) : Z := i64 (n * Second).

(** [int64(d / time.Second)]: truncated division. *)
Definition in_seconds (d : Z) : Z := Z.quot d Second.

(** The civil date of a day number (days since 1970-01-01). *)
Definition civil (days : Z) : Z * Z * Z :=
  let z := (days + 719468)%Z in
  let era := (z / 146097)%Z in
  let doe := (z mod 146097)%Z in
  let yoe := ((doe - doe / 1460 + doe / 36524 - doe / 146096) / 365)%Z in
  let doy := (doe - (365 * yoe + yoe / 4 - yoe / 100))%Z in
  let mp := ((5 * doy + 2) / 153)%Z in
  let d := (doy - (153 * mp + 2) / 5 + 1)%Z in
  let m := if (mp <? 10)%Z then (mp + 3)%Z else (mp - 9)%Z in
  let y := (yoe + era * 400)%Z in
  ((if (m <=? 2)%Z then y + 1 else y)%Z, m, d).

Definition padded (width : nat) (z : Z) : string :=
  let s := pretty z in
  String.app (String.concat "" (replicate (width - String.length s) "0")) s.

(** The fraction, without trailing zeros and absent when zero. *)
Fixpoint trim_zeros (l : list ascii) : list ascii :=
  match l with
  | "0"%char :: l => trim_zeros l
  | _ => l
  end.

Definition fraction (ns : Z) : string :=
  if (ns =? 0)%Z then ""
  else "." +:+ String.string_of_list_ascii
                 (reverse (trim_zeros (reverse (String.list_ascii_of_string (padded 9 ns))))).

(** Date and time to the second, in UTC, for the years the code can see. *)
Definition date_time (t : Z) : string :=
  let s := (t / Second)%Z in
  let '(y, m, d) := civil (s / 86400) in
  let r := (s mod 86400)%Z in
  padded 4 y +:+ "-" +:+ padded 2 m +:+ "-" +:+ padded 2 d +:+ "T" +:+
  padded 2 (r / 3600) +:+ ":" +:+ padded 2 (r / 60 mod 60) +:+ ":" +:+ padded 2 (r mod 60).

(** [t.UTC().Format(time.RFC3339)] and [time.RFC3339Nano]. *)
Definition RFC3339 (t : Z) : string := date_time t +:+ "Z".
Definition RFC3339Nano (t : Z) : string := date_time t +:+ fraction (t mod Second) +:+ "Z".

(** ** Reading RFC 3339 *)

Definition is_digit (a : ascii) : bool :=
  let n := nat_of_ascii a in Nat.leb 48 n && Nat.leb n 57.

(** [n] digits at the head of a text: their value and what follows. *)
Fixpoint take_digits (n : nat) (acc : Z) (s : string) : option (Z * string) :=
  match n, s with
  | O, _ => Some (acc, s)
  | S n, String a r =>
      if is_digit a then take_digits n (acc * 10 + (Z.of_nat (nat_of_ascii a) - 48)) r else None
  | S _, EmptyString => None
  end.

Definition take_char (c : ascii) (s : string) : option string :=
  match s with String a r => if decide (a = c) then Some r else None | EmptyString => None end.

Fixpoint drop_digits (s : string) : string :=
  match s with String a r => if is_digit a then drop_digits r else s | EmptyString => "" end.

Definition leap (y : Z) : bool :=
  (y mod 4 =? 0)%Z && (negb (y mod 100 =? 0)%Z || (y mod 400 =? 0)%Z).

Definition days_in (m y : Z) : Z :=
  if bool_decide (m ∈ [4; 6; 9; 11]%Z) then 30
  else if (m =? 2)%Z then (if leap y then 29 else 28) else 31.

(** The zone of a time. *)
Definition is_zone (s : string) : bool :=
  match s with
  | String "Z" EmptyString => true
  | String ("+" | "-") r =>
      match '(h, r) ← take_digits 2 0 r; r ← take_char ":" r; '(m, r) ← take_digits 2 0 r;
            Some (h, m, r) with
      | Some (h, m, r) => (h <? 24)%Z && (m <? 60)%Z && bool_decide (r = "")
      | None => false
      end
  | _ => false
  end.

(** The strict form that [time.Time.UnmarshalJSON] accepts. *)
Definition is_RFC3339 (s : string) : bool :=
  match
    '(y, r) ← take_digits 4 0 s; r ← take_char "-" r;
    '(mo, r) ← take_digits 2 0 r; r ← take_char "-" r;
    '(d, r) ← take_digits 2 0 r; r ← take_char "T" r;
    '(h, r) ← take_digits 2 0 r; r ← take_char ":" r;
    '(mi, r) ← take_digits 2 0 r; r ← take_char ":" r;
    '(sec, r) ← take_digits 2 0 r; Some (y, mo, d, (h, mi, sec), r)
  with
  | Some (y, mo, d, (h, mi, sec), r) =>
      (1 <=? mo)%Z && (mo <=? 12)%Z && (1 <=? d)%Z && (d <=? days_in mo y)%Z &&
      (h <? 24)%Z && (mi <? 60)%Z && (sec <? 60)%Z &&
      is_zone (match r with
               | String "." (String a t) => if is_digit a then drop_digits t else r
               | _ => r
               end)
  | None => false
  end.

End GoTime.
