(* ===== verification/Vault.v ===== *)
(** * internal/vault: the encrypted vault directory

    The files of the directory are a map from their names to their bytes; an
    operation is a computation over it in which every call of the operating system
    may fail, numbered in order, and the random bytes come from a stream.  A write
    that fails leaves the file as it was.  The key derivation, the cipher and the
    hash are an interface with laws. *)
From S2P Require Import Prelude GoStrings GoJson GoFloat GoJsonPrint GoTime.
Import GoStr GoJson GoFloat JsonPrint GoTime.

Module Vault.

(** ** The primitives *)

Class Crypto := {
  IDKey : string → string → string;                  (* passphrase, salt *)
  Seal : string → string → string → string;          (* key, nonce, plaintext *)
  OpenBox : string → string → string → option string; (* key, nonce, ciphertext *)
  sha256_hex : string → string;
}.

(** What is relied on: opening inverts sealing, a box opens under its own key only,
    and neither the derivation nor the hash collides. *)
Class CryptoLaws `{Crypto} : Prop := {
  open_seal k n p : OpenBox k n (Seal k n p) = Some p;
  open_other k k' n p : k ≠ k' → OpenBox k' n (Seal k n p) = None;
  key_inj p s p' s' : IDKey p s = IDKey p' s' → p = p' ∧ s = s';
  sha_inj b b' : sha256_hex b = sha256_hex b' → b = b';
}.

Definition NonceSize : nat := 12.

Definition LegacyDefaultPassphrase : string := "valetfs-default-dev-passphrase".

(** ** Data *)

(** A time is kept as its JSON text. *)
Record Entry := MkEntry {
  Path : string;
  BlobSHA : string;
  Size : Z;
  Mode : Z;
  Modified : string;
}.

Abbreviation Manifest := (gmap string Entry).

Record Vault := MkVault {
  mf : Manifest;
  pass : string;
  legacy : bool;
  unprotected : bool;
  saltOverride : option string;
}.

(** *** JSON *)

Definition entry_json (e : Entry) : json :=
  JObj [("path", JStr (Path e)); ("blob_sha", JStr (BlobSHA e)); ("size", JInt (Size e));
        ("mode", JInt (Mode e)); ("modified", JStr (Modified e))].

Definition manifest_json (m : Manifest) : json :=
  JObj [("entries", jmap (entry_json <$> m))].

Definition set_path s (e : Entry) := MkEntry s (BlobSHA e) (Size e) (Mode e) (Modified e).
Definition set_sha s (e : Entry) := MkEntry (Path e) s (Size e) (Mode e) (Modified e).
Definition set_size z (e : Entry) := MkEntry (Path e) (BlobSHA e) z (Mode e) (Modified e).
Definition set_mode z (e : Entry) := MkEntry (Path e) (BlobSHA e) (Size e) z (Modified e).
Definition set_modified t (e : Entry) := MkEntry (Path e) (BlobSHA e) (Size e) (Mode e) t.

(** A [uint32]. *)
Definition field_uint32 {S} (set : Z → S → S) : decoder S :=
  scalar (λ s v, match v with
                 | JNum l => match digits_val 0 l with
                             | Some z => if (z <? 2 ^ 32)%Z then Some (set z s) else None
                             | None => None
                             end
                 | _ => None
                 end).

(** A [time.Time]. *)
Definition field_time {S} (set : string → S → S) : decoder S :=
  scalar (λ s v, match v with
                 | JStr t => if is_RFC3339 t then Some (set t s) else None
                 | _ => None
                 end).

Definition entry_fields : list (string * decoder Entry) :=
  [("path", field_string (λ e x, set_path x e));
   ("blob_sha", field_string (λ e x, set_sha x e));
   ("size", field_int (λ e x, set_size x e));
   ("mode", field_uint32 set_mode);
   ("modified", field_time set_modified)].

(** The zero time of Go, as text. *)
Definition zero_entry : Entry := MkEntry "" "" 0 0 "0001-01-01T00:00:00Z".

(** A [map[string]Entry]: each member is decoded afresh. *)
Definition entries_decoder : decoder Manifest := λ v m,
  match v with
  | JNull => (∅, true)
  | JObj l =>
      fold_left (λ acc kv,
        let (e, ok) := struct_of entry_fields kv.2 zero_entry in
        (<[kv.1 := e]> acc.1, acc.2 && ok)) l (m, true)
  | _ => (m, false)
  end.

Definition manifest_fields : list (string * decoder Manifest) := [("entries", entries_decoder)].

Definition encode_manifest (m : Manifest) : string := MarshalIndent (manifest_json m).

Definition decode_manifest (s : string) : Manifest * bool :=
  Unmarshal (struct_of manifest_fields) s ∅.

(** ** Computations *)

Abbreviation Disk := (gmap string string).

Record World := MkWorld { disk : Disk; calls : nat; draws : nat }.

(** [fault i] is the error of the [i]-th system call, [rand i n] the [i]-th draw of
    [n] random bytes. *)
Record Env := MkEnv { fault : nat → option string; rand : nat → nat → string }.

Definition io (A : Type) : Type := World → result string A * World.

#[export] Instance io_ret : MRet io := λ A a w, (Ok a, w).
#[export] Instance io_bind : MBind io := λ A B k c w,
  match c w with
  | (Ok a, w) => k a w
  | (Err e, w) => (Err e, w)
  end.

Definition throw {A} (e : string) : io A := λ w, (Err e, w).

Section Vault.
Context `{Crypto} (env : Env).

(** A system call: its error, or its effect. *)
Definition sys {A} (f : Disk → A * Disk) : io A := λ w,
  match fault env (calls w) with
  | Some e => (Err e, MkWorld (disk w) (S (calls w)) (draws w))
  | None =>
      let (a, d) := f (disk w) in (Ok a, MkWorld d (S (calls w)) (draws w))
  end.

(** [None] is [os.IsNotExist]. *)
Definition ReadFile (name : string) : io (option string) := sys (λ d, (d !! name, d)).
Definition WriteFile (name content : string) : io () := sys (λ d, (tt, <[name := content]> d)).
Definition MkdirAll : io () := sys (λ d, (tt, d)).

Definition random (n : nat) : io string := λ w,
  match fault env (calls w) with
  | Some e => (Err e, MkWorld (disk w) (S (calls w)) (draws w))
  | None => (Ok (rand env (draws w) n), MkWorld (disk w) (S (calls w)) (S (draws w)))
  end.

(** What [os.ReadFile] reports for a file that is not there. *)
Definition not_exist (name : string) : string := "open " +:+ name +:+ ": no such file or directory".

Definition must_read (name : string) : io string :=
  c ← ReadFile name; match c with Some c => mret c | None => throw (not_exist name) end.

Definition saltPath : string := "salt.bin".
Definition manifestPath : string := "manifest.json".
Definition blobPath (sha : string) : string := "blobs/" +:+ sha +:+ ".bin".

(** ** Encryption *)

Definition deriveKey (v : Vault) : io string :=
  match saltOverride v with
  | Some salt => mret (IDKey (pass v) salt)
  | None =>
      salt ← ReadFile saltPath;
      match salt with
      | Some salt => mret (IDKey (pass v) salt)
      | None =>
          salt ← random 16;
          WriteFile saltPath salt ≫= λ _, mret (IDKey (pass v) salt)
      end
  end.

Definition encrypt (v : Vault) (plain : string) : io string :=
  key ← deriveKey v;
  nonce ← random NonceSize;
  mret (nonce +:+ Seal key nonce plain).

Definition decrypt (v : Vault) (enc : string) : io string :=
  key ← deriveKey v;
  if decide (String.length enc < NonceSize) then throw "ciphertext too short"
  else match OpenBox key (stake NonceSize enc) (sdrop NonceSize enc) with
  | Some plain => mret plain
  | None => throw "cipher: message authentication failed"
  end.

(** ** The manifest *)

(** The manifest on disk; [v] supplies the key. *)
Definition loadManifest (v : Vault) : io Manifest :=
  b ← ReadFile manifestPath;
  match b with
  | None => mret ∅
  | Some b =>
      if decide (b = "") then mret ∅
      else
        plain ← (if HasPrefix b "{" then mret b else decrypt v b);
        let (m, ok) := decode_manifest plain in
        if ok : bool then mret m else throw "json: cannot unmarshal"
  end.

Definition saveManifest (v : Vault) : io () :=
  enc ← encrypt v (encode_manifest (mf v));
  WriteFile manifestPath enc.

(** ** Operations *)

Definition normalizeFSPath (p : string) : string :=
  let p := TrimSpace (TrimPrefix p "fs:") in
  if decide (p = "" ∨ p = "/") then "/" else "/" +:+ TrimPrefix p "/".

Definition with_mf (m : Manifest) (v : Vault) : Vault :=
  MkVault m (pass v) (legacy v) (unprotected v) (saltOverride v).

(** Run a computation and look at its error instead of failing. *)
Definition attempt {A} (c : io A) : io (result string A) := λ w, let (r, w) := c w in (Ok r, w).

(** [Open]; [given] is what the passphrase provider returns. *)
Definition Open (given : string) : io Vault :=
  MkdirAll ≫= λ _,
  let v := MkVault ∅ given false false None in
  r ← attempt (loadManifest v);
  match r with
  | Ok m =>
      mret (MkVault m given (bool_decide (given = LegacyDefaultPassphrase))
              (bool_decide (given = "")) None)
  | Err _ =>
      let probe := MkVault ∅ LegacyDefaultPassphrase true false None in
      r ← attempt (loadManifest probe);
      match r with
      | Err _ =>
          throw (if decide (given = "")
                 then "no passphrase given, and the vault is not readable without one"
                 else "wrong passphrase")
      | Ok m => mret (with_mf m probe)
      end
  end.

(** The operations that change the vault return it with their last error: it is
    changed before the manifest is saved, whatever becomes of that.  An error thrown
    before leaves it as it was. *)
Definition outcome : Type := result string () * Vault.

Definition committed (v : Vault) : io outcome :=
  r ← attempt (saveManifest v); mret (r, v).

(** [Add] of a host file with the given body, permissions and time. *)
Definition Add (host : result string string) (mode : Z) (now : string) (fsPath : string)
    (v : Vault) : io outcome :=
  b ← (match host with Ok b => mret b | Err e => throw e end);
  let sha := sha256_hex b in
  enc ← encrypt v b;
  WriteFile (blobPath sha) enc ≫= λ _,
  let p := normalizeFSPath fsPath in
  committed
    (with_mf (<[p := MkEntry p sha (Z.of_nat (String.length b)) mode now]> (mf v)) v).

Definition Remove (fsPath : string) (v : Vault) : io outcome :=
  committed (with_mf (delete (normalizeFSPath fsPath) (mf v)) v).

Definition List (prefix : string) (v : Vault) : list Entry :=
  let p := normalizeFSPath prefix in
  sort_by Path
    (snd <$> filter (λ kv, p = "/" ∨ HasPrefix kv.1 p = true) (map_to_list (mf v))).

Definition Read (fsPath : string) (v : Vault) : io string :=
  match mf v !! normalizeFSPath fsPath with
  | None => throw ("not found: " +:+ fsPath)
  | Some e => b ← must_read (blobPath (BlobSHA e)); decrypt v b
  end.

(** *** Rekey *)

(** The first loop: every body under the current key. *)
Fixpoint read_all (v : Vault) (paths : list string) : io (list (string * string)) :=
  match paths with
  | [] => mret []
  | p :: paths => b ← Read p v; l ← read_all v paths; mret ((p, b) :: l)
  end.

(** The second loop: every body under the next key. *)
Fixpoint write_all (next : Vault) (plain : list (string * string)) : io () :=
  match plain with
  | [] => mret tt
  | (p, body) :: plain =>
      match mf next !! p with
      | None => write_all next plain
      | Some e =>
          enc ← encrypt next body;
          WriteFile (blobPath (BlobSHA e)) enc ≫= λ _, write_all next plain
      end
  end.

(** [order] is the order in which the maps happen to be iterated. *)
Definition Rekey (order : list string) (newPass : string) (v : Vault) : io outcome :=
  if decide (newPass = "") then throw "rekey: refusing to rekey to an empty passphrase"
  else if decide (newPass = LegacyDefaultPassphrase)
  then throw "rekey: that passphrase is published in the source; choose another"
  else
    plain ← read_all v order;
    newSalt ← random 16;
    let next := MkVault (mf v) newPass false false (Some newSalt) in
    write_all next plain ≫= λ _,
    WriteFile saltPath newSalt ≫= λ _, committed next.

End Vault.
End Vault.
