(* ===== verification/GoHttp.v ===== *)
(** * net/http and net/url as the servers use them

    A request is its method, cleaned path, raw query, headers (first value under
    the canonical key) and body; a response its status, content type and body. *)
From S2P Require Import Prelude GoStrings GoJson GoJsonPrint GoBase64.
Import GoStr GoJson JsonPrint.

Module GoHttp.

Record Request := MkRequest {
  Method : string;
  Path : string;
  RawQuery : string;
  Header : gmap string string;
  Body : string;
}.

Record Response := MkResponse {
  Status : Z;
  ContentType : string;
  Text : string;
}.

(** [Header.Get]. *)
Definition header (r : Request) (k : string) : string := default "" (Header r !! k).

(** ** Query strings *)

(** [url.QueryUnescape]. *)
Fixpoint QueryUnescape (s : string) : option string :=
  match s with
  | EmptyString => Some ""
  | String "%" (String a (String b r)) =>
      va ← hex_val a; vb ← hex_val b;
      t ← QueryUnescape r; Some (String (chr (va * 16 + vb)) t)
  | String "%" _ => None
  | String "+" r => t ← QueryUnescape r; Some (String " " t)
  | String a r => t ← QueryUnescape r; Some (String a t)
  end.

(** [strings.Cut] at a byte, the second part empty when it does not occur. *)
Definition cut (s : string) (c : ascii) : string * string :=
  match IndexByte s c with
  | Some i => (stake i s, sdrop (S i) s)
  | None => (s, "")
  end.

(** The pairs of [url.ParseQuery]; what does not unescape is dropped. *)
Definition query_pair (item : string) : option (string * string) :=
  if contains_byte item ";" then None
  else if decide (item = "") then None
  else
    let (k, v) := cut item "=" in
    k ← QueryUnescape k; v ← QueryUnescape v; Some (k, v).

Definition ParseQuery (q : string) : list (string * string) :=
  omap query_pair (Split q "&").

(** [r.URL.Query().Get(k)]: the first value. *)
Definition query (r : Request) (k : string) : string :=
  match find (λ kv, bool_decide (kv.1 = k)) (ParseQuery (RawQuery r)) with
  | Some kv => kv.2
  | None => ""
  end.

(** *** Writing them *)

Definition unreserved (a : ascii) : bool :=
  let z := bval a in
  in_range 48 57 z || in_range 65 90 z || in_range 97 122 z ||
  bool_decide (a ∈ ["-"; "_"; "."; "~"]%char).

Definition upper_hex (z : Z) : ascii := chr (if (z <? 10)%Z then z + 48 else z + 55).

(** [url.QueryEscape]. *)
Fixpoint QueryEscape (s : string) : string :=
  match s with
  | EmptyString => ""
  | String a r =>
      (if unreserved a then String a ""
       else if decide (a = " "%char) then "+"
       else String "%" (String (upper_hex (bval a / 16)) (String (upper_hex (bval a mod 16)) "")))
      +:+ QueryEscape r
  end.

(** [url.Values.Encode]: in the order of the keys, each with one value. *)
Definition EncodeQuery (q : list (string * string)) : string :=
  Join ((λ kv, QueryEscape kv.1 +:+ "=" +:+ QueryEscape kv.2) <$> sort_by fst q) "&".

(** ** Credentials *)

(** [r.BasicAuth()]. *)
Definition BasicAuth (r : Request) : option (string * string) :=
  let auth := header r "Authorization" in
  if bool_decide (ToLower (stake 6 auth) = "basic ") then
    c ← Base64.Decode (sdrop 6 auth);
    if contains_byte c ":" then Some (cut c ":") else None
  else None.

(** ** Responses *)

Definition StatusOK : Z := 200.
Definition StatusBadRequest : Z := 400.
Definition StatusUnauthorized : Z := 401.
Definition StatusNotFound : Z := 404.
Definition StatusMethodNotAllowed : Z := 405.
Definition StatusInternalServerError : Z := 500.

(** A bare [WriteHeader], and the multiplexer's answer for an unknown path. *)
Definition status_only (st : Z) : Response := MkResponse st "" "".
Definition not_found : Response :=
  MkResponse StatusNotFound "text/plain; charset=utf-8"
    ("404 page not found" +:+ str1 newline).

(** ** Queries read back *)

Lemma unescape_char a r : QueryUnescape
    ((if unreserved a then String a ""
      else if decide (a = " "%char) then "+"
      else String "%" (String (upper_hex (bval a / 16)) (String (upper_hex (bval a mod 16)) "")))
     +:+ r) = t ← QueryUnescape r; Some (String a t).
Proof. destruct a as [[] [] [] [] [] [] [] []]; reflexivity. Qed.

Lemma unescape_escape s : QueryUnescape (QueryEscape s) = Some s.
Proof.
  induction s as [|a s IH]; [done|]. cbn [QueryEscape]. by rewrite unescape_char, IH.
Qed.

(** The bytes an escaped text may hold. *)
Lemma escape_no_byte c s :
  bool_decide (c ∈ ["&"; "="; ";"; "#"]%char) = true → no_byte c (QueryEscape s).
Proof.
  intros Hc. induction s as [|a s IH]; [done|]. cbn [QueryEscape]. apply no_byte_app.
  split; [|done]. clear IH.
  apply bool_decide_eq_true in Hc.
  repeat (apply elem_of_cons in Hc as [->|Hc];
    [by destruct a as [[] [] [] [] [] [] [] []]|]). by apply elem_of_nil in Hc.
Qed.

Lemma no_byte_contains c s : no_byte c s → contains_byte s c = false.
Proof. unfold no_byte, contains_byte. by intros ->. Qed.

Lemma cut_app c s t : no_byte c s → cut (s +:+ String c t) c = (s, t).
Proof.
  intros Hs. unfold cut. rewrite IndexByte_app by done. rewrite stake_app. f_equal.
  change (String c t) with (String c "" +:+ t). rewrite <- sapp_assoc.
  assert (S (String.length s) = String.length (s +:+ String c "")) as ->.
  { rewrite length_sapp. simpl. lia. }
  apply sdrop_app.
Qed.

Lemma query_pair_item k v : query_pair (QueryEscape k +:+ "=" +:+ QueryEscape v) = Some (k, v).
Proof.
  unfold query_pair. rewrite no_byte_contains.
  2:{ apply no_byte_app. split; [by apply escape_no_byte|].
      apply no_byte_app. split; [done|by apply escape_no_byte]. }
  rewrite decide_False by by destruct (QueryEscape k).
  change ("=" +:+ QueryEscape v) with (String "=" (QueryEscape v)).
  rewrite cut_app by by apply escape_no_byte.
  by rewrite !unescape_escape.
Qed.

Lemma parse_query q : q ≠ [] → ParseQuery (EncodeQuery q) = sort_by fst q.
Proof.
  intros Hq. unfold ParseQuery, EncodeQuery.
  change "&" with (str1 "&"%char). rewrite Split_Join.
  - induction (sort_by fst q) as [|[k v] l IH]; [done|]. cbn [fmap list_fmap omap list_omap].
    by rewrite query_pair_item, IH.
  - intros Hnil%fmap_nil_inv. apply Hq. apply (f_equal length) in Hnil.
    rewrite sort_by_perm in Hnil. by destruct q.
  - apply Forall_fmap, Forall_true. intros [k v]. simpl. apply no_byte_app.
    split; [by apply escape_no_byte|]. apply no_byte_app. split; [done|by apply escape_no_byte].
Qed.

(** A value asked for by its key. *)
Definition value_in (q : list (string * string)) (k : string) : string :=
  default "" ((list_to_map q : gmap string string) !! k).

Lemma find_key (l : list (string * string)) k : NoDup l.*1 →
  match find (λ kv, bool_decide (kv.1 = k)) l with Some kv => kv.2 | None => "" end =
  value_in l k.
Proof.
  unfold value_in. induction l as [|[k' v] l IH]; intros Hnd; simpl; [by rewrite lookup_empty|].
  apply NoDup_cons in Hnd as [_ Hnd]. destruct (decide (k' = k)) as [->|Hne].
  - by rewrite bool_decide_true, lookup_insert_eq.
  - rewrite bool_decide_false, lookup_insert_ne by done. by apply IH.
Qed.

Lemma query_encoded m p q h b k : NoDup q.*1 → q ≠ [] →
  query (MkRequest m p (EncodeQuery q) h b) k = value_in q k.
Proof.
  intros Hnd Hq. unfold query. simpl. rewrite parse_query by done.
  assert (NoDup (sort_by fst q).*1) by by rewrite sort_by_perm.
  rewrite find_key by done. unfold value_in.
  by rewrite (list_to_map_proper _ q) by (done || apply sort_by_perm).
Qed.

End GoHttp.
