(* ===== verification/GoUrl.v ===== *)
(** * package net/url: what [Parse] makes of an address

    The scheme, the host and whether the text is accepted at all, as documented for
    [Parse] and [Hostname]; path, query and fragment are only checked, user
    information is dropped. *)
From S2P Require Import Prelude GoStrings GoJson GoHttp.
Import GoStr GoJson.

Module GoNet.

Definition char_at (s : string) (i : nat) : option ascii := String.get i s.

Definition colon : ascii := ":"%char.

(** [net.SplitHostPort]; [None] is an error. *)
Definition SplitHostPort (s : string) : option (string * string) :=
  i ← LastIndexByte s colon;
  let port := sdrop (S i) s in
  '(host, j, k) ←
    (if HasPrefix s "[" then
       e ← IndexByte s "]"%char;
       if decide (S e = i) then Some (stake (e - 1) (sdrop 1 s), 1, S e) else None
     else
       let host := stake i s in
       if contains_byte host colon then None else Some (host, 0, 0));
  if contains_byte (sdrop j s) "["%char then None
  else if contains_byte (sdrop k s) "]"%char then None
  else Some (host, port).

(** ** IPv4 *)

(** A decimal octet without a leading zero. *)
Definition octet (s : string) : option Z :=
  v ← (if decide (s = "") then None else digits_val 0 s);
  if (255 <? v)%Z then None
  else if HasPrefix s "0" && bool_decide (s ≠ "0") then None
  else Some v.

Definition parseIPv4 (s : string) : option (list Z) :=
  l ← mapM octet (Split s ".");
  if decide (length l = 4) then Some l else None.

(** ** IPv6, as sixteen octets *)

(** The hexadecimal field at the head of [s]: its value, how many digits, and what
    follows. *)
Fixpoint hex_field (acc : Z) (n : nat) (s : string) : Z * nat * string :=
  match s with
  | String a r =>
      match hex_val a with
      | Some v => hex_field (acc * 16 + v) (S n) r
      | None => (acc, n, s)
      end
  | EmptyString => (acc, n, s)
  end.

(** The loop of the parser: the octets so far, and where the ellipsis was. *)
Fixpoint ipv6_fields (fuel : nat) (acc : list Z) (ellipsis : option nat) (s : string)
  : option (list Z * option nat) :=
  match fuel with
  | O => if decide (s = "") then Some (acc, ellipsis) else None
  | S fuel =>
      let '(v, n, r) := hex_field 0 0 s in
      if bool_decide (n = 0) || bool_decide (4 < n) then None
      else match r with
      | EmptyString => Some (acc ++ [v / 256; v mod 256]%Z, ellipsis)
      | String "." _ =>
          if bool_decide (ellipsis = None ∧ length acc ≠ 12) || bool_decide (12 < length acc)
          then None
          else l ← parseIPv4 s; Some (acc ++ l, ellipsis)
      | String ":" r =>
          let acc := acc ++ [v / 256; v mod 256]%Z in
          match r with
          | EmptyString => None
          | String ":" r' =>
              match ellipsis with
              | Some _ => None
              | None =>
                  if decide (r' = "") then Some (acc, Some (length acc))
                  else ipv6_fields fuel acc (Some (length acc)) r'
              end
          | _ => ipv6_fields fuel acc ellipsis r
          end
      | _ => None
      end
  end.

Definition expand (l : list Z) (ellipsis : option nat) : option (list Z) :=
  match ellipsis with
  | None => if decide (length l = 16) then Some l else None
  | Some i =>
      if bool_decide (length l < 16)
      then Some (take i l ++ replicate (16 - length l) 0%Z ++ drop i l) else None
  end.

Definition parseIPv6 (s : string) : option (list Z) :=
  if decide (s = "::") then Some (replicate 16 0%Z)
  else
    '(l, e) ← (if HasPrefix s "::" then ipv6_fields 8 [] (Some 0) (sdrop 2 s)
               else ipv6_fields 8 [] None s);
    expand l e.

(** [net.ParseIP]: the first of a dot or a colon says which; a zone is refused. *)
Definition ParseIP (s : string) : option (list Z) :=
  match IndexByte s "%"%char, IndexByte s "."%char, IndexByte s colon with
  | Some _, _, _ => None
  | None, Some i, Some j => if bool_decide (i < j) then parseIPv4 s else parseIPv6 s
  | None, Some _, None => parseIPv4 s
  | None, None, Some _ => parseIPv6 s
  | None, None, None => None
  end.

(** [ip.IsLoopback()], a mapped IPv4 address being that IPv4 address. *)
Definition IsLoopback (ip : list Z) : bool :=
  let v4 := if decide (length ip = 4) then Some ip
            else if decide (take 12 ip = replicate 10 0%Z ++ [255; 255]%Z)
            then Some (drop 12 ip) else None in
  match v4 with
  | Some l => bool_decide (head l = Some 127%Z)
  | None => bool_decide (ip = replicate 15 0%Z ++ [1%Z])
  end.

End GoNet.

Import GoStr GoJson GoHttp GoNet.

Module GoUrl.

(** [Host] as the struct holds it: with its port and its brackets. *)
Record URL := MkURL { Scheme : string; Host : string }.

(** ** Percent escapes *)

(** A text whose percent signs all begin an escape. *)
Fixpoint escapes_ok (s : string) : bool :=
  match s with
  | EmptyString => true
  | String "%" (String a (String b r)) =>
      bool_decide (is_Some (hex_val a)) && bool_decide (is_Some (hex_val b)) && escapes_ok r
  | String "%" _ => false
  | String _ r => escapes_ok r
  end.

(** What a host may hold besides escapes: anything beyond ASCII, the unreserved
    characters and a list of marks. *)
Definition host_byte (a : ascii) : bool :=
  (128 <=? bval a)%Z || unreserved a ||
  contains_byte ("!$&'()*+,;=:[]<>" +:+ str1 dquote) a.

(** [unescape] of a host name: only bytes beyond ASCII (or a percent sign) may be
    escaped. *)
Fixpoint unescape_host (s : string) : option string :=
  match s with
  | EmptyString => Some ""
  | String "%" (String a (String b r)) =>
      va ← hex_val a; vb ← hex_val b;
      if (va <? 8)%Z && negb (bool_decide (a = "2"%char ∧ b = "5"%char)) then None
      else t ← unescape_host r; Some (String (chr (va * 16 + vb)) t)
  | String "%" _ => None
  | String a r => if host_byte a then t ← unescape_host r; Some (String a t) else None
  end.

(** ** Authority *)

Definition all_digits (s : string) : bool := bool_decide ((digits s).2 = "").

(** Nothing, or a colon and digits. *)
Definition validOptionalPort (port : string) : bool :=
  match port with
  | EmptyString => true
  | String ":" r => all_digits r
  | _ => false
  end.

(** A host in brackets is an IPv6 address; otherwise the first colon starts the port. *)
Definition parseHost (host : string) : option string :=
  if HasPrefix host "[" then
    i ← LastIndexByte host "]"%char;
    let port := sdrop (S i) host in
    if negb (validOptionalPort port) then None
    else
      name ← unescape_host (stake (i - 1) (sdrop 1 host));
      let (addr, zone) := cut name "%"%char in
      _ ← parseIPv6 addr;
      if contains_byte name "%"%char && bool_decide (zone = "") then None
      else Some ("[" +:+ name +:+ "]" +:+ port)
  else
    match IndexByte host colon with
    | Some i => if validOptionalPort (sdrop i host) then unescape_host host else None
    | None => unescape_host host
    end.

Definition user_byte (a : ascii) : bool :=
  let z := bval a in
  in_range 48 57 z || in_range 65 90 z || in_range 97 122 z ||
  contains_byte "-._:~!$&'()*+,;=%@" a.

Fixpoint all_bytes (p : ascii → bool) (s : string) : bool :=
  match s with String a r => p a && all_bytes p r | EmptyString => true end.

Definition parseAuthority (authority : string) : option string :=
  match LastIndexByte authority "@"%char with
  | None => parseHost authority
  | Some i =>
      let user := stake i authority in
      h ← parseHost (sdrop (S i) authority);
      if all_bytes user_byte user && escapes_ok user then Some h else None
  end.

(** ** Parse *)

Definition alpha (a : ascii) : bool :=
  let z := bval a in in_range 65 90 z || in_range 97 122 z.

(** [getScheme]: the scheme (empty when there is none) and the rest; [first] says that
    no byte has been read yet. *)
Fixpoint getScheme (first : bool) (s : string) : option (option (string * string)) :=
  match s with
  | EmptyString => Some None
  | String a r =>
      if alpha a || (negb first && (is_digit a || contains_byte "+-." a)) then
        o ← getScheme false r;
        Some ('(t, rest) ← o; Some (String a t, rest))
      else if decide (a = ":"%char) then (if first then None else Some (Some ("", r)))
      else Some None
  end.

Definition control (a : ascii) : bool := (bval a <? 32)%Z || (bval a =? 127)%Z.

(** [url.Parse]; [None] is an error. *)
Definition Parse (raw : string) : option URL :=
  let (u, frag) := cut raw "#"%char in
  if negb (all_bytes (λ a, negb (control a)) u) || negb (escapes_ok frag) then None
  else if decide (u = "*") then Some (MkURL "" "")
  else
    o ← getScheme true u;
    let (scheme, rest) := default ("", u) o in
    let scheme := ToLower scheme in
    let (rest, _) := cut rest "?"%char in
    if negb (HasPrefix rest "/") && bool_decide (scheme ≠ "") then Some (MkURL scheme "")
    else if negb (HasPrefix rest "/") && contains_byte (cut rest slash).1 colon then None
    else if HasPrefix rest "//" && (bool_decide (scheme ≠ "") || negb (HasPrefix rest "///")) then
      let authority := sdrop 2 rest in
      let (authority, path) := match IndexByte authority slash with
                               | Some i => (stake i authority, sdrop i authority)
                               | None => (authority, "")
                               end in
      host ← parseAuthority authority;
      if escapes_ok path then Some (MkURL scheme host) else None
    else if escapes_ok rest then Some (MkURL scheme "") else None.

(** [u.Hostname()]: without the port and the brackets. *)
Definition Hostname (u : URL) : string :=
  let host := Host u in
  let host := match LastIndexByte host colon with
              | Some i => if validOptionalPort (sdrop i host) then stake i host else host
              | None => host
              end in
  if HasPrefix host "[" && HasSuffix host "]"
  then stake (String.length host - 2) (sdrop 1 host) else host.

(** *** Examples *)

Example url_plain : (λ u, (Scheme u, Hostname u)) <$> Parse "HTTPS://hub.example:8443/base?x#y"
  = Some ("https", "hub.example").
Proof. vm_compute. reflexivity. Qed.

Example url_user : (λ u, Hostname u) <$> Parse "http://localhost@evil.example/"
  = Some "evil.example".
Proof. vm_compute. reflexivity. Qed.

Example url_v6 : (λ u, Hostname u) <$> Parse "ws://[::1]:80" = Some "::1".
Proof. vm_compute. reflexivity. Qed.

Example url_colons : Parse "http://::1/" = None.
Proof. vm_compute. reflexivity. Qed.

Example url_opaque : Parse "http:localhost" = Some (MkURL "http" "").
Proof. vm_compute. reflexivity. Qed.

End GoUrl.
