(* ===== verification/GoFlag.v ===== *)
(** * flag: command-line flags

    [Parse] of a flag set: the values assigned, in the order of the arguments, and
    what is left of them.  Integers are read as [strconv.ParseInt] with base 0 does. *)
From S2P Require Import Prelude GoStrings GoJson.
Import GoStr GoJson.

Module GoFlag.

(** ** Integers with a base prefix *)

Definition lower (a : ascii) : ascii := lower_ascii a.

Definition digit_of (a : ascii) : option Z :=
  let z := bval a in
  if in_range 48 57 z then Some (z - 48)%Z
  else if in_range 97 122 z then Some (z - 87)%Z
  else if in_range 65 90 z then Some (z - 55)%Z else None.

(** The digits of a number in a base, underscores skipped. *)
Fixpoint base_digits (base acc : Z) (s : string) : option Z :=
  match s with
  | EmptyString => Some acc
  | String "_" r => base_digits base acc r
  | String a r =>
      d ← digit_of a;
      if (d <? base)%Z then base_digits base (acc * base + d) r else None
  end.

(** Where underscores may stand: [prev] says what was seen last. *)
Inductive seen := Start | Digit | Under | Other.

Fixpoint underscores_from (hex : bool) (prev : seen) (s : string) : bool :=
  match s with
  | EmptyString => match prev with Under => false | _ => true end
  | String a r =>
      if GoJson.is_digit a || (hex && in_range 97 102 (bval (lower a)))
      then underscores_from hex Digit r
      else if decide (a = "_"%char)
      then match prev with Digit => underscores_from hex Under r | _ => false end
      else match prev with Under => false | _ => underscores_from hex Other r end
  end.

Definition base_prefix (a : ascii) : option Z :=
  match lower a with
  | "b"%char => Some 2%Z
  | "o"%char => Some 8%Z
  | "x"%char => Some 16%Z
  | _ => None
  end.

Definition underscoreOK (s : string) : bool :=
  match s with
  | String "0" (String a r) =>
      match base_prefix a with
      | Some b => underscores_from (b =? 16)%Z Digit r
      | None => underscores_from false Start s
      end
  | _ => underscores_from false Start s
  end.

(** The magnitude; a prefix without digits is a number in base 8. *)
Definition parse_magnitude (s : string) : option Z :=
  let '(base, body) :=
    match s with
    | String "0" (String a (String b r)) =>
        match base_prefix a with
        | Some base => (base, String b r)
        | None => (8, String a (String b r))%Z
        end
    | String "0" r => (8, r)%Z
    | _ => (10, s)%Z
    end in
  if decide (s = "") then None
  else
    z ← base_digits base 0 body;
    if contains_byte body "_" && negb (underscoreOK s) then None else Some z.

Definition ParseInt0 (s : string) : option Z :=
  let '(neg, m) := match s with
                   | String "-" r => (true, r)
                   | String "+" r => (false, r)
                   | _ => (false, s)
                   end in
  z ← parse_magnitude m;
  let z := if neg : bool then Z.opp z else z in
  if decide (in_i64 z) then Some z else None.

(** [strconv.ParseBool]. *)
Definition ParseBool (s : string) : option bool :=
  if decide (s ∈ ["1"; "t"; "T"; "TRUE"; "true"; "True"]) then Some true
  else if decide (s ∈ ["0"; "f"; "F"; "FALSE"; "false"; "False"]) then Some false
  else None.

(** ** Flag sets *)

Inductive kind := KBool | KString | KInt.

Inductive flag_value := VBool (b : bool) | VString (s : string) | VInt (z : Z).

Inductive flag_error :=
  | BadSyntax (arg : string)
  | Undefined (name : string)
  | HelpRequested
  | NeedsArgument (name : string)
  | InvalidValue (name value : string).

Definition read_value (k : kind) (s : string) : option flag_value :=
  match k with
  | KBool => VBool <$> ParseBool s
  | KString => Some (VString s)
  | KInt => VInt <$> ParseInt0 s
  end.

Definition lookup_flag (flags : list (string * kind)) (name : string) : option kind :=
  snd <$> find (λ f, bool_decide (f.1 = name)) flags.

(** The name of an argument that is a flag, and the value written in it.  [None]:
    the arguments proper begin here. *)
Definition flag_name (s : string) : option string :=
  match s with
  | String "-" (String "-" r) => Some r
  | String "-" (String a r) => Some (String a r)
  | _ => None
  end.

Definition split_value (name : string) : string * option string :=
  match name with
  | String a r =>
      match IndexByte r "=" with
      | Some i => (String a (stake i r), Some (sdrop (S i) r))
      | None => (name, None)
      end
  | EmptyString => (name, None)
  end.

Definition bad_name (name : string) : bool :=
  match name with
  | EmptyString => true
  | String a _ => bool_decide (a = "-"%char ∨ a = "="%char)
  end.

Definition assignments : Type := list (string * flag_value).

Definition prepend (a : string * flag_value) (r : result flag_error (assignments * list string))
  : result flag_error (assignments * list string) :=
  match r with
  | Ok (l, rest) => Ok (a :: l, rest)
  | Err e => Err e
  end.

Definition set_from (k : kind) (name v : string)
    (r : result flag_error (assignments * list string)) :=
  match read_value k v with
  | Some x => prepend (name, x) r
  | None => Err (InvalidValue name v)
  end.

Fixpoint Parse (flags : list (string * kind)) (args : list string)
  : result flag_error (assignments * list string) :=
  match args with
  | [] => Ok ([], [])
  | s :: rest =>
      match flag_name s with
      | None => Ok ([], args)
      | Some name =>
          if decide (s = "--") then Ok ([], rest)
          else if bad_name name then Err (BadSyntax s)
          else
            let (name, value) := split_value name in
            match lookup_flag flags name with
            | None =>
                if decide (name = "help" ∨ name = "h") then Err HelpRequested
                else Err (Undefined name)
            | Some KBool =>
                match value with
                | Some v => set_from KBool name v (Parse flags rest)
                | None => prepend (name, VBool true) (Parse flags rest)
                end
            | Some k =>
                match value, rest with
                | Some v, _ => set_from k name v (Parse flags rest)
                | None, v :: rest => set_from k name v (Parse flags rest)
                | None, [] => Err (NeedsArgument name)
                end
            end
      end
  end.

(** The value a flag ends up with: of its last assignment, or its default. *)
Definition last_value (l : assignments) (name : string) : option flag_value :=
  snd <$> last (filter (λ a, a.1 = name) l).

Definition flag_bool (l : assignments) (name : string) (default : bool) : bool :=
  match last_value l name with Some (VBool b) => b | _ => default end.
Definition flag_string (l : assignments) (name : string) (default : string) : string :=
  match last_value l name with Some (VString s) => s | _ => default end.
Definition flag_int (l : assignments) (name : string) (default : Z) : Z :=
  match last_value l name with Some (VInt z) => z | _ => default end.

Example parse_int_examples :
  ParseInt0 <$> ["5"; "-7"; "0x1F"; "0b101"; "017"; "1_000"; "_1"; "1__0"; "0x"; ""; "08"; "0"] =
  [Some 5; Some (-7); Some 31; Some 5; Some 15; Some 1000; None; None; None; None; None;
   Some 0]%Z.
Proof. by vm_compute. Qed.

Example parse_example :
  Parse [("r", KBool); ("name", KString); ("n", KInt)]
    ["-r"; "--name"; "x"; "-n=0x10"; "a"; "-r"] =
  Ok ([("r", VBool true); ("name", VString "x"); ("n", VInt 16)], ["a"; "-r"]).
Proof. by vm_compute. Qed.

End GoFlag.
