(* ===== verification/Config.v ===== *)
(** * internal/config: the daemon's configuration *)
From S2P Require Import Prelude GoStrings GoPath GoJson GoFlag.
Import GoStr GoPath GoJson GoFlag.

Module Config.

Record Config := MkConfig {
  Dev : bool;
  MountPoint : string;
  DevAPIAddr : string;
  ControlToken : string;
  RuntimeDir : string;
  WebdavAddr : string;
  WebdavDisabled : bool;
  WebdavAllowRemote : bool;
  SignalingURL : string;
  GitTempDir : string;
  QuotaBytes : Z;
  RecordRuntimeState : bool;
  Transport : string;
  GraceSeconds : Z;
  ResumeKeyFile : string;
  JoinKey : string;
  AuthorizedVaultsFile : string;
  InsecureSignaling : bool;
}.

(** ** Environment defaults; an unset variable reads as the empty string *)

Definition environ : Type := string → string.

Definition defaultEnv (env : environ) (key fallback : string) : string :=
  if decide (env key = "") then fallback else env key.

(** [strconv.Atoi]: an optional sign and digits, in range. *)
Definition Atoi (s : string) : option Z :=
  let '(neg, d) := match s with
                   | String "-" r => (true, r)
                   | String "+" r => (false, r)
                   | _ => (false, s)
                   end in
  if decide (d = "") then None
  else
    z ← digits_val 0 d;
    let z := if neg : bool then Z.opp z else z in
    if decide (in_i64 z) then Some z else None.

Definition defaultEnvInt (env : environ) (key : string) (fallback : Z) : Z :=
  let v := env key in
  if decide (v = "") then fallback
  else match Atoi v with Some n => n | None => fallback end.

Definition defaultEnvBool (env : environ) (key : string) (fallback : bool) : bool :=
  let v := env key in
  if decide (v = "") then fallback
  else bool_decide (v ∈ ["1"; "true"; "TRUE"; "yes"; "YES"]).

(** ** Loading *)

(** A path below the home directory, or its fallback without one. *)
Definition below_home (home : option string) (name fallback : string) : string :=
  match home with
  | Some home => Join2 (Join2 home ".valetfs") name
  | None => fallback
  end.

Definition defaultMount home := below_home home "mnt" "/tmp/valetfs-mnt".
Definition defaultGitDir home := below_home home "git" "/tmp/valetfs-git".
Definition defaultAuthorizedVaults home :=
  below_home home "authorized_vaults" "/tmp/valetfs-authorized_vaults".
Definition defaultRuntimeDir home := below_home home "run" "/tmp/valetfs-run".

Definition serve_flags : list (string * kind) :=
  [("dev", KBool); ("mount", KString); ("dev-addr", KString); ("control-token", KString);
   ("runtime-dir", KString); ("webdav-addr", KString); ("webdav-disabled", KBool);
   ("webdav-allow-remote", KBool); ("signaling", KString); ("git-dir", KString);
   ("transport", KString); ("join", KString); ("grace", KInt); ("authorized-vaults", KString);
   ("insecure-signaling", KBool); ("resume-key-file", KString); ("quota-mb", KInt)].

Inductive load_error := LFlag (e : flag_error) | LNoMount | LToken (e : string).

(** [random] is the generated control token. *)
Definition Load (env : environ) (home : option string) (random : result string string)
    (args : list string) : result load_error Config :=
  match Parse serve_flags args with
  | Err e => Err (LFlag e)
  | Ok (l, _) =>
      let str name key fallback := flag_string l name (defaultEnv env key fallback) in
      let quotaMB := flag_int l "quota-mb" 5 in
      let join := str "join" "VALETFS_JOIN" "" in
      let mount := str "mount" "VALETFS_MOUNT" (defaultMount home) in
      let addr := str "dev-addr" "VALETFS_DEV_ADDR" "127.0.0.1:0" in
      let cfg token :=
        {| Dev := flag_bool l "dev" false;
           MountPoint := mount;
           DevAPIAddr := addr;
           ControlToken := token;
           RuntimeDir := str "runtime-dir" "VALETFS_RUNTIME_DIR" (defaultRuntimeDir home);
           WebdavAddr := str "webdav-addr" "VALETFS_WEBDAV_ADDR" "127.0.0.1:0";
           WebdavDisabled := flag_bool l "webdav-disabled"
             (defaultEnvBool env "VALETFS_WEBDAV_DISABLED" false);
           WebdavAllowRemote := flag_bool l "webdav-allow-remote"
             (defaultEnvBool env "VALETFS_WEBDAV_ALLOW_REMOTE" false);
           SignalingURL := str "signaling" "VALETFS_SIGNALING"
             "https://valetfs-signaling.winm2m.workers.dev";
           GitTempDir := str "git-dir" "VALETFS_GIT_DIR" (defaultGitDir home);
           QuotaBytes := i64 (i64 (quotaMB * 1024) * 1024);
           RecordRuntimeState := bool_decide (addr = "127.0.0.1:0");
           Transport := if decide (join ≠ "") then "ws"
                        else str "transport" "VALETFS_TRANSPORT" "ws";
           GraceSeconds := flag_int l "grace" (defaultEnvInt env "VALETFS_GRACE" 300);
           ResumeKeyFile := str "resume-key-file" "VALETFS_RESUME_KEY_FILE" "";
           JoinKey := join;
           AuthorizedVaultsFile := str "authorized-vaults" "VALETFS_AUTHORIZED_VAULTS"
             (defaultAuthorizedVaults home);
           InsecureSignaling := flag_bool l "insecure-signaling"
             (defaultEnvBool env "VALETFS_INSECURE_SIGNALING" false) |} in
      if decide (mount = "") then Err LNoMount
      else
        let token := str "control-token" "VALETFS_CONTROL_TOKEN" "" in
        if decide (token = "") then
          match random with
          | Ok token => Ok (cfg token)
          | Err e => Err (LToken e)
          end
        else Ok (cfg token)
  end.

End Config.
