(* ===== verification/Mounter.v ===== *)
(** * internal/vfs: the WebDAV server and the platform mounters

    mount_webdav.go (who may use the server, where it listens, its life), then
    mount_linux.go, mount_linux_dispatch.go and mount_other.go: how the host gets to see the
    file system, the outcome of the system's and the FUSE library's calls being an argument. *)
From S2P Require Import Prelude GoStrings GoHttp GoUrl MemFS.
Import GoStr GoHttp GoNet.

Module Webdav.

(** [srv] is the address of the server [Unmount] would stop, [live] the addresses
    on which some server of this mounter accepts connections. *)
Record WebdavMounter := MkMounter {
  addr : string;
  token : string;
  remote : bool;
  srv : option string;
  live : list string;
}.

Definition NewWebdavMounter (addr token : string) (allowRemote : bool) : WebdavMounter :=
  MkMounter (if decide (addr = "") then "127.0.0.1:0" else addr) token allowRemote None [].

Definition isLoopbackAddr (addr : string) : bool :=
  match SplitHostPort addr with
  | None => false
  | Some (host, _) =>
      if decide (host = "") then false
      else if decide (host = "localhost") then true
      else match ParseIP host with Some ip => IsLoopback ip | None => false end
  end.

Definition tokenEqual (got want : string) : bool := bool_decide (got = want).

Definition authorize (w : WebdavMounter) (r : Request) : bool :=
  if decide (token w = "") then false
  else if match BasicAuth r with Some (_, pass) => tokenEqual pass (token w) | None => false end
  then true
  else if (let h := header r "Authorization" in
           HasPrefix h "Bearer " && tokenEqual (TrimPrefix h "Bearer ") (token w))
  then true
  else tokenEqual (query r "token") (token w).

(** What the client sees of a refusal. *)
Definition unauthorized : Response :=
  MkResponse StatusUnauthorized "text/plain; charset=utf-8"
    ("unauthorized" +:+ str1 newline).

(** [authHandler]: [next] is the WebDAV handler, acting on a file system. *)
Definition authHandler (w : WebdavMounter)
    (next : Request → MemFS.MemFS → Response * MemFS.MemFS)
    (r : Request) (fs : MemFS.MemFS) : Response * MemFS.MemFS :=
  if authorize w r then next r fs else (unauthorized, fs).

Definition Addr (w : WebdavMounter) : string :=
  match srv w with None => addr w | Some a => a end.

(** [Mount] up to [Serve]; [listen] is the result of [net.Listen] on [addr]: the
    address bound. *)
Definition Mount (listen : result string string) (w : WebdavMounter)
  : result string unit * WebdavMounter :=
  if decide (token w = "") then
    (Err "webdav: refusing to serve without an auth token", w)
  else if negb (remote w) && negb (isLoopbackAddr (addr w)) then
    (Err ("webdav: refusing to bind " +:+ addr w +:+ " without --webdav-allow-remote "
          +:+ "(the server would expose every secret to the network)"), w)
  else match listen with
  | Err e => (Err ("webdav listen: " +:+ e), w)
  | Ok bound =>
      (Ok tt, MkMounter (addr w) (token w) (remote w) (Some bound) (bound :: live w))
  end.

(** [Unmount]: [Shutdown] closes the listener at once, and fails when the requests
    in flight do not finish in time. *)
Definition Unmount (shutdown : option string) (w : WebdavMounter)
  : option string * WebdavMounter :=
  match srv w with
  | None => (None, w)
  | Some a =>
      (shutdown,
       MkMounter (addr w) (token w) (remote w) (srv w) (filter (λ x, x ≠ a) (live w)))
  end.

End Webdav.

Import GoStr.

Module Mounter.

(** [FuseM host]: whether a FUSE host exists, and whether it is mounted. *)
Inductive Mounter :=
  | FuseM (host : option bool)
  | FallbackM (inner : Webdav.WebdavMounter)
  | StubM.

(** What the system answers: creating the mount point, the FUSE library's [Mount]
    and [Unmount], and the network. *)
Record Outcome := MkOutcome {
  mkdir : option string;
  fuse_mount : bool;
  fuse_unmount : bool;
  listen : result string string;
  shutdown : option string;
}.

(** [NewMounter]: FUSE when available, loopback WebDAV otherwise. *)
Definition NewMounter (fuse_ok : bool) (token : string) (allowRemote : bool) : Mounter :=
  if fuse_ok then FuseM None
  else FallbackM (Webdav.NewWebdavMounter "127.0.0.1:0" token allowRemote).

Definition Backend (m : Mounter) : string :=
  match m with FuseM _ => "fuse" | FallbackM _ => "webdav" | StubM => "none" end.

Definition Mount (o : Outcome) (mountpoint : string) (m : Mounter)
  : result string unit * Mounter :=
  match m with
  | FuseM h =>
      match mkdir o with
      | Some e => (Err ("mkdir mountpoint: " +:+ e), m)
      | None =>
          if fuse_mount o then (Ok tt, FuseM (Some true))
          else (Err ("fuse mount failed at " +:+ mountpoint), FuseM (Some false))
      end
  | FallbackM w => let (r, w') := Webdav.Mount (listen o) w in (r, FallbackM w')
  | StubM => (Err "valetfs: platform not supported", m)
  end.

Definition Unmount (o : Outcome) (m : Mounter) : option string * Mounter :=
  match m with
  | FuseM None => (None, m)
  | FuseM (Some _) =>
      if fuse_unmount o then (None, FuseM (Some false))
      else (Some "fuse unmount returned false", m)
  | FallbackM w => let (r, w') := Webdav.Unmount (shutdown o) w in (r, FallbackM w')
  | StubM => (None, m)
  end.

(** Whether the host can read the file system through this mounter. *)
Definition serving (m : Mounter) : bool :=
  match m with
  | FuseM (Some b) => b
  | FuseM None => false
  | FallbackM w => negb (bool_decide (Webdav.live w = []))
  | StubM => false
  end.

End Mounter.
