(* ===== verification/Host.v ===== *)
(** * internal/hardening and the probing of internal/vfs: what the daemon asks of its host

    hardening_linux.go, mount_linux_dispatch.go: the kernel's answers are a record, the
    state of the process that the calls change is another. *)
From stdpp Require Import pretty.
From S2P Require Import Prelude GoStrings Mounter.
Import GoStr.

Module Host.

(** ** hardening *)

Record Report := MkReport { MemoryLocked : bool; DumpsDisabled : bool; Notes : list string }.

(** What the kernel answers; [None] is success. *)
Record Kernel := MkKernel {
  getrlimit_memlock : result string Z;
  mlockall : option string;
  setrlimit_core : option string;
  prctl_dumpable : option string;
}.

(** What the process becomes. *)
Record Process := MkProcess { locked : bool; core_limit : option Z; dumpable : bool }.

Definition RLIM_INFINITY : Z := 2 ^ 64 - 1.
Definition minimum : Z := Z.shiftl 512 20.

Definition memlockHeadroom (k : Kernel) : bool * string :=
  match getrlimit_memlock k with
  | Err e => (false, "could not read RLIMIT_MEMLOCK (" +:+ e +:+ "), so memory was not locked")
  | Ok cur =>
      if decide (cur = RLIM_INFINITY) then (true, "")
      else if (cur <? minimum)%Z then
        (false, "RLIMIT_MEMLOCK is " +:+ pretty (Z.shiftr cur 20) +:+
          " MiB, too low to lock the heap safely, so memory was not locked " +:+
          "(raise it with ulimit -l or grant CAP_IPC_LOCK)")
      else (true, "")
  end.

Definition apply_mlock (k : Kernel) (p : Process) : Report * Process :=
  match memlockHeadroom k with
  | (false, why) => (MkReport false false [why +:+ "; secrets may be written to swap"], p)
  | (true, _) =>
      match mlockall k with
      | Some e => (MkReport false false ["could not lock memory (" +:+ e +:+
          "); secrets may be written to swap - raise RLIMIT_MEMLOCK (ulimit -l) or grant CAP_IPC_LOCK"], p)
      | None => (MkReport true false [], MkProcess true (core_limit p) (dumpable p))
      end
  end.

Definition apply_core (k : Kernel) (rp : Report * Process) : Report * Process :=
  let (r, p) := rp in
  match setrlimit_core k with
  | Some e => (MkReport (MemoryLocked r) (DumpsDisabled r)
      (Notes r ++ ["could not zero the core dump limit (" +:+ e +:+ ")"]), p)
  | None => (r, MkProcess (locked p) (Some 0%Z) (dumpable p))
  end.

Definition apply_prctl (k : Kernel) (rp : Report * Process) : Report * Process :=
  let (r, p) := rp in
  match prctl_dumpable k with
  | Some e => (MkReport (MemoryLocked r) (DumpsDisabled r)
      (Notes r ++ ["could not disable core dumps and ptrace (" +:+ e +:+
        "); another process running as this user could read the secrets out of memory"]), p)
  | None => (MkReport (MemoryLocked r) true (Notes r), MkProcess (locked p) (core_limit p) false)
  end.

Definition Apply (k : Kernel) (p : Process) : Report * Process :=
  apply_prctl k (apply_core k (apply_mlock k p)).

(** The report is about the process as it then is, and what could not be done is noted. *)
Lemma Apply_truthful k :
  let (r, p) := Apply k (MkProcess false None true) in
  MemoryLocked r = locked p ∧ DumpsDisabled r = negb (dumpable p) ∧
  (Notes r = [] ↔ MemoryLocked r = true ∧ DumpsDisabled r = true ∧ core_limit p = Some 0%Z).
Proof.
  unfold Apply, apply_prctl, apply_core, apply_mlock.
  destruct (memlockHeadroom k) as [[] why], (mlockall k), (setrlimit_core k), (prctl_dumpable k);
    (split; [done|]); (split; [done|]); simpl; naive_solver.
Qed.

(** The limit of 512 MiB is a bound in bytes. *)
Lemma headroom_bound k cur : getrlimit_memlock k = Ok cur → (cur < RLIM_INFINITY)%Z →
  (memlockHeadroom k).1 = bool_decide (536870912 ≤ cur)%Z.
Proof.
  intros Hk Hc. unfold memlockHeadroom. rewrite Hk, decide_False by lia.
  change minimum with 536870912%Z. by destruct (Z.ltb_spec cur 536870912); simpl; symmetry;
    [apply bool_decide_eq_false; lia|apply bool_decide_eq_true].
Qed.

(** ** FUSE *)

(** [/dev/fuse]: absent with an error, or whether it is a character device; what opening
    it answers, the programs on the path, and running one of them. *)
Record Machine := MkMachine {
  dev_fuse : result string bool;
  dev_fuse_open : option string;
  LookPath : string → bool;
}.

Inductive fuseAvailability := Available | Unavailable (reason : string).

Definition checkFUSE (m : Machine) : fuseAvailability :=
  match dev_fuse m with
  | Err e => Unavailable ("/dev/fuse not present (" +:+ e +:+ ")")
  | Ok false => Unavailable "/dev/fuse exists but is not a character device"
  | Ok true =>
      match dev_fuse_open m with
      | Some e => Unavailable ("/dev/fuse not openable: " +:+ e)
      | None =>
          if LookPath m "fusermount" || LookPath m "fusermount3" then Available
          else Unavailable "neither fusermount nor fusermount3 found on PATH"
      end
  end.

Section probing.
(** Running a command: whether it succeeded, and the machine after it. *)
Context (Run : list string → Machine → bool * Machine).

Fixpoint try_commands (cmds : list (list string)) (m : Machine) : Machine :=
  match cmds with
  | [] => m
  | c :: cmds =>
      if LookPath m (default "" (head c)) then
        match Run c m with
        | (true, m) => m
        | (false, m) => try_commands cmds m
        end
      else try_commands cmds m
  end.

Definition tryEnableFUSE : Machine → Machine :=
  try_commands [["modprobe"; "fuse"]; ["sudo"; "-n"; "modprobe"; "fuse"]].

Definition fuse_ok (m : Machine) : bool * Machine :=
  match checkFUSE m with
  | Available => (true, m)
  | Unavailable _ =>
      let m := tryEnableFUSE m in
      (match checkFUSE m with Available => true | Unavailable _ => false end, m)
  end.

Definition NewMounter (token : string) (allowRemote : bool) (m : Machine) : Mounter.Mounter * Machine :=
  let (ok, m) := fuse_ok m in (Mounter.NewMounter ok token allowRemote, m).

(** [PreUnmount] detaches what a previous run left at a mount point that exists. *)
Definition PreUnmount (exists_ : string → bool) (mountpoint : string) (m : Machine) : Machine :=
  if exists_ mountpoint then (Run ["fusermount"; "-uz"; mountpoint] m).2 else m.

(** FUSE is only chosen on a machine on which it was found to work, and whatever is chosen
    the fallback listens on the loopback interface. *)
Lemma NewMounter_checked token allowRemote m :
  let (mt, m') := NewMounter token allowRemote m in
  (mt = Mounter.FuseM None ∧ checkFUSE m' = Available) ∨
  (∃ reason, checkFUSE m' = Unavailable reason ∧
     mt = Mounter.FallbackM (Webdav.NewWebdavMounter "127.0.0.1:0" token allowRemote)).
Proof.
  unfold NewMounter, fuse_ok. destruct (checkFUSE m) eqn:H1; [by left|].
  destruct (checkFUSE (tryEnableFUSE m)) eqn:H2; [by left|right; eauto].
Qed.

End probing.
End Host.
