(* ===== verification/Repo.v ===== *)
(** * internal/sync: the change history on disk

    The directory holds a git repository with one tracked file, the manifest.
    go-git is a third-party library: its repository is the interface [GoGit].
    The HMAC, the random keys and the outcome of the file system's calls are
    arguments. *)
From S2P Require Import Prelude GoStrings.
From stdpp Require Import pretty.
Import GoStr.

Module Repo.

(** What the code uses of go-git: an empty repository, staging the manifest,
    whether anything is staged, a commit (its hash), and what the history holds. *)
Class GoGit (G : Type) := {
  PlainInit : G;
  Add : string → G → G;
  IsClean : G → bool;
  CommitTree : string → G → string * G;
  log : G → list string;
}.

Class GoGitLaws (G : Type) `{GoGit G} := {
  log_init : log PlainInit = [];
  log_add t g : log (Add t g) = log g;
  clean_add t g : IsClean (Add t g) = bool_decide (head (log g) = Some t);
  log_commit t m g : log (CommitTree m (Add t g)).2 = t :: log g;
}.

Section Repo.
Context {G : Type} `{GoGit G}.
Context (hmac_hex : string → bytes → string).

(** [manifest] is the working copy of manifest.txt. *)
Record Repo := MkRepo {
  repo : G;
  manifest : option string;
  key : string;
}.

(** The outcome of each operating-system call of an operation, in order. *)
Definition os_calls : Type := nat → option string.

Definition manifest_line (key : string) (snapshot : gmap string bytes) (p : string) : string :=
  let data := default [] (snapshot !! p) in
  hmac_hex key data +:+ " " +:+ pretty (len data) +:+ " " +:+ p +:+ str1 newline.

Definition buildManifest (snapshot : gmap string bytes) (key : string) : string :=
  Join (manifest_line key snapshot <$> sort_strings (map_to_list snapshot).*1) "".

(** [Open]: an existing repository is opened as it is; the key is always fresh. *)
Definition Open (os : os_calls) (existing : option G) (fresh : string) : result string Repo :=
  match os 0 with
  | Some e => Err ("mkdir git dir: " +:+ e)
  | None =>
      match existing, os 1 with
      | None, Some e => Err ("git init: " +:+ e)
      | g, _ =>
          match os 2 with
          | Some e => Err ("fingerprint key: " +:+ e)
          | None => Ok (MkRepo (default PlainInit g) None fresh)
          end
      end
  end.

Definition Commit (os : os_calls) (snapshot : gmap string bytes) (message : string) (r : Repo)
  : result string string * Repo :=
  let text := buildManifest snapshot (key r) in
  match os 0 with
  | Some e => (Err ("write manifest: " +:+ e), r)
  | None =>
      let r := MkRepo (repo r) (Some text) (key r) in
      match os 1 with
      | Some e => (Err e, r)
      | None =>
          match os 2 with
          | Some e => (Err e, r)
          | None =>
              let r := MkRepo (Add text (repo r)) (manifest r) (key r) in
              match os 3 with
              | Some e => (Err e, r)
              | None =>
                  if IsClean (repo r) then (Ok "", r)
                  else match os 4 with
                  | Some e => (Err e, r)
                  | None =>
                      let (hash, g) := CommitTree message (repo r) in
                      (Ok hash, MkRepo g (manifest r) (key r))
                  end
              end
          end
      end
  end.

(** [Wipe]: everything on disk goes first; a later failure leaves the handle on
    the repository that is no longer there. *)
Definition Wipe (os : os_calls) (fresh : string) (r : Repo) : option string * Repo :=
  match os 0 with
  | Some e => (Some e, r)
  | None =>
      let gone := MkRepo PlainInit None (key r) in
      match os 1 with
      | Some e => (Some e, gone)
      | None =>
          match os 2 with
          | Some e => (Some ("git re-init after wipe: " +:+ e), gone)
          | None =>
              match os 3 with
              | Some e => (Some ("fingerprint key: " +:+ e), gone)
              | None => (None, MkRepo PlainInit None fresh)
              end
          end
      end
  end.

End Repo.
End Repo.
#[global] Arguments Repo.Repo : clear implicits.
