(* ===== verification/Daemon.v ===== *)
(** * internal/daemon: the daemon and its local control API

    One daemon owns the file system, the two mount frontends and the change
    history.  A goroutine the code starts is an entry of [pending], run by a later
    step; the outcomes of system calls are arguments of the step that makes them. *)
From S2P Require Import Prelude GoStrings GoPath GoJson GoFloat GoJsonPrint GoTime GoHttp.
From S2P Require Import Config MemFS Mounter Repo.
Import GoStr GoPath GoJson GoFloat JsonPrint GoTime GoHttp.

Module Daemon.

(** ** State *)

(** The goroutines of [Mount] and of the shutdown handler. *)
Inductive task := TWebdav | TReady | TMounter | TShutdown.

#[export] Instance task_eq_dec : EqDecision task.
Proof. solve_decision. Defined.

Record RuntimeState := MkRuntime {
  ControlURL : string;
  ControlAddr : string;
  RControlToken : string;
  WebDAVAddr : string;
  Mountpoint : string;
}.

(** What the operating system answers during one step: the mounters' calls, the
    history's calls, a fresh key, and the writing of runtime.json. *)
Record Env := MkEnv {
  mount_os : Mounter.Outcome;
  webdav_os : Mounter.Outcome;
  repo_os : Repo.os_calls;
  fresh_key : string;
  runtime_os : option string;
  clock : nat → MemFS.clock;
  now : Z;
}.

Section Daemon.
Context {G : Type} `{Repo.GoGit G}.
Context (hmac_hex : string → bytes → string).
(** The texts of [encoding/json]'s errors for a body. *)
Context (decode_error : string → string).

Record Daemon := MkDaemon {
  cfg : Config.Config;
  fs : MemFS.MemFS;
  mounter : Mounter.Mounter;
  webdav : Webdav.WebdavMounter;
  repo : Repo.Repo G;
  mounted : bool;
  fuseErr : string;
  webdavOn : bool;
  devSrv : bool;
  devAddr : string;
  graceState : option (Z → Z * bool * Z);
  pending : list task;
  runtime : option RuntimeState;
  exited : bool;
}.

Definition set_fs (f : MemFS.MemFS) (d : Daemon) : Daemon :=
  MkDaemon (cfg d) f (mounter d) (webdav d) (repo d) (mounted d) (fuseErr d) (webdavOn d)
    (devSrv d) (devAddr d) (graceState d) (pending d) (runtime d) (exited d).

Definition set_flags (m : bool) (e : string) (w : bool) (d : Daemon) : Daemon :=
  MkDaemon (cfg d) (fs d) (mounter d) (webdav d) (repo d) m e w
    (devSrv d) (devAddr d) (graceState d) (pending d) (runtime d) (exited d).

Definition set_mounters (m : Mounter.Mounter) (w : Webdav.WebdavMounter) (d : Daemon) : Daemon :=
  MkDaemon (cfg d) (fs d) m w (repo d) (mounted d) (fuseErr d) (webdavOn d)
    (devSrv d) (devAddr d) (graceState d) (pending d) (runtime d) (exited d).

Definition set_repo (r : Repo.Repo G) (d : Daemon) : Daemon :=
  MkDaemon (cfg d) (fs d) (mounter d) (webdav d) r (mounted d) (fuseErr d) (webdavOn d)
    (devSrv d) (devAddr d) (graceState d) (pending d) (runtime d) (exited d).

Definition set_pending (l : list task) (d : Daemon) : Daemon :=
  MkDaemon (cfg d) (fs d) (mounter d) (webdav d) (repo d) (mounted d) (fuseErr d) (webdavOn d)
    (devSrv d) (devAddr d) (graceState d) l (runtime d) (exited d).

Definition set_server (up : bool) (addr : string) (rt : option RuntimeState) (ex : bool)
    (d : Daemon) : Daemon :=
  MkDaemon (cfg d) (fs d) (mounter d) (webdav d) (repo d) (mounted d) (fuseErr d) (webdavOn d)
    up addr (graceState d) (pending d) rt ex.

Definition SetGraceReporter (fn : option (Z → Z * bool * Z)) (d : Daemon) : Daemon :=
  MkDaemon (cfg d) (fs d) (mounter d) (webdav d) (repo d) (mounted d) (fuseErr d) (webdavOn d)
    (devSrv d) (devAddr d) fn (pending d) (runtime d) (exited d).

(** ** Construction and reports *)

Definition New (env : Env) (fuse_ok : bool) (existing : option G) (c : Config.Config)
  : result string Daemon :=
  match Repo.Open (repo_os env) existing (fresh_key env) with
  | Err e => Err ("open sync repo: " +:+ e)
  | Ok r =>
      Ok (MkDaemon c (MemFS.New (clock env 0) (Config.QuotaBytes c))
            (Mounter.NewMounter fuse_ok (Config.ControlToken c) (Config.WebdavAllowRemote c))
            (Webdav.NewWebdavMounter (Config.WebdavAddr c) (Config.ControlToken c)
               (Config.WebdavAllowRemote c))
            r false "" false false "" None [] None false)
  end.

Definition Backend (d : Daemon) : string := Mounter.Backend (mounter d).

Definition FuseActive (d : Daemon) : bool :=
  mounted d && bool_decide (fuseErr d = "") && bool_decide (Backend d = "fuse").

Definition WebdavAddr (d : Daemon) : string := Webdav.Addr (webdav d).

(** ** Mounting *)

Definition Mount (d : Daemon) : Daemon :=
  if mounted d then d
  else
    let d := set_flags true (fuseErr d) (webdavOn d) d in
    set_pending
      (pending d ++ (if Config.WebdavDisabled (cfg d) then [] else [TWebdav; TReady])
         ++ [TMounter]) d.

Definition writeRuntimeState (env : Env) (d : Daemon) : option string * Daemon :=
  match runtime_os env with
  | Some e => (Some e, d)
  | None =>
      (None, set_server (devSrv d) (devAddr d)
        (Some (MkRuntime ("http://" +:+ devAddr d) (devAddr d) (Config.ControlToken (cfg d))
                 (WebdavAddr d) (Config.MountPoint (cfg d)))) (exited d) d)
  end.

(** One goroutine removed from the pending ones. *)
Fixpoint remove_task (t : task) (l : list task) : list task :=
  match l with
  | [] => []
  | x :: l => if decide (x = t) then l else x :: remove_task t l
  end.

(** The first goroutine of [Mount], up to where the server serves. *)
Definition runWebdav (env : Env) (d : Daemon) : Daemon :=
  match Webdav.Mount (Mounter.listen (webdav_os env)) (webdav d) with
  | (Err _, _) => set_flags (mounted d) (fuseErr d) false d
  | (Ok _, w) => set_mounters (mounter d) w d
  end.

(** One poll of [waitWebDAVReady]; [None] when it goes on waiting. *)
Definition pollReady (env : Env) (d : Daemon) : option Daemon :=
  let addr := WebdavAddr d in
  if bool_decide (addr ≠ "") && negb (HasSuffix addr ":0")
  then Some (writeRuntimeState env (set_flags (mounted d) (fuseErr d) true d)).2
  else None.

(** The goroutine of the platform mounter. *)
Definition runMounter (env : Env) (d : Daemon) : Daemon :=
  match Mounter.Mount (mount_os env) (Config.MountPoint (cfg d)) (mounter d) with
  | (Err e, m) => set_flags (mounted d) e (webdavOn d) (set_mounters m (webdav d) d)
  | (Ok _, m) => set_mounters m (webdav d) d
  end.

Definition Unmount (env : Env) (d : Daemon) : option string * Daemon :=
  if negb (mounted d) then (None, d)
  else
    let d := set_flags false "" false d in
    match Mounter.Unmount (mount_os env) (mounter d) with
    | (Some e, m) => (Some e, set_mounters m (webdav d) d)
    | (None, m) =>
        let d := set_mounters m (webdav d) d in
        if Config.WebdavDisabled (cfg d) then (None, d)
        else
          let (r, w) := Webdav.Unmount (Mounter.shutdown (webdav_os env)) (webdav d) in
          (r, set_mounters (mounter d) w d)
    end.

Definition WipeHistory (env : Env) (d : Daemon) : option string * Daemon :=
  let (e, r) := Repo.Wipe (repo_os env) (fresh_key env) (repo d) in (e, set_repo r d).

Definition Sync (env : Env) (d : Daemon) : result string string * Daemon :=
  let (r, rp) := Repo.Commit hmac_hex (repo_os env) (MemFS.Snapshot (fs d))
                   ("sync " +:+ RFC3339 (now env)) (repo d) in
  (r, set_repo rp d).

Definition Wipe (env : Env) (d : Daemon) : Daemon :=
  set_fs (MemFS.Wipe (clock env 0) (fs d)) d.

(** The lock of the control node: unmount, wipe the heap, wipe the history. *)
Definition lock (env : Env) (d : Daemon) : Daemon :=
  (WipeHistory env (Wipe env (Unmount env d).2)).2.

Definition Shutdown (env : Env) (d : Daemon) : Daemon :=
  let d := if devSrv d then set_server false (devAddr d) (runtime d) (exited d) d else d in
  lock env d.

(** The goroutine of the shutdown handler, which then leaves the process. *)
Definition runShutdown (env : Env) (d : Daemon) : Daemon :=
  let d := Shutdown env d in
  set_server (devSrv d) (devAddr d) (runtime d) true d.

(** [StartDevAPI]; [ln] is the result of [net.Listen]. *)
Definition StartDevAPI (env : Env) (ln : result string string) (d : Daemon)
  : option string * Daemon :=
  match ln with
  | Err e => (Some e, set_server true (devAddr d) (runtime d) (exited d) d)
  | Ok addr =>
      let d := set_server true addr (runtime d) (exited d) d in
      if Config.RecordRuntimeState (cfg d) then (None, (writeRuntimeState env d).2)
      else (None, d)
  end.

End Daemon.
End Daemon.
