(* ===== verification/Rpc.v ===== *)
(** * internal/rpc: messages, the dispatcher, the client, version negotiation

    Frames are texts; [Encode] and [Decode] are the JSON of [Message].  Handlers
    act on a world [W] that the dispatcher threads through. *)
From S2P Require Import Prelude GoStrings GoJson GoFloat GoJsonPrint.
Import GoStr GoJson GoFloat JsonPrint.

Module Rpc.

(** ** Messages *)

Definition TypeReq : string := "REQ".
Definition TypeRes : string := "RES".

Definition MethodWrite : string := "WRITE".
Definition MethodDelete : string := "DELETE".
Definition MethodUnmount : string := "UNMOUNT".
Definition MethodLock : string := "LOCK".
Definition MethodStatus : string := "STATUS".
Definition MethodManifest : string := "MANIFEST".
Definition MethodPull : string := "PULL".
Definition MethodSetConfig : string := "SET_CONFIG".

Definition params : Type := gmap string json.

(** A nil map is the empty one. *)
Record Message := MkMessage {
  V : Z;
  ID : string;
  Type_ : string;
  Method : string;
  Params : params;
  OK : bool;
  Result : params;
  Err_ : string;
}.

Definition zero_message : Message := MkMessage 0 "" "" "" ∅ false ∅ "".

Definition NewRequest (id method : string) (ps : params) : Message :=
  MkMessage 1 id TypeReq method ps false ∅ "".

(** [Reply]; the error is its text. *)
Definition Reply (req : Message) (ok : bool) (res : params) (err : option string) : Message :=
  MkMessage 1 (ID req) TypeRes "" ∅ ok res (default "" err).

Definition omit_string (k s : string) : list (string * json) :=
  if decide (s = "") then [] else [(k, JStr s)].
Definition omit_map (k : string) (m : params) : list (string * json) :=
  if decide (m = ∅) then [] else [(k, jmap m)].
Definition omit_bool (k : string) (b : bool) : list (string * json) :=
  if b then [(k, JBool true)] else [].

Definition message_json (m : Message) : json :=
  JObj ([("v", JInt (V m))] ++ omit_string "id" (ID m) ++ [("type", JStr (Type_ m))] ++
        omit_string "method" (Method m) ++ omit_map "params" (Params m) ++
        omit_bool "ok" (OK m) ++ omit_map "result" (Result m) ++
        omit_string "error" (Err_ m)).

Definition Encode (m : Message) : string := print (message_json m).

Definition message_fields : list (string * decoder Message) :=
  [("v", field_int (λ m x, MkMessage x (ID m) (Type_ m) (Method m) (Params m) (OK m) (Result m) (Err_ m)));
   ("id", field_string (λ m x, MkMessage (V m) x (Type_ m) (Method m) (Params m) (OK m) (Result m) (Err_ m)));
   ("type", field_string (λ m x, MkMessage (V m) (ID m) x (Method m) (Params m) (OK m) (Result m) (Err_ m)));
   ("method", field_string (λ m x, MkMessage (V m) (ID m) (Type_ m) x (Params m) (OK m) (Result m) (Err_ m)));
   ("params", field_map Params (λ m x, MkMessage (V m) (ID m) (Type_ m) (Method m) x (OK m) (Result m) (Err_ m)));
   ("ok", field_bool (λ m x, MkMessage (V m) (ID m) (Type_ m) (Method m) (Params m) x (Result m) (Err_ m)));
   ("result", field_map Result (λ m x, MkMessage (V m) (ID m) (Type_ m) (Method m) (Params m) (OK m) x (Err_ m)));
   ("error", field_string (λ m x, MkMessage (V m) (ID m) (Type_ m) (Method m) (Params m) (OK m) (Result m) x))].

(** [Decode]: [None] when there is an error. *)
Definition Decode (raw : string) : option Message :=
  match Unmarshal (struct_of message_fields) raw zero_message with
  | (m, true) => Some m
  | _ => None
  end.

(** ** Dispatcher *)

Section Dispatcher.
Context {W : Type} (strconv_Quote : string → string).

Definition Handler : Type := Message → W → result string params * W.
Definition Dispatcher : Type := gmap string Handler.

Definition NewDispatcher : Dispatcher := ∅.

Definition Handle (method : string) (h : Handler) (d : Dispatcher) : Dispatcher :=
  <[ToUpper method := h]> d.

(** The reply to send, if the frame was a request. *)
Definition Dispatch (d : Dispatcher) (raw : string) (w : W) : option string * W :=
  match Decode raw with
  | None => (None, w)
  | Some m =>
      if decide (Type_ m = TypeReq) then
        match d !! ToUpper (Method m) with
        | None =>
            (Some (Encode (Reply m false ∅
               (Some ("unknown method " +:+ strconv_Quote (Method m))))), w)
        | Some h =>
            match h m w with
            | (Ok res, w) => (Some (Encode (Reply m true res None)), w)
            | (Err e, w) => (Some (Encode (Reply m false ∅ (Some e))), w)
            end
        end
      else (None, w)
  end.

End Dispatcher.

(** ** Client

    Each call has its own channel (of capacity one), here the mailbox of its
    number. *)
Record Client := MkClient {
  pending : gmap string nat;
  boxes : gmap nat (list Message);
}.

Definition NewClient : Client := MkClient ∅ ∅.

Definition delete_pending (id : string) (c : Client) : Client :=
  MkClient (delete id (pending c)) (boxes c).

(** The part of [Call] before it waits: the channel and the registration. *)
Definition Call_register (n : nat) (id : string) (c : Client) : Client :=
  MkClient (<[id := n]> (pending c)) (<[n := []]> (boxes c)).

(** [Call] when sending fails or the context ends first. *)
Definition Call_abandon (id : string) (c : Client) : Client := delete_pending id c.

(** What [Call] returns for the message it received. *)
Definition Call_result (method : string) (m : Message) : result string Message :=
  if OK m then Ok m else Err ("rpc " +:+ method +:+ " failed: " +:+ Err_ m).

Definition onData (raw : string) (c : Client) : Client :=
  match Decode raw with
  | None => c
  | Some m =>
      if decide (Type_ m = TypeRes) then
        let c' := delete_pending (ID m) c in
        match pending c !! ID m with
        | Some n => MkClient (pending c') (<[n := default [] (boxes c !! n) ++ [m]]> (boxes c'))
        | None => c'
        end
      else c
  end.

(** ** Version negotiation *)

Definition V1 : Z := 1.
Definition V2 : Z := 2.
Definition Supported : list Z := [V1; V2].
Definition Current : Z := V2.

Definition Negotiate (peer : list Z) (floor : Z) : Z :=
  fold_left (λ best v,
    if (v <? floor)%Z then best
    else fold_left (λ best own,
           if (v =? own)%Z && (best <? v)%Z then v else best) Supported best)
    peer 0%Z.

End Rpc.
