(* ===== verification/RpcProps.v ===== *)
(** * Properties of the RPC layer *)
From S2P Require Import Prelude GoStrings GoJson GoUtf8 GoFloat GoJsonPrint Rpc.
Import GoStr GoJson UTF8 GoFloat JsonPrint Rpc.

Module RpcFacts.

(** ** Maps through JSON objects *)

Lemma into_map_lookup l m k : NoDup l.*1 →
  into_map l m !! k = match (list_to_map l : gmap string json) !! k with
                      | Some v => Some v | None => m !! k end.
Proof.
  revert m. induction l as [|[j v] l IH]; intros m Hnd; simpl.
  - by rewrite lookup_empty.
  - apply NoDup_cons in Hnd as [Hj Hnd]. unfold into_map in *. simpl. rewrite IH by done.
    destruct (decide (j = k)) as [->|Hne].
    + rewrite (lookup_insert_eq (list_to_map l)).
      rewrite not_elem_of_list_to_map_1 by done. by rewrite lookup_insert_eq.
    + by rewrite !lookup_insert_ne.
Qed.

Lemma into_map_jmap (m : gmap string json) :
  into_map (sort_by fst (map_to_list m)) ∅ = m.
Proof.
  assert (NoDup (sort_by fst (map_to_list m)).*1) as Hnd.
  { rewrite sort_by_perm. apply NoDup_fst_map_to_list. }
  apply map_eq. intros k. rewrite into_map_lookup by done.
  rewrite (list_to_map_proper _ (map_to_list m)); [|done|apply sort_by_perm].
  rewrite list_to_map_to_list, lookup_empty. by destruct (m !! k).
Qed.

(** The values a map may hold for its printed form to be read back. *)
Definition value_ok (d : N) (v : json) : Prop := jok d v ∧ any_ok v = true.

Definition map_ok (d : N) (m : params) : Prop :=
  map_Forall (λ k v, utf8_str k = true ∧ value_ok d v) m.

Lemma jok_jmap d m : map_ok d m → jok (d + 1) (jmap m).
Proof.
  intros Hm. constructor. rewrite sort_by_perm. apply Forall_forall.
  intros [k v] Hkv%elem_of_map_to_list. destruct (Hm _ _ Hkv) as [? [? _]]. done.
Qed.

Lemma any_ok_jmap d m : map_ok d m → any_ok (jmap m) = true.
Proof.
  intros Hm. simpl. apply forallb_forall. intros [k v] Hkv.
  apply list_elem_of_In in Hkv. rewrite sort_by_perm in Hkv.
  apply elem_of_map_to_list in Hkv. by destruct (Hm _ _ Hkv) as [? [? ?]].
Qed.

Lemma jok_mono d d' j : jok d j → (d ≤ d')%N → jok d' j.
Proof.
  revert d d' j. fix IH 4. intros d d' j Hj Hd.
  destruct Hj as [?|? b|? l Hl|? s Hs|d l Hl|d l Hl]; try by constructor.
  - replace d' with ((d' - 1) + 1)%N by lia. constructor.
    induction Hl as [|v l Hv Hl IHl]; constructor; [|done]. apply (IH d); [done|lia].
  - replace d' with ((d' - 1) + 1)%N by lia. constructor.
    induction Hl as [|v l [Hk Hv] Hl IHl]; constructor; [|done].
    split; [done|]. apply (IH d); [done|lia].
Qed.

(** *** Messages *)

Record message_ok (d : N) (m : Message) : Prop := {
  mok_v : in_i64 (V m);
  mok_id : utf8_str (ID m) = true;
  mok_type : utf8_str (Type_ m) = true;
  mok_method : utf8_str (Method m) = true;
  mok_params : map_ok d (Params m);
  mok_result : map_ok d (Result m);
  mok_err : utf8_str (Err_ m) = true;
}.

Lemma jok_message d m : message_ok d m → jok (d + 1 + 1) (message_json m).
Proof.
  intros [? ? ? ? Hp Hr ?]. constructor.
  unfold omit_string, omit_map, omit_bool.
  repeat first [apply Forall_app_2 | case_match | apply Forall_cons_2 | apply Forall_nil_2];
    (split; [done|]); simpl; try (by constructor).
  - constructor. apply num_lit_pretty.
  - by apply jok_jmap.
  - by apply jok_jmap.
Qed.

(** Each printed member, read into a message that lacks it. *)
Section members.
Context (s : Message).
Let step (acc : Message * bool) (kv : string * json) : Message * bool :=
  match find_field message_fields kv.1 with
  | Some d => let (s', ok) := d kv.2 acc.1 in (s', acc.2 && ok)
  | None => acc
  end.

Lemma read_string k x set :
  find_field message_fields k = Some (field_string set) → set s "" = s →
  fold_left step (omit_string k x) (s, true) = (set s x, true).
Proof.
  intros Hk Hs. unfold omit_string. case_decide as Hx; [subst; by rewrite Hs|].
  unfold fold_left, step. simpl fst. rewrite Hk. done.
Qed.

Lemma read_present k x set :
  find_field message_fields k = Some (field_string set) →
  fold_left step [(k, JStr x)] (s, true) = (set s x, true).
Proof. intros Hk. unfold fold_left, step. simpl fst. by rewrite Hk. Qed.

Lemma read_int k x set :
  find_field message_fields k = Some (field_int set) → in_i64 x →
  fold_left step [(k, JInt x)] (s, true) = (set s x, true).
Proof.
  intros Hk Hx. unfold fold_left, step. simpl fst. rewrite Hk.
  unfold field_int, scalar, JInt. cbn [snd]. by rewrite int_lit_pretty.
Qed.

Lemma read_bool k x set :
  find_field message_fields k = Some (field_bool set) → set s false = s →
  fold_left step (omit_bool k x) (s, true) = (set s x, true).
Proof.
  intros Hk Hs. destruct x; simpl; [|by rewrite Hs].
  unfold step. simpl fst. rewrite Hk. done.
Qed.

Lemma read_map d k x get set :
  find_field message_fields k = Some (field_map get set) → get s = ∅ → set s ∅ = s →
  map_ok d x →
  fold_left step (omit_map k x) (s, true) = (set s x, true).
Proof.
  intros Hk Hg Hs Hx. unfold omit_map.
  case_decide as Hn; [subst x; exact (f_equal (., true) (eq_sym Hs))|].
  unfold fold_left, step. simpl fst. rewrite Hk. unfold field_map, jmap. cbn [snd fst].
  rewrite Hg, into_map_jmap. change (JObj (sort_by fst (map_to_list x))) with (jmap x).
  by rewrite (any_ok_jmap _ _ Hx).
Qed.
End members.

Ltac proj := cbn [V ID Type_ Method Params OK Result Err_].

Lemma Decode_Encode_ok d m : message_ok d m → (d + 2 ≤ max_depth)%N →
  Decode (Encode m) = Some m.
Proof.
  intros Hm Hd. unfold Decode, Encode, Unmarshal.
  rewrite (parse_print_value (d + 1 + 1)); [|by apply jok_message|lia].
  destruct m as [v id ty me ps ok res er]. unfold message_json, struct_of, members_into.
  rewrite !fold_left_app. cbn [V ID Type_ Method Params OK Result Err_].
  erewrite (read_int _ "v"); [|reflexivity|apply Hm].
  proj.
  erewrite (read_string _ "id"); [|reflexivity|reflexivity].
  proj.
  erewrite (read_present _ "type"); [|reflexivity].
  proj.
  erewrite (read_string _ "method"); [|reflexivity|reflexivity].
  proj.
  erewrite (read_map _ d "params"); [|reflexivity|reflexivity|reflexivity|apply Hm].
  proj.
  erewrite (read_bool _ "ok"); [|reflexivity|reflexivity].
  proj.
  erewrite (read_map _ d "result"); [|reflexivity|reflexivity|reflexivity|apply Hm].
  proj.
  erewrite (read_string _ "error"); [|reflexivity|reflexivity]. done.
Qed.

(** ** The client *)

Inductive event :=
  | ECall (n : nat) (id : string)
  | EAbandon (id : string)
  | EData (raw : string).

Definition client_step (c : Client) (e : event) : Client :=
  match e with
  | ECall n id => Call_register n id c
  | EAbandon id => Call_abandon id c
  | EData raw => onData raw c
  end.

Definition call_numbers (es : list event) : list nat :=
  omap (λ e, match e with ECall n _ => Some n | _ => None end) es.

Lemma elem_of_call_numbers n id es : ECall n id ∈ es → n ∈ call_numbers es.
Proof. intros H. apply list_elem_of_omap. by exists (ECall n id). Qed.

(** What a history of events has put into the client. *)
Record client_inv (es : list event) (c : Client) : Prop := {
  ci_pending id n : pending c !! id = Some n → ECall n id ∈ es ∧ boxes c !! n = Some [];
  ci_box n ms : boxes c !! n = Some ms →
    length ms ≤ 1 ∧ (∃ id, ECall n id ∈ es) ∧ ∀ m, m ∈ ms → ECall n (ID m) ∈ es;
}.

Lemma ECall_unique n id id' es : NoDup (call_numbers es) →
  ECall n id ∈ es → ECall n id' ∈ es → id = id'.
Proof.
  unfold call_numbers. induction es as [|e es IH]; simpl; [by intros _ ?%elem_of_nil|].
  intros Hnd H1 H2. apply elem_of_cons in H1 as [<-|H1], H2 as [Heq|H2].
  - by simplify_eq.
  - simpl in Hnd. apply NoDup_cons in Hnd as [Hn _]. destruct Hn.
    by eapply elem_of_call_numbers.
  - subst e. simpl in Hnd. apply NoDup_cons in Hnd as [Hn _]. destruct Hn.
    by eapply elem_of_call_numbers.
  - apply IH; [|done..]. destruct e; simpl in Hnd; [by apply NoDup_cons in Hnd as []|done..].
Qed.

Lemma inv_delete es c id : client_inv es c → client_inv es (delete_pending id c).
Proof.
  intros [Hp Hb]. split; [|exact Hb]. intros id' n. simpl.
  rewrite lookup_delete_Some. intros [_ H]. by apply Hp.
Qed.

Lemma client_inv_ok es : NoDup (call_numbers es) →
  client_inv es (fold_left client_step es NewClient).
Proof.
  induction es as [|e es IH] using rev_ind; intros Hnd.
  { split; simpl; intros; by rewrite lookup_empty in *. }
  rewrite fold_left_app. cbn [fold_left].
  unfold call_numbers in Hnd. rewrite omap_app in Hnd. apply NoDup_app in Hnd as (Hnd & Hfr & _).
  specialize (IH Hnd). fold (call_numbers es) in *.
  set (c := fold_left client_step es NewClient) in *. clearbody c.
  assert (client_inv (es ++ [e]) c) as [Hp Hb].
  { destruct IH as [Hp Hb]. split.
    - intros id n Hid. destruct (Hp _ _ Hid). split; [|done]. apply elem_of_app. by left.
    - intros n ms Hn. destruct (Hb _ _ Hn) as (H1 & (id & H2) & H3).
      split_and!; [done|exists id; apply elem_of_app; by left|].
      intros m Hm. apply elem_of_app. left. by apply H3. }
  destruct e as [n id|id|raw]; simpl.
  - assert (∀ id', ECall n id' ∉ es) as Hnew.
    { intros id' H. apply (Hfr n); [by eapply elem_of_call_numbers|]. simpl. by left. }
    assert (ECall n id ∈ es ++ [ECall n id]) as Hin by (apply elem_of_app; right; by left).
    split; simpl.
    + intros id' n' [[<- <-]|[Hne Hid]]%lookup_insert_Some.
      * by rewrite lookup_insert_eq.
      * destruct (ci_pending _ _ IH _ _ Hid) as [H1 H2].
        rewrite lookup_insert_ne; [by apply Hp|]. intros <-. by destruct (Hnew id').
    + intros n' ms [[<- <-]|[Hne Hn]]%lookup_insert_Some; [|by apply Hb].
      split_and!; [simpl; lia|by exists id|by intros ? ?%elem_of_nil].
  - by apply inv_delete.
  - unfold onData. destruct (Decode raw) as [m|]; [|by split].
    case_decide as Ht; [|by split].
    destruct (pending c !! ID m) as [n|] eqn:Hm; [|by apply inv_delete].
    destruct (Hp _ _ Hm) as [Hin Hbn]. rewrite Hbn. simpl. split; simpl.
    + intros id' n' [Hne Hid]%lookup_delete_Some. destruct (Hp _ _ Hid) as [Hin' Hb'].
      split; [done|]. rewrite lookup_insert_ne; [done|]. intros <-.
      apply Hne. eapply ECall_unique; [|exact Hin|exact Hin'].
      unfold call_numbers. rewrite omap_app. simpl. by rewrite (right_id_L [] (++)).
    + intros n' ms [[<- <-]|[Hne Hn]]%lookup_insert_Some; [|by apply Hb].
      split_and!; [done|by exists (ID m)|]. intros m' ->%list_elem_of_singleton. done.
Qed.

(** ** Negotiation *)

(** The versions both sides may use. *)
Definition common (peer : list Z) (floor v : Z) : Prop :=
  v ∈ peer ∧ v ∈ Supported ∧ (floor ≤ v)%Z.

Lemma negotiate_step best v floor : (0 ≤ best)%Z →
  (if (v <? floor)%Z then best
   else fold_left (λ best own,
           if (v =? own)%Z && (best <? v)%Z then v else best) Supported best) =
  if decide ((floor ≤ v)%Z ∧ v ∈ Supported ∧ (best < v)%Z) then v else best.
Proof.
  intros Hb. unfold Supported, V1, V2. simpl.
  assert (v ∈ [1; 2]%Z ↔ v = 1%Z ∨ v = 2%Z) as Hin by set_solver.
  case_decide as H; rewrite Hin in H.
  - destruct H as (H1 & [->| ->] & H3).
    + destruct (Z.ltb_spec 1 floor); [lia|]. destruct (Z.ltb_spec best 1); [done|lia].
    + destruct (Z.ltb_spec 2 floor); [lia|]. simpl. destruct (Z.ltb_spec best 2); [done|lia].
  - destruct (Z.ltb_spec v floor); [done|].
    destruct (Z.eqb_spec v 1) as [->|]; simpl.
    + destruct (Z.ltb_spec best 1); [|done]. destruct H. split_and!; [lia|by left|lia].
    + destruct (Z.eqb_spec v 2) as [->|]; simpl; [|done].
      destruct (Z.ltb_spec best 2); [|done]. destruct H. split_and!; [lia|by right|lia].
Qed.

Lemma Negotiate_spec peer floor :
  (Negotiate peer floor = 0%Z ∧ ∀ v, ¬ common peer floor v) ∨
  (common peer floor (Negotiate peer floor) ∧
   ∀ v, common peer floor v → (v ≤ Negotiate peer floor)%Z).
Proof.
  induction peer as [|w peer IH] using rev_ind.
  { left. split; [done|]. intros v [H%elem_of_nil _]. done. }
  assert (∀ v, common (peer ++ [w]) floor v ↔
    common peer floor v ∨ (v = w ∧ w ∈ Supported ∧ (floor ≤ w)%Z)) as Hc.
  { intros v. unfold common. rewrite elem_of_app, list_elem_of_singleton. naive_solver. }
  assert (0 ≤ Negotiate peer floor)%Z as Hpos.
  { destruct IH as [[-> _]|[(_ & H & _) _]]; [done|]. revert H. unfold Supported, V1, V2.
    set_unfold. lia. }
  assert (∀ v, v ∈ Supported → (0 < v)%Z) as Hsup
    by (unfold Supported, V1, V2; set_unfold; lia).
  assert (Negotiate (peer ++ [w]) floor =
    if decide ((floor ≤ w)%Z ∧ w ∈ Supported ∧ (Negotiate peer floor < w)%Z)
    then w else Negotiate peer floor) as Hn.
  { unfold Negotiate at 1. rewrite fold_left_app. cbn [fold_left].
    fold (Negotiate peer floor). by apply negotiate_step. }
  setoid_rewrite Hc. rewrite Hn. case_decide as Hw.
  - right. split; [naive_solver|]. intros v [Hv|(-> & _)]; [|done].
    destruct IH as [[_ IH]|[_ IH]]; [by destruct (IH v)|]. specialize (IH _ Hv). lia.
  - destruct IH as [[H0 IH]|[H1 IH]].
    + left. split; [done|]. intros v [Hv|(-> & Hs & Hf)]; [by apply (IH v)|].
      apply Hw. rewrite H0. auto.
    + right. split; [by left|]. intros v [Hv|(-> & Hs & Hf)]; [by apply IH|].
      destruct (decide (Negotiate peer floor < w)%Z); [naive_solver|lia].
Qed.

End RpcFacts.

(** ** Properties *)

Module RpcProps.
Import RpcFacts.


Definition demo_request : Message :=
  NewRequest "7f" MethodWrite {["path" := JStr "/k"; "content" := JStr "v"]}.

Lemma demo_request_ok : message_ok 1 demo_request.
Proof.
  assert (∀ s, value_ok 1 (JStr s) ↔ utf8_str s = true) as Hs.
  { intros s. split; [by intros [Hj _]; inversion Hj|]. intros Hs. split; [by constructor|done]. }
  split; [vm_compute; split; congruence|done..| |apply (map_Forall_empty (M:=gmap string))|done].
  intros k v Hk. simpl in Hk.
  apply lookup_insert_Some in Hk as [[<- <-]|[_ Hk]];
    [|apply lookup_singleton_Some in Hk as [<- <-]]; (split; [done|by apply Hs]).
Defined.


(** C6: the client never hands a caller somebody else's answer: whatever arrives
    and whichever calls are abandoned, a call receives at most one message, and
    that message carries the identifier the call was sent with. *)
Theorem client_correlates es n ms :
  NoDup (call_numbers es) →
  boxes (fold_left client_step es NewClient) !! n = Some ms →
  length ms ≤ 1 ∧ ∀ m, m ∈ ms → ECall n (ID m) ∈ es.
Proof.
  intros Hnd Hn. destruct (ci_box _ _ (client_inv_ok es Hnd) _ _ Hn) as (H1 & _ & H2). done.
Qed.

Definition demo_reply : Message := Reply demo_request true ∅ None.
Definition demo_history : list event :=
  [ECall 0 "7f"; EData (Encode demo_reply); EData (Encode demo_reply)].

Lemma client_correlates_witness :
  boxes (fold_left client_step demo_history NewClient) !! 0 = Some [demo_reply] ∧
  length [demo_reply] ≤ 1 ∧ ∀ m, m ∈ [demo_reply] → ECall 0 (ID m) ∈ demo_history.
Proof.
  split; [vm_compute; done|].
  apply (client_correlates demo_history 0 [demo_reply]); [|vm_compute; done].
  apply NoDup_singleton.
Defined.

(** negotiation picks the highest version both sides support that is not below
    the floor, and 0 exactly when there is none; it cannot be walked below the
    highest version seen before. *)
Theorem Negotiate_highest peer floor :
  (Negotiate peer floor = 0%Z ∧ ∀ v, ¬ common peer floor v) ∨
  (common peer floor (Negotiate peer floor) ∧
   ∀ v, common peer floor v → (v ≤ Negotiate peer floor)%Z).
Proof. apply Negotiate_spec. Qed.

End RpcProps.
