(* ===== verification/VaultProps.v ===== *)
(** * The vault directory: what is stored can be read back

    [ready] relates a vault in memory to its directory and to the bodies it holds;
    every operation is run on it.  The theorems are in [VaultTheorems]. *)
From stdpp Require Import pretty.
From S2P Require Import Prelude GoStrings GoJson GoUtf8 GoFloat GoJsonPrint GoTime Vault RpcProps.
Import GoStr GoJson UTF8 GoFloat JsonPrint GoTime Vault RpcFacts.

Module VaultFacts.

(** ** Manifests as text *)

(** An entry as [Add] makes it: printable names, a time, sizes at their width. *)
Record entry_ok (e : Entry) : Prop := {
  ok_path : utf8_str (Path e) = true;
  ok_sha : utf8_str (BlobSHA e) = true;
  ok_size : in_i64 (Size e);
  ok_mode : (0 ≤ Mode e < 2 ^ 32)%Z;
  ok_time : utf8_str (Modified e) = true ∧ is_RFC3339 (Modified e) = true;
}.

Definition manifest_ok (m : Manifest) : Prop :=
  map_Forall (λ p e, utf8_str p = true ∧ entry_ok e) m.

Lemma digits_val_pretty (z : Z) : (0 ≤ z)%Z → in_i64 z → digits_val 0 (pretty z) = Some z.
Proof.
  intros Hz Hi. rewrite pretty_Z_cases. destruct (Z.ltb_spec z 0); [lia|].
  destruct (pretty_N_spec (Z.abs_N z)) as (a & r & -> & _ & _ & ->). f_equal. lia.
Qed.

Lemma entry_round_trip e : entry_ok e → struct_of entry_fields (entry_json e) zero_entry = (e, true).
Proof.
  intros []. destruct e as [p sha size mode time]. simpl in *.
  unfold struct_of, members_into, entry_json, find_field. simpl.
  unfold field_int, field_uint32, field_time, scalar. simpl.
  rewrite int_lit_pretty by done. simpl.
  rewrite digits_val_pretty; [|lia|unfold in_i64, two63; lia]. simpl.
  destruct (Z.ltb_spec mode (2 ^ 32)); [|lia]. simpl.
  by rewrite (proj2 ok_time0).
Qed.

Lemma entry_jok e : entry_ok e → jok 1 (entry_json e).
Proof.
  intros []. apply (jok_obj 0). repeat constructor; try done; simpl; try apply num_lit_pretty.
  apply ok_time0.
Qed.

Definition read_entry (j : json) : Entry := (struct_of entry_fields j zero_entry).1.

Lemma entries_into l m :
  Forall (λ kv, (struct_of entry_fields kv.2 zero_entry).2 = true) l →
  entries_decoder (JObj l) (read_entry <$> m) = (read_entry <$> into_map l m, true).
Proof.
  unfold entries_decoder, into_map. revert m.
  induction l as [|[k j] l IH]; intros m Hl; [done|].
  apply Forall_cons in Hl as [Hj Hl]. simpl in *.
  destruct (struct_of entry_fields j zero_entry) as [e ok] eqn:He. simpl in *. subst ok.
  replace e with (read_entry j) by (unfold read_entry; by rewrite He).
  specialize (IH (<[k:=j]> m) Hl). rewrite fmap_insert in IH. exact IH.
Qed.

Lemma entries_round_trip m : manifest_ok m →
  entries_decoder (jmap (entry_json <$> m)) ∅ = (m, true).
Proof.
  intros Hm. unfold jmap.
  pose proof (entries_into (sort_by fst (map_to_list (entry_json <$> m))) ∅) as H.
  rewrite fmap_empty in H. etrans; [apply H|].
  - rewrite sort_by_perm. apply Forall_forall. intros [p j] Hp%elem_of_map_to_list. simpl.
    apply lookup_fmap_Some in Hp as (e & <- & He).
    rewrite entry_round_trip; [done|]. by apply (Hm p).
  - rewrite into_map_jmap. f_equal. rewrite <- map_fmap_compose.
    rewrite <- (map_fmap_id m) at 2. apply map_fmap_ext. intros p e Hp.
    unfold compose, read_entry. rewrite entry_round_trip; [done|]. by apply (Hm p).
Qed.

(** What [saveManifest] writes, [loadManifest] reads. *)
Lemma manifest_round_trip m : manifest_ok m → decode_manifest (encode_manifest m) = (m, true).
Proof.
  intros Hm. unfold decode_manifest, encode_manifest, Unmarshal.
  assert (jok 3 (manifest_json m)) as Hj.
  { apply (jok_obj 2). repeat constructor. simpl. apply (jok_obj 1).
    rewrite sort_by_perm. apply Forall_forall. intros [p j] Hp%elem_of_map_to_list.
    apply lookup_fmap_Some in Hp as (e & <- & He). destruct (Hm _ _ He) as [? ?].
    split; [done|]. by apply entry_jok. }
  rewrite (parse_MarshalIndent 3) by (done || (unfold max_depth; lia)).
  unfold manifest_json, struct_of, members_into, find_field, manifest_fields. simpl.
  by replace (fold_left _ _ _) with (m, true) by (symmetry; exact (entries_round_trip m Hm)).
Qed.

(** ** Running computations *)

Lemma bind_ok {A B} (c : io A) (f : A → io B) w a w' :
  c w = (Ok a, w') → (c ≫= f) w = f a w'.
Proof. intros H. unfold mbind, io_bind. by rewrite H. Qed.

Lemma bind_err {A B} (c : io A) (f : A → io B) w e w' :
  c w = (Err e, w') → (c ≫= f) w = (Err e, w').
Proof. intros H. unfold mbind, io_bind. by rewrite H. Qed.

Lemma attempt_run {A} (c : io A) w r w' : c w = (r, w') → attempt c w = (Ok r, w').
Proof. intros H. unfold attempt. by rewrite H. Qed.

(** [next d k w] is a world [k] calls after [w], with the disk [d]. *)
Definition after (d : Disk) (k : nat) (w w' : World) : Prop :=
  disk w' = d ∧ calls w' = calls w + k.

Section runs.
Context `{CryptoLaws} (env : Env).

(** No fault in the next [k] calls. *)
Definition quiet (k : nat) (w : World) : Prop :=
  ∀ i, calls w ≤ i < calls w + k → fault env i = None.

Definition draws_ok : Prop := ∀ i n, String.length (rand env i n) = n.

Lemma quiet_after d j k n w w' : quiet n w → after d j w w' → j + k ≤ n → quiet k w'.
Proof. intros Hq [_ Hc] Hn i Hi. apply Hq. lia. Qed.

Lemma quiet_mono j k w : quiet k w → j ≤ k → quiet j w.
Proof. intros Hq Hj i Hi. apply Hq. lia. Qed.

Lemma sys_ok {A} (f : Disk → A * Disk) w : quiet 1 w →
  ∃ w', sys env f w = (Ok (f (disk w)).1, w') ∧ after (f (disk w)).2 1 w w'.
Proof.
  intros Hq. unfold sys. rewrite Hq by lia. destruct (f (disk w)) as [a d].
  eexists. split; [done|]. split; [done|]. simpl. lia.
Qed.

Lemma random_ok n w : quiet 1 w → draws_ok →
  ∃ r w', random env n w = (Ok r, w') ∧ r = rand env (draws w) n ∧
    String.length r = n ∧ after (disk w) 1 w w' ∧ draws w' = S (draws w).
Proof.
  intros Hq Hd. unfold random. rewrite Hq by lia. eexists _, _.
  split_and!; [done..|apply Hd|split; simpl; [done|lia]|done].
Qed.

(** ** Boxes *)

Definition sealed (key plain c : string) : Prop :=
  ∃ nonce, String.length nonce = NonceSize ∧ c = nonce +:+ Seal key nonce plain.

(** What [decrypt] makes of a file under a key. *)
Definition unbox (key c : string) : option string :=
  if decide (String.length c < NonceSize) then None
  else OpenBox key (stake NonceSize c) (sdrop NonceSize c).

Lemma sealed_parts key plain c : sealed key plain c →
  ∃ nonce, ¬ String.length c < NonceSize ∧ stake NonceSize c = nonce ∧
    sdrop NonceSize c = Seal key nonce plain.
Proof.
  intros (nonce & Hn & ->). exists nonce. rewrite length_sapp, Hn, <- Hn, stake_app, sdrop_app.
  split_and!; [lia|done..].
Qed.

Lemma unbox_sealed key plain c : sealed key plain c → unbox key c = Some plain.
Proof.
  intros (n & Hl & Ht & Hd)%sealed_parts. unfold unbox.
  rewrite decide_False by done. by rewrite Ht, Hd, open_seal.
Qed.

Lemma unbox_other key key' plain c : sealed key plain c → key ≠ key' → unbox key' c = None.
Proof.
  intros (n & Hl & Ht & Hd)%sealed_parts Hk. unfold unbox.
  rewrite decide_False by done. by rewrite Ht, Hd, open_other.
Qed.

(** ** The operations, run *)

(** The salt in force, and the calls it takes to find it. *)
Definition salted (v : Vault) (d : Disk) (s : string) : Prop :=
  match saltOverride v with
  | Some s' => s = s'
  | None => d !! saltPath = Some s
  end.

Definition key_calls (v : Vault) : nat := if saltOverride v is Some _ then 0 else 1.

Lemma deriveKey_run v s w : salted v (disk w) s → quiet (key_calls v) w →
  ∃ w', deriveKey env v w = (Ok (IDKey (pass v) s), w') ∧
    after (disk w) (key_calls v) w w' ∧ draws w' = draws w.
Proof.
  unfold salted, key_calls, deriveKey. destruct (saltOverride v) as [s'|].
  - intros -> _. exists w. split; [done|]. split; [split; [done|lia]|done].
  - intros Hs Hq. unfold ReadFile, sys, mbind, io_bind. rewrite Hq by lia. rewrite Hs.
    eexists. split; [done|]. split; [split; simpl; [done|lia]|done].
Qed.

(** Without a salt on the disk one is drawn and stored. *)
Lemma deriveKey_fresh v w : saltOverride v = None → disk w !! saltPath = None → quiet 3 w →
  ∃ w', let s := rand env (draws w) 16 in
    deriveKey env v w = (Ok (IDKey (pass v) s), w') ∧
    after (<[saltPath := s]> (disk w)) 3 w w' ∧ draws w' = S (draws w).
Proof.
  intros Hv Hs Hq. unfold deriveKey, ReadFile, WriteFile, random, sys, mbind, io_bind.
  rewrite Hv, Hq, Hs by lia. simpl. rewrite Hq by lia. simpl. rewrite Hq by lia.
  eexists. split; [done|]. split; [split; simpl; [done|lia]|done].
Qed.

Lemma encrypt_from v plain key w w' : draws_ok → quiet 1 w' →
  deriveKey env v w = (Ok key, w') →
  ∃ c w'', encrypt env v plain w = (Ok c, w'') ∧ sealed key plain c ∧
    stake NonceSize c = rand env (draws w') NonceSize ∧
    after (disk w') 1 w' w'' ∧ draws w'' = S (draws w').
Proof.
  intros Hd Hq Hk. unfold encrypt. rewrite (bind_ok _ _ _ _ _ Hk).
  destruct (random_ok NonceSize w' Hq Hd) as (r & w'' & Hr & Hrv & Hl & Ha & Hdr).
  rewrite (bind_ok _ _ _ _ _ Hr). eexists _, _. split; [done|].
  split; [by exists r|]. split; [rewrite <- Hrv; rewrite <- Hl at 1; apply stake_app|done].
Qed.

Lemma encrypt_run v plain s w : draws_ok → salted v (disk w) s → quiet (key_calls v + 1) w →
  ∃ c w', encrypt env v plain w = (Ok c, w') ∧ sealed (IDKey (pass v) s) plain c ∧
    stake NonceSize c = rand env (draws w) NonceSize ∧
    after (disk w) (key_calls v + 1) w w' ∧ draws w' = S (draws w).
Proof.
  intros Hd Hs Hq.
  destruct (deriveKey_run v s w Hs) as (w1 & Hk & [Hd1 Hc1] & Hr1); [eapply quiet_mono; [done|lia]|].
  destruct (encrypt_from v plain (IDKey (pass v) s) w w1 Hd) as (c & w2 & He & Hb & Ht & [Hd2 Hc2] & Hr2);
    [eapply quiet_after; [done..|lia]|done|].
  exists c, w2. rewrite <- Hr1, <- Hd1. split_and!; [done..|split; [done|lia]|done].
Qed.

(** What [decrypt] returns for the content of a box. *)
Definition opened (o : option string) (r : result string string) : Prop :=
  match o with Some plain => r = Ok plain | None => ∃ e, r = Err e end.

Lemma decrypt_run v s c w : salted v (disk w) s → quiet (key_calls v) w →
  ∃ r w', decrypt env v c w = (r, w') ∧ opened (unbox (IDKey (pass v) s) c) r ∧
    after (disk w) (key_calls v) w w' ∧ draws w' = draws w.
Proof.
  intros Hs Hq. destruct (deriveKey_run v s w Hs Hq) as (w' & Hk & Ha & Hr).
  unfold decrypt, unbox. rewrite (bind_ok _ _ _ _ _ Hk).
  destruct (decide _); [|destruct (OpenBox _ _ _)];
    (eexists _, _; split; [done|]; split; [by (done || eexists)|done]).
Qed.

Lemma Read_run v p e c s w : mf v !! normalizeFSPath p = Some e →
  disk w !! blobPath (BlobSHA e) = Some c → salted v (disk w) s →
  quiet (1 + key_calls v) w →
  ∃ r w', Read env p v w = (r, w') ∧ opened (unbox (IDKey (pass v) s) c) r ∧
    after (disk w) (1 + key_calls v) w w' ∧ draws w' = draws w.
Proof.
  intros He Hc Hs Hq. unfold Read. rewrite He.
  set (w1 := MkWorld (disk w) (S (calls w)) (draws w)).
  assert (must_read env (blobPath (BlobSHA e)) w = (Ok c, w1)) as Hm.
  { unfold must_read, ReadFile, sys, mbind, io_bind. rewrite Hq by lia. by rewrite Hc. }
  rewrite (bind_ok _ _ _ _ _ Hm).
  destruct (decrypt_run v s c w1 Hs) as (r & w' & Hr & Ho & [Hd Hcl] & Hdr).
  { intros i Hi. apply Hq. subst w1. simpl in Hi. lia. }
  exists r, w'. split_and!; [done..| |done]. split; [done|]. subst w1. simpl in Hcl. lia.
Qed.

Lemma WriteFile_run name content w : quiet 1 w →
  ∃ w', WriteFile env name content w = (Ok tt, w') ∧
    after (<[name := content]> (disk w)) 1 w w' ∧ draws w' = draws w.
Proof.
  intros Hq. unfold WriteFile, sys. rewrite Hq by lia. eexists.
  split; [done|]. split; [split; simpl; [done|lia]|done].
Qed.

Lemma committed_run v s w : draws_ok → salted v (disk w) s → quiet (key_calls v + 2) w →
  ∃ c w', committed env v w = (Ok (Ok tt, v), w') ∧
    sealed (IDKey (pass v) s) (encode_manifest (mf v)) c ∧
    stake NonceSize c = rand env (draws w) NonceSize ∧
    after (<[manifestPath := c]> (disk w)) (key_calls v + 2) w w'.
Proof.
  intros Hd Hs Hq.
  destruct (encrypt_run v (encode_manifest (mf v)) s w Hd Hs)
    as (c & w1 & He & Hb & Ht & Ha1 & _); [eapply quiet_mono; [done|lia]|].
  destruct (WriteFile_run manifestPath c w1) as (w2 & Hw & [Hd2 Hc2] & _).
  { eapply quiet_after; [done..|lia]. }
  exists c, w2. assert (saveManifest env v w = (Ok tt, w2)) as Hsave.
  { unfold saveManifest. by rewrite (bind_ok _ _ _ _ _ He). }
  unfold committed. rewrite (bind_ok _ _ _ _ _ (attempt_run _ _ _ _ Hsave)).
  destruct Ha1 as [Hd1 Hc1]. rewrite <- Hd1. split_and!; [done..|]. split; [done|lia].
Qed.

(** *** Reading the manifest of a directory *)

Lemma sealed_nonempty key plain c : sealed key plain c → c ≠ "".
Proof. intros (n & Hn & ->). by destruct n. Qed.

(** A manifest under a key, not to be taken for plain text. *)
Definition manifest_at (d : Disk) (key : string) (m : Manifest) : Prop :=
  ∃ c, d !! manifestPath = Some c ∧ sealed key (encode_manifest m) c ∧
    HasPrefix c "{" = false.

Lemma loadManifest_run v key m s w : manifest_at (disk w) key m → manifest_ok m →
  saltOverride v = None → disk w !! saltPath = Some s → quiet 2 w →
  ∃ r w', loadManifest env v w = (r, w') ∧ after (disk w) 2 w w' ∧
    (IDKey (pass v) s = key → r = Ok m) ∧ (IDKey (pass v) s ≠ key → ∃ e, r = Err e).
Proof.
  intros (c & Hc & Hb & Hp) Hm Hv Hs Hq. unfold loadManifest.
  set (w1 := MkWorld (disk w) (S (calls w)) (draws w)).
  assert (ReadFile env manifestPath w = (Ok (Some c), w1)) as Hread.
  { unfold ReadFile, sys. rewrite Hq by lia. by rewrite Hc. }
  rewrite (bind_ok _ _ _ _ _ Hread). rewrite decide_False by by eapply sealed_nonempty.
  rewrite Hp. assert (salted v (disk w1) s) as Hs1 by (unfold salted; by rewrite Hv).
  assert (key_calls v = 1) as Hk by (unfold key_calls; by rewrite Hv).
  destruct (decrypt_run v s c w1 Hs1) as (r & w' & Hr & Ho & [Hd Hcl] & _).
  { intros i Hi. apply Hq. subst w1. simpl in Hi. lia. }
  assert (after (disk w) 2 w w') as Ha by (split; [done|subst w1; simpl in Hcl; lia]).
  destruct (decide (IDKey (pass v) s = key)) as [<-|Hne].
  - rewrite (unbox_sealed _ _ _ Hb) in Ho. simpl in Ho. subst r.
    rewrite (bind_ok _ _ _ _ _ Hr), manifest_round_trip by done. by exists (Ok m), w'.
  - rewrite (unbox_other _ (IDKey (pass v) s) _ _ Hb) in Ho by done. destruct Ho as [e ->].
    rewrite (bind_err _ _ _ _ _ Hr). exists (Err e), w'. split_and!; [done..|]. by eexists.
Qed.

Lemma MkdirAll_run w : quiet 1 w →
  ∃ w', MkdirAll env w = (Ok tt, w') ∧ after (disk w) 1 w w'.
Proof. apply (sys_ok (λ d, (tt, d))). Qed.

(** The passphrase the directory is under opens it. *)
Lemma Open_run given m s w : manifest_at (disk w) (IDKey given s) m → manifest_ok m →
  disk w !! saltPath = Some s → quiet 3 w →
  ∃ w', Open env given w =
    (Ok (MkVault m given (bool_decide (given = LegacyDefaultPassphrase))
           (bool_decide (given = "")) None), w') ∧ after (disk w) 3 w w'.
Proof.
  intros Hm Hok Hs Hq. destruct (MkdirAll_run w) as (w1 & H1 & Ha1).
  { eapply quiet_mono; [done|lia]. }
  assert (quiet 2 w1) as Hq1 by (eapply quiet_after; [done..|lia]). destruct Ha1 as [Hd1 Hc1].
  destruct (loadManifest_run (MkVault ∅ given false false None) (IDKey given s) m s w1)
    as (r & w2 & Hr & [Hd2 Hc2] & Hright & _); [by rewrite Hd1|done|done|by rewrite Hd1|done|].
  rewrite Hright in Hr by done. exists w2. unfold Open.
  rewrite (bind_ok _ _ _ _ _ H1), (bind_ok _ _ _ _ _ (attempt_run _ _ _ _ Hr)).
  split; [done|]. split; [congruence|lia].
Qed.

(** Any other passphrase does not, unless it is the published one that does. *)
Lemma Open_refused given p m s w : manifest_at (disk w) (IDKey p s) m → manifest_ok m →
  disk w !! saltPath = Some s → quiet 5 w → given ≠ p → p ≠ LegacyDefaultPassphrase →
  ∃ e w', Open env given w = (Err e, w').
Proof.
  intros Hm Hok Hs Hq Hg Hp. destruct (MkdirAll_run w) as (w1 & H1 & Ha1).
  { eapply quiet_mono; [done|lia]. }
  assert (quiet 4 w1) as Hq1 by (eapply quiet_after; [done..|lia]). destruct Ha1 as [Hd1 Hc1].
  destruct (loadManifest_run (MkVault ∅ given false false None) (IDKey p s) m s w1)
    as (r & w2 & Hr & Ha2 & _ & Hwrong);
    [by rewrite Hd1|done|done|by rewrite Hd1|eapply quiet_mono; [done|lia]|].
  destruct Hwrong as [e ->]; [by intros [? _]%key_inj|].
  assert (quiet 2 w2) as Hq2 by (eapply quiet_after; [done..|lia]). destruct Ha2 as [Hd2 Hc2].
  destruct (loadManifest_run (MkVault ∅ LegacyDefaultPassphrase true false None) (IDKey p s) m s w2)
    as (r & w3 & Hr3 & _ & _ & Hwrong);
    [by rewrite Hd2, Hd1|done|done|by rewrite Hd2, Hd1|done|].
  destruct Hwrong as [e' ->]; [intros [? _]%key_inj; by subst|].
  unfold Open. rewrite (bind_ok _ _ _ _ _ H1), (bind_ok _ _ _ _ _ (attempt_run _ _ _ _ Hr)).
  rewrite (bind_ok _ _ _ _ _ (attempt_run _ _ _ _ Hr3)). by eexists _, _.
Qed.

(** A file that begins like JSON text is read as it is, under every passphrase. *)
Lemma loadManifest_plain v c w : disk w !! manifestPath = Some c → HasPrefix c "{" = true →
  quiet 1 w → ∃ w', loadManifest env v w =
    (if (decode_manifest c).2 then Ok (decode_manifest c).1 else Err "json: cannot unmarshal", w') ∧
    after (disk w) 1 w w'.
Proof.
  intros Hc Hp Hq. destruct (sys_ok (λ d, (d !! manifestPath, d)) w Hq) as (w' & Hr & Ha).
  exists w'. split; [|done]. unfold loadManifest. rewrite (bind_ok _ _ _ _ _ Hr). simpl.
  rewrite Hc, decide_False by by intros ->. rewrite Hp. simpl.
  rewrite (bind_ok _ _ w' c w') by done. by destruct (decode_manifest c) as [m []].
Qed.

Lemma Open_plain c w : disk w !! manifestPath = Some c → HasPrefix c "{" = true →
  (∀ i, fault env i = None) → ∀ given, is_ok (Open env given w).1 = (decode_manifest c).2.
Proof.
  intros Hc Hp Hl given. assert (∀ k w, quiet k w) as Hq by (intros k w0 i _; apply Hl).
  destruct (MkdirAll_run w) as (w1 & H1 & [Hd1 _]); [done|].
  destruct (loadManifest_plain (MkVault ∅ given false false None) c w1)
    as (w2 & H2 & [Hd2 _]); [by rewrite Hd1|done..|].
  unfold Open. rewrite (bind_ok _ _ _ _ _ H1), (bind_ok _ _ _ _ _ (attempt_run _ _ _ _ H2)).
  destruct (decode_manifest c) as [m []] eqn:Hdec; [done|]. simpl.
  destruct (loadManifest_plain (MkVault ∅ LegacyDefaultPassphrase true false None) c w2)
    as (w3 & H3 & _); [by rewrite Hd2, Hd1|done..|].
  rewrite Hdec in H3. by rewrite (bind_ok _ _ _ _ _ (attempt_run _ _ _ _ H3)).
Qed.

End runs.

End VaultFacts.
