(* ===== verification/VaultTheorems.v ===== *)
(** * The vault directory: properties

    What [Add], [Rekey] and [Open] do to the bodies a vault holds, for every cipher
    that satisfies [CryptoLaws]; the witnesses run them with a toy one. *)
From stdpp Require Import pretty.
From S2P Require Import Prelude GoStrings GoJson GoUtf8 GoFloat GoJsonPrint GoTime Vault.
From S2P Require Import RpcProps VaultProps.
Import GoStr GoJson UTF8 GoFloat JsonPrint GoTime Vault RpcFacts VaultFacts.

Module VaultTheorems.

Lemma blobPath_inj s t : blobPath s = blobPath t → s = t.
Proof.
  unfold blobPath. intros Hst. simplify_eq. revert t Hst.
  induction s as [|a s IH]; intros [|b t] Hst; try done.
  - apply (f_equal String.length) in Hst. simpl in Hst. rewrite length_sapp in Hst. simpl in Hst. lia.
  - apply (f_equal String.length) in Hst. simpl in Hst. rewrite length_sapp in Hst. simpl in Hst. lia.
  - injection Hst as -> Hst. f_equal. by apply IH.
Qed.

Lemma prefix_nonce n c : HasPrefix (stake (S n) c) "{" = HasPrefix c "{".
Proof. destruct c as [|a c]; [done|]. simpl. by destruct (stake n c), c. Qed.

Section theorems.
Context `{CryptoLaws} (env : Env).

(** ** A vault, its directory and its bodies *)

Record ready (v : Vault) (bodies : gmap string string) (d : Disk) : Prop := {
  ready_salt s : saltOverride v = Some s → d !! saltPath = Some s;
  ready_fresh : d !! saltPath = None → mf v = ∅;
  ready_dom p : is_Some (bodies !! p) ↔ is_Some (mf v !! p);
  ready_sha p e b : mf v !! p = Some e → bodies !! p = Some b → BlobSHA e = sha256_hex b;
  ready_blob s p b : d !! saltPath = Some s → bodies !! p = Some b →
    ∃ c, d !! blobPath (sha256_hex b) = Some c ∧ sealed (IDKey (pass v) s) b c;
}.

Lemma ready_salted v bodies d s : ready v bodies d → d !! saltPath = Some s → salted v d s.
Proof.
  intros Hr Hs. unfold salted. destruct (saltOverride v) as [s'|] eqn:Hv; [|done].
  apply (ready_salt _ _ _ Hr) in Hv. congruence.
Qed.

Lemma ready_entry v bodies d p b : ready v bodies d → bodies !! p = Some b →
  ∃ e s, mf v !! p = Some e ∧ BlobSHA e = sha256_hex b ∧ d !! saltPath = Some s.
Proof.
  intros Hr Hb. destruct (proj1 (ready_dom _ _ _ Hr p)) as [e He]; [by eexists|].
  destruct (d !! saltPath) as [s|] eqn:Hs.
  - exists e, s. split_and!; [done|by eapply ready_sha|done].
  - rewrite (ready_fresh _ _ _ Hr Hs) in He. by apply lookup_empty_Some in He.
Qed.

(** Every body can be read. *)
Lemma ready_read v bodies w p b : ready v bodies (disk w) →
  bodies !! normalizeFSPath p = Some b → quiet env (1 + key_calls v) w →
  ∃ w', Read env p v w = (Ok b, w') ∧ after (disk w) (1 + key_calls v) w w'.
Proof.
  intros Hr Hb Hq. destruct (ready_entry _ _ _ _ _ Hr Hb) as (e & s & He & Hsha & Hs).
  destruct (ready_blob _ _ _ Hr s _ _ Hs Hb) as (c & Hc & Hbox). rewrite <- Hsha in Hc.
  destruct (Read_run env v p e c s w He Hc (ready_salted _ _ _ _ Hr Hs) Hq)
    as (r & w' & Hrun & Ho & Ha & _).
  rewrite (unbox_sealed _ _ _ Hbox) in Ho. simpl in Ho. subst r. by exists w'.
Qed.

(** ** Adding *)

Definition lucky : Prop := ∀ i, fault env i = None.

Lemma lucky_quiet k w : lucky → quiet env k w.
Proof. intros Hl i _. apply Hl. Qed.

(** A key is found, or a salt is drawn for it. *)
Lemma key_found v bodies w : lucky → ready v bodies (disk w) →
  ∃ s w', deriveKey env v w = (Ok (IDKey (pass v) s), w') ∧
    disk w' !! saltPath = Some s ∧ ready v bodies (disk w') ∧
    (∀ s0, disk w !! saltPath = Some s0 → s0 = s ∧ draws w' = draws w).
Proof.
  intros Hl Hr. destruct (disk w !! saltPath) as [s|] eqn:Hs.
  - destruct (deriveKey_run env v s w) as (w' & Hk & [Hd Hc] & Hdr);
      [by eapply ready_salted|by apply lucky_quiet|].
    exists s, w'. rewrite Hd. split_and!; [done..|]. by intros s0 [= ->].
  - assert (saltOverride v = None) as Hv.
    { destruct (saltOverride v) eqn:Hv; [|done]. apply (ready_salt _ _ _ Hr) in Hv. congruence. }
    destruct (deriveKey_fresh env v w Hv Hs) as (w' & Hk & [Hd Hc] & _); [by apply lucky_quiet|].
    exists (rand env (draws w) 16), w'.
    split; [done|]. rewrite Hd, lookup_insert_eq. split_and!; [done| |done].
    assert (mf v = ∅) as Hm by by eapply ready_fresh.
    assert (bodies = ∅) as Hb.
    { apply map_empty. intros p. destruct (bodies !! p) eqn:Hp; [|done].
      destruct (proj1 (ready_dom _ _ _ Hr p)) as [? He]; [by eexists|].
      rewrite Hm in He. by apply lookup_empty_Some in He. }
    split.
    + congruence.
    + done.
    + apply Hr.
    + apply Hr.
    + intros ? ? ? _ Hbp. rewrite Hb in Hbp. by apply lookup_empty_Some in Hbp.
Qed.

(** A body stored under a new entry. *)
Lemma ready_store v bodies d s p e b c : ready v bodies d → d !! saltPath = Some s →
  BlobSHA e = sha256_hex b → sealed (IDKey (pass v) s) b c →
  ready (with_mf (<[p := e]> (mf v)) v) (<[p := b]> bodies)
    (<[blobPath (sha256_hex b) := c]> d).
Proof.
  intros Hr Hs He Hbox. assert (∀ t, blobPath t ≠ saltPath) as Hne by done.
  split; simpl; rewrite ?lookup_insert_ne by done.
  - apply (ready_salt _ _ _ Hr).
  - congruence.
  - intros q. rewrite !lookup_insert_is_Some, (ready_dom _ _ _ Hr q). done.
  - intros q e' b'. rewrite !lookup_insert_Some. intros [[<- <-]|[Hq He']] [[? <-]|[? Hb']];
      [done..|]. by eapply ready_sha.
  - intros s' q b' Hs' Hq. rewrite Hs in Hs'. injection Hs' as <-.
    destruct (decide (b' = b)) as [->|Hb].
    + exists c. by rewrite lookup_insert_eq.
    + assert (sha256_hex b ≠ sha256_hex b') as Hsha by (by intros ?%sha_inj).
      rewrite lookup_insert_ne by (by intros ?%blobPath_inj).
      apply lookup_insert_Some in Hq as [[_ ->]|[_ Hq]]; [done|].
      by eapply ready_blob.
Qed.

Lemma ready_manifest v bodies d c : ready v bodies d →
  ready v bodies (<[manifestPath := c]> d).
Proof.
  intros Hr. split; try (intros *; rewrite ?lookup_insert_ne by done); apply Hr.
Qed.

(** The end of every change: the manifest is on the disk under the key. *)
Lemma ready_commit v bodies w s : lucky → draws_ok env → ready v bodies (disk w) →
  disk w !! saltPath = Some s →
  ∃ c w', committed env v w = (Ok (Ok tt, v), w') ∧ ready v bodies (disk w') ∧
    disk w' !! saltPath = Some s ∧ disk w' !! manifestPath = Some c ∧
    sealed (IDKey (pass v) s) (encode_manifest (mf v)) c ∧
    HasPrefix c "{" = HasPrefix (rand env (draws w) NonceSize) "{".
Proof.
  intros Hl Hd Hr Hs.
  destruct (committed_run env v s w Hd) as (c & w' & Hrun & Hb & Ht & [Hdisk _]);
    [by eapply ready_salted|by apply lucky_quiet|].
  exists c, w'. rewrite Hdisk, lookup_insert_eq, lookup_insert_ne by done.
  split_and!; [done|by apply ready_manifest|done..|].
  rewrite <- Ht. symmetry. apply (prefix_nonce 11).
Qed.

(** The vault with the entry of a new body. *)
Definition added (v : Vault) (b : string) (mode : Z) (now p : string) : Vault :=
  with_mf (<[normalizeFSPath p := MkEntry (normalizeFSPath p) (sha256_hex b)
    (Z.of_nat (String.length b)) mode now]> (mf v)) v.

Lemma ready_added v bodies d s p b c mode now : ready v bodies d → d !! saltPath = Some s →
  sealed (IDKey (pass v) s) b c →
  ready (added v b mode now p) (<[normalizeFSPath p := b]> bodies)
    (<[blobPath (sha256_hex b) := c]> d).
Proof. intros Hr Hs Hbox. by eapply ready_store. Qed.

(** [Add], up to the saving of the manifest. *)
Lemma Add_run v bodies w b mode now p : lucky → draws_ok env → ready v bodies (disk w) →
  ∃ s w1, Add env (Ok b) mode now p v w =
      committed env (added v b mode now p) w1 ∧
    disk w1 !! saltPath = Some s ∧
    ready (added v b mode now p) (<[normalizeFSPath p := b]> bodies) (disk w1) ∧
    (∀ s0, disk w !! saltPath = Some s0 → s0 = s ∧ draws w1 = S (draws w)).
Proof.
  intros Hl Hd Hr. destruct (key_found v bodies w Hl Hr) as (s & wk & Hk & Hs & Hrk & Hdk).
  destruct (encrypt_from env v b _ w wk Hd (lucky_quiet _ _ Hl) Hk)
    as (c & we & He & Hbox & _ & [Hde _] & Hdre).
  destruct (WriteFile_run env (blobPath (sha256_hex b)) c we (lucky_quiet _ _ Hl))
    as (w1 & Hw & [Hd1 _] & Hdr1).
  exists s, w1. unfold Add. rewrite (bind_ok _ _ w (b : string) w) by done.
  rewrite (bind_ok _ _ _ _ _ He), (bind_ok _ _ _ _ _ Hw), Hd1, Hde.
  split; [done|]. split; [by rewrite lookup_insert_ne|].
  split; [by eapply ready_added|].
  intros s0 [-> Hdraw]%Hdk. by rewrite Hdr1, Hdre, Hdraw.
Qed.

(** C22: after [Add], the new body and every other one is read back, and the
    directory opened again under the same passphrase holds the same manifest --
    unless a nonce happens to begin like JSON text. *)
Theorem add_read_reopen v bodies w b mode now p :
  lucky → draws_ok env → (∀ i, HasPrefix (rand env i NonceSize) "{" = false) →
  ready v bodies (disk w) → manifest_ok (mf v) →
  in_i64 (Z.of_nat (String.length b)) → (0 ≤ mode < 2 ^ 32)%Z →
  utf8_str now = true → is_RFC3339 now = true →
  utf8_str (normalizeFSPath p) = true → utf8_str (sha256_hex b) = true →
  let bodies' := <[normalizeFSPath p := b]> bodies in
  ∃ v' w', Add env (Ok b) mode now p v w = (Ok (Ok tt, v'), w') ∧
    pass v' = pass v ∧ ready v' bodies' (disk w') ∧
    (∀ q body, bodies' !! normalizeFSPath q = Some body → (Read env q v' w').1 = Ok body) ∧
    ∃ v2, (Open env (pass v) w').1 = Ok v2 ∧ mf v2 = mf v'.
Proof.
  intros Hl Hd Hn Hr Hok Hb Hmode Ha Ht Hp Hsha bodies'.
  destruct (Add_run v bodies w b mode now p Hl Hd Hr) as (s & w1 & Hadd & Hs1 & Hr1 & _).
  destruct (ready_commit _ _ w1 s Hl Hd Hr1 Hs1) as (c & w' & Hc & Hr' & Hs' & Hmf & Hbox & Hpre).
  eexists _, w'. split; [by rewrite Hadd|]. split; [done|]. split; [done|]. split.
  - intros q body Hq. destruct (ready_read _ _ w' q body Hr' Hq) as (w2 & -> & _); [|done].
    by apply lucky_quiet.
  - rewrite Hn in Hpre.
    destruct (Open_run env (pass v) (mf (added v b mode now p)) s w') as (w2 & -> & _);
      [exists c; by split_and!| |done|by apply lucky_quiet|by eexists].
    apply map_Forall_insert_2; [|done]. split; [done|]. by split.
Qed.

(** When the nonce of the manifest begins with a brace the file is taken for a
    plain one: whether the directory opens again depends on the ciphertext being JSON
    text by accident, and on no passphrase. *)
Theorem add_brace_nonce v bodies w b mode now p s :
  lucky → draws_ok env → ready v bodies (disk w) → disk w !! saltPath = Some s →
  HasPrefix (rand env (S (draws w)) NonceSize) "{" = true →
  ∃ v' w' c, Add env (Ok b) mode now p v w = (Ok (Ok tt, v'), w') ∧
    disk w' !! manifestPath = Some c ∧ sealed (IDKey (pass v) s) (encode_manifest (mf v')) c ∧
    ∀ given, is_ok (Open env given w').1 = (decode_manifest c).2.
Proof.
  intros Hl Hd Hr Hs Hn.
  destruct (Add_run v bodies w b mode now p Hl Hd Hr) as (s' & w1 & Hadd & Hs1 & Hr1 & Hdr).
  destruct (Hdr s Hs) as [<- Hdraw].
  destruct (ready_commit _ _ w1 s Hl Hd Hr1 Hs1) as (c & w' & Hc & _ & _ & Hmf & Hbox & Hpre).
  rewrite Hdraw, Hn in Hpre. eexists _, w', c. split; [by rewrite Hadd|].
  split; [done|]. split; [done|]. intros given. by eapply Open_plain.
Qed.

(** ** Rekeying *)

(** Keys as [Add] makes them. *)
Definition keys_normal (m : Manifest) : Prop := map_Forall (λ p _, normalizeFSPath p = p) m.

Definition plain_of (bodies : gmap string string) (order : list string) : list (string * string) :=
  (λ p, (p, bodies !!! p)) <$> order.

Lemma read_all_run v bodies order w : ready v bodies (disk w) → keys_normal (mf v) →
  (∀ p, p ∈ order → is_Some (mf v !! p)) →
  quiet env (length order * (1 + key_calls v)) w →
  ∃ w', read_all env v order w = (Ok (plain_of bodies order), w') ∧
    after (disk w) (length order * (1 + key_calls v)) w w'.
Proof.
  intros Hr Hk. revert w Hr. induction order as [|p order IH]; intros w Hr Hin Hq.
  { exists w. split; [done|]. split; [done|]. simpl. lia. }
  destruct (Hin p) as [e He]; [by left|]. pose proof (Hk p e He) as Hnp.
  destruct (proj2 (ready_dom _ _ _ Hr p)) as [b Hb]; [by eexists|].
  destruct (ready_read v bodies w p b Hr) as (w1 & H1 & Ha1); [by rewrite Hnp| |].
  { eapply quiet_mono; [done|]. simpl. lia. }
  assert (disk w1 = disk w) as Hd1 by apply Ha1.
  destruct (IH w1) as (w2 & H2 & [Hd2 Hc2]).
  { by rewrite Hd1. }
  { intros q Hq'. apply Hin. by right. }
  { eapply quiet_after; [done..|]. simpl. lia. }
  exists w2. cbn [read_all]. rewrite (bind_ok _ _ _ _ _ H1), (bind_ok _ _ _ _ _ H2).
  split; [|split; [congruence|]].
  - unfold plain_of. simpl. by rewrite (lookup_total_correct _ _ _ Hb).
  - destruct Ha1 as [_ Hc1]. cbn [length]. lia.
Qed.

(** What the second loop does to a directory: the bodies of the list are under the
    new key, the other files are left alone. *)
Definition rewritten (key : string) (l : list string) (d d' : Disk) : Prop :=
  (∀ b, b ∈ l → ∃ c, d' !! blobPath (sha256_hex b) = Some c ∧ sealed key b c) ∧
  (∀ f, (∀ b, b ∈ l → f ≠ blobPath (sha256_hex b)) → d' !! f = d !! f).

Lemma rewritten_cons key b l c d d' : sealed key b c →
  rewritten key l (<[blobPath (sha256_hex b) := c]> d) d' → rewritten key (b :: l) d d'.
Proof.
  intros Hbox [Hin Hout]. split.
  - intros b' [->|Hb']%elem_of_cons; [|by apply Hin].
    destruct (decide (b ∈ l)); [by apply Hin|].
    exists c. rewrite Hout, lookup_insert_eq; [done|].
    intros b2 Hb2 ?%blobPath_inj%sha_inj. by subst.
  - intros f Hf. rewrite Hout, lookup_insert_ne; [done| |].
    + intros <-. eapply Hf; [by left|done].
    + intros b' Hb'. apply Hf. by right.
Qed.

(** The vault under the next key. *)
Definition rekeyed (v : Vault) (newPass salt : string) : Vault :=
  MkVault (mf v) newPass false false (Some salt).

(** One body of the second loop. *)
Lemma write_one next p e b salt w : draws_ok env → mf next !! p = Some e →
  BlobSHA e = sha256_hex b → saltOverride next = Some salt → quiet env 2 w →
  ∃ c w', (∀ l, write_all env next ((p, b) :: l) w = write_all env next l w') ∧
    sealed (IDKey (pass next) salt) b c ∧
    after (<[blobPath (sha256_hex b) := c]> (disk w)) 2 w w'.
Proof.
  intros Hd He Hsha Hs Hq.
  destruct (encrypt_run env next b salt w Hd) as (c & w1 & H1 & Hbox & _ & Ha1 & _).
  { unfold salted. by rewrite Hs. }
  { unfold key_calls. rewrite Hs. eapply quiet_mono; [done|lia]. }
  unfold key_calls in Ha1. rewrite Hs in Ha1.
  destruct (WriteFile_run env (blobPath (BlobSHA e)) c w1) as (w2 & H2 & [Hd2 Hc2] & _).
  { eapply quiet_after; [done..|lia]. }
  destruct Ha1 as [Hd1 Hc1]. exists c, w2. split; [|split; [done|]].
  - intros l. cbn [write_all]. rewrite He.
    by rewrite (bind_ok _ _ _ _ _ H1), (bind_ok _ _ _ _ _ H2).
  - split; [by rewrite Hd2, Hd1, Hsha|lia].
Qed.

Lemma plain_of_cons bodies p order b : bodies !! p = Some b →
  plain_of bodies (p :: order) = (p, b) :: plain_of bodies order.
Proof. intros Hb. unfold plain_of. cbn. by rewrite (lookup_total_correct _ _ _ Hb). Qed.

(** The entries and the bodies of a vault agree. *)
Definition agree (m : Manifest) (bodies : gmap string string) (p : string) : Prop :=
  ∃ e b, m !! p = Some e ∧ bodies !! p = Some b ∧ BlobSHA e = sha256_hex b.

Lemma ready_agree v bodies d p : ready v bodies d → is_Some (mf v !! p) → agree (mf v) bodies p.
Proof.
  intros Hr [b Hb]%(ready_dom _ _ _ Hr).
  destruct (ready_entry _ _ _ _ _ Hr Hb) as (e & _ & ? & ? & _). by exists e, b.
Qed.

Lemma write_all_run next bodies order salt w : lucky → draws_ok env →
  saltOverride next = Some salt → Forall (agree (mf next) bodies) order →
  ∃ w', write_all env next (plain_of bodies order) w = (Ok tt, w') ∧
    rewritten (IDKey (pass next) salt) (plain_of bodies order).*2 (disk w) (disk w').
Proof.
  intros Hl Hd Hs Hag. revert w.
  induction Hag as [|p order (e & b & He & Hb & Hsha) Hag IH]; intros w.
  { exists w. split; [done|]. split; [intros b Hb; by apply elem_of_nil in Hb|done]. }
  rewrite (plain_of_cons _ _ _ _ Hb).
  destruct (write_one next p e b salt w Hd He Hsha Hs) as (c & w1 & Hrun & Hbox & [Hd1 _]);
    [by apply lucky_quiet|].
  destruct (IH w1) as (w' & Hw' & Hrw). exists w'. rewrite Hrun. split; [done|].
  rewrite Hd1 in Hrw. by eapply rewritten_cons.
Qed.

Lemma plain_of_bodies bodies order p b : bodies !! p = Some b → p ∈ order →
  b ∈ (plain_of bodies order).*2.
Proof.
  intros Hb Hp. unfold plain_of. rewrite <- list_fmap_compose. apply list_elem_of_fmap.
  exists p. split; [|done]. symmetry. by apply lookup_total_correct.
Qed.

Lemma ready_rekeyed v bodies newPass salt order d d' : ready v bodies d →
  (∀ p, is_Some (mf v !! p) → p ∈ order) →
  rewritten (IDKey newPass salt) (plain_of bodies order).*2 d d' →
  ready (rekeyed v newPass salt) bodies (<[saltPath := salt]> d').
Proof.
  intros Hr Hall [Hin _]. split; simpl.
  - intros s [= <-]. by rewrite lookup_insert_eq.
  - by rewrite lookup_insert_eq.
  - apply Hr.
  - apply Hr.
  - intros s p b Hs Hb. rewrite lookup_insert_eq in Hs. injection Hs as <-.
    rewrite lookup_insert_ne by done. apply Hin. eapply plain_of_bodies; [done|].
    apply Hall. by apply (ready_dom _ _ _ Hr).
Qed.

Definition acceptable (newPass : string) : Prop :=
  newPass ≠ "" ∧ newPass ≠ LegacyDefaultPassphrase.

(** The first half of [Rekey]: everything read, and the new salt drawn. *)
Lemma Rekey_reads order newPass v bodies w : draws_ok env → ready v bodies (disk w) →
  keys_normal (mf v) → acceptable newPass → (∀ p, p ∈ order → is_Some (mf v !! p)) →
  quiet env (length order * (1 + key_calls v) + 1) w →
  ∃ w', let salt := rand env (draws w') 16 in let next := rekeyed v newPass salt in
    ∃ w1, Rekey env order newPass v w =
        (write_all env next (plain_of bodies order) ≫= λ _,
         WriteFile env saltPath salt ≫= λ _, committed env next) w1 ∧
      after (disk w) (length order * (1 + key_calls v) + 1) w w1.
Proof.
  intros Hd Hr Hk [Hne Hleg] Hin Hq.
  destruct (read_all_run v bodies order w Hr Hk Hin) as (w' & Hrun & Ha).
  { eapply quiet_mono; [done|lia]. }
  destruct (random_ok env 16 w') as (r & w1 & Hrand & -> & _ & [Hd2 Hc2] & _);
    [eapply quiet_after; [done..|lia]|done|].
  destruct Ha as [Hd1 Hc1].
  exists w', w1. unfold Rekey. rewrite !decide_False by done.
  rewrite (bind_ok _ _ _ _ _ Hrun), (bind_ok _ _ _ _ _ Hrand).
  split; [done|]. split; [congruence|lia].
Qed.

(** A rekey in which nothing fails: the directory is that of the next vault. *)
Lemma Rekey_run order newPass v bodies w :
  lucky → draws_ok env → (∀ i, HasPrefix (rand env i NonceSize) "{" = false) →
  ready v bodies (disk w) → keys_normal (mf v) → acceptable newPass →
  (∀ p, p ∈ order ↔ is_Some (mf v !! p)) →
  ∃ salt w', let v' := rekeyed v newPass salt in
    Rekey env order newPass v w = (Ok (Ok tt, v'), w') ∧ ready v' bodies (disk w') ∧
    disk w' !! saltPath = Some salt ∧ manifest_at (disk w') (IDKey newPass salt) (mf v).
Proof.
  intros Hl Hd Hn Hr Hk Hacc Hall.
  destruct (Rekey_reads order newPass v bodies w Hd Hr Hk Hacc) as (wd & w1 & Hrun & [Hd1 _]);
    [by intros p ?%Hall|by apply lucky_quiet|].
  set (salt := rand env (draws wd) 16) in *.
  destruct (write_all_run (rekeyed v newPass salt) bodies order salt w1 Hl Hd eq_refl)
    as (w2 & H2 & Hrw).
  { apply Forall_forall. intros p Hp%Hall. by apply (ready_agree v bodies (disk w)). }
  destruct (WriteFile_run env saltPath salt w2 (lucky_quiet _ _ Hl)) as (w3 & H3 & [Hd3 _] & _).
  rewrite (bind_ok _ _ _ _ _ H2), (bind_ok _ _ _ _ _ H3) in Hrun.
  assert (ready (rekeyed v newPass salt) bodies (disk w3)) as Hr3.
  { rewrite Hd3. apply (ready_rekeyed _ _ _ _ order (disk w1)); [by rewrite Hd1| |done].
    intros p. apply Hall. }
  destruct (ready_commit _ _ w3 salt Hl Hd Hr3) as (c & w' & Hc & Hr' & Hs' & Hmf & Hbox & Hpre).
  { by rewrite Hd3, lookup_insert_eq. }
  rewrite Hn in Hpre. rewrite Hc in Hrun. exists salt, w'. split_and!; [done..|].
  exists c. by split_and!.
Qed.

(** A rekey that completes leaves every body readable and the manifest under the
    new passphrase, and no other passphrase opens the directory. *)
Theorem rekey_complete order newPass v bodies w :
  lucky → draws_ok env → (∀ i, HasPrefix (rand env i NonceSize) "{" = false) →
  ready v bodies (disk w) → manifest_ok (mf v) → keys_normal (mf v) → acceptable newPass →
  (∀ p, p ∈ order ↔ is_Some (mf v !! p)) →
  ∃ v' w', Rekey env order newPass v w = (Ok (Ok tt, v'), w') ∧
    pass v' = newPass ∧ mf v' = mf v ∧ legacy v' = false ∧
    (∀ q body, bodies !! normalizeFSPath q = Some body → (Read env q v' w').1 = Ok body) ∧
    (∃ v2, (Open env newPass w').1 = Ok v2 ∧ mf v2 = mf v) ∧
    (∀ other, other ≠ newPass → is_ok (Open env other w').1 = false).
Proof.
  intros Hl Hd Hn Hr Hok Hk Hacc Hall.
  destruct (Rekey_run order newPass v bodies w Hl Hd Hn Hr Hk Hacc Hall)
    as (salt & w' & Hrun & Hr' & Hs' & Hat).
  eexists _, w'. split; [done|]. do 3 (split; [done|]). split_and!.
  - intros q body Hq. destruct (ready_read _ _ w' q body Hr' Hq) as (w4 & -> & _); [|done].
    by apply lucky_quiet.
  - destruct (Open_run env newPass (mf v) salt w' Hat) as (w4 & -> & _);
      [done|done|by apply lucky_quiet|by eexists].
  - intros other Ho. destruct (Open_refused env other newPass (mf v) salt w' Hat)
      as (e & w4 & -> ); [done..|by apply lucky_quiet|done|apply Hacc|done].
Qed.

(** *** Interrupted *)

(** Whatever fails in the second loop, the salt stays, and a file that is already
    under the new key stays under it. *)
Definition under (key f : string) (d : Disk) : Prop := ∃ b c, d !! f = Some c ∧ sealed key b c.

Lemma write_all_keeps next salt l f w : draws_ok env → saltOverride next = Some salt →
  let key := IDKey (pass next) salt in
  under key f (disk w) →
  let w' := (write_all env next l w).2 in
  under key f (disk w') ∧ disk w' !! saltPath = disk w !! saltPath.
Proof.
  intros Hd Hs key. revert w. induction l as [|[p b] l IH]; intros w Hu; [done|].
  cbn [write_all]. destruct (mf next !! p) as [e|]; [|by apply IH].
  unfold encrypt, deriveKey. rewrite Hs. unfold random, WriteFile, sys, mbind, io_bind, mret, io_ret.
  destruct (fault env (calls w)); [done|]. simpl.
  destruct (fault env (S (calls w))); [done|].
  set (c := rand env (draws w) NonceSize +:+ _). simpl.
  match goal with |- context [write_all env next l ?w2] => specialize (IH w2) end.
  simpl in IH. rewrite lookup_insert_ne in IH by done. apply IH.
  destruct (decide (f = blobPath (BlobSHA e))) as [->|Hf].
  - exists b, c. rewrite lookup_insert_eq. split; [done|]. eexists. by split.
  - destruct Hu as (b' & c' & Hc' & Hb'). exists b', c'. by rewrite lookup_insert_ne.
Qed.

Lemma Read_lost env2 p v e s key w : mf v !! normalizeFSPath p = Some e →
  under key (blobPath (BlobSHA e)) (disk w) → salted v (disk w) s → IDKey (pass v) s ≠ key →
  is_ok (Read env2 p v w).1 = false.
Proof.
  intros He (b & c & Hc & Hbox) Hs Hne. unfold Read. rewrite He.
  unfold must_read, ReadFile, sys, mbind, io_bind, mret, io_ret.
  destruct (fault env2 (calls w)); [done|]. rewrite Hc. unfold decrypt, deriveKey, salted in *.
  pose proof (unbox_other _ (IDKey (pass v) s) _ _ Hbox ltac:(done)) as Hu. unfold unbox in Hu.
  destruct (saltOverride v) as [s'|]; [subst s'|unfold ReadFile, sys];
    unfold mbind, io_bind, mret, io_ret.
  - destruct (decide (String.length c < NonceSize)); [done|]. by rewrite Hu.
  - cbn [calls]. destruct (fault env2 _); [done|]. cbn [disk]. rewrite Hs.
    destruct (decide (String.length c < NonceSize)); [done|]. by rewrite Hu.
Qed.


End theorems.
(** ** Examples *)

Module Toy.

(** A prefix code of a key. *)
Fixpoint tag (k : string) : string :=
  match k with
  | EmptyString => "0"
  | String a k => String "1" (String a (tag k))
  end.

Lemma tag_inj k k' p p' : tag k +:+ p = tag k' +:+ p' → k = k' ∧ p = p'.
Proof.
  revert k'. induction k as [|a k IH]; intros [|b k'] Heq; cbn [tag] in Heq;
    rewrite !sapp_cons, ?sapp_nil_l in Heq; try discriminate.
  - by injection Heq as ->.
  - injection Heq as -> Heq. by destruct (IH k' Heq) as [-> ->].
Qed.

#[local] Instance toy : Crypto := {|
  IDKey p s := tag p +:+ s;
  Seal k _ p := tag k +:+ p;
  OpenBox k _ c :=
    if HasPrefix c (tag k) then Some (sdrop (String.length (tag k)) c) else None;
  sha256_hex b := b
|}.

#[local] Instance toy_laws : CryptoLaws.
Proof.
  split; simpl.
  - intros k _ p. rewrite (proj2 (HasPrefix_spec _ _)) by by exists p. by rewrite sdrop_app.
  - intros k k' _ p Hk. destruct (HasPrefix _ _) eqn:Hp; [|done].
    apply HasPrefix_spec in Hp as [t [? _]%tag_inj]. by subst.
  - intros p s p' s'. apply tag_inj.
  - done.
Qed.

Fixpoint fill (a : ascii) (n : nat) : string :=
  match n with O => "" | S n => String a (fill a n) end.

Lemma length_fill a n : String.length (fill a n) = n.
Proof. induction n; simpl; congruence. Qed.

(** The draw that begins with a brace, if any, and the call that fails, if any. *)
Definition env (brace failing : option nat) : Env :=
  MkEnv (λ i, if decide (Some i = failing) then Some "disk full" else None)
        (λ i n, fill (if decide (Some i = brace) then "{" else "n") n).

Definition salt : string := fill "s" 16.
Definition time : string := "2026-01-02T03:04:05Z".

Definition v0 : Vault := MkVault ∅ "old" false false None.
Definition w0 : World := MkWorld {[ saltPath := salt ]} 0 0.

Lemma ready0 : ready v0 ∅ (disk w0).
Proof.
  split; try done.
  - intros p. rewrite !lookup_empty. by split; intros [].
Qed.

(** Two bodies, stored. *)
Definition box (b : string) : string := fill "n" 12 +:+ Seal (IDKey "old" salt) "" b.

Lemma box_sealed b : sealed (IDKey "old" salt) b (box b).
Proof. by exists (fill "n" 12). Qed.

Definition v2 : Vault := added (added v0 "one" 384 time "a") "two" 384 time "fs:/b".
Definition w2 : World :=
  MkWorld (<[blobPath "two" := box "two"]> (<[blobPath "one" := box "one"]> (disk w0))) 0 0.
Definition bodies2 : gmap string string := 
  <[normalizeFSPath "fs:/b" := "two"]> (<[normalizeFSPath "a" := "one"]> ∅).

Lemma ready2 : ready v2 bodies2 (disk w2).
Proof.
  refine (ready_added (added v0 "one" 384 time "a") _ (<[blobPath "one" := box "one"]> (disk w0))
    salt "fs:/b" "two" (box "two") 384 time _ _ (box_sealed _)).
  - refine (ready_added v0 _ (disk w0) salt "a" "one" (box "one") 384 time ready0 _ (box_sealed _)).
    by vm_compute.
  - by vm_compute.
Qed.

Lemma keys2 p : p ∈ ["/a"; "/b"] ↔ is_Some (mf v2 !! p).
Proof.
  change (mf v2) with (<["/b" := MkEntry "/b" "two" 3 384 time]>
    (<["/a" := MkEntry "/a" "one" 3 384 time]> (∅ : Manifest))).
  rewrite !elem_of_cons, elem_of_nil, !lookup_insert_is_Some', lookup_empty.
  unfold is_Some. naive_solver.
Qed.

Lemma manifest2 : manifest_ok (mf v2).
Proof. repeat (apply map_Forall_insert_2; [split; [done|]; by split|]). apply map_Forall_empty. Qed.

Lemma normal2 : keys_normal (mf v2).
Proof. repeat (apply map_Forall_insert_2; [done|]). apply map_Forall_empty. Qed.

Lemma draws_env i j : draws_ok (env i j).
Proof. intros k n. apply length_fill. Qed.

Lemma no_brace i : HasPrefix (rand (env None None) i NonceSize) "{" = false.
Proof. done. Qed.

Lemma no_fault b : lucky (env b None).
Proof. done. Qed.

End Toy.

Import Toy.
#[local] Existing Instance toy.
#[local] Existing Instance toy_laws.

Lemma add_read_reopen_witness :
  ∃ v' w', Add (env None None) (Ok "body") 420 time "fs:dir/c" v2 w2 = (Ok (Ok tt, v'), w') ∧
    pass v' = "old" ∧ ready v' (<["/dir/c" := "body"]> bodies2) (disk w') ∧
    (∀ q body, <["/dir/c" := "body"]> bodies2 !! normalizeFSPath q = Some body →
       (Read (env None None) q v' w').1 = Ok body) ∧
    ∃ v3, (Open (env None None) "old" w').1 = Ok v3 ∧ mf v3 = mf v'.
Proof.
  apply (add_read_reopen (env None None) v2 bodies2 w2 "body" 420 time "fs:dir/c"
    (no_fault None) (draws_env None None) no_brace ready2 manifest2); done.
Defined.

Lemma add_brace_nonce_witness :
  ∃ v' w' c, Add (env (Some 1) None) (Ok "body") 420 time "c" v2 w2 = (Ok (Ok tt, v'), w') ∧
    disk w' !! manifestPath = Some c ∧
    sealed (IDKey "old" salt) (encode_manifest (mf v')) c ∧
    ∀ given, is_ok (Open (env (Some 1) None) given w').1 = (decode_manifest c).2.
Proof.
  apply (add_brace_nonce (env (Some 1) None) v2 bodies2 w2 "body" 420 time "c" salt
    (no_fault _) (draws_env _ _) ready2); by vm_compute.
Defined.

(** In that run the vault is lost: the passphrase it has just been used with is refused. *)
Example brace_refused :
  is_ok (Open (env (Some 1) None) "old" (Add (env (Some 1) None) (Ok "body") 420 time "c" v2 w2).2).1
  = false.
Proof. by vm_compute. Qed.

Lemma rekey_complete_witness :
  ∃ v' w', Rekey (env None None) ["/a"; "/b"] "new" v2 w2 = (Ok (Ok tt, v'), w') ∧
    pass v' = "new" ∧ mf v' = mf v2 ∧ legacy v' = false ∧
    (∀ q body, bodies2 !! normalizeFSPath q = Some body →
       (Read (env None None) q v' w').1 = Ok body) ∧
    (∃ v3, (Open (env None None) "new" w').1 = Ok v3 ∧ mf v3 = mf v2) ∧
    (∀ other, other ≠ "new" → is_ok (Open (env None None) other w').1 = false).
Proof.
  apply (rekey_complete (env None None) ["/a"; "/b"] "new" v2 bodies2 w2 (no_fault None)
    (draws_env None None) no_brace ready2 manifest2 normal2); [done|apply keys2].
Defined.

(** The call numbered 7 draws the nonce of the second body. *)
Definition interrupted : result string outcome * World :=
  Rekey (env None (Some 7)) ["/a"; "/b"] "new" v2 w2.


End VaultTheorems.
