(* ===== verification/Node.v ===== *)
(** * internal/node: the control node of the daemon

    The node routes inbound frames: presence of the vault drives the grace timer,
    everything else is an RPC request on the in-memory file system.  What the
    configuration injects (mount, unmount, lock) acts on a host world through the
    interface [NodeHost]; the daemon provides it.  Time is passed to each step. *)
From S2P Require Import Prelude GoStrings GoPath GoJson GoFloat GoJsonPrint GoBase64 GoTime.
From S2P Require Import MemFS Rpc.
Import GoStr GoPath GoJson GoFloat JsonPrint GoTime.

Module Node.

(** ** The host interface *)

Record ServeInfo := MkServeInfo {
  Backend : string;
  FuseActive : bool;
  FuseError : string;
  WebdavServing : bool;
  WebdavAddr : string;
}.

(** The hooks of [Config]; a nil hook is [None]. *)
Class NodeHost (W : Type) := {
  host_fs : W → MemFS.MemFS;
  set_host_fs : MemFS.MemFS → W → W;
  Lock : option (W → W);
  Unmount : option (W → W);
  Remount : option (W → W);
  Mounted : option (W → bool);
  Serving : option (W → ServeInfo);
}.

(** What the node relies on: the file system is a component of the world, and
    locking leaves nothing in it. *)
Class NodeHostLaws (W : Type) `{NodeHost W} := {
  host_fs_set f w : host_fs (set_host_fs f w) = f;
  lock_wipes lock w : Lock = Some lock →
    MemFS.Children (MemFS.root (host_fs (lock w))) = ∅ ∧ MemFS.used (host_fs (lock w)) = 0%Z;
}.

Definition call_hook {W} (h : option (W → W)) (w : W) : W :=
  match h with Some f => f w | None => w end.

(** ** State *)

(** A [time.Timer]: when it fires, and whether it still will. *)
Record Timer := MkTimer { fires : Z; live : bool }.

Section Node.
Context {W : Type} `{NodeHost W}.
Context (strconv_Quote sha256_hex corrupt_text : string → string).

(** [firing] counts the timer callbacks that have started and not yet run the
    lock; [sent] are the replies handed to the connection. *)
Record MemoryNode := MkNode {
  world : W;
  Grace : Z;
  grace : option Timer;
  graceEnd : option Z;
  firing : nat;
  sent : list string;
}.

Definition set_world (w : W) (n : MemoryNode) : MemoryNode :=
  MkNode w (Grace n) (grace n) (graceEnd n) (firing n) (sent n).

Definition New (w : W) (g : Z) : MemoryNode := MkNode w g None None 0 [].

(** ** Grace timer *)

Definition lock_now (n : MemoryNode) : MemoryNode :=
  set_world (call_hook Lock (world n)) n.

Definition startGrace (now : Z) (n : MemoryNode) : MemoryNode :=
  if (Grace n <=? 0)%Z then
    lock_now (MkNode (world n) (Grace n) None (graceEnd n) (firing n) (sent n))
  else
    MkNode (world n) (Grace n) (Some (MkTimer (now + Grace n) true))
           (Some (now + Grace n)%Z) (firing n) (sent n).

Definition cancelGrace (n : MemoryNode) : MemoryNode :=
  MkNode (world n) (Grace n) None None (firing n) (sent n).

(** Configured window, whether a countdown runs, and what is left of it. *)
Definition GraceState (now : Z) (n : MemoryNode) : Z * bool * Z :=
  match grace n, graceEnd n with
  | Some _, Some e => (Grace n, true, Z.max 0 (e - now))
  | _, _ => (Grace n, false, 0%Z)
  end.

Definition ArmGrace (now : Z) (n : MemoryNode) : MemoryNode := startGrace now n.

Definition SetGrace (now d : Z) (n : MemoryNode) : MemoryNode :=
  let n' := MkNode (world n) d (grace n) (graceEnd n) (firing n) (sent n) in
  match grace n with
  | Some _ => startGrace now n'
  | None => n'
  end.

(** The runtime: a live timer whose time has come starts its callback, and the
    callback locks. *)
Definition expire (now : Z) (n : MemoryNode) : MemoryNode :=
  match grace n with
  | Some tm =>
      if live tm && (fires tm <=? now)%Z then
        MkNode (world n) (Grace n) (Some (MkTimer (fires tm) false)) (graceEnd n)
               (S (firing n)) (sent n)
      else n
  | None => n
  end.

Definition callback (n : MemoryNode) : MemoryNode :=
  match firing n with
  | S k => lock_now (MkNode (world n) (Grace n) (grace n) (graceEnd n) k (sent n))
  | O => n
  end.

(** ** Request parameters *)

Definition get_string (k : string) (ps : Rpc.params) : string :=
  match ps !! k with Some (JStr s) => s | _ => "" end.

(** [decodeContent]: base64 first, then plain text, else nothing. *)
Definition decodeContent (ps : Rpc.params) : result string string :=
  match ps !! "content_b64" with
  | Some (JStr b64) =>
      match Base64.Decode b64 with
      | Some b => Ok b
      | None => Err (corrupt_text b64)
      end
  | _ => Ok (get_string "content" ps)
  end.

Definition toFloat (v : json) : option SpecFloat.spec_float :=
  match v with JNum l => parse_float l | _ => None end.

Definition fs_error (e : MemFS.error) : string :=
  match e with
  | MemFS.ErrNotFound => "valetfs: not found"
  | MemFS.ErrExists => "valetfs: already exists"
  | MemFS.ErrNotDir => "valetfs: not a directory"
  | MemFS.ErrIsDir => "valetfs: is a directory"
  | MemFS.ErrQuota => "valetfs: quota exceeded"
  | MemFS.ErrInvalidPath => "valetfs: invalid path"
  | MemFS.ErrDirNotEmpty => "valetfs: directory not empty"
  end.

(** ** Handlers

    [t] gives the clock of each file system call of the handler, [now] the reading
    of the node itself. *)
Context (t : nat → MemFS.clock) (now : Z).

Definition handler : Type :=
  Rpc.Message → MemoryNode → result string Rpc.params * MemoryNode.

Definition ok_result : Rpc.params := {["ok" := JBool true]}.

Definition node_fs (n : MemoryNode) : MemFS.MemFS := host_fs (world n).
Definition set_fs (f : MemFS.MemFS) (n : MemoryNode) : MemoryNode :=
  set_world (set_host_fs f (world n)) n.

(** The two file system calls of a WRITE. *)
Definition write_fs (p data : string) (f : MemFS.MemFS)
  : result MemFS.error unit * MemFS.MemFS :=
  let dir := Dir p in
  let f := if bool_decide (dir ≠ "" ∧ dir ≠ "/")
           then (MemFS.MkdirAll (t 0) f dir 493).2 else f in
  MemFS.Write (t 1) f p (of_string data) 384.

Definition handleWrite : handler := λ req n,
  let p := get_string "path" (Rpc.Params req) in
  if decide (p = "") then (Err "missing path", n)
  else match decodeContent (Rpc.Params req) with
  | Err e => (Err e, n)
  | Ok data =>
      let n := set_world (call_hook Remount (world n)) n in
      match write_fs p data (node_fs n) with
      | (Err e, f) => (Err (fs_error e), set_fs f n)
      | (Ok _, f) => (Ok ok_result, set_fs f n)
      end
  end.

Definition handleDelete : handler := λ req n,
  let p := get_string "path" (Rpc.Params req) in
  if decide (p = "") then (Err "missing path", n)
  else match MemFS.Remove (t 0) (node_fs n) p with
  | (Err e, f) => (Err (fs_error e), set_fs f n)
  | (Ok _, f) => (Ok ok_result, set_fs f n)
  end.

Definition handleLock : handler := λ _ n,
  (Ok {["locked" := JBool true]}, lock_now (cancelGrace n)).

Definition handleUnmount : handler := λ _ n,
  let n := cancelGrace n in
  let hook := match Unmount with Some f => Some f | None => Lock end in
  (Ok {["unmounted" := JBool true]}, set_world (call_hook hook (world n)) n).

Definition handleStatus : handler := λ _ n,
  let mounted := match Mounted with Some f => f (world n) | None => false end in
  let '(cfg, armed, remaining) := GraceState now n in
  let res : Rpc.params := list_to_map
    [("mounted", JBool mounted);
     ("used", JInt (MemFS.Used (node_fs n)));
     ("version", JInt (MemFS.Version (node_fs n)));
     ("grace_seconds", JInt (in_seconds cfg));
     ("grace_armed", JBool armed);
     ("protocol_versions", JArr (JInt <$> Rpc.Supported))] in
  let res := if armed then <["grace_remaining_seconds" := JInt (in_seconds remaining)]> res
             else res in
  let res := match Serving with
    | None => res
    | Some f =>
        let s := f (world n) in
        <["backend" := JStr (Backend s)]>
        (<["serving" := JBool (FuseActive s || WebdavServing s)]>
        (<["fuse" := JObj [("active", JBool (FuseActive s)); ("error", JStr (FuseError s))]]>
        (<["webdav" := JObj [("addr", JStr (WebdavAddr s)); ("serving", JBool (WebdavServing s))]]>
          res)))
    end in
  (Ok res, n).

Definition manifest_json (e : MemFS.ManifestEntry) : json :=
  JObj [("mod_time", JStr (RFC3339Nano (MemFS.EModTime e)));
        ("path", JStr (MemFS.Path e));
        ("sha", JStr (MemFS.SHA e));
        ("size", JInt (MemFS.Size e))].

Definition handleManifest : handler := λ _ n,
  let entries := MemFS.Manifest (λ b, sha256_hex (to_string b)) (node_fs n) in
  (Ok (list_to_map [("version", JInt (MemFS.Version (node_fs n)));
                    ("entries", JArr (manifest_json <$> entries))]), n).

(** One path of a PULL; what is not a readable file is skipped. *)
Definition pull_one (f : MemFS.MemFS) (blobs : Rpc.params) (pv : json) : Rpc.params :=
  match pv with
  | JStr p =>
      if decide (p = "") then blobs
      else match MemFS.Read f p with
      | Ok b => <[p := JStr (Base64.Encode (to_string b))]> blobs
      | Err _ => blobs
      end
  | _ => blobs
  end.

Definition handlePull : handler := λ req n,
  let paths := match Rpc.Params req !! "paths" with Some (JArr l) => l | _ => [] end in
  (Ok {["blobs" := jmap (fold_left (pull_one (node_fs n)) paths ∅)]}, n).

Definition handleSetConfig : handler := λ req n,
  match Rpc.Params req !! "grace_seconds" with
  | Some v =>
      match toFloat v with
      | Some secs => (Ok ok_result, SetGrace now (seconds (trunc_i64 secs)) n)
      | None => (Ok ok_result, n)
      end
  | None => (Ok ok_result, n)
  end.

(** [register]. *)
Definition handlers : Rpc.Dispatcher :=
  Rpc.Handle Rpc.MethodSetConfig handleSetConfig
  (Rpc.Handle Rpc.MethodPull handlePull
  (Rpc.Handle Rpc.MethodManifest handleManifest
  (Rpc.Handle Rpc.MethodStatus handleStatus
  (Rpc.Handle Rpc.MethodUnmount handleUnmount
  (Rpc.Handle Rpc.MethodLock handleLock
  (Rpc.Handle Rpc.MethodDelete handleDelete
  (Rpc.Handle Rpc.MethodWrite handleWrite Rpc.NewDispatcher))))))).

(** ** Inbound frames *)

Record sysFrame := MkSys { Sys : string; Role : string }.

Definition sys_fields : list (string * decoder sysFrame) :=
  [("sys", field_string (λ s x, MkSys x (Role s)));
   ("role", field_string (λ s x, MkSys (Sys s) x))].

Definition decode_sys (raw : string) : sysFrame * bool :=
  Unmarshal (struct_of sys_fields) raw (MkSys "" "").

Definition send (reply : string) (n : MemoryNode) : MemoryNode :=
  MkNode (world n) (Grace n) (grace n) (graceEnd n) (firing n) (sent n ++ [reply]).

Definition onData (raw : string) (n : MemoryNode) : MemoryNode :=
  let (sys, ok) := decode_sys raw in
  if ok && bool_decide (Sys sys ≠ "") then
    if bool_decide (Role sys = "vault" ∧ Sys sys = "peer_offline")
    then startGrace now n else n
  else
    let n := cancelGrace n in
    match Rpc.Dispatch strconv_Quote handlers raw n with
    | (Some reply, n) => send reply n
    | (None, n) => n
    end.

End Node.

End Node.
