(* ===== verification/ControlAPI.v ===== *)
(** * internal/daemon: the handlers of the control API

    Each handler takes a request to a response and the daemon's next state. *)
From S2P Require Import Prelude GoStrings GoPath GoJson GoFloat GoJsonPrint GoTime GoHttp.
From S2P Require Import Config MemFS MemFSFacts Node Mounter Repo Daemon.
Import GoStr GoPath GoJson GoFloat JsonPrint GoTime GoHttp Daemon.

Module ControlAPI.

(** ** Go's rendering of a file mode *)

Definition mode_letters : list string :=
  ["d"; "a"; "l"; "T"; "L"; "D"; "p"; "S"; "u"; "g"; "c"; "t"; "?"].
Definition perm_letters : list string := ["r"; "w"; "x"; "r"; "w"; "x"; "r"; "w"; "x"].

(** [FileMode.String]. *)
Definition mode_string (m : Z) : string :=
  let high := imap (λ i c, if Z.testbit m (31 - Z.of_nat i) then c else "") mode_letters in
  let high := Join high "" in
  let low := imap (λ i c, if Z.testbit m (8 - Z.of_nat i) then c else "-") perm_letters in
  (if decide (high = "") then "-" else high) +:+ Join low "".

(** ** Responses *)

(** [writeJSON]: the encoder ends the value with a newline. *)
Definition writeJSON (st : Z) (body : json) : Response :=
  MkResponse st "application/json" (print body +:+ str1 newline).

Definition error_body (e : string) : json := JObj [("error", JStr e)].
Definition ok_body : json := JObj [("ok", JBool true)].
Definition unauthorized : Response := writeJSON StatusUnauthorized (error_body "unauthorized").

Definition fail (st : Z) (e : string) : Response := writeJSON st (error_body e).
Definition fs_fail (st : Z) (e : MemFS.error) : Response := fail st (Node.fs_error e).

(** ** Recursive removal *)

(** The calls of one removal read the clocks of [t], numbered from [i]; the result
    is the next number. *)
Definition removal : Type := option (result MemFS.error nat * MemFS.MemFS).

(** The loop over the children of [p]. *)
Fixpoint removeChildren (rec : nat → string → MemFS.MemFS → removal) (p : string)
    (l : list string) (i : nat) (m : MemFS.MemFS) : removal :=
  match l with
  | [] => Some (Ok i, m)
  | c :: l =>
      match rec i (Join2 p c) m with
      | Some (Ok i, m) => removeChildren rec p l i m
      | r => r
      end
  end.

Definition removeOne (t : nat → MemFS.clock) (i : nat) (p : string) (m : MemFS.MemFS)
  : removal :=
  match MemFS.Remove (t i) m p with
  | (Ok _, m) => Some (Ok (S i), m)
  | (Err e, m) => Some (Err e, m)
  end.

(** Every call goes one level down, so fuel above the height of the tree
    is enough. *)
Fixpoint removeRecursive (t : nat → MemFS.clock) (fuel i : nat) (p : string)
    (m : MemFS.MemFS) : removal :=
  match fuel with
  | O => None
  | S fuel =>
      match MemFS.Stat m p with
      | Err e => Some (Err e, m)
      | Ok n =>
          if negb (MemFS.IsDir n) then removeOne t i p m
          else match MemFS.List m p with
          | Err e => Some (Err e, m)
          | Ok children =>
              match removeChildren (removeRecursive t fuel) p children i m with
              | Some (Ok i, m) => removeOne t i p m
              | r => r
              end
          end
      end
  end.

Section ControlAPI.
Context {G : Type} `{Repo.GoGit G}.
Context (hmac_hex : string → bytes → string) (decode_error : string → string).
Context (env : Env).

Definition handler : Type := Request → Daemon (G:=G) → Response * Daemon (G:=G).

(** ** Authentication *)

Definition auth (d : Daemon (G:=G)) (r : Request) : bool :=
  let tok := header r "X-Valet-Token" in
  let tok := if decide (tok = "") then query r "token" else tok in
  if bool_decide (tok = "") || bool_decide (Config.ControlToken (cfg d) = "") then false
  else bool_decide (tok = Config.ControlToken (cfg d)).

(** ** Lifecycle *)

Definition handleMount : handler := λ r d,
  if negb (auth d r) then (unauthorized, d)
  else
    (writeJSON StatusOK (JObj [("mounted", JBool true);
                               ("mountpoint", JStr (Config.MountPoint (cfg d)))]), Mount d).

Definition handleUnmount : handler := λ r d,
  if negb (auth d r) then (unauthorized, d)
  else match Unmount env d with
  | (Some e, d) => (fail StatusInternalServerError e, d)
  | (None, d) => (writeJSON StatusOK (JObj [("mounted", JBool false)]), d)
  end.

Definition handleSync : handler := λ r d,
  if negb (auth d r) then (unauthorized, d)
  else match Sync hmac_hex env d with
  | (Err e, d) => (fail StatusInternalServerError e, d)
  | (Ok hash, d) => (writeJSON StatusOK (JObj [("commit", JStr hash)]), d)
  end.

Definition grace_fields (d : Daemon (G:=G)) : gmap string json :=
  match graceState d with
  | None => ∅
  | Some fn =>
      let '(cfgGrace, armed, remaining) := fn (now env) in
      let res := <["grace_seconds" := JInt (in_seconds cfgGrace)]>
                 {["grace_armed" := JBool armed]} in
      if armed : bool then <["grace_remaining_seconds" := JInt (in_seconds remaining)]> res else res
  end.

Definition status_body (d : Daemon (G:=G)) : gmap string json :=
  let fuseActive := FuseActive d in
  grace_fields d ∪ list_to_map
    [("mounted", JBool (mounted d));
     ("mountpoint", JStr (Config.MountPoint (cfg d)));
     ("backend", JStr (Backend d));
     ("serving", JBool (fuseActive || webdavOn d));
     ("fuse", JObj [("active", JBool fuseActive); ("error", JStr (fuseErr d));
                    ("mounted", JBool fuseActive)]);
     ("webdav", JObj [("addr", JStr (WebdavAddr d));
                      ("enabled", JBool (negb (Config.WebdavDisabled (cfg d))));
                      ("serving", JBool (webdavOn d))]);
     ("used", JInt (MemFS.Used (fs d)));
     ("quota", JInt (Config.QuotaBytes (cfg d)));
     ("version", JInt (MemFS.Version (fs d)))].

Definition handleStatus : handler := λ r d,
  if negb (auth d r) then (unauthorized, d)
  else (writeJSON StatusOK (jmap (status_body d)), d).

Definition handleShutdown : handler := λ r d,
  if negb (auth d r) then (unauthorized, d)
  else if decide (Method r ≠ "POST") then (status_only StatusMethodNotAllowed, d)
  else (writeJSON StatusOK ok_body, set_pending (pending d ++ [TShutdown]) d).

(** ** Files *)

(** The size a listing shows: of a file that can be read. *)
Definition size_of (f : MemFS.MemFS) (p : string) (n : MemFS.Node) : Z :=
  if MemFS.IsDir n then 0%Z
  else match MemFS.Read f p with Ok data => len data | Err _ => 0%Z end.

Definition meta_json (f : MemFS.MemFS) (p name : string) (n : MemFS.Node) : list (string * json) :=
  [("name", JStr name); ("is_dir", JBool (MemFS.IsDir n));
   ("mode", JStr (mode_string (MemFS.Mode n))); ("size", JInt (size_of f p n));
   ("mod_time", JStr (RFC3339 (MemFS.ModTime n)))].

Definition entry_json (f : MemFS.MemFS) (p n : string) : option json :=
  match MemFS.Stat f (Join2 p n) with
  | Ok node => Some (JObj (meta_json f (Join2 p n) n node))
  | Err _ => None
  end.

Definition getMeta (f : MemFS.MemFS) (p : string) : Response :=
  match MemFS.Stat f p with
  | Err e => fs_fail StatusNotFound e
  | Ok n => writeJSON StatusOK (jmap (list_to_map (meta_json f p (MemFS.Name n) n)))
  end.

Definition getList (f : MemFS.MemFS) (p : string) (withAll withDetail : bool) : Response :=
  match MemFS.List f p with
  | Err e => fs_fail StatusNotFound e
  | Ok names =>
      let names := if withAll then names else filter (λ n, HasPrefix n "." = false) names in
      if withDetail
      then writeJSON StatusOK (JObj [("items", JArr (omap (entry_json f p) names))])
      else writeJSON StatusOK (JObj [("items", JArr (JStr <$> names))])
  end.

Definition getBody (f : MemFS.MemFS) (p : string) : Response :=
  match MemFS.Read f p with
  | Err e => fs_fail StatusNotFound e
  | Ok data => MkResponse StatusOK "application/octet-stream" (to_string data)
  end.

Record filesBody := MkFilesBody { Content : string; From : string }.

Definition files_fields : list (string * decoder filesBody) :=
  [("content", field_string (λ s x, MkFilesBody x (From s)));
   ("from", field_string (λ s x, MkFilesBody (Content s) x))].

(** Create the parent, then write; the parent's failure is ignored. *)
Definition write_file (p : string) (data : bytes) (f : MemFS.MemFS)
  : Response * MemFS.MemFS :=
  let dir := Dir p in
  let f := if bool_decide (dir ≠ "" ∧ dir ≠ "/")
           then (MemFS.MkdirAll (clock env 0) f dir 493).2 else f in
  match MemFS.Write (clock env 1) f p data 384 with
  | (Err e, f) => (fs_fail StatusInternalServerError e, f)
  | (Ok _, f) => (writeJSON StatusOK ok_body, f)
  end.

Definition postFile (r : Request) (p : string) (f : MemFS.MemFS) : Response * MemFS.MemFS :=
  let (body, ok) := Decode_stream (struct_of files_fields) (Body r) (MkFilesBody "" "") in
  if negb ok then (fail StatusBadRequest (decode_error (Body r)), f)
  else if decide (From body ≠ "") then
    match MemFS.Read f (From body) with
    | Err e => (fs_fail StatusNotFound e, f)
    | Ok data => write_file p data f
    end
  else write_file p (of_string (Content body)) f.

Definition deleteFile (r : Request) (p : string) (f : MemFS.MemFS) : Response * MemFS.MemFS :=
  let res :=
    if decide (query r "recursive" = "1")
    then match removeRecursive (clock env) (S (FSFacts.height (MemFS.root f))) 0 p f with
         | Some (Ok _, f) => (Ok tt, f)
         | Some (Err e, f) => (Err e, f)
         | None => (Err MemFS.ErrInvalidPath, f)
         end
    else MemFS.Remove (clock env 0) f p in
  match res with
  | (Err e, f) => (fs_fail StatusNotFound e, f)
  | (Ok _, f) => (writeJSON StatusOK ok_body, f)
  end.

Definition handleFiles : handler := λ r d,
  if negb (auth d r) then (unauthorized, d)
  else
    let p := query r "path" in
    if decide (p = "") then (fail StatusBadRequest "missing path", d)
    else if decide (Method r = "GET") then
      (if decide (query r "meta" = "1") then getMeta (fs d) p
       else if decide (query r "list" = "1")
       then getList (fs d) p (bool_decide (query r "all" = "1"))
              (bool_decide (query r "detail" = "1"))
       else getBody (fs d) p, d)
    else if decide (Method r = "POST" ∨ Method r = "PUT") then
      let (resp, f) := postFile r p (fs d) in (resp, set_fs f d)
    else if decide (Method r = "DELETE") then
      let (resp, f) := deleteFile r p (fs d) in (resp, set_fs f d)
    else (status_only StatusMethodNotAllowed, d).

Definition handleMkdir : handler := λ r d,
  if negb (auth d r) then (unauthorized, d)
  else if decide (Method r ≠ "POST") then (status_only StatusMethodNotAllowed, d)
  else
    let p := query r "path" in
    if decide (p = "") then (fail StatusBadRequest "missing path", d)
    else
      let (res, f) := if decide (query r "parents" = "1")
                      then MemFS.MkdirAll (clock env 0) (fs d) p 493
                      else MemFS.Mkdir (clock env 0) (fs d) p 493 in
      match res with
      | Err e => (fs_fail StatusBadRequest e, set_fs f d)
      | Ok _ => (writeJSON StatusOK ok_body, set_fs f d)
      end.

Definition handleRmdir : handler := λ r d,
  if negb (auth d r) then (unauthorized, d)
  else if decide (Method r ≠ "POST") then (status_only StatusMethodNotAllowed, d)
  else
    let p := query r "path" in
    if decide (p = "") then (fail StatusBadRequest "missing path", d)
    else match MemFS.Remove (clock env 0) (fs d) p with
    | (Err e, f) => (fs_fail StatusBadRequest e, set_fs f d)
    | (Ok _, f) => (writeJSON StatusOK ok_body, set_fs f d)
    end.

(** ** Routing *)

Definition routes : list (string * handler) :=
  [("/mount", handleMount); ("/unmount", handleUnmount); ("/sync", handleSync);
   ("/status", handleStatus); ("/files", handleFiles); ("/mkdir", handleMkdir);
   ("/rmdir", handleRmdir); ("/shutdown", handleShutdown)].

(** The multiplexer of [StartDevAPI]. *)
Definition serve : handler := λ r d,
  match find (λ h, bool_decide (h.1 = Path r)) routes with
  | Some h => h.2 r d
  | None => (not_found, d)
  end.

End ControlAPI.
End ControlAPI.
