(* ===== verification/Serve.v ===== *)
(** * cmd/valetfs: how [serve] wires the daemon to the control node

    The daemon is the host of the control node ([NodeHost]), and everything that
    happens to it is an event: a request, a hook of the node, or a goroutine that
    gets to run. *)
From S2P Require Import Prelude GoStrings GoHttp GoTime Config MemFS Node Mounter Repo.
From S2P Require Import Daemon ControlAPI.
Import GoHttp GoTime Daemon.

Module Serve.

Section Serve.
Context {G : Type} `{Repo.GoGit G}.
Context (hmac_hex : string → bytes → string) (decode_error : string → string).

Local Abbreviation Daemon := (Daemon.Daemon (G:=G)).

(** The hooks [serve] gives to [node.New]. *)
Definition serve_info (d : Daemon) : Node.ServeInfo :=
  Node.MkServeInfo (Backend d) (FuseActive d) (fuseErr d) (webdavOn d) (WebdavAddr d).

Definition daemon_host (env : Env) : Node.NodeHost Daemon := {|
  Node.host_fs := fs;
  Node.set_host_fs := set_fs;
  Node.Lock := Some (lock env);
  Node.Unmount := Some (λ d, (Unmount env d).2);
  Node.Remount := Some Mount;
  Node.Mounted := Some mounted;
  Node.Serving := Some serve_info;
|}.

(** [node.New] over the daemon, with the window of the configuration. *)
Definition new_node (env : Env) (d : Daemon) : Node.MemoryNode (W:=Daemon) :=
  let _ := daemon_host env in
  Node.New d (seconds (Config.GraceSeconds (cfg d))).

(** The end of [reconnect]: the control plane is lost. *)
Definition self_lock (env : Env) (d : Daemon) : Daemon := lock env d.

(** ** Events *)

Inductive event :=
  | ERequest (r : Request)             (* the control API *)
  | EMount | EUnmount | ELock          (* the hooks of the node *)
  | EFs (f : MemFS.MemFS)              (* a frontend or the node used the file system *)
  | EWebdav | EReady | EReadyTimeout | EMounter | EShutdown
  | EStart (ln : result string string)
  | EGrace (fn : option (Z → Z * bool * Z)).

(** Run a goroutine if it has been started. *)
Definition run_task (t : task) (k : Daemon → Daemon) (d : Daemon) : Daemon :=
  if decide (t ∈ pending d) then k (set_pending (remove_task t (pending d)) d) else d.

Definition run (env : Env) (e : event) (d : Daemon) : Daemon :=
  match e with
  | ERequest r => (ControlAPI.serve hmac_hex decode_error env r d).2
  | EMount => Mount d
  | EUnmount => (Unmount env d).2
  | ELock => lock env d
  | EFs f => set_fs f d
  | EWebdav => run_task TWebdav (runWebdav env) d
  | EReady =>
      match pollReady env d with
      | Some _ => run_task TReady (λ d, default d (pollReady env d)) d
      | None => d
      end
  | EReadyTimeout => run_task TReady id d
  | EMounter => run_task TMounter (runMounter env) d
  | EShutdown => run_task TShutdown (runShutdown env) d
  | EStart ln => (StartDevAPI env ln d).2
  | EGrace fn => SetGraceReporter fn d
  end.

(** What a daemon can become, whatever the order of events. *)
Inductive reachable : Daemon → Prop :=
  | reach_new env fuse_ok existing c d :
      New env fuse_ok existing c = Ok d → reachable d
  | reach_run env e d : reachable d → reachable (run env e d).

End Serve.
End Serve.
