(* ===== verification/DaemonFacts.v ===== *)
(** * The daemon: invariants of everything it can become *)
From S2P Require Import Prelude GoStrings GoPath MemFS MemFSFacts MemFSSpec MemFSRefine MemFSProps MemFSCases ControlAPI GoHttp GoTime Config Node.
From S2P Require Import Mounter Repo Daemon Serve.
Import GoStr GoPath MemFS FSFacts FSInv FSSpec FSRefine FSReach FSPaths FSCases ControlAPI.

Module ControlFacts.

(** ** The recursion *)

(** Everything from [parts] down is gone, but for the root itself. *)
Definition cut_view (parts : list string) (v : list string → option entry)
  : list string → option entry :=
  λ q, if decide (parts `prefix_of` q ∧ q ≠ []) then None else v q.

(** What a removal of [p] from [m] returns and leaves. *)
Definition removed (m : MemFS) (parts : list string) (r : removal) : Prop :=
  ∃ res m', r = Some (res, m') ∧ reach m' ∧
    (if decide (parts = []) then res = Err ErrInvalidPath else is_ok res = true) ∧
    ∀ q, view m' q = cut_view parts (view m) q.

Definition bounded (m : MemFS) (parts : list string) (fuel : nat) : Prop :=
  ∀ q, is_Some (view m (parts ++ q)) → length q < fuel.

Definition rec_spec (fuel : nat) (rec : nat → string → MemFS → removal) : Prop :=
  ∀ i p m parts, reach m → normalize p = Ok parts → is_Some (view m parts) →
    bounded m parts fuel → removed m parts (rec i p m).

Lemma removeChildren_spec fuel rec p parts : rec_spec fuel rec → normalize p = Ok parts →
  ∀ l i m, reach m → NoDup l → (∀ c, c ∈ l → is_Some (view m (parts ++ [c]))) →
  bounded m parts (S fuel) →
  ∃ i' m', removeChildren rec p l i m = Some (Ok i', m') ∧ reach m' ∧
    (∀ q c, c ∈ l → (parts ++ [c]) `prefix_of` q → view m' q = None) ∧
    (∀ q, (∀ c, c ∈ l → ¬ (parts ++ [c]) `prefix_of` q) → view m' q = view m q).
Proof.
  intros Hrec Hp. induction l as [|c l IH]; intros i m Hr Hnd Hl Hb.
  { exists i, m. split_and!; [done|done|by intros ? ? ?%elem_of_nil|done]. }
  apply NoDup_cons in Hnd as [Hc Hnd].
  assert (valid_name c) as Hvc.
  { eapply view_below; [by apply reach_inv|]. apply Hl. by left. }
  destruct (Hrec i (Join2 p c) m (parts ++ [c])) as (res & m1 & Hx & Hr1 & Hok & Hv);
    [done|by apply normalize_Join|apply Hl; by left| |].
  { intros q Hq. rewrite <- (assoc_L (++)) in Hq. apply Hb in Hq. simpl in Hq. lia. }
  rewrite decide_False in Hok by (by destruct parts). simpl. rewrite Hx.
  destruct res as [i1|]; [|done].
  assert (∀ q, ¬ (parts ++ [c]) `prefix_of` q → view m1 q = view m q) as Hsame.
  { intros q Hq. rewrite Hv. unfold cut_view. by rewrite decide_False by naive_solver. }
  assert (∀ q, (parts ++ [c]) `prefix_of` q → view m1 q = None) as Hgone.
  { intros q Hq. rewrite Hv. unfold cut_view. rewrite decide_True; [done|].
    split; [done|]. intros ->. apply prefix_nil_inv in Hq. by destruct parts. }
  destruct (IH i1 m1 Hr1 Hnd) as (i' & m' & Hx' & Hr' & Hin & Hout).
  - intros c' Hc'. rewrite Hsame; [apply Hl; by right|].
    intros [q Hq]. rewrite <- (assoc_L (++)) in Hq. apply app_inv_head in Hq. by simplify_eq/=.
  - intros q [e He]. destruct (decide ((parts ++ [c]) `prefix_of` (parts ++ q))) as [Hq|Hq].
    + by rewrite (Hgone _ Hq) in He.
    + apply Hb. rewrite <- (Hsame _ Hq). by eexists.
  - exists i', m'. split_and!; [done|done| |].
    + intros q c' Hc' Hq. apply elem_of_cons in Hc' as [->|Hc']; [|by eapply Hin].
      destruct (decide (Exists (λ c', (parts ++ [c']) `prefix_of` q) l)) as [Hex|Hno].
      { apply Exists_exists in Hex as (c' & ? & ?). by eapply Hin. }
      rewrite Hout; [by apply Hgone|]. intros c' H1 H2. apply Hno, Exists_exists. eauto.
    + intros q Hq. rewrite Hout; [apply Hsame, Hq; by left|].
      intros c' Hc'. apply Hq. by right.
Qed.

(** The last step: the directory emptied, or the file, is removed itself. *)
Lemma removeOne_spec t i p m m1 parts : normalize p = Ok parts → reach m1 →
  is_Some (view m parts) →
  (∀ q, q ≠ [] → view m1 (parts ++ q) = None) →
  (∀ q, (∀ k, ¬ (parts ++ [k]) `prefix_of` q) → view m1 q = view m q) →
  removed m parts (removeOne t i p m1).
Proof.
  intros Hp Hr1 Hs Hnone Hout. unfold removed, removeOne.
  assert (∀ q, q ≠ parts → parts `prefix_of` q → view m1 q = None) as Hcut.
  { intros q Hne [q' ->]. apply Hnone. intros ->. apply Hne. by rewrite (right_id_L [] (++)). }
  assert (∀ q, ¬ parts `prefix_of` q → view m1 q = view m q) as Hkeep.
  { intros q Hq. apply Hout. intros k Hk. apply Hq. etrans; [|exact Hk]. by eexists. }
  assert (view m1 parts = view m parts) as Hself.
  { apply Hout. intros k [q Hq]. rewrite <- (assoc_L (++)) in Hq.
    rewrite <- (right_id_L [] (++) parts) in Hq at 1. by apply app_inv_head in Hq. }
  destruct (decide (parts = [])) as [->|Hne].
  - rewrite Remove_root by done. eexists _, _. split_and!; [done..|]. intros q.
    unfold cut_view. destruct (decide (q = [])) as [->|Hq].
    + rewrite decide_False by naive_solver. exact Hself.
    + rewrite decide_True by (by split; [apply prefix_nil|]). by apply (Hnone q).
  - destruct (Remove_leaf (t i) m1 p parts Hr1 Hp Hne) as (m' & Hx & Hr' & Hv).
    + by rewrite Hself.
    + intros k. by apply Hnone.
    + rewrite Hx. eexists _, _. split_and!; [done..|]. intros q. rewrite Hv. unfold cut_view.
      destruct (decide (q = parts)) as [->|Hq].
      { by rewrite decide_True. }
      destruct (decide (parts `prefix_of` q)) as [Hpre|Hpre].
      * rewrite decide_True; [by apply Hcut|]. split; [done|]. intros ->.
        by apply prefix_nil_inv in Hpre.
      * rewrite decide_False by naive_solver. by apply Hkeep.
Qed.

Lemma removeRecursive_spec t fuel : rec_spec fuel (removeRecursive t fuel).
Proof.
  induction fuel as [|fuel IH]; intros i p m parts Hr Hp Hs Hb.
  { specialize (Hb []). rewrite (right_id_L [] (++)) in Hb. specialize (Hb Hs). lia. }
  pose proof (reach_inv _ Hr) as Hm. cbn [removeRecursive].
  pose proof (Stat_view m p parts Hm Hp) as Hst.
  destruct (Stat m p) as [n|e]; [|by rewrite Hst in Hs; destruct Hs].
  destruct Hst as [[Hv Hd]|(b & Hv & Hd)]; rewrite Hd; cbn [negb].
  - pose proof (List_view m p Hm) as Hl. destruct (MemFS.List m p) as [l|e]; [|by apply Hl in Hp].
    destruct Hl as (parts' & Hp' & _ & _ & Hnd & Hl). rewrite Hp in Hp'. injection Hp' as <-.
    destruct (removeChildren_spec fuel _ p parts IH Hp l i m Hr Hnd) as (i' & m1 & Hx & Hr1 & Hin & Hout);
      [intros c Hc; by apply Hl|done|].
    rewrite Hx. apply removeOne_spec; [done..| |].
    + intros [|k q] Hq; [done|]. destruct (decide (k ∈ l)) as [Hk|Hk].
      * apply (Hin _ k Hk). exists q. by rewrite <- (assoc_L (++)).
      * rewrite Hout.
        -- rewrite cons_middle, (assoc_L (++)). apply view_down, eq_None_not_Some.
           intros Hsome. by apply Hk, Hl.
        -- intros c Hc [q' Hq']. rewrite <- (assoc_L (++)) in Hq'. apply app_inv_head in Hq'.
           by simplify_eq/=.
    + intros q Hq. apply Hout. intros c _. apply Hq.
  - apply removeOne_spec; [done..| |done]. intros q Hq. by eapply view_file_below.
Qed.

Lemma at_path_height n q x : at_path n q = Some x → length q < height n.
Proof.
  revert n. induction q as [|k q IH]; intros n Hx; simpl in *.
  - destruct n. simpl. lia.
  - apply bind_Some in Hx as (c & Hc & Hx). apply height_child in Hc. specialize (IH c Hx). lia.
Qed.

(** The height of the tree bounds the recursion. *)
Lemma bounded_height m parts : bounded m parts (S (height (root m))).
Proof.
  intros q [e He]. unfold view, view_node in He. destruct (at_path _ _) as [x|] eqn:Hx; [|done].
  apply at_path_height in Hx. rewrite length_app in Hx. lia.
Qed.

End ControlFacts.

Import GoHttp Daemon ControlAPI Serve.

Module DaemonFacts.

Section facts.
Context {G : Type} `{Repo.GoGit G}.
Context (hmac_hex : string → bytes → string) (decode_error : string → string).

Local Abbreviation Daemon := (Daemon.Daemon (G:=G)).

(** ** Authentication comes first *)

Lemma handlers_refuse env (r : Request) (d : Daemon) k h :
  (k, h) ∈ routes hmac_hex decode_error env → auth d r = false → h r d = (unauthorized, d).
Proof.
  intros Hh Ha. unfold routes in Hh.
  repeat (apply elem_of_cons in Hh as [Hh|Hh];
    [injection Hh as -> ->; unfold handleMount, handleUnmount, handleSync, handleStatus,
       handleFiles, handleMkdir, handleRmdir, handleShutdown; by rewrite Ha|]).
  by apply elem_of_nil in Hh.
Qed.

(** ** What configures the servers never changes *)

(** A WebDAV server that is or was up was allowed to be. *)
Definition gated (w : Webdav.WebdavMounter) (c : Config.Config) : Prop :=
  Webdav.token w = Config.ControlToken c ∧
  Webdav.remote w = Config.WebdavAllowRemote c ∧
  (Webdav.live w ≠ [] → Webdav.token w ≠ "" ∧
     (Webdav.remote w = true ∨ Webdav.isLoopbackAddr (Webdav.addr w) = true)).

Definition mounter_gated (m : Mounter.Mounter) (c : Config.Config) : Prop :=
  match m with Mounter.FallbackM w => gated w c | _ => True end.

Definition ok (d : Daemon) : Prop :=
  gated (webdav d) (cfg d) ∧ mounter_gated (mounter d) (cfg d).

Lemma gated_mount listen w c : gated w c → gated (Webdav.Mount listen w).2 c.
Proof.
  intros (Ht & Hr & Hl). unfold Webdav.Mount. case_decide as Htok; [done|].
  destruct (negb (Webdav.remote w) && negb (Webdav.isLoopbackAddr (Webdav.addr w))) eqn:He;
    [done|]. destruct listen as [a|]; [|done]. split_and!; [done..|]. intros _. simpl.
  split; [done|]. destruct (Webdav.remote w), (Webdav.isLoopbackAddr _); auto; done.
Qed.

Lemma gated_unmount sh w c : gated w c → gated (Webdav.Unmount sh w).2 c.
Proof.
  intros (Ht & Hr & Hl). unfold Webdav.Unmount. destruct (Webdav.srv w); [|done].
  split_and!; [done..|]. simpl. intros Hne. apply Hl. intros Hnil. by rewrite Hnil in Hne.
Qed.

Lemma mounter_gated_mount o p m c : mounter_gated m c → mounter_gated (Mounter.Mount o p m).2 c.
Proof.
  destruct m as [h|w|]; simpl; [by repeat case_match| |done]. intros Hg.
  apply (gated_mount (Mounter.listen o)) in Hg. by destruct (Webdav.Mount _ w).
Qed.

Lemma mounter_gated_unmount o m c : mounter_gated m c → mounter_gated (Mounter.Unmount o m).2 c.
Proof.
  destruct m as [[h|]|w|]; simpl; [by repeat case_match|done| |done]. intros Hg.
  apply (gated_unmount (Mounter.shutdown o)) in Hg. by destruct (Webdav.Unmount _ w).
Qed.

(** The parts an operation leaves alone: it keeps the configuration, and [ok]
    follows from the mounters. *)
Definition same_servers (d d' : Daemon) : Prop :=
  cfg d' = cfg d ∧ webdav d' = webdav d ∧ mounter d' = mounter d.

Lemma ok_same d d' : same_servers d d' → ok d → ok d'.
Proof. intros (Hc & Hw & Hm) [H1 H2]. by split; rewrite Hc, ?Hw, ?Hm. Qed.

Lemma ok_Unmount env d : ok d → ok (Unmount env d).2 ∧ cfg (Unmount env d).2 = cfg d.
Proof.
  intros [H1 H2]. unfold Unmount. destruct (mounted d); simpl; [|done].
  pose proof (mounter_gated_unmount (mount_os env) _ _ H2) as Hm.
  destruct (Mounter.Unmount (mount_os env) (mounter d)) as [[e|] m]; [done|]. simpl.
  destruct (Config.WebdavDisabled (cfg d)); [done|].
  pose proof (gated_unmount (Mounter.shutdown (webdav_os env)) _ _ H1) as Hw.
  by destruct (Webdav.Unmount _ (webdav d)).
Qed.

Lemma ok_lock env d : ok d → ok (lock env d).
Proof.
  intros Hd. apply (ok_Unmount env) in Hd as [Hd _]. revert Hd. apply ok_same.
  unfold lock, WipeHistory, Wipe. by destruct (Repo.Wipe _ _ _).
Qed.

Lemma ok_runWebdav env d : ok d → ok (runWebdav env d).
Proof.
  intros [H1 H2]. unfold runWebdav.
  pose proof (gated_mount (Mounter.listen (webdav_os env)) _ _ H1) as Hw.
  destruct (Webdav.Mount _ (webdav d)) as [[] w]; by split.
Qed.

Lemma ok_runMounter env d : ok d → ok (runMounter env d).
Proof.
  intros [H1 H2]. unfold runMounter.
  pose proof (mounter_gated_mount (mount_os env) (Config.MountPoint (cfg d)) _ _ H2) as Hm.
  destruct (Mounter.Mount _ _ (mounter d)) as [[] m]; by split.
Qed.

Lemma ok_pollReady env d d' : pollReady env d = Some d' → ok d → ok d'.
Proof.
  unfold pollReady, writeRuntimeState. intros Hp. apply ok_same. by repeat case_match; simplify_eq.
Qed.

Lemma ok_task t k d : (∀ d, ok d → ok (k d)) → ok d → ok (run_task t k d).
Proof. intros Hk Hd. unfold run_task. case_decide; [by apply Hk|done]. Qed.

Lemma ok_Mount d : ok d → ok (Mount d).
Proof. apply ok_same. unfold Mount. by case_match. Qed.

Lemma ok_serve env r d : ok d → ok (ControlAPI.serve hmac_hex decode_error env r d).2.
Proof.
  intros Hd. unfold ControlAPI.serve.
  destruct (find _ (routes hmac_hex decode_error env)) as [[k h]|] eqn:Hf; [|done].
  apply find_some in Hf as [Hin _]. apply list_elem_of_In in Hin. cbn [snd].
  unfold routes in Hin.
  repeat (apply elem_of_cons in Hin as [Hin|Hin]; [injection Hin as -> ->|]);
    [..|by apply elem_of_nil in Hin].
  - unfold handleMount. case_match; [done|]. by apply ok_Mount.
  - unfold handleUnmount. case_match; [done|]. apply (ok_Unmount env) in Hd as [Hd _].
    by destruct (Unmount env d) as [[] ?].
  - unfold handleSync, Sync. case_match; [done|]. revert Hd. apply ok_same.
    destruct (Repo.Commit _ _ _ _ _) as [[] ?]; done.
  - unfold handleStatus. by case_match.
  - unfold handleFiles. revert Hd. apply ok_same. repeat (case_match; try done).
  - unfold handleMkdir. revert Hd. apply ok_same. repeat (case_match; try done).
  - unfold handleRmdir. revert Hd. apply ok_same. repeat (case_match; try done).
  - unfold handleShutdown. revert Hd. apply ok_same. repeat (case_match; try done).
Qed.

Lemma ok_run env e d : ok d → ok (run hmac_hex decode_error env e d).
Proof.
  intros Hd. destruct e; cbn [run].
  - by apply ok_serve.
  - by apply ok_Mount.
  - by apply ok_Unmount.
  - by apply ok_lock.
  - done.
  - apply ok_task; [apply ok_runWebdav|done].
  - case_match; [|done]. apply ok_task; [|done]. intros d' Hd'.
    destruct (pollReady env d') as [d2|] eqn:Hp; [by eapply ok_pollReady|done].
  - by apply ok_task.
  - apply ok_task; [apply ok_runMounter|done].
  - apply ok_task; [|done]. intros d' Hd'. unfold runShutdown, Shutdown.
    set (d1 := if devSrv d' then _ else d').
    assert (ok d1) as H1 by (subst d1; destruct (devSrv d'); [by apply (ok_same d')|done]).
    apply (ok_lock env) in H1. revert H1. by apply ok_same.
  - revert Hd. apply ok_same. unfold StartDevAPI, writeRuntimeState.
    destruct ln; [|done]. by destruct (Config.RecordRuntimeState _), (runtime_os env).
  - done.
Qed.

Lemma ok_reachable d : reachable hmac_hex decode_error d → ok d.
Proof.
  induction 1 as [env fuse_ok existing c d Hn|env e d _ IH]; [|by apply ok_run].
  unfold New in Hn. destruct (Repo.Open _ _ _); [|discriminate]. injection Hn as <-.
  assert (∀ a, gated (Webdav.NewWebdavMounter a (Config.ControlToken c)
    (Config.WebdavAllowRemote c)) c) as Hg by (intros ad; unfold gated; by split_and!).
  split; [apply Hg|]. by destruct fuse_ok; [|apply Hg].
Qed.

End facts.

End DaemonFacts.
