(* ===== verification/NodeTheorems.v ===== *)
(** * What the control node guarantees, and what it does not

    Presence frames, requests and the grace timer; the effect of WRITE and PULL. *)
From S2P Require Import Prelude GoStrings GoPath GoJson GoFloat GoJsonPrint GoBase64 GoTime MemFS MemFSFacts MemFSSpec MemFSRefine MemFSProps Rpc.
From S2P Require Import Node.
Import GoStr GoPath GoJson GoFloat JsonPrint GoTime Node.

Module NodeFacts.

(** ** Frames *)

(** The frame is taken for a presence frame. *)
Definition presence (raw : string) : bool :=
  let (sys, ok) := decode_sys raw in ok && bool_decide (Sys sys ≠ "").

(** It reports the vault gone. *)
Definition offline (raw : string) : bool :=
  presence raw && bool_decide (Role (decode_sys raw).1 = "vault" ∧
                               Sys (decode_sys raw).1 = "peer_offline").

(** What the runtime does on its own. *)
Inductive tick := TExpire (now : Z) | TCallback.

#[export] Instance tick_eq_dec : EqDecision tick.
Proof. solve_decision. Defined.

Section facts.
Context {W : Type} `{NodeHost W}.
Context (Quote sha corrupt : string → string).

Local Abbreviation onData := (Node.onData Quote sha corrupt).
Local Abbreviation handlers := (Node.handlers sha corrupt).

Lemma onData_presence t now raw (n : MemoryNode (W:=W)) : presence raw = true →
  onData t now raw n = if offline raw then startGrace now n else n.
Proof.
  unfold offline. intros Hp. rewrite Hp. unfold presence in Hp. unfold Node.onData.
  destruct (decode_sys raw) as [sys ok]. rewrite Hp. done.
Qed.

Lemma onData_request t now raw (n : MemoryNode (W:=W)) : presence raw = false →
  onData t now raw n =
    match Rpc.Dispatch Quote (handlers t now) raw (cancelGrace n) with
    | (Some reply, n) => send reply n
    | (None, n) => n
    end.
Proof.
  intros Hp. unfold presence in Hp. unfold Node.onData.
  destruct (decode_sys raw) as [sys ok]. by rewrite Hp.
Qed.

(** A property of every handler, one per method. *)
Lemma handlers_ind t now (P : handler (W:=W) → Prop) :
  P (handleWrite corrupt t) → P (handleDelete t) → P handleLock → P handleUnmount →
  P (handleStatus now) → P (handleManifest sha) → P handlePull → P (handleSetConfig now) →
  ∀ k h, handlers t now !! k = Some h → P h.
Proof.
  intros ???????? k h. unfold Node.handlers, Rpc.Handle, Rpc.NewDispatcher. intros Hk.
  repeat (apply (lookup_insert_Some (M:=gmap string)) in Hk as [[_ <-]|[_ Hk]]; [done|]).
  by apply (lookup_empty_Some (M:=gmap string)) in Hk.
Qed.

(** No handler arms a timer that was not there, starts a callback or sends. *)
Lemma handler_frame t now k h m (n : MemoryNode (W:=W)) :
  handlers t now !! k = Some h → grace n = None →
  grace (h m n).2 = None ∧ firing (h m n).2 = firing n ∧ sent (h m n).2 = sent n.
Proof.
  intros Hk Hn. revert k h Hk. apply handlers_ind;
    unfold handleWrite, handleDelete, handleLock, handleUnmount, handleStatus,
      handleManifest, handlePull, handleSetConfig, SetGrace, GraceState; try done.
  - case_decide; [done|]. destruct (decodeContent _ _); [|done].
    by destruct (write_fs _ _ _ _) as [[]].
  - case_decide; [done|]. by destruct (MemFS.Remove _ _ _) as [[]].
  - by rewrite Hn.
  - destruct (_ !! _); [|done]. destruct (toFloat _); [|done]. by rewrite Hn.
Qed.

Lemma request_frame t now raw (n : MemoryNode (W:=W)) : presence raw = false →
  grace (onData t now raw n) = None ∧ firing (onData t now raw n) = firing n.
Proof.
  intros Hp. rewrite onData_request by done. unfold Rpc.Dispatch.
  destruct (Rpc.Decode raw) as [m|]; [|done]. case_decide; [|done].
  destruct (handlers t now !! _) as [h|] eqn:Hh; [|done].
  destruct (handler_frame t now _ h m (cancelGrace n) Hh eq_refl) as (H1 & H2 & _).
  destruct (h m (cancelGrace n)) as [[res|e] n']; done.
Qed.

(** ** Quiet periods: only the runtime acts *)

Definition tick_step (n : MemoryNode (W:=W)) (e : tick) : MemoryNode :=
  match e with TExpire now => expire now n | TCallback => callback n end.

Definition quiet_run (es : list tick) (n : MemoryNode (W:=W)) : MemoryNode :=
  fold_left tick_step es n.

(** Nothing is due before [D]. *)
Definition before (D : Z) (e : tick) : Prop :=
  match e with TExpire now => (now < D)%Z | TCallback => True end.

Lemma quiet_idle es (n : MemoryNode (W:=W)) :
  grace n = None → firing n = 0 → quiet_run es n = n.
Proof.
  intros Hg Hf. induction es as [|[now|] es IH]; [done|..]; simpl.
  - unfold expire. by rewrite Hg.
  - unfold callback. by rewrite Hf.
Qed.

Lemma quiet_spent es (n : MemoryNode (W:=W)) tm :
  grace n = Some tm → live tm = false → firing n = 0 → quiet_run es n = n.
Proof.
  intros Hg Hl Hf. induction es as [|[now|] es IH]; [done|..]; simpl.
  - unfold expire. by rewrite Hg, Hl.
  - unfold callback. by rewrite Hf.
Qed.

Lemma quiet_before es (n : MemoryNode (W:=W)) tm :
  grace n = Some tm → firing n = 0 → Forall (before (fires tm)) es → quiet_run es n = n.
Proof.
  intros Hg Hf Hes. induction Hes as [|[now|] es He Hes IH]; [done|..]; simpl.
  - unfold expire. rewrite Hg. simpl in He.
    destruct (Z.leb_spec (fires tm) now); [lia|]. by rewrite andb_false_r.
  - unfold callback. by rewrite Hf.
Qed.

(** Once the timer has fired, the first callback locks, and nothing more happens. *)
Lemma quiet_fired es (n : MemoryNode (W:=W)) tm :
  grace n = Some tm → live tm = false → firing n = 1 →
  world (quiet_run es n) = if decide (TCallback ∈ es) then call_hook Lock (world n) else world n.
Proof.
  intros Hg Hl Hf. induction es as [|[now|] es IH].
  - rewrite decide_False by (by intros ?%elem_of_nil). done.
  - change (quiet_run (TExpire now :: es) n) with (quiet_run es (expire now n)).
    unfold expire. rewrite Hg, Hl. simpl. rewrite IH.
    apply decide_ext. rewrite elem_of_cons. naive_solver.
  - rewrite decide_True by (by left).
    change (quiet_run (TCallback :: es) n) with (quiet_run es (callback n)).
    unfold callback. rewrite Hf. by erewrite quiet_spent.
Qed.

End facts.

(** ** Handlers *)

Import FSInv FSSpec FSReach.

Lemma write_fs_ok t p data f f' :
  inv f → fits f (len (of_string data)) → write_fs t p data f = (Ok tt, f') →
  MemFS.Read f' p = Ok (of_string data) ∧
  ∀ p' b, MemFS.normalize p' ≠ MemFS.normalize p →
    MemFS.Read f p' = Ok b → MemFS.Read f' p' = Ok b.
Proof.
  intros Hf Hfit. unfold write_fs.
  set (f1 := if bool_decide _ then _ else f).
  assert (inv f1 ∧ (FSFacts.total (MemFS.root f1) ≤ FSFacts.total (MemFS.root f))%Z ∧
    ∀ p' b, MemFS.Read f p' = Ok b → MemFS.Read f1 p' = Ok b) as (Hi & Ht & Hr).
  { subst f1. destruct (bool_decide _); [|by split_and!].
    assert (fits f (incoming (OMkdirAll (Dir p) 493))) as Hfit'.
    { unfold fits in *. simpl. pose proof (len_nonneg (of_string data)). lia. }
    split_and!.
    - apply (exec_refines_spec (t 0) f (OMkdirAll (Dir p) 493) Hf Hfit').
    - pose proof (exec_usage (t 0) f (OMkdirAll (Dir p) 493) Hf Hfit') as (_ & H' & _).
      simpl in H'. lia.
    - intros p' b. by apply mkdir_all_read. }
  assert (fits f1 (len (of_string data))) as Hfit1 by (unfold fits in *; lia).
  intros Hw. destruct (write_read _ _ _ _ _ _ Hi Hfit1 Hw) as [H1 H2].
  split; [done|]. intros p' b Hne Hb. apply H2; [done|]. by apply Hr.
Qed.

Lemma pull_fold_lookup f paths blobs k :
  fold_left (pull_one f) paths blobs !! k =
  if decide (k ≠ "" ∧ JStr k ∈ paths ∧ is_ok (MemFS.Read f k) = true)
  then match MemFS.Read f k with
       | Ok b => Some (JStr (Base64.Encode (to_string b)))
       | Err _ => None
       end
  else blobs !! k.
Proof.
  revert blobs. induction paths as [|pv paths IH]; intros blobs.
  { rewrite decide_False by set_solver. done. }
  cbn [fold_left]. rewrite IH. clear IH.
  destruct (decide (k ≠ "" ∧ JStr k ∈ paths ∧ is_ok (MemFS.Read f k) = true)) as [Hk|Hk].
  { rewrite decide_True; [done|]. destruct Hk as (? & ? & ?). split_and!; [done|by right|done]. }
  unfold pull_one. destruct (decide (pv = JStr k)) as [->|Hne].
  - destruct (decide (k = "")) as [->|Hk']; [by rewrite decide_False by naive_solver|].
    destruct (MemFS.Read f k) as [b|e]; [|by rewrite decide_False by naive_solver].
    rewrite decide_True by (split_and!; [done|by left|done]). apply lookup_insert_eq.
  - rewrite decide_False by set_solver.
    destruct pv as [| | |p| |]; try done. case_decide; [done|].
    destruct (MemFS.Read f p); [|done]. apply lookup_insert_ne; congruence.
Qed.

End NodeFacts.

Import GoStr GoPath GoJson GoFloat JsonPrint GoTime Node NodeFacts.

(** ** A host for the concrete runs *)

Module NodeDemo.

Record host := MkHost { hfs : MemFS.MemFS; mounted : bool }.

Definition clk : MemFS.clock := λ i, (1700000000 + Z.of_nat i)%Z.

#[export] Instance demo_host : NodeHost host := {|
  host_fs := hfs;
  set_host_fs f w := MkHost f (mounted w);
  Lock := Some (λ w, MkHost (MemFS.Wipe clk (hfs w)) false);
  Unmount := Some (λ w, MkHost (hfs w) false);
  Remount := Some (λ w, MkHost (hfs w) true);
  Mounted := Some mounted;
  Serving := None;
|}.

#[export] Instance demo_host_laws : NodeHostLaws host.
Proof. split; [done|]. intros lock w [= <-]. done. Qed.

Definition node0 : MemoryNode (W:=host) := New (MkHost (MemFS.New clk 0) true) (5 * Second).
Definition q (s : string) : string := String "034" (s +:+ String "034" "").
Definition offline_frame : string :=
  "{" +:+ q "sys" +:+ ":" +:+ q "peer_offline" +:+ "," +:+ q "role" +:+ ":" +:+ q "vault" +:+ "}".
Definition write_frame : string :=
  Rpc.Encode (Rpc.NewRequest "1" "write"
    {["path" := JStr "/etc/k"; "content_b64" := JStr (Base64.Encode "secret")]}).
Definition node1 : MemoryNode (W:=host) :=
  Node.onData id id id (λ _, clk) 1000 offline_frame node0.

(** A frame that says it is a system frame, with a role that is not a string. *)
Definition forged_frame : string :=
  "{" +:+ q "sys" +:+ ":" +:+ q "x" +:+ "," +:+ q "role" +:+ ":1," +:+
  q "type" +:+ ":" +:+ q "REQ" +:+ "," +:+ q "method" +:+ ":" +:+ q "SET_CONFIG" +:+ "," +:+
  q "params" +:+ ":{" +:+ q "grace_seconds" +:+ ":86400}}".

End NodeDemo.

Module NodeTheorems.
Import FSInv FSReach NodeDemo.

Section theorems.
Context {W : Type} `{NodeHost W}.
Context (Quote sha corrupt : string → string).

(** C7: a presence frame never dispatches a request, never cancels a countdown and
    never writes: either it leaves the node as it was, or the vault is reported
    gone and the node locks at once (no grace) or has a countdown of the full
    window running. *)
Theorem presence_only_locks t now raw (n : MemoryNode (W:=W)) :
  presence raw = true →
  let n' := Node.onData Quote sha corrupt t now raw n in
  if offline raw then
    sent n' = sent n ∧ firing n' = firing n ∧
    if (Grace n <=? 0)%Z
    then world n' = call_hook Lock (world n) ∧ grace n' = None
    else world n' = world n ∧ grace n' = Some (MkTimer (now + Grace n) true) ∧
         GraceState now n' = (Grace n, true, Grace n)
  else n' = n.
Proof.
  intros Hp n'. subst n'. rewrite onData_presence by done. destruct (offline raw); [|done].
  unfold startGrace. destruct (Z.leb_spec (Grace n) 0); [done|].
  split_and!; [done..|]. unfold GraceState. simpl.
  replace (now + Grace n - now)%Z with (Grace n) by lia. by rewrite Z.max_r by lia.
Qed.

(** C8: a countdown that nothing interrupts locks, once and not before its
    deadline: timer expiries before [now + Grace] do nothing whatever the
    callbacks do, and after the first expiry at or past it the next callback runs
    the lock and no later one does. *)
Theorem autolock_exact now (n : MemoryNode (W:=W)) es tE es' :
  (0 < Grace n)%Z → firing n = 0 →
  Forall (before (now + Grace n)) es → (now + Grace n ≤ tE)%Z →
  world (quiet_run es (startGrace now n)) = world n ∧
  world (quiet_run (es ++ TExpire tE :: es') (startGrace now n)) =
    if decide (TCallback ∈ es') then call_hook Lock (world n) else world n.
Proof.
  intros Hg Hf Hes HtE. unfold startGrace. destruct (Z.leb_spec (Grace n) 0); [lia|].
  set (n1 := MkNode _ _ _ _ _ _).
  assert (quiet_run es n1 = n1) as Hq by (eapply quiet_before; [done|exact Hf|done]).
  split; [by rewrite Hq|]. unfold quiet_run in *. rewrite fold_left_app, Hq. cbn [fold_left].
  fold (quiet_run es' (tick_step n1 (TExpire tE))).
  assert (tick_step n1 (TExpire tE) =
    MkNode (world n) (Grace n) (Some (MkTimer (now + Grace n) false))
      (Some (now + Grace n)%Z) 1 (sent n)) as ->.
  { simpl. unfold expire. simpl. destruct (Z.leb_spec (now + Grace n) tE); [|lia].
    simpl. by rewrite Hf. }
  by erewrite quiet_fired.
Qed.

(** Any frame that is not taken for presence cancels the countdown, whatever
    its request is and whether or not it is answered; until the vault is reported
    gone again the runtime never locks. *)
Theorem request_cancels t now raw (n : MemoryNode (W:=W)) es :
  presence raw = false → firing n = 0 →
  let n' := Node.onData Quote sha corrupt t now raw n in
  grace n' = None ∧ quiet_run es n' = n'.
Proof.
  intros Hp Hf n'. destruct (request_frame Quote sha corrupt t now raw n Hp) as [H1 H2].
  split; [done|]. apply quiet_idle; [done|]. by rewrite <- Hf.
Qed.

(** The vault being reported gone again restarts the countdown: a hub that
    repeats the frame before each deadline postpones the lock for ever. *)
Theorem offline_postpones t (n : MemoryNode (W:=W)) ds raw now :
  offline raw = true → (0 < Grace n)%Z → Forall (λ d, 0 ≤ d < Grace n)%Z ds →
  let step acc d :=
    let '(clock, m) := acc in
    ((clock + d)%Z,
     Node.onData Quote sha corrupt t (clock + d) raw (callback (expire (clock + d) m))) in
  let '(clock, n') := fold_left step ds (now, startGrace now n) in
  firing n = 0 →
  world n' = world n ∧ grace n' = Some (MkTimer (clock + Grace n) true).
Proof.
  intros Ho Hg Hds step.
  assert (presence raw = true) as Hp by (unfold offline in Ho; by apply andb_true_iff in Ho as []).
  assert (∀ m c, Grace m = Grace n → startGrace c m =
    MkNode (world m) (Grace n) (Some (MkTimer (c + Grace n) true)) (Some (c + Grace n)%Z)
      (firing m) (sent m)) as Hstart.
  { intros m c Hm. unfold startGrace. rewrite Hm.
    destruct (Z.leb_spec (Grace n) 0); [lia|done]. }
  rewrite (Hstart n now eq_refl). set (m := MkNode _ _ _ _ _ _).
  assert (Grace m = Grace n ∧ world m = world n ∧ firing m = firing n ∧
    grace m = Some (MkTimer (now + Grace n) true)) as Hinv by done.
  clearbody m. revert now m Hinv. induction Hds as [|d ds Hd Hds IH];
    intros now m (Hm & Hw & Hf & Hgr); simpl; [by intros|].
  assert (firing n = 0 → callback (expire (now + d) m) = m) as Hidle.
  { intros H0. unfold expire. rewrite Hgr. simpl.
    destruct (Z.leb_spec (now + Grace n) (now + d)); [lia|]. simpl.
    unfold callback. by rewrite Hf, H0. }
  destruct (decide (firing n = 0)) as [H0|H0].
  - rewrite (Hidle H0). apply IH. rewrite onData_presence, Ho, Hstart by done. done.
  - destruct (fold_left step ds _) as [c n']. intros ?. done.
Qed.

(** a STATUS asked over the channel always says that no countdown is running:
    the request has cancelled it before the handler looks. *)
Theorem status_never_armed t now raw (n : MemoryNode (W:=W)) m :
  presence raw = false → Rpc.Decode raw = Some m →
  Rpc.Type_ m = Rpc.TypeReq → ToUpper (Rpc.Method m) = Rpc.MethodStatus →
  ∃ res, Rpc.Encode (Rpc.Reply m true res None) ∈
           sent (Node.onData Quote sha corrupt t now raw n) ∧
    res !! "grace_armed" = Some (JBool false) ∧ res !! "grace_remaining_seconds" = None.
Proof.
  intros Hp Hd Ht Hm. rewrite onData_request by done. unfold Rpc.Dispatch.
  rewrite Hd, decide_True, Hm by done.
  change (Node.handlers sha corrupt t now !! Rpc.MethodStatus) with
    (Some (handleStatus (W:=W) now)).
  eexists. split; [simpl; apply elem_of_app; right; by left|].
  destruct Serving as [f|]; done.
Qed.

End theorems.

(** A WRITE answered with success is readable at its path with the content
    sent (base64 or plain), and no other file is disturbed. *)
Theorem write_served {W} `{NodeHostLaws W} corrupt t req (n n' : MemoryNode (W:=W)) res data :
  let served := host_fs (call_hook Remount (world n)) in
  inv served → decodeContent corrupt (Rpc.Params req) = Ok data →
  fits served (len (of_string data)) →
  handleWrite corrupt t req n = (Ok res, n') →
  MemFS.Read (node_fs n') (get_string "path" (Rpc.Params req)) = Ok (of_string data) ∧
  ∀ p' b, MemFS.normalize p' ≠ MemFS.normalize (get_string "path" (Rpc.Params req)) →
    MemFS.Read served p' = Ok b → MemFS.Read (node_fs n') p' = Ok b.
Proof.
  intros served Hinv Hc Hfit. unfold handleWrite. case_decide; [done|]. rewrite Hc.
  destruct (write_fs t _ _ _) as [[u|e] f'] eqn:Hw; [|done]. intros. simplify_eq.
  unfold node_fs, set_fs. simpl. rewrite host_fs_set. destruct u.
  by apply (write_fs_ok t _ _ served).
Qed.

(** a PULL returns, for each requested path that is a readable file and for no
    other key, the base64 of its body. *)
Theorem pull_exact {W} `{NodeHost W} req (n : MemoryNode (W:=W)) paths :
  Rpc.Params req !! "paths" = Some (JArr paths) →
  ∃ blobs, handlePull req n = (Ok {["blobs" := jmap blobs]}, n) ∧
    ∀ k v, blobs !! k = Some v ↔
      k ≠ "" ∧ JStr k ∈ paths ∧
      ∃ b, MemFS.Read (node_fs n) k = Ok b ∧ v = JStr (Base64.Encode (to_string b)).
Proof.
  intros Hp. unfold handlePull. rewrite Hp. eexists. split; [done|]. intros k v.
  rewrite pull_fold_lookup. case_decide as Hk.
  - destruct (MemFS.Read (node_fs n) k) as [b|e]; naive_solver.
  - split; [intros Hv; by apply (lookup_empty_Some (M:=gmap string)) in Hv|]. intros (? & ? & b & Hb & _).
    destruct Hk. by rewrite Hb.
Qed.

(** *** Concrete runs *)

Local Abbreviation dispatch := (Node.onData id id id (λ _, clk)).

Lemma presence_only_locks_witness :
  offline offline_frame = true ∧ grace node1 = Some (MkTimer (1000 + 5 * Second) true).
Proof.
  split; [vm_compute; done|].
  pose proof (presence_only_locks id id id (λ _, clk) 1000 offline_frame node0
    ltac:(vm_compute; done)) as Hx.
  replace (offline offline_frame) with true in Hx by (vm_compute; done).
  destruct Hx as (_ & _ & Hx). apply Hx.
Defined.

Lemma autolock_exact_witness :
  world (quiet_run [TExpire 4; TCallback] (startGrace 1000 node0)) = world node0 ∧
  world (quiet_run ([TExpire 4; TCallback] ++ TExpire (1000 + 5 * Second) :: [TCallback; TCallback])
    (startGrace 1000 node0)) = MkHost (MemFS.Wipe clk (MemFS.New clk 0)) false.
Proof.
  destruct (autolock_exact 1000 node0 [TExpire 4; TCallback] (1000 + 5 * Second)
    [TCallback; TCallback]) as [H1 H2]; [done|done|by repeat constructor|done|].
  split; [exact H1|]. rewrite decide_True in H2 by (by left). exact H2.
Defined.

Lemma request_cancels_witness :
  presence write_frame = false ∧
  grace (dispatch 2000 write_frame node1) = None ∧
  MemFS.Read (node_fs (dispatch 2000 write_frame node1)) "/etc/k" = Ok (of_string "secret").
Proof.
  split; [vm_compute; done|]. split; [|vm_compute; done].
  apply (request_cancels id id id (λ _, clk) 2000 write_frame node1 []); vm_compute; done.
Defined.

Lemma offline_postpones_witness :
  let step acc d :=
    let '(clock, m) := acc in
    ((clock + d)%Z, dispatch (clock + d) offline_frame (callback (expire (clock + d) m))) in
  let '(clock, n') := fold_left step [4 * Second; 4 * Second; 4 * Second]%Z
    (0%Z, startGrace 0 node0) in
  clock = (12 * Second)%Z ∧ mounted (world n') = true.
Proof.
  pose proof (offline_postpones id id id (λ _, clk) node0
    [4 * Second; 4 * Second; 4 * Second]%Z offline_frame 0
    ltac:(vm_compute; done) ltac:(done) ltac:(repeat constructor; vm_compute; congruence)
    : _) as Hx.
  cbv zeta in Hx. simpl fold_left in *. destruct (Hx eq_refl) as [Hw _].
  split; [done|]. by rewrite Hw.
Defined.

Definition status_frame : string := Rpc.Encode (Rpc.NewRequest "2" "status" ∅).

Lemma status_never_armed_witness :
  ∃ res, Rpc.Encode (Rpc.Reply (Rpc.NewRequest "2" "status" ∅) true res None) ∈
           sent (dispatch 2000 status_frame node1) ∧
    res !! "grace_armed" = Some (JBool false) ∧ res !! "grace_remaining_seconds" = None.
Proof.
  apply (status_never_armed id id id (λ _, clk) 2000 status_frame node1
    (Rpc.NewRequest "2" "status" ∅)); vm_compute; done.
Defined.

Lemma write_served_witness :
  let req := Rpc.NewRequest "1" "write" {["path" := JStr "/etc/k"; "content" := JStr "v"]} in
  MemFS.Read (node_fs (handleWrite id (λ _, clk) req node0).2) "/etc/k" = Ok (of_string "v").
Proof.
  intros req.
  refine (proj1 (write_served id (λ _, clk) req node0 _ ok_result "v" _ _ _ _)).
  - apply inv_New.
  - vm_compute. done.
  - vm_compute. done.
  - vm_compute. done.
Defined.

Lemma pull_exact_witness :
  let n := dispatch 2000 write_frame node1 in
  let req := Rpc.NewRequest "3" "pull" {["paths" := JArr [JStr "/etc/k"; JStr "/none"; JNull]]} in
  ∃ blobs, handlePull req n = (Ok {["blobs" := jmap blobs]}, n) ∧
    blobs !! "/etc/k" = Some (JStr "c2VjcmV0").
Proof.
  intros n req.
  destruct (pull_exact req n [JStr "/etc/k"; JStr "/none"; JNull] ltac:(vm_compute; done))
    as (blobs & H1 & H2).
  exists blobs. split; [exact H1|]. apply H2. split; [done|]. split; [by left|].
  exists (of_string "secret"). split; vm_compute; done.
Defined.

End NodeTheorems.
