(* ===== verification/NodeTypes.v ===== *)
(** * internal/node: the types of the replies

    What crosses the channel is JSON text.  A small type system for it, the type of the
    result of every method, and that the node's replies have them, whatever the request
    was and whatever bytes the names of files are made of. *)
From stdpp Require Import pretty.
From S2P Require Import Prelude GoStrings GoJson GoUtf8 GoFloat GoJsonPrint GoJsonRaw GoJsonText GoFloatFacts.
From S2P Require Import GoTime GoBase64 MemFS MemFSFacts MemFSSpec MemFSRefine MemFSWalk MemFSProps Rpc RpcProps Node NodeTheorems.
Import GoStr GoJson UTF8 GoFloat JsonPrint JsonRaw JsonText Rpc Node.

Module NodeTypes.

(** ** Types *)

(** The members of a record: their names, whether they are always there, their types. *)
Inductive ty :=
  | TBool | TInt | TStr
  | TList (t : ty)
  | TMap (t : ty)
  | TRec (fs : list (string * (bool * ty))).

Fixpoint has_type (t : ty) (j : json) : bool :=
  match t, j with
  | TBool, JBool _ => true
  | TInt, JNum l => match int_lit l with Some _ => true | None => false end
  | TStr, JStr _ => true
  | TList t, JArr l => forallb (has_type t) l
  | TMap t, JObj l => forallb (λ kv, has_type t kv.2) l
  | TRec fs, JObj l =>
      forallb (λ f, match obj_lookup f.1 l with Some v => has_type f.2.2 v | None => negb f.2.1 end) fs &&
      forallb (λ kv, bool_decide (kv.1 ∈ fs.*1)) l
  | _, _ => false
  end.

Definition always (k : string) (t : ty) : string * (bool * ty) := (k, (true, t)).
Definition maybe (k : string) (t : ty) : string * (bool * ty) := (k, (false, t)).

Definition status_type : ty := TRec
  [always "mounted" TBool; always "used" TInt; always "version" TInt; always "grace_seconds" TInt;
   always "grace_armed" TBool; always "protocol_versions" (TList TInt); maybe "grace_remaining_seconds" TInt;
   maybe "backend" TStr; maybe "serving" TBool;
   maybe "fuse" (TRec [always "active" TBool; always "error" TStr]);
   maybe "webdav" (TRec [always "addr" TStr; always "serving" TBool])].

Definition manifest_type : ty := TRec
  [always "version" TInt;
   always "entries" (TList (TRec [always "mod_time" TStr; always "path" TStr; always "sha" TStr; always "size" TInt]))].

(** What a method of the node answers when it succeeds. *)
Definition reply_type (method : string) : option ty :=
  (list_to_map
    [(MethodWrite, TRec [always "ok" TBool]); (MethodDelete, TRec [always "ok" TBool]);
     (MethodSetConfig, TRec [always "ok" TBool]); (MethodLock, TRec [always "locked" TBool]);
     (MethodUnmount, TRec [always "unmounted" TBool]); (MethodStatus, status_type);
     (MethodManifest, manifest_type); (MethodPull, TRec [always "blobs" (TMap TStr)])] : gmap string ty) !! method.

(** ** What a parser returns is text *)

Lemma text_coerced t v : text t v → coerced v = v.
Proof.
  intros Ht. revert t v Ht. apply (text_mut (λ t v _, coerced v = v)
    (λ x l _, List.map coerced l = l) (λ x l _, List.map coerced_member l = l)
    (λ m kv _, coerced_member kv = kv)); intros; simpl in *; unfold coerced_member in *; simpl in *; congruence.
Qed.

Lemma parse_coerced s v : parse s = Some v → coerced v = v.
Proof. intros (b & t & b' & _ & _ & _ & Ht & _)%parse_text. by eapply text_coerced. Qed.

Lemma coerce_idem s : coerce (coerce s) = coerce s.
Proof. apply quote_spells. Qed.

Lemma utf8_coerce s : utf8_str (coerce s) = true.
Proof. apply bool_decide_eq_true, coerce_idem. Qed.

Lemma utf8_encode_nonempty u : utf8_encode u ≠ "".
Proof. unfold utf8_encode. by repeat case_match. Qed.

Lemma coerce_empty s : coerce s = "" ↔ s = "".
Proof.
  split; [|by intros ->]. destruct s as [|a s]; [done|]. intros Hs.
  destruct (Z.ltb_spec (bval a) 128); [by rewrite coerce_ascii in Hs|].
  destruct (utf8_decode a s) as [u r] eqn:Hd. rewrite (coerce_rune _ _ _ _ ltac:(done) Hd) in Hs.
  pose proof (utf8_encode_nonempty u). by destruct (utf8_encode u).
Qed.

Lemma shape_coerced : ∀ d j, shape d j → jok d (coerced j).
Proof.
  fix IH 3. intros d j [?|?|? l Hl|? s|? l Hl|? l Hl]; simpl; [by constructor..| | | |].
  - by constructor.
  - constructor. apply utf8_coerce.
  - constructor. induction Hl as [|v l Hv Hl IHl]; constructor; [apply IH, Hv|exact IHl].
  - constructor. induction Hl as [|v l Hv Hl IHl]; constructor; [|exact IHl].
    split; [apply utf8_coerce|apply IH, Hv].
Qed.

(** *** Requests *)

(** The strings of a decoded message. *)
Record textual (m : Message) : Prop := {
  tx_id : coerce (ID m) = ID m;
  tx_method : coerce (Method m) = Method m;
  tx_params : map_Forall (λ k v, coerce k = k ∧ coerced v = v) (Params m);
}.

Lemma into_map_textual l m : coerced (JObj l) = JObj l →
  map_Forall (λ k v, coerce k = k ∧ coerced v = v) m →
  map_Forall (λ k v, coerce k = k ∧ coerced v = v) (into_map l m).
Proof.
  intros [= Hl]. revert m Hl. induction l as [|[k v] l IH]; intros m; [done|]. simpl. intros [= Hk Hv Hl] Hm.
  apply IH; [done|]. by apply map_Forall_insert_2.
Qed.

Lemma fields_textual : Forall (λ f : string * decoder Message,
  ∀ v m, coerced v = v → textual m → textual (f.2 v m).1) message_fields.
Proof.
  repeat apply Forall_cons_2; [..|apply Forall_nil_2]; intros v m Hv [H1 H2 H3]; destruct v; cbn;
    try (by split); try (destruct (int_lit _); by split);
    (split; simpl; [first [done|by injection Hv]|first [done|by injection Hv]|
      first [done|apply map_Forall_empty|by apply into_map_textual]]).
Qed.

Lemma Decode_textual raw m : Decode raw = Some m → textual m.
Proof.
  unfold Decode, Unmarshal. destruct (parse raw) as [v|] eqn:Hp; [|done].
  apply parse_coerced in Hp. assert (textual zero_message) as Hz by (split; [done..|apply map_Forall_empty]).
  destruct v as [| | | | |l]; try done; [by intros [= <-]|].
  unfold struct_of, members_into. intros H.
  enough (∀ acc : Message * bool, textual acc.1 → textual (fold_left (λ acc kv,
    match find_field message_fields kv.1 with
    | Some d => let (s', ok) := d kv.2 acc.1 in (s', acc.2 && ok)
    | None => acc end) l acc).1) as Hf.
  { specialize (Hf (zero_message, true) Hz). destruct (fold_left _ l _) as [m' [|]]; [|done]. by injection H as <-. }
  clear H. injection Hp as Hl. revert Hl. induction l as [|[k v] l IH]; [done|]. simpl. intros [= Hk Hv Hl] acc Hacc.
  apply IH; [done|]. destruct (find_field message_fields k) as [d|] eqn:Hd; [|done].
  unfold find_field in Hd. destruct (find _ message_fields) as [f|] eqn:Hfind; [|done]. injection Hd as <-.
  apply find_some in Hfind as [Hin%list_elem_of_In _].
  pose proof (proj1 (Forall_forall _ _) fields_textual _ Hin v acc.1 Hv Hacc) as Ht.
  by destruct (f.2 v acc.1).
Qed.

(** *** Maps *)

Lemma sort_by_id {A} (key : A → string) l : StronglySorted (key_le key) l → NoDup (key <$> l) → sort_by key l = l.
Proof.
  intros Hs Hnd. apply (StronglySorted_unique_strong (key_le key)); [|apply sort_by_sorted|done|apply sort_by_perm].
  intros x y Hx Hy Hxy Hyx. rewrite sort_by_perm in Hx. assert (key x = key y) as Hk by (by apply (anti_symm String.le)).
  apply list_elem_of_lookup in Hx as [i Hi]. apply list_elem_of_lookup in Hy as [j Hj].
  assert (i = j) as ->; [|congruence].
  eapply (NoDup_lookup _ i j (key x)); [done|by rewrite list_lookup_fmap, Hi|by rewrite list_lookup_fmap, Hj, Hk].
Qed.

Lemma jmap_fmap (f : json → json) m : jmap (f <$> m) = JObj (prod_map id f <$> sort_by fst (map_to_list m)).
Proof.
  unfold jmap. f_equal.
  assert (map_to_list (f <$> m) ≡ₚ prod_map id f <$> sort_by fst (map_to_list m)) as Hp.
  { by rewrite map_to_list_fmap, sort_by_perm. }
  rewrite (sort_by_unique fst _ _ (NoDup_fst_map_to_list _) Hp). apply sort_by_id.
  - pose proof (sort_by_sorted fst (map_to_list m)) as Hs.
    clear Hp. induction Hs as [|x l _ IH Hx]; [constructor|]. cbn [fmap list_fmap]. constructor; [done|].
    apply Forall_fmap. eapply Forall_impl; [exact Hx|]. done.
  - rewrite <- Hp. apply NoDup_fst_map_to_list.
Qed.

Lemma jmap_coerced m : map_Forall (λ k _, utf8_str k = true) m → coerced (jmap m) = jmap (coerced <$> m).
Proof.
  intros Hm. rewrite jmap_fmap. cbn [coerced jmap]. f_equal.
  change (List.map ?f ?l) with (f <$> l). apply list_fmap_ext. intros i [k v] Hkv. simpl. f_equal.
  apply list_elem_of_lookup_2 in Hkv. rewrite sort_by_perm in Hkv. apply elem_of_map_to_list in Hkv.
  by apply (bool_decide_eq_true (coerce k = k)), (Hm k v).
Qed.

(** *** Replies *)

(** A result that can be sent, and what arrives of it. *)
Definition sendable (m : params) : Prop :=
  map_Forall (λ k v, utf8_str k = true ∧ shape 3 v ∧ any_ok (coerced v) = true) m.

Definition reply_message (id : string) (ok : bool) (res : params) (err : string) : Message :=
  MkMessage 1 id TypeRes "" ∅ ok res err.

Lemma omit_string_coerced k s : coerce k = k →
  List.map coerced_member (omit_string k s) = omit_string k (coerce s).
Proof.
  intros Hk. unfold omit_string. destruct (decide (s = "")) as [->|Hne]; [done|].
  rewrite decide_False by (by rewrite coerce_empty). simpl. unfold coerced_member. simpl. by rewrite Hk.
Qed.

Lemma shape_message id ok res err : sendable res → shape 5 (message_json (reply_message id ok res err)).
Proof.
  intros Hres. apply (shape_obj 4). unfold omit_string, omit_map, omit_bool.
  repeat first [apply Forall_app_2 | case_match | apply Forall_cons_2 | apply Forall_nil_2]; simpl; try (by constructor).
  { constructor. apply num_lit_pretty. }
  { done. }
  apply (shape_obj 3). rewrite sort_by_perm. apply Forall_forall. intros [k v] Hkv%elem_of_map_to_list.
  by apply (Hres k v).
Qed.

Lemma reply_received id ok res err : utf8_str id = true → sendable res →
  Decode (Encode (reply_message id ok res err)) = Some (reply_message id ok (coerced <$> res) (coerce err)).
Proof.
  intros Hid Hres. set (m := reply_message id ok res err). set (m' := reply_message id ok (coerced <$> res) (coerce err)).
  assert (RpcFacts.map_ok 3 (coerced <$> res)) as Hok.
  { intros k v Hv. apply lookup_fmap_Some in Hv as (v0 & <- & Hv).
    destruct (Hres _ _ Hv) as (Hk & Hs & Ha). split; [done|]. split; [by apply shape_coerced|done]. }
  assert (RpcFacts.message_ok 3 m') as Hm'.
  { split; [by vm_compute|done|done|done|apply map_Forall_empty|exact Hok|apply utf8_coerce]. }
  assert (coerced (message_json m) = message_json m') as Hc.
  { unfold message_json, m, m', reply_message. cbn [V ID Type_ Method Params OK Result Err_].
    assert (omit_map "params" ∅ = []) as -> by done. cbn [coerced]. f_equal. rewrite !List.map_app.
    change (λ kv : string * json, (coerce kv.1, coerced kv.2)) with coerced_member.
    rewrite !omit_string_coerced by done. apply bool_decide_eq_true in Hid as ->.
    assert (List.map coerced_member (omit_map "result" res) = omit_map "result" (coerced <$> res)) as ->.
    { pose proof (fmap_empty_iff (M:=gmap string) coerced res) as Hem. unfold omit_map.
      case_decide as H1; case_decide as H2; [done|by destruct H2; apply Hem|by destruct H1; apply Hem|].
      simpl. unfold coerced_member. cbn [fst snd]. rewrite jmap_coerced; [done|].
      intros k v Hk. by apply (Hres k v). }
    by destruct ok. }
  rewrite <- (RpcFacts.Decode_Encode_ok 3 m' Hm') by done. unfold Decode, Encode, Unmarshal.
  rewrite (parse_print_value 5 (message_json m')) by (done || by apply (RpcFacts.jok_message 3)).
  unfold parse. rewrite <- (sapp_nil_r (print (message_json m))).
  rewrite (parse_prefix_print 5 (message_json m) "") by (done || apply shape_message; done).
  cbn [mbind option_bind]. by rewrite Hc.
Qed.

(** ** What the handlers answer *)

(** A result of a type, on arrival. *)
Definition typed (T : ty) (res : params) : Prop :=
  sendable res ∧ has_type T (jmap (coerced <$> res)) = true.

Lemma sendable_insert k v m : utf8_str k = true → shape 3 v → any_ok (coerced v) = true → sendable m →
  sendable (<[k := v]> m).
Proof. intros ??? Hm. by apply map_Forall_insert_2. Qed.

Lemma sendable_int k z m : utf8_str k = true → in_i64 z → sendable m → sendable (<[k := JInt z]> m).
Proof. intros. apply sendable_insert; [done|constructor; apply num_lit_pretty|by apply FloatFacts.any_ok_int|done]. Qed.

Lemma sendable_bool k b m : utf8_str k = true → sendable m → sendable (<[k := JBool b]> m).
Proof. intros. by apply sendable_insert; [|constructor| |]. Qed.

Lemma sendable_str k s m : utf8_str k = true → sendable m → sendable (<[k := JStr s]> m).
Proof. intros. by apply sendable_insert; [|constructor| |]. Qed.

(** A record given by its members. *)
Lemma lookup_members k (l : list (string * json)) :
  (list_to_map l : gmap string json) !! k = snd <$> find (λ kv, bool_decide (kv.1 = k)) l.
Proof.
  induction l as [|[j v] l IH]; [exact (lookup_empty (M:=gmap string) k)|]. cbn [list_to_map foldr find fst uncurry].
  change (foldr _ _ l) with (list_to_map l : gmap string json).
  destruct (decide (j = k)) as [->|Hne].
  - by rewrite lookup_insert_eq, bool_decide_true.
  - by rewrite lookup_insert_ne, bool_decide_false.
Qed.

Lemma rec_members fs (l : list (string * json)) :
  forallb (λ f, match snd <$> find (λ kv, bool_decide (kv.1 = f.1)) l with
                | Some v => has_type f.2.2 (coerced v)
                | None => negb f.2.1
                end) fs = true →
  forallb (λ kv, bool_decide (kv.1 ∈ fs.*1)) l = true →
  has_type (TRec fs) (jmap (coerced <$> (list_to_map l : gmap string json))) = true.
Proof.
  intros Hfs Hl. set (m := (coerced <$> (list_to_map l : gmap string json))). unfold jmap. cbn [has_type].
  apply andb_true_iff. split.
  - rewrite forallb_forall in Hfs |- *. intros f Hf. specialize (Hfs f Hf). unfold obj_lookup.
    rewrite RpcFacts.into_map_jmap. unfold m. rewrite lookup_fmap, lookup_members.
    by destruct (find _ l).
  - rewrite forallb_forall in Hl |- *. intros kv Hkv%list_elem_of_In. rewrite sort_by_perm in Hkv.
    destruct kv as [k v]. apply elem_of_map_to_list in Hkv. unfold m in Hkv.
    rewrite lookup_fmap in Hkv. apply fmap_Some in Hkv as (v0 & Hk & _). rewrite lookup_members in Hk.
    destruct (find _ l) as [kv|] eqn:Hf; [|done]. apply find_some in Hf as [Hin Hb].
    apply bool_decide_eq_true in Hb. specialize (Hl kv Hin). simpl in Hb. by rewrite Hb in Hl.
Qed.

Lemma rec_object fs (l : list (string * json)) : NoDup l.*1 →
  forallb (λ f, match snd <$> find (λ kv, bool_decide (kv.1 = f.1)) l with
                | Some v => has_type f.2.2 v
                | None => negb f.2.1
                end) fs = true →
  forallb (λ kv, bool_decide (kv.1 ∈ fs.*1)) l = true →
  has_type (TRec fs) (JObj l) = true.
Proof.
  intros Hnd Hfs Hl. cbn [has_type]. apply andb_true_iff. split; [|done].
  rewrite forallb_forall in Hfs |- *. intros f Hf. specialize (Hfs f Hf). unfold obj_lookup.
  rewrite RpcFacts.into_map_lookup, lookup_members by done.
  destruct (snd <$> find _ l); [done|]. by rewrite (lookup_empty (M:=gmap string)).
Qed.

Lemma typed_flag k : utf8_str k = true → typed (TRec [always k TBool]) ({[k := JBool true]} : gmap string json).
Proof.
  intros Hk. split; [by apply sendable_bool; [|apply map_Forall_empty]|].
  rewrite map_fmap_singleton. unfold jmap. rewrite map_to_list_singleton. simpl.
  unfold obj_lookup, into_map. simpl. rewrite lookup_insert_eq. simpl.
  by rewrite bool_decide_true by by left.
Qed.

(** *** STATUS *)

Lemma versions_sendable m : sendable m → sendable (<["protocol_versions" := JArr (JInt <$> Supported)]> m).
Proof. apply sendable_insert; [done| |by vm_compute]. apply (shape_arr 2). repeat constructor; apply num_lit_pretty. Qed.

Definition status_members (mounted : bool) (used version grace : Z) : list (string * json) :=
  [("mounted", JBool mounted); ("used", JInt used); ("version", JInt version);
   ("grace_seconds", JInt grace); ("grace_armed", JBool false); ("protocol_versions", JArr (JInt <$> Supported))].

Definition serving_members (s : ServeInfo) : list (string * json) :=
  [("backend", JStr (Backend s)); ("serving", JBool (FuseActive s || WebdavServing s));
   ("fuse", JObj [("active", JBool (FuseActive s)); ("error", JStr (FuseError s))]);
   ("webdav", JObj [("addr", JStr (WebdavAddr s)); ("serving", JBool (WebdavServing s))])].

Lemma typed_status mounted used version grace (s : option ServeInfo) :
  in_i64 used → in_i64 version → in_i64 grace →
  typed status_type (list_to_map (from_option serving_members [] s ++ status_members mounted used version grace)
                     : gmap string json).
Proof.
  intros Hu Hv Hg. assert (sendable (list_to_map (status_members mounted used version grace) : gmap string json)) as Hb.
  { unfold status_members. simpl.
    repeat first [apply sendable_bool; [done|] | apply sendable_int; [done|done|] | apply versions_sendable |
      apply map_Forall_empty]. }
  split.
  - destruct s as [[b fa fe ws wa]|]; [|done].
    apply sendable_str; [done|]. apply sendable_bool; [done|].
    apply sendable_insert; [done|apply (shape_obj 2); repeat constructor|done|].
    by apply sendable_insert; [done|apply (shape_obj 2); repeat constructor|done|].
  - apply rec_members; [|by destruct s as [[]|]].
    destruct s as [[b fa fe ws wa]|]; cbv -[int_lit pretty coerce obj_lookup];
      rewrite !int_lit_pretty by done; [|done]; reflexivity.
Qed.

(** *** MANIFEST and PULL *)

Lemma entry_typed e : in_i64 (MemFS.Size e) →
  has_type (TRec [always "mod_time" TStr; always "path" TStr; always "sha" TStr; always "size" TInt])
    (coerced (manifest_json e)) = true ∧
  shape 2 (manifest_json e) ∧ any_ok (coerced (manifest_json e)) = true.
Proof.
  intros Hs. split; [|split].
  - change (coerced (manifest_json e)) with (JObj
      [("mod_time", JStr (coerce (GoTime.RFC3339Nano (MemFS.EModTime e)))); ("path", JStr (coerce (MemFS.Path e)));
       ("sha", JStr (coerce (MemFS.SHA e))); ("size", JInt (MemFS.Size e))]).
    apply rec_object; [by apply (bool_decide_eq_true (NoDup _))| |done].
    cbv -[int_lit pretty coerce GoTime.RFC3339Nano]. by rewrite int_lit_pretty by done.
  - apply (shape_obj 1). repeat apply Forall_cons_2; [..|apply Forall_nil_2]; constructor. apply num_lit_pretty.
  - change (any_ok (coerced (manifest_json e))) with (any_ok (JInt (MemFS.Size e)) && true).
    by rewrite FloatFacts.any_ok_int.
Qed.

Lemma typed_manifest version es : in_i64 version → Forall (λ e, in_i64 (MemFS.Size e)) es →
  typed manifest_type (list_to_map [("version", JInt version); ("entries", JArr (manifest_json <$> es))] : gmap string json).
Proof.
  intros Hv Hes. assert (∀ e, e ∈ es → in_i64 (MemFS.Size e)) as Hin by by apply Forall_forall.
  split.
  - apply sendable_int; [done..|]. apply sendable_insert; [done| | |apply map_Forall_empty].
    + apply (shape_arr 2), Forall_fmap, Forall_forall. intros e He. by apply entry_typed, Hin.
    + cbn [coerced any_ok]. apply forallb_forall. intros v Hv'. apply list_elem_of_In in Hv'.
      apply list_elem_of_fmap in Hv' as (j & -> & Hj). apply list_elem_of_fmap in Hj as (e & -> & He).
      by apply entry_typed, Hin.
  - apply rec_members; [|done]. unfold manifest_type, always. cbn [forallb find fst snd fmap option_fmap option_map].
    rewrite !bool_decide_true, bool_decide_false by done. cbn [fmap option_fmap option_map snd coerced has_type].
    unfold JInt. cbn [coerced has_type]. rewrite int_lit_pretty by done. cbn [andb]. rewrite andb_true_r.
    apply forallb_forall. intros v Hv'. apply list_elem_of_In in Hv'.
    apply list_elem_of_fmap in Hv' as (j & -> & Hj). apply list_elem_of_fmap in Hj as (e & -> & He).
    by apply entry_typed, Hin.
Qed.

(** Only texts are put into the blobs. *)
Lemma pull_texts f paths blobs :
  map_Forall (λ _ v, ∃ s, v = JStr s) blobs → map_Forall (λ _ v, ∃ s, v = JStr s) (fold_left (pull_one f) paths blobs).
Proof.
  revert blobs. induction paths as [|p paths IH]; intros blobs Hb; [done|]. simpl. apply IH.
  destruct p as [| | |s| |]; simpl; try done. case_decide; [done|]. destruct (MemFS.Read f s); [|done].
  apply map_Forall_insert_2; [by eexists|done].
Qed.

Lemma typed_pull f paths :
  typed (TRec [always "blobs" (TMap TStr)]) ({["blobs" := jmap (fold_left (pull_one f) paths ∅)]} : gmap string json).
Proof.
  set (b := fold_left _ _ _). assert (map_Forall (λ _ v, ∃ s, v = JStr s) b) as Hb.
  { apply pull_texts, map_Forall_empty. }
  assert (∀ kv, kv ∈ sort_by fst (map_to_list b) → ∃ s, kv.2 = JStr s) as Hin.
  { intros [k v] Hkv. rewrite sort_by_perm in Hkv. apply elem_of_map_to_list in Hkv. by apply (Hb k). }
  split.
  - apply sendable_insert; [done| | |apply map_Forall_empty].
    + apply (shape_obj 2), Forall_forall. intros kv Hkv. destruct (Hin kv Hkv) as [s ->]. constructor.
    + cbn [coerced jmap any_ok]. apply forallb_forall. intros kv Hkv%list_elem_of_In.
      apply list_elem_of_fmap in Hkv as (kv' & -> & Hkv). by destruct (Hin kv' Hkv) as [s Hs]; simpl; rewrite Hs.
  - change ({["blobs" := jmap b]} : gmap string json) with (list_to_map [("blobs", jmap b)] : gmap string json).
    apply rec_members; [|done]. unfold always. cbn [forallb find fst snd fmap option_fmap option_map].
    rewrite bool_decide_true by done. cbn [fmap option_fmap option_map snd coerced has_type jmap]. rewrite andb_true_r.
    apply forallb_forall. intros kv Hkv%list_elem_of_In.
    apply list_elem_of_fmap in Hkv as (kv' & -> & Hkv). by destruct (Hin kv' Hkv) as [s Hs]; simpl; rewrite Hs.
Qed.

(** ** The node *)

Section node.
Context {W : Type} `{NodeHost W}.
Context (Quote sha corrupt : string → string).

Local Abbreviation MemoryNode := (MemoryNode (W:=W)).
Local Abbreviation onData := (Node.onData Quote sha corrupt).
Local Abbreviation handlers := (Node.handlers sha corrupt).

(** The numbers of a node have their width. *)
Record sized (n : MemoryNode) : Prop := {
  sz_fs : FSReach.reach (node_fs n);
  sz_version : in_i64 (MemFS.Version (node_fs n));
  sz_grace : in_i64 (Grace n);
}.

Lemma sized_used n : sized n → in_i64 (MemFS.Used (node_fs n)).
Proof.
  intros Hn. unfold MemFS.Used. rewrite (FSInv.inv_used _ (FSReach.reach_inv _ (sz_fs _ Hn))). apply i64_range.
Qed.

Lemma sized_entries n : sized n →
  Forall (λ e, in_i64 (MemFS.Size e)) (MemFS.Manifest (λ b, sha (to_string b)) (node_fs n)).
Proof.
  intros Hn. pose proof (FSReach.reach_inv _ (sz_fs _ Hn)) as Hinv.
  destruct (FSReach.reach_usage_ok _ (sz_fs _ Hn)) as [Ht _].
  unfold MemFS.Manifest. rewrite sort_by_perm. apply Forall_fmap, Forall_forall. intros [p x] Hx.
  rewrite FSWalk.root_prefix in Hx.
  apply FSWalk.elem_of_files in Hx as (q & _ & Hq & Hd); [|apply Hinv|done]. simpl.
  pose proof (FSFacts.total_at_path_le _ _ _ (FSInv.inv_wf _ Hinv) Hq) as Hle.
  rewrite FSFacts.total_file in Hle by done. pose proof (len_nonneg (MemFS.Data x)).
  unfold in_i64, two63 in *. lia.
Qed.

Lemma in_seconds_i64 d : in_i64 d → in_i64 (GoTime.in_seconds d).
Proof.
  unfold in_i64, GoTime.in_seconds, GoTime.Second, two63. intros Hd.
  pose proof (Z.quot_le_mono (-9223372036854775808) d 1000000000 ltac:(lia) ltac:(lia)).
  pose proof (Z.quot_le_mono d 9223372036854775807 1000000000 ltac:(lia) ltac:(lia)).
  change (Z.quot (-9223372036854775808) 1000000000) with (-9223372036)%Z in *.
  change (Z.quot 9223372036854775807 1000000000) with 9223372036%Z in *. lia.
Qed.

Lemma fs_error_text e : fs_error e ≠ "".
Proof. by destruct e. Qed.

(** What a handler answers under the name it is registered for. *)
Definition answers (T : option ty) (r : result string params) : Prop :=
  match r with
  | Ok res => ∃ t, T = Some t ∧ typed t res
  | Err e => e ≠ ""
  end.

Lemma status_typed now m n : sized n → grace n = None → answers (reply_type MethodStatus) (handleStatus now m n).1.
Proof.
  intros Hn Hg. unfold handleStatus, GraceState. rewrite Hg. cbn [fst answers]. exists status_type. split; [done|].
  pose proof (typed_status (match Mounted with Some f => f (world n) | None => false end)
    (MemFS.Used (node_fs n)) (MemFS.Version (node_fs n)) (GoTime.in_seconds (Grace n))
    ((λ f, f (world n)) <$> Serving) (sized_used n Hn) (sz_version n Hn) (in_seconds_i64 _ (sz_grace n Hn))) as Ht.
  destruct Serving as [f|]; exact Ht.
Qed.

(** The next handler of the table, or the rest of it. *)
Ltac registered H := apply (lookup_insert_Some (M:=gmap string)) in H as [[<- <-]|[_ H]].
Ltac flag_reply := eexists; split; [reflexivity|]; by apply typed_flag.

Lemma handlers_typed t now k h m n : (∀ s, corrupt s ≠ "") → sized n → grace n = None →
  handlers t now !! k = Some h → answers (reply_type k) (h m n).1.
Proof.
  intros Hc Hn Hg. unfold Node.handlers, Rpc.Handle, Rpc.NewDispatcher. intros Hk.
  registered Hk.
  { unfold handleSetConfig. assert (answers (reply_type MethodSetConfig) (Ok ok_result)) as Hok by by flag_reply.
    destruct (_ !! _); [|done]. by destruct (toFloat _). }
  registered Hk. { eexists. split; [reflexivity|]. apply typed_pull. }
  registered Hk. { eexists. split; [reflexivity|]. apply typed_manifest; [apply Hn|by apply sized_entries]. }
  registered Hk. { by apply status_typed. }
  registered Hk. { flag_reply. }
  registered Hk. { flag_reply. }
  registered Hk.
  { unfold handleDelete. case_decide; [done|].
    destruct (MemFS.Remove _ _ _) as [[[]|e] f]; [flag_reply|apply fs_error_text]. }
  registered Hk; [|by apply (lookup_empty_Some (M:=gmap string)) in Hk].
  unfold handleWrite. case_decide; [done|]. destruct (decodeContent _ _) as [d|e] eqn:Hd.
  - destruct (write_fs _ _ _ _) as [[[]|e] f]; [flag_reply|apply fs_error_text].
  - unfold decodeContent in Hd. repeat case_match; simplify_eq. apply Hc.
Qed.

(** C13: whatever a frame is and whatever the node holds, the node sends at most one reply, and
    one exactly when the frame is a request (and no presence frame); the reply decodes as
    a message of version 1 with the request's identifier, which is either an error with a
    text and no result, or a success whose result has the type of the request's method:
    every member promised is there, none other is, and each has its type. *)
Theorem replies_typed t now raw n : (∀ s, corrupt s ≠ "") → sized n →
  let n' := onData t now raw n in
  match (if NodeFacts.presence raw then None else Decode raw) with
  | Some req =>
      if decide (Type_ req = TypeReq) then
        ∃ reply m, sent n' = sent n ++ [reply] ∧ Decode reply = Some m ∧
          V m = 1%Z ∧ Type_ m = TypeRes ∧ ID m = ID req ∧ Method m = "" ∧ Params m = ∅ ∧
          if OK m then Err_ m = "" ∧
            ∃ T, reply_type (ToUpper (Method req)) = Some T ∧ has_type T (jmap (Result m)) = true
          else Err_ m ≠ "" ∧ Result m = ∅
      else sent n' = sent n
  | None => sent n' = sent n
  end.
Proof.
  intros Hc Hn n'. subst n'. destruct (NodeFacts.presence raw) eqn:Hp.
  { rewrite NodeFacts.onData_presence by done. destruct (NodeFacts.offline raw); [|done].
    unfold startGrace. by destruct (_ <=? 0)%Z. }
  rewrite NodeFacts.onData_request by done. unfold Dispatch.
  destruct (Decode raw) as [req|] eqn:Hd; [|done]. case_decide as Hreq; [|done].
  pose proof (tx_id _ (Decode_textual _ _ Hd)) as Hid%(bool_decide_eq_true (_ = _)).
  destruct (handlers t now !! ToUpper (Method req)) as [h|] eqn:Hh.
  - assert (sized (cancelGrace n)) as Hn' by (destruct Hn; by split).
    pose proof (handlers_typed t now _ h req (cancelGrace n) Hc Hn' eq_refl Hh) as Hans.
    destruct (NodeFacts.handler_frame sha corrupt t now _ h req (cancelGrace n) Hh eq_refl) as (_ & _ & Hsent).
    destruct (h req (cancelGrace n)) as [[res|e] n1]; simpl in Hans, Hsent.
    + destruct Hans as (T & HT & Hs & Hty). eexists _, _. split; [unfold send; simpl; by rewrite Hsent|].
      split; [exact (reply_received _ true res "" Hid Hs)|]. do 5 (split; [done|]).
      split; [done|]. by exists T.
    + eexists _, _. split; [unfold send; simpl; by rewrite Hsent|].
      split; [exact (reply_received _ false ∅ e Hid (map_Forall_empty _))|]. do 5 (split; [done|]). simpl.
      split; [by rewrite coerce_empty|]. apply (fmap_empty (M:=gmap string)).
  - eexists _, _. split; [done|].
    split; [exact (reply_received _ false ∅ _ Hid (map_Forall_empty _))|]. do 5 (split; [done|]). simpl.
    split; [by rewrite coerce_empty|]. apply (fmap_empty (M:=gmap string)).
Qed.

End node.

(** *** A concrete run *)

Import NodeDemo.

Definition illegal : string → string := λ _, "illegal base64 data".
Definition held : MemoryNode (W:=host) := Node.onData id id illegal (λ _, clk) 2000 write_frame node1.
Definition manifest_frame : string := Encode (NewRequest "7" "Manifest" ∅).

Lemma held_sized : sized held.
Proof.
  set (f0 := MemFS.New clk 0).
  set (f1 := (FSSpec.exec clk f0 (FSSpec.OMkdirAll "/etc" 493)).2).
  set (f2 := (FSSpec.exec clk f1 (FSSpec.OWrite "/etc/k" (of_string "secret") 384)).2).
  assert (FSReach.reach f1) as H1 by (apply FSReach.reach_step; [apply FSReach.reach_new|vm_compute; reflexivity]).
  assert (FSReach.reach f2) as H2 by (apply FSReach.reach_step; [done|vm_compute; reflexivity]).
  assert (node_fs held = f2) as Hf by (vm_compute; reflexivity).
  split; [by rewrite Hf| |]; vm_compute; split; congruence.
Qed.

Lemma replies_typed_witness :
  let n' := Node.onData id id illegal (λ _, clk) 3000 manifest_frame held in
  ∃ reply m, sent n' = sent held ++ [reply] ∧ Decode reply = Some m ∧ ID m = "7" ∧ OK m = true ∧
    has_type manifest_type (jmap (Result m)) = true.
Proof.
  intros n'.
  pose proof (replies_typed id id illegal (λ _, clk) 3000 manifest_frame held ltac:(done) held_sized) as Hr.
  assert (NodeFacts.presence manifest_frame = false) as Hp by (vm_compute; reflexivity).
  assert (Decode manifest_frame = Some (NewRequest "7" "Manifest" ∅)) as Hd by (vm_compute; reflexivity).
  cbv zeta in Hr. rewrite Hp, Hd in Hr. rewrite decide_True in Hr by done.
  destruct Hr as (reply & m & Hs & Hm & _ & _ & Hid & _ & _ & Hres). exists reply, m.
  split; [exact Hs|]. split; [exact Hm|]. split; [exact Hid|].
  assert (OK m = true) as Hok.
  { assert (∃ m0, (r ← last (sent n'); Decode r) = Some m0 ∧ OK m0 = true) as (m0 & Hl & Hok)
      by (eexists; split; vm_compute; reflexivity).
    unfold n' in Hl. rewrite Hs, last_snoc in Hl. cbn [mbind option_bind] in Hl. rewrite Hm in Hl.
    by injection Hl as ->. }
  split; [exact Hok|]. rewrite Hok in Hres. destruct Hres as (_ & T & HT & Hty).
  assert (reply_type (ToUpper (Method (NewRequest "7" "Manifest" ∅))) = Some manifest_type) as HM
    by (vm_compute; reflexivity).
  rewrite HM in HT. by injection HT as <-.
Defined.

End NodeTypes.
