(* ===== verification/DaemonTheorems.v ===== *)
(** * What the daemon guarantees, and what it does not

    The token guards the control API and the WebDAV server, a lost vault locks the
    daemon, a recursive removal takes exactly the subtree; and a failing unmount
    leaves the WebDAV server up. *)
From S2P Require Import Prelude GoStrings GoPath GoJson GoFloat GoJsonPrint GoTime GoHttp.
From S2P Require Import Config MemFS MemFSFacts MemFSSpec MemFSRefine MemFSProps MemFSCases.
From S2P Require Import Node NodeTheorems Mounter Repo Daemon ControlAPI Serve DaemonFacts.
Import GoStr GoJson GoFloat JsonPrint GoHttp Daemon ControlAPI Serve DaemonFacts ControlFacts.
Import FSFacts FSReach.

(** ** A small daemon *)

Module DaemonDemo.

(** A git repository: its commits and what is staged. *)
Record toy_git := MkToy { commits : list string; staged : option string }.

#[export] Instance toy : Repo.GoGit toy_git := {|
  Repo.PlainInit := MkToy [] None;
  Repo.Add t g := MkToy (commits g) (Some t);
  Repo.IsClean g := bool_decide (staged g = None ∨ staged g = head (commits g));
  Repo.CommitTree m g := (m, MkToy (default "" (staged g) :: commits g) (staged g));
  Repo.log := commits;
|}.

#[export] Instance toy_laws : Repo.GoGitLaws toy_git.
Proof.
  split; [done|done| |done]. intros t g. simpl.
  apply bool_decide_ext. naive_solver.
Qed.

Definition conf : Config.Config :=
  Config.MkConfig false "/mnt" "127.0.0.1:0" "s3cret" "/run" "127.0.0.1:0" false false "" "/git"
    5242880 true "ws" 300 "" "" "/av" false.

Definition outcome (unmounts : bool) : Mounter.Outcome :=
  Mounter.MkOutcome None true unmounts (Ok "127.0.0.1:4040") None.

Definition env (unmounts : bool) : Env :=
  MkEnv (outcome unmounts) (outcome true) (λ _, None) "key" None
    (λ _ i, (1700000000 + Z.of_nat i)%Z) 1700000000.

Definition dummy : Daemon (G:=toy_git) :=
  MkDaemon conf (MemFS.New (clock (env true) 0) 0) Mounter.StubM
    (Webdav.NewWebdavMounter "" "" false) (Repo.MkRepo (MkToy [] None) None "") false "" false
    false "" None [] None false.

Definition d0 : Daemon :=
  match New (env true) true (None : option toy_git) conf with Ok d => d | Err _ => dummy end.
Definition hmac : string → bytes → string := λ _ b, to_string b.
Definition go : event → Daemon → Daemon := run hmac id (env true).
Definition d1 : Daemon := go EReady (go EMounter (go EWebdav (go EMount d0))).

Definition q (s : string) : string := String "034" (s +:+ String "034" "").
Definition post (path content : string) : Request :=
  MkRequest "POST" "/files" ("path=" +:+ path) {["X-Valet-Token" := "s3cret"]}
    ("{" +:+ q "content" +:+ ":" +:+ q content +:+ "}").
Definition delete_r (path : string) : Request :=
  MkRequest "DELETE" "/files" ("recursive=1&path=" +:+ path) {["X-Valet-Token" := "s3cret"]} "".
Definition d2 : Daemon := go (ERequest (post "/keys/aws/id" "A")) (go (ERequest (post "/b" "B")) d1).

End DaemonDemo.

Module DaemonTheorems.
Import DaemonDemo.

Section theorems.
Context {G : Type} `{Repo.GoGit G}.
Context (hmac_hex : string → bytes → string) (decode_error : string → string).

Local Abbreviation Daemon := (Daemon.Daemon (G:=G)).

(** C16: a request that does not carry the control token changes nothing and learns
    nothing: the answer is the same whatever the daemon holds.  A daemon without a
    token accepts no request at all. *)
Theorem control_requires_token env (d : Daemon) r :
  (auth d r = true ↔ Config.ControlToken (cfg d) ≠ "" ∧
     (header r "X-Valet-Token" = Config.ControlToken (cfg d) ∨
      header r "X-Valet-Token" = "" ∧ query r "token" = Config.ControlToken (cfg d))) ∧
  (auth d r = false →
   ControlAPI.serve hmac_hex decode_error env r d =
     (if decide (Path r ∈ ["/mount"; "/unmount"; "/sync"; "/status"; "/files"; "/mkdir";
                           "/rmdir"; "/shutdown"]) then unauthorized else not_found, d)).
Proof.
  split.
  - unfold auth. destruct (decide (header r "X-Valet-Token" = "")) as [He|He].
    + rewrite He. destruct (bool_decide _ || bool_decide _) eqn:Hb;
        [apply orb_true_iff in Hb as [Hb%bool_decide_eq_true|Hb%bool_decide_eq_true]
        |apply orb_false_iff in Hb as [Hb%bool_decide_eq_false Hb'%bool_decide_eq_false]];
        rewrite ?bool_decide_eq_true; naive_solver congruence.
    + destruct (bool_decide _ || bool_decide _) eqn:Hb;
        [apply orb_true_iff in Hb as [Hb%bool_decide_eq_true|Hb%bool_decide_eq_true]
        |apply orb_false_iff in Hb as [Hb%bool_decide_eq_false Hb'%bool_decide_eq_false]];
        rewrite ?bool_decide_eq_true; naive_solver congruence.
  - intros Ha. unfold ControlAPI.serve.
    destruct (find _ (routes hmac_hex decode_error env)) as [[k h]|] eqn:Hf.
    + apply find_some in Hf as [Hin Hk]. apply list_elem_of_In in Hin.
      apply bool_decide_eq_true in Hk. simpl in Hk. subst k. cbn [snd].
      rewrite (handlers_refuse _ _ _ _ _ _ _ Hin Ha), decide_True; [done|].
      by apply (list_elem_of_fmap_2 fst) in Hin.
    + rewrite decide_False; [done|]. intros Hin.
      change (Path r ∈ (routes hmac_hex decode_error env).*1) in Hin.
      apply list_elem_of_fmap in Hin as ([k h] & Hk & Hin). apply list_elem_of_In in Hin.
      apply (find_none _ _ Hf) in Hin. simpl in *. by rewrite <- Hk, bool_decide_eq_false in Hin.
Qed.

(** C17: in whatever order requests, hooks and goroutines run, a WebDAV server that
    accepts connections (the daemon's own or the fallback mounter's) has a token,
    is bound to loopback unless remote access was allowed, and refuses without
    reaching the file system every request none of whose carriers is the token. *)
Theorem webdav_never_open (d : Daemon) w :
  reachable hmac_hex decode_error d →
  w = webdav d ∨ mounter d = Mounter.FallbackM w →
  Webdav.live w ≠ [] →
  Config.ControlToken (cfg d) ≠ "" ∧
  (Config.WebdavAllowRemote (cfg d) = true ∨ Webdav.isLoopbackAddr (Webdav.addr w) = true) ∧
  ∀ next r f,
    (∀ user, BasicAuth r ≠ Some (user, Config.ControlToken (cfg d))) →
    header r "Authorization" ≠ "Bearer " +:+ Config.ControlToken (cfg d) →
    query r "token" ≠ Config.ControlToken (cfg d) →
    Webdav.authHandler w next r f = (Webdav.unauthorized, f).
Proof.
  intros Hd Hw Hl. pose proof (ok_reachable _ _ _ Hd) as [H1 H2].
  assert (gated w (cfg d)) as (Ht & Hr & Hg).
  { destruct Hw as [->|Hm]; [done|]. by rewrite Hm in H2. }
  destruct (Hg Hl) as [Hne Hloop]. rewrite <- Ht, <- Hr. split_and!; [done|done|].
  intros next r f Hb Hh Hq. unfold Webdav.authHandler, Webdav.authorize, Webdav.tokenEqual.
  rewrite decide_False by done.
  assert (match BasicAuth r with Some (_, pass) => bool_decide (pass = Webdav.token w)
          | None => false end = false) as ->.
  { destruct (BasicAuth r) as [[u pass]|]; [|done]. apply bool_decide_eq_false.
    intros ->. by apply (Hb u). }
  assert (HasPrefix (header r "Authorization") "Bearer " &&
          bool_decide (TrimPrefix (header r "Authorization") "Bearer " = Webdav.token w)
          = false) as ->.
  { destruct (HasPrefix _ _) eqn:Hp; [|done]. apply HasPrefix_spec in Hp as [t Heq].
    rewrite Heq in Hh |- *. rewrite TrimPrefix_app. simpl. apply bool_decide_eq_false.
    intros ->. by apply Hh. }
  by rewrite bool_decide_eq_false_2.
Qed.

(** *** Locking *)

Lemma lock_fs env (d : Daemon) : fs (lock env d) = MemFS.Wipe (clock env 0) (fs d).
Proof.
  unfold lock, WipeHistory, Wipe. set (d' := (Unmount env d).2).
  assert (fs d' = fs d) as <-.
  { subst d'. unfold Unmount. repeat (case_match; try done). }
  by destruct (Repo.Wipe _ _ _).
Qed.

Lemma lock_mounted env (d : Daemon) : mounted (lock env d) = false.
Proof.
  unfold lock, WipeHistory, Wipe. set (d' := (Unmount env d).2).
  assert (mounted d' = false) as <-.
  { subst d'. unfold Unmount. destruct (mounted d) eqn:Hm; simpl; [|done].
    repeat (case_match; try done). }
  by destruct (Repo.Wipe _ _ _).
Qed.

Lemma lock_repo `{!Repo.GoGitLaws G} env (d : Daemon) : repo_os env 0 = None →
  Repo.log (Repo.repo (repo (lock env d))) = [] ∧ Repo.manifest (repo (lock env d)) = None.
Proof.
  intros Hos. unfold lock, WipeHistory, Wipe. unfold Repo.Wipe. rewrite Hos.
  repeat case_match; simplify_eq/=; (split; [apply Repo.log_init|done]).
Qed.

Lemma lock_webdav env (d : Daemon) :
  webdav (lock env d) = webdav (Unmount env d).2 ∧
  mounter (lock env d) = mounter (Unmount env d).2 ∧
  webdavOn (lock env d) = webdavOn (Unmount env d).2.
Proof. unfold lock, WipeHistory, Wipe. by destruct (Repo.Wipe _ _ _). Qed.

Lemma Unmount_stops env (d : Daemon) m :
  mounted d = true → Mounter.Unmount (mount_os env) (mounter d) = (None, m) →
  mounter (Unmount env d).2 = m ∧ webdavOn (Unmount env d).2 = false ∧
  (Config.WebdavDisabled (cfg d) = false → ∀ a, Webdav.srv (webdav d) = Some a →
   a ∉ Webdav.live (webdav (Unmount env d).2)).
Proof.
  intros Hm Hu. unfold Unmount. rewrite Hm. cbn [negb mounter set_flags].
  rewrite Hu. cbn [cfg set_mounters set_flags].
  destruct (Config.WebdavDisabled (cfg d)); [done|].
  destruct (Webdav.Unmount _ _) as [r w] eqn:Hw. split_and!; [done..|]. intros _ a Ha.
  cbn [webdav set_mounters set_flags] in Hw. unfold Webdav.Unmount in Hw. rewrite Ha in Hw.
  injection Hw as <- <-. simpl. intros Hin. by apply list_elem_of_filter in Hin as [? _].
Qed.


(** When the platform mounter fails to unmount, the daemon says it is unmounted
    and serves nothing, but its WebDAV servers go on accepting connections; and
    since it says so, no later unmount or lock stops them. *)
Theorem failed_unmount_keeps_webdav env (d : Daemon) e m :
  mounted d = true → Mounter.Unmount (mount_os env) (mounter d) = (Some e, m) →
  let d' := (Unmount env d).2 in
  mounted d' = false ∧ webdavOn d' = false ∧
  Webdav.live (webdav d') = Webdav.live (webdav d) ∧
  (∀ env' r, auth d' r = true →
    handleStatus env' r d' = (writeJSON StatusOK (jmap (status_body env' d')), d') ∧
    status_body env' d' !! "serving" = Some (JBool false)) ∧
  ∀ env', (Unmount env' d').2 = d' ∧
    Webdav.live (webdav (lock env' d')) = Webdav.live (webdav d).
Proof.
  intros Hm Hu d'.
  assert (d' = set_mounters m (webdav d) (set_flags false "" false d)) as Hd'.
  { subst d'. unfold Unmount. rewrite Hm. cbn [negb mounter set_flags]. by rewrite Hu. }
  clearbody d'. subst d'. split_and!; [done..| |].
  - intros env' r Ha. unfold handleStatus. rewrite Ha. split; [done|].
    unfold status_body. apply lookup_union_Some_raw. right. split; [|done].
    unfold grace_fields. simpl. destruct (graceState d) as [fn|]; [|done].
    destruct (fn (now env')) as [[c []] l]; done.
  - intros env'. split; [done|]. destruct (lock_webdav env' (set_mounters m (webdav d)
      (set_flags false "" false d))) as [-> _]. done.
Qed.

(** C19: an authorised recursive DELETE of a path that exists removes exactly what is
    at it and below it, terminates, and touches nothing else of the daemon.  The
    root itself stays: emptying it is reported as an error. *)
Theorem recursive_delete env (d : Daemon) r parts :
  reach (fs d) → auth d r = true → Path r = "/files" → Method r = "DELETE" →
  query r "recursive" = "1" → MemFS.normalize (query r "path") = Ok parts →
  is_Some (view (fs d) parts) →
  ∃ f, reach f ∧
    ControlAPI.serve hmac_hex decode_error env r d =
      (if decide (parts = []) then fs_fail StatusNotFound MemFS.ErrInvalidPath
       else writeJSON StatusOK ok_body, set_fs f d) ∧
    ∀ q, view f q = if decide (parts `prefix_of` q ∧ q ≠ []) then None else view (fs d) q.
Proof.
  intros Hr Ha Hpath Hmeth Hrec Hn Hs.
  destruct (removeRecursive_spec (clock env) (S (FSFacts.height (MemFS.root (fs d)))) 0
    (query r "path") (fs d) parts Hr Hn Hs (bounded_height _ _)) as (res & f & Hx & Hr' & Hres & Hv).
  exists f. split; [done|]. split; [|exact Hv].
  assert (ControlAPI.serve hmac_hex decode_error env r d = handleFiles decode_error env r d) as ->
    by (unfold ControlAPI.serve; by rewrite Hpath).
  unfold handleFiles. rewrite Ha, Hmeth. cbn [negb].
  rewrite decide_False by (intros Hq; by rewrite Hq in Hn).
  repeat rewrite decide_False by naive_solver. rewrite decide_True by done.
  unfold deleteFile. rewrite Hrec, decide_True, Hx by done.
  destruct (decide (parts = [])) as [->|Hne]; [by subst res|]. by destruct res.
Qed.

End theorems.
(** ** Concrete runs *)

Lemma reach_d2 : reachable hmac id d2.
Proof. repeat apply reach_run. by apply (Serve.reach_new _ _ (env true) true None conf). Defined.

(** The goroutine of [Mount] that runs after an [Unmount] starts the server of a
    daemon that is not mounted. *)
Lemma late_start_serves :
  let d := go EWebdav (go EUnmount (go EMount d0)) in
  mounted d = false ∧ webdavOn d = false ∧ Webdav.live (webdav d) = ["127.0.0.1:4040"].
Proof. vm_compute. done. Qed.

(** With a fixed address the readiness poll answers before anything listens. *)
Lemma ready_without_server :
  let w := Webdav.NewWebdavMounter "127.0.0.1:8088" "s3cret" false in
  let d := go EReady (go EMount (set_mounters (mounter d0) w d0)) in
  webdavOn d = true ∧ Webdav.live (webdav d) = [].
Proof. vm_compute. done. Qed.

Lemma control_requires_token_witness :
  let r := MkRequest "GET" "/files" "path=/b&token=guess" ∅ "" in
  auth d2 r = false ∧ ControlAPI.serve hmac id (env true) r d2 = (unauthorized, d2).
Proof.
  split; [vm_compute; done|].
  apply (proj2 (control_requires_token hmac id (env true) d2
    (MkRequest "GET" "/files" "path=/b&token=guess" ∅ ""))). vm_compute. done.
Defined.

Lemma webdav_never_open_witness :
  let r := MkRequest "GET" "/b" "" {["Authorization" := "Bearer guess"]} "" in
  Webdav.live (webdav d2) = ["127.0.0.1:4040"] ∧
  Webdav.authHandler (webdav d2) (λ _ f, (not_found, f)) r (fs d2) = (Webdav.unauthorized, fs d2).
Proof.
  split; [vm_compute; done|].
  destruct (webdav_never_open hmac id d2 (webdav d2) reach_d2 (or_introl eq_refl)) as (_&_&Hw).
  - vm_compute. done.
  - apply Hw; [intros user; vm_compute; done|vm_compute; done|vm_compute; done].
Defined.

Definition gone : string :=
  "{" +:+ q "sys" +:+ ":" +:+ q "peer_offline" +:+ "," +:+ q "role" +:+ ":" +:+ q "vault" +:+ "}".


Lemma failed_unmount_keeps_webdav_witness :
  let d' := (Unmount (env false) d2).2 in
  mounted d2 = true ∧ mounted d' = false ∧ Webdav.live (webdav d') = Webdav.live (webdav d2).
Proof.
  split; [vm_compute; done|].
  destruct (failed_unmount_keeps_webdav (env false) d2 "fuse unmount returned false"
    (mounter d2)) as (H1&_&H2&_); [vm_compute; done..|]. split; [exact H1|exact H2].
Defined.

Lemma reach_fs_d2 : reach (fs d2).
Proof.
  pose (t := clock (env true)).
  pose (f0 := fs d0).
  pose (f1 := (FSSpec.exec (t 1) f0 (FSSpec.OWrite "/b" (of_string "B") 384)).2).
  pose (f2 := (FSSpec.exec (t 0) f1 (FSSpec.OMkdirAll "/keys/aws" 493)).2).
  pose (f3 := (FSSpec.exec (t 1) f2 (FSSpec.OWrite "/keys/aws/id" (of_string "A") 384)).2).
  assert (reach f0) by apply FSReach.reach_new.
  assert (reach f1) by (apply reach_step; [done|vm_compute; done]).
  assert (reach f2) by (apply reach_step; [done|vm_compute; done]).
  assert (reach f3) by (apply reach_step; [done|vm_compute; done]).
  assert (fs d2 = f3) as -> by (vm_compute; done). done.
Defined.

Lemma recursive_delete_witness :
  ∃ f, ControlAPI.serve hmac id (env true) (delete_r "keys/../keys/") d2 =
         (writeJSON StatusOK ok_body, set_fs f d2) ∧
       view f ["keys"; "aws"; "id"] = None ∧ view f ["b"] = Some (EFile (of_string "B")).
Proof.
  destruct (recursive_delete hmac id (env true) d2 (delete_r "keys/../keys/") ["keys"] reach_fs_d2)
    as (f & _ & Hs & Hv); [vm_compute; done..|vm_compute; by eexists|].
  exists f. split; [exact Hs|]. rewrite !Hv. split; vm_compute; done.
Defined.

End DaemonTheorems.
