(* ===== verification/ConfigProps.v ===== *)
(** * The configuration in force: properties of [Load] *)
From S2P Require Import Prelude GoStrings GoPath GoJson GoFlag Config MemFS Repo Daemon DaemonTheorems.
Import GoStr GoPath GoJson GoFlag Config.

Module ConfigTheorems.

Lemma in_i64_read k v z : read_value k v = Some (VInt z) → in_i64 z.
Proof.
  destruct k; simpl; [by destruct (ParseBool v)|done|].
  unfold ParseInt0. intros Hz. destruct (match v with String "-" r => _ | _ => _ end) as [neg m].
  destruct (parse_magnitude m); [|done]. simpl in Hz. by case_decide; simplify_eq/=.
Qed.

(** Integers of a parsed command line are in range. *)
Definition ints_ok (l : assignments) : Prop := Forall (λ a, ∀ z, a.2 = VInt z → in_i64 z) l.

Lemma ints_prepend n v r l rest : (∀ z, v = VInt z → in_i64 z) →
  (∀ l rest, r = Ok (l, rest) → ints_ok l) → prepend (n, v) r = Ok (l, rest) → ints_ok l.
Proof.
  intros Hv Hr. destruct r as [[l' rest']|]; [|done]. intros [= <- <-].
  constructor; [done|by eapply Hr].
Qed.

Lemma ints_set k n v r l rest :
  (∀ l rest, r = Ok (l, rest) → ints_ok l) → set_from k n v r = Ok (l, rest) → ints_ok l.
Proof.
  intros Hr. unfold set_from. destruct (read_value k v) as [x|] eqn:Hx; [|done].
  apply ints_prepend; [|done]. intros z ->. by eapply in_i64_read.
Qed.

Lemma Parse_ints flags n args l rest : length args ≤ n →
  Parse flags args = Ok (l, rest) → ints_ok l.
Proof.
  revert args l rest. induction n as [|n IH]; intros args l rest Hn.
  { destruct args; [|simpl in Hn; lia]. intros [= <- <-]. constructor. }
  destruct args as [|s args]; [intros [= <- <-]; constructor|].
  simpl in Hn. cbn [Parse]. destruct (flag_name s) as [name|]; [|intros [= <- <-]; constructor].
  destruct (decide (s = "--")); [intros [= <- <-]; constructor|].
  destruct (bad_name name); [done|]. destruct (split_value name) as [name' value].
  assert (∀ l rest, Parse flags args = Ok (l, rest) → ints_ok l) as Hargs.
  { intros l' rest' Hp. eapply IH; [|done]. lia. }
  destruct (lookup_flag flags name') as [[]|]; [| | |by case_decide].
  - destruct value; [by apply ints_set|]. by apply ints_prepend.
  - destruct value; [by apply ints_set|]. destruct args as [|v args]; [done|].
    apply ints_set. intros l' rest'. apply IH. simpl in Hn. lia.
  - destruct value; [by apply ints_set|]. destruct args as [|v args]; [done|].
    apply ints_set. intros l' rest'. apply IH. simpl in Hn. lia.
Qed.

Lemma flag_int_range l name d : ints_ok l → in_i64 d → in_i64 (flag_int l name d).
Proof.
  intros Hl Hd. unfold flag_int, last_value.
  destruct (last _) as [[n v]|] eqn:Hlast; [|done]. simpl.
  apply last_Some_elem_of, list_elem_of_filter in Hlast as [_ Hin].
  unfold ints_ok in Hl. rewrite Forall_forall in Hl. specialize (Hl _ Hin). destruct v; [done..|]. by apply Hl.
Qed.

Lemma Load_quota env home random args c : Load env home random args = Ok c →
  ∃ l rest, Parse serve_flags args = Ok (l, rest) ∧
    QuotaBytes c = i64 (i64 (flag_int l "quota-mb" 5 * 1024) * 1024).
Proof.
  unfold Load. destruct (Parse serve_flags args) as [[l rest]|]; [|done].
  intros Hc. exists l, rest. split; [done|].
  destruct (decide _) in Hc; [done|]. destruct (decide _) in Hc; [destruct random|]; by simplify_eq/=.
Qed.

Lemma i64_mebi mb : i64 (i64 (mb * 1024) * 1024) = i64 (mb * 2 ^ 20).
Proof.
  apply i64_congr. rewrite <- Z.mul_mod_idemp_l, i64_mod, Z.mul_mod_idemp_l by done.
  f_equal. lia.
Qed.

(** C25: the quota in force is [--quota-mb] mebibytes exactly while that many bytes fit
    an [int64]; from 2^43 on it wraps around, and where it wraps to zero or below (2^43
    itself, 2^44) the daemon starts without any quota: no write is refused for space. *)
Theorem quota_bounds {G} `{Repo.GoGit G} env home random args c l rest denv fuse g d :
  Load env home random args = Ok c → Parse serve_flags args = Ok (l, rest) →
  Daemon.New denv fuse g c = Ok d →
  let mb := flag_int l "quota-mb" 5 in
  in_i64 mb ∧
  MemFS.quota (Daemon.fs d) = QuotaBytes c ∧
  ((- 2 ^ 43 ≤ mb < 2 ^ 43)%Z ↔ QuotaBytes c = (mb * 2 ^ 20)%Z) ∧
  ((mb mod 2 ^ 44 = 0 ∨ 2 ^ 43 ≤ mb mod 2 ^ 44)%Z →
     ∀ old new, MemFS.over_quota (Daemon.fs d) old new = false).
Proof.
  intros Hload Hparse Hnew mb.
  destruct (Load_quota _ _ _ _ _ Hload) as (l' & rest' & Hp & Hq).
  rewrite Hparse in Hp. injection Hp as <- <-. fold mb in Hq. rewrite i64_mebi in Hq.
  assert (MemFS.quota (Daemon.fs d) = QuotaBytes c) as Hfs.
  { unfold Daemon.New in Hnew. destruct (Repo.Open _ _ _); by simplify_eq/=. }
  split; [|split; [done|split]].
  - apply flag_int_range; [by eapply Parse_ints|]. unfold in_i64, two63. lia.
  - rewrite Hq. unfold i64, two63, two64. split; [intros Hmb|intros Heq].
    + rewrite Z.mod_small; lia.
    + pose proof (Z.mod_pos_bound (mb * 2 ^ 20 + 2 ^ 63) (2 ^ 64) ltac:(lia)). lia.
  - intros Hmb old new. unfold MemFS.over_quota.
    assert (QuotaBytes c ≤ 0)%Z as Hle.
    { rewrite Hq. unfold i64, two63, two64.
      rewrite (Z.div_mod mb (2 ^ 44)) at 1 by lia.
      set (k := (mb / 2 ^ 44)%Z). pose proof (Z.mod_pos_bound mb (2 ^ 44) ltac:(lia)).
      set (r := (mb mod 2 ^ 44)%Z) in *.
      replace ((2 ^ 44 * k + r) * 2 ^ 20 + 2 ^ 63)%Z
        with (r * 2 ^ 20 + 2 ^ 63 + k * 2 ^ 64)%Z by lia.
      rewrite Z.mod_add by lia. destruct Hmb as [->|Hr]; [by vm_compute|].
      replace (r * 2 ^ 20 + 2 ^ 63)%Z with (r * 2 ^ 20 - 2 ^ 63 + 1 * 2 ^ 64)%Z by lia.
      rewrite Z.mod_add by lia. rewrite Z.mod_small; lia. }
    rewrite Hfs. by destruct (Z.ltb_spec 0 (QuotaBytes c)); [lia|].
Qed.

(** ** Example: a quota of 2^44 mebibytes *)

#[local] Existing Instance DaemonDemo.toy.

Definition huge : list string := ["--quota-mb=17592186044416"].
Definition unset : environ := λ _, "".
Definition huge_conf : Config :=
  match Load unset (Some "/home/u") (Ok "tok") huge with Ok c => c | Err _ => DaemonDemo.conf end.
Definition huge_daemon : Daemon.Daemon (G:=DaemonDemo.toy_git) :=
  match Daemon.New (DaemonDemo.env true) true None huge_conf with
  | Ok d => d
  | Err _ => DaemonDemo.dummy
  end.

Lemma quota_bounds_witness :
  in_i64 17592186044416 ∧
  MemFS.quota (Daemon.fs huge_daemon) = QuotaBytes huge_conf ∧
  ((- 2 ^ 43 ≤ 17592186044416 < 2 ^ 43)%Z ↔ QuotaBytes huge_conf = (17592186044416 * 2 ^ 20)%Z) ∧
  ((17592186044416 mod 2 ^ 44 = 0 ∨ 2 ^ 43 ≤ 17592186044416 mod 2 ^ 44)%Z →
     ∀ old new, MemFS.over_quota (Daemon.fs huge_daemon) old new = false).
Proof.
  apply (quota_bounds unset (Some "/home/u") (Ok "tok") huge huge_conf
    [("quota-mb", VInt 17592186044416)] [] (DaemonDemo.env true) true None); by vm_compute.
Defined.

(** The defaults, with nothing set: five mebibytes. *)
Example default_quota :
  match Load unset None (Ok "tok") [] with Ok c => QuotaBytes c | Err _ => 0%Z end = 5242880%Z.
Proof. by vm_compute. Qed.

End ConfigTheorems.
