(* ===== verification/Cli.v ===== *)
(** * cmd/valetfs: the commands that talk to a running daemon

    A command is a computation over the daemon it talks to, the files of the machine
    and what it prints.  A request goes through [ControlAPI.serve]: the query is
    encoded and parsed, the answer printed and decoded.  [None] is a computation that
    has not ended within its fuel ([fsCopy] recurses over what the daemon lists). *)
From stdpp Require Import pretty.
From S2P Require Import Prelude GoStrings GoPath GoJson GoUtf8 GoFloat GoJsonPrint GoHttp.
From S2P Require Import GoFlag Config MemFS Repo Daemon ControlAPI.
Import GoStr GoPath GoJson UTF8 GoFloat JsonPrint GoHttp GoFlag Daemon.

Module Cli.

(** ** Errors *)

(** What is wrong with the arguments of [exec]; [Help] is the sentinel of [--help]. *)
Inductive exec_error :=
  | Help
  | NoSeparator
  | NoCommand
  | NeedsValue (flag : string)
  | BadName (flag name : string)
  | UnknownOption (a : string)
  | NoVaultPath (flag name : string)
  | NothingToInject.

(** What is wrong with a line of an env file. *)
Inductive line_error := NotKeyValue (line : nat) | UnusableName (line : nat).

Inductive cli_error :=
  | MissingCommand
  | NoDaemon                                   (* no usable runtime.json *)
  | CannotConnect
  | ApiFailed (method path msg : string)
  | BadReply
  | FlagError (e : flag_error)
  | UsageError (cmd : string)
  | HostPath (cmd p : string) (vault_like : bool)
  | DestinationExists (p : string)
  | OmittingDirectory (p : string)
  | IsDirectory (p : string)
  | NeedsFsPath (cmd : string) (hint : option string)
  | HostError (op p : string)
  | ExecError (e : exec_error)
  | CannotRead (p : string) (e : cli_error)
  | IsADirectory (p : string)
  | EnvFileError (p : string) (e : line_error)
  | NoVariables (p : string)
  | CannotStart (cmd : string)
  | WaitError (e : string)
  | OtherError (e : string).

(** ** The world of a command *)

Inductive host_entry := HFile (body : string) | HDir.

#[export] Instance host_entry_eq_dec : EqDecision host_entry.
Proof. solve_decision. Defined.

(** The files of the machine, by cleaned path. *)
Abbreviation Host := (gmap string host_entry).

Section Cli.
Context {G : Type} `{Repo.GoGit G}.
Context (hmac_hex : string → bytes → string) (decode_error : string → string).

Record World := MkWorld {
  dmn : Daemon (G:=G);
  sent : nat;
  host : Host;
  out : list string;
  notes : list string;
}.

(** What is outside: whether the [n]-th request to an address gets through, what the
    operating system answers the daemon then, and which calls on a file fail. *)
Record Env := MkEnv {
  up : string → nat → bool;
  denv : nat → Daemon.Env;
  hfail : string → string → bool;
}.

Context (env : Env).

Definition cli (A : Type) : Type := World → option (result cli_error A * World).

#[export] Instance cli_ret : MRet cli := λ A a w, Some (Ok a, w).
#[export] Instance cli_bind : MBind cli := λ A B k c w,
  match c w with
  | Some (Ok a, w) => k a w
  | Some (Err e, w) => Some (Err e, w)
  | None => None
  end.

Definition throw {A} (e : cli_error) : cli A := λ w, Some (Err e, w).

(** Look at the error instead of failing. *)
Definition attempt {A} (c : cli A) : cli (result cli_error A) := λ w,
  match c w with Some (r, w) => Some (Ok r, w) | None => None end.

Definition emit (s : string) : cli () := λ w,
  Some (Ok tt, MkWorld (dmn w) (sent w) (host w) (out w ++ [s]) (notes w)).
Definition print_line (s : string) : cli () := emit (s +:+ str1 newline).
Definition note (s : string) : cli () := λ w,
  Some (Ok tt, MkWorld (dmn w) (sent w) (host w) (out w) (notes w ++ [s])).

(** ** Requests *)

(** Where the daemon is, and the token for it. *)
Record runtimeState := MkState { ControlAddr : string; ControlToken : string }.

Context (st : runtimeState).

Definition request (method path : string) (q : list (string * string)) (body : option string)
  : Request :=
  let h := {["X-Valet-Token" := ControlToken st]} in
  MkRequest method path (EncodeQuery q)
    (match body with Some _ => <["Content-Type" := "application/json"]> h | None => h end)
    (default "" body).

Definition apiReq (method path : string) (q : list (string * string)) (body : option string)
  : cli string := λ w,
  if up env (ControlAddr st) (sent w) then
    let (resp, d) := ControlAPI.serve hmac_hex decode_error (denv env (sent w))
                       (request method path q body) (dmn w) in
    let w := MkWorld d (S (sent w)) (host w) (out w) (notes w) in
    if (300 <=? Status resp)%Z
    then Some (Err (ApiFailed method path (TrimSpace (Text resp))), w)
    else Some (Ok (Text resp), w)
  else Some (Err CannotConnect, MkWorld (dmn w) (S (sent w)) (host w) (out w) (notes w)).

(** [json.NewDecoder(resp.Body).Decode(&out)]. *)
Definition decode_reply {A} (d : decoder A) (zero : A) (text : string) : cli A :=
  let (a, ok) := Decode_stream d text zero in
  if ok : bool then mret a else throw BadReply.

Definition fsPathIsDirWithErr (p : string) : cli bool :=
  text ← apiReq "GET" "/files" [("path", p); ("meta", "1")] None;
  decode_reply (struct_of [("is_dir", field_bool (λ _ b, b))]) false text.

Definition fsPathIsDir (p : string) : cli bool :=
  r ← attempt (fsPathIsDirWithErr p);
  mret (match r with Ok b => b | Err _ => false end).

Definition fsPathIsFile (p : string) : cli bool :=
  isDir ← fsPathIsDirWithErr p; mret (negb isDir).

Definition fsPathExists (p : string) : cli bool :=
  r ← attempt (fsPathIsDirWithErr p); mret (is_ok r).

(** ** Arguments *)

Definition isHostPath (p : string) : bool :=
  if HasPrefix p "fs:" then false
  else HasPrefix p "/" || HasPrefix p "./" || HasPrefix p "../".

Definition toFSPathArg (p : string) : string :=
  let p := TrimSpace (TrimPrefix (TrimSpace p) "fs:") in
  if decide (p = "" ∨ p = "/") then "/" else TrimPrefix p "/".

Fixpoint all_in (allowed : string) (s : string) : bool :=
  match s with
  | EmptyString => true
  | String a r => contains_byte allowed a && all_in allowed r
  end.

Fixpoint single_flags (s : string) : list string :=
  match s with
  | EmptyString => []
  | String a r => String "-" (String a "") :: single_flags r
  end.

Definition expandCombinedFlags (args : list string) (allowed : string) : list string :=
  mjoin ((λ a,
    if decide (3 ≤ String.length a) then
      if HasPrefix a "-" && negb (HasPrefix a "--") && all_in allowed (sdrop 1 a)
      then single_flags (sdrop 1 a) else [a]
    else [a]) <$> args).

(** The flags of a command, or its error. *)
Definition parse_flags (flags : list (string * kind)) (args : list string)
  : cli (assignments * list string) :=
  match Parse flags args with
  | Ok r => mret r
  | Err e => throw (FlagError e)
  end.

(** ** The machine's files *)

Definition stat (p : string) : cli (option host_entry) := λ w,
  Some (Ok (if hfail env "stat" p then None else host w !! Clean p), w).

Definition looksLikeVaultPath (p : string) : cli bool :=
  if negb (HasPrefix p "/") then mret false
  else e ← stat p; mret (match e with Some _ => false | None => true end).

Definition hintVaultPath {A} (cmd p : string) : cli A :=
  b ← looksLikeVaultPath p; throw (HostPath cmd p b).

Definition read_host (p : string) : cli string := λ w,
  match host w !! Clean p with
  | Some (HFile b) =>
      if hfail env "read" p then Some (Err (HostError "read" p), w) else Some (Ok b, w)
  | _ => Some (Err (HostError "read" p), w)
  end.

Definition set_host (h : Host) (w : World) : World :=
  MkWorld (dmn w) (sent w) h (out w) (notes w).

(** A directory a file can be made in. *)
Definition has_dir (h : Host) (p : string) : bool :=
  bool_decide (p ∈ ["."; "/"]) ||
  match h !! p with Some HDir => true | _ => false end.

Definition write_host (p body : string) : cli () := λ w,
  let q := Clean p in
  if hfail env "write" p || negb (has_dir (host w) (Dir q)) ||
     match host w !! q with Some HDir => true | _ => false end
  then Some (Err (HostError "write" p), w)
  else Some (Ok tt, set_host (<[q := HFile body]> (host w)) w).

(** At a path or below it. *)
Definition under (p q : string) : bool := bool_decide (q = p) || HasPrefix q (p +:+ "/").

Definition remove_host (p : string) : cli () := λ w,
  if hfail env "remove" p then Some (Err (HostError "remove" p), w)
  else Some (Ok tt, set_host (filter (λ e, under (Clean p) e.1 = false) (host w)) w).

(** ** Listings *)

Record item := MkItem { iName : string; iDir : bool; iMode : string; iSize : Z; iTime : string }.

Definition zero_item : item := MkItem "" false "" 0 "".

Definition item_fields : list (string * decoder item) :=
  [("name", field_string (λ x s, MkItem s (iDir x) (iMode x) (iSize x) (iTime x)));
   ("is_dir", field_bool (λ x b, MkItem (iName x) b (iMode x) (iSize x) (iTime x)));
   ("mode", field_string (λ x s, MkItem (iName x) (iDir x) s (iSize x) (iTime x)));
   ("size", field_int (λ x z, MkItem (iName x) (iDir x) (iMode x) z (iTime x)));
   ("mod_time", field_string (λ x s, MkItem (iName x) (iDir x) (iMode x) (iSize x) s))].

(** A slice, each element decoded afresh. *)
Definition field_list {A} (d : decoder A) (zero : A) : decoder (list A) := λ v l,
  match v with
  | JNull => ([], true)
  | JArr vs => let rs := (λ v, d v zero) <$> vs in (rs.*1, forallb id rs.*2)
  | _ => (l, false)
  end.

Definition items_decoder : decoder (list item) :=
  struct_of [("items", field_list (struct_of item_fields) zero_item)].
Definition names_decoder : decoder (list string) :=
  struct_of [("items", field_list (field_string (λ _ s, s)) "")].

(** [%8d]. *)
Definition pad8 (z : Z) : string :=
  let s := pretty z in
  String.concat "" (replicate (8 - String.length s) " ") +:+ s.

Definition long_line (it : item) : string :=
  let t := if decide (19 ≤ String.length (iTime it)) then stake 19 (iTime it) else iTime it in
  iMode it +:+ " " +:+ pad8 (iSize it) +:+ " " +:+ t +:+ " " +:+ iName it +:+
  (if iDir it then "/" else "").

Fixpoint print_lines (l : list string) : cli () :=
  match l with
  | [] => mret tt
  | s :: l => print_line s ≫= λ _, print_lines l
  end.

(** ** Commands *)

Definition runLS (args : list string) : cli () :=
  '(l, rest) ← parse_flags [("a", KBool); ("l", KBool)] (expandCombinedFlags args "al");
  let showAll := flag_bool l "a" false in
  let long := flag_bool l "l" false in
  p ← (match rest with
       | a :: _ => if isHostPath a then hintVaultPath "ls" a else mret (toFSPathArg a)
       | [] => mret "/"
       end);
  isFile ← attempt (fsPathIsFile p);
  match isFile with
  | Ok true => print_line (Base p)
  | _ =>
      text ← apiReq "GET" "/files"
        ([("path", p); ("list", "1")] ++ (if showAll then [("all", "1")] else [])
         ++ (if long then [("detail", "1")] else [])) None;
      if long
      then items ← decode_reply items_decoder [] text; print_lines (long_line <$> items)
      else names ← decode_reply names_decoder [] text; print_lines names
  end.

Definition runCat (args : list string) : cli () :=
  match args with
  | [] => throw (UsageError "cat")
  | a :: _ =>
      if isHostPath a then hintVaultPath "cat" a
      else
        text ← apiReq "GET" "/files" [("path", toFSPathArg a)] None;
        emit text
  end.

Definition from_body (src : string) : string := print (JObj [("from", JStr src)]).
Definition content_body (data : string) : string := print (JObj [("content", JStr data)]).

Definition ignore {A} (c : cli A) : cli () := c ≫= λ _, mret tt.

Definition post_file (dst body : string) : cli () :=
  ignore (apiReq "POST" "/files" [("path", dst)] (Some body)).

Definition delete_fs (p : string) (recursive : bool) : cli () :=
  ignore (apiReq "DELETE" "/files"
    (("path", p) :: (if recursive then [("recursive", "1")] else [])) None).

Definition writeHostFileToFS (src dst : string) : cli () :=
  data ← read_host src; post_file dst (content_body data).

(** *** Copying *)

(** The files of [filepath.Walk], in the order of their path elements, by the path
    below the root. *)
Definition elements_le (a b : string) : Prop :=
  let fix le (x y : list string) : Prop :=
    match x, y with
    | [], _ => True
    | _, [] => False
    | a :: x, b :: y => (a ≠ b ∧ String.le a b) ∨ (a = b ∧ le x y)
    end
  in le (Split a slash) (Split b slash).

#[local] Instance elements_le_dec : RelDecision elements_le.
Proof.
  intros a b. unfold elements_le. generalize (Split a slash) (Split b slash).
  induction l as [|x l IH]; intros [|y l']; [by left|by left|right; by intros []|].
  destruct (decide (x = y)) as [->|Hne].
  - destruct (IH l'); [by left; right|right]. by intros [[? _]|[_ ?]].
  - destruct (decide (String.le x y)); [by left; left|right]. by intros [[_ ?]|[? _]].
Defined.

Definition below_root (root : string) (h : Host) : list (string * host_entry) :=
  omap (λ e, if HasPrefix e.1 (root +:+ "/")
             then Some (sdrop (S (String.length root)) e.1, e.2) else None) (map_to_list h).

Definition walk (src : string) (h : Host) : list (string * host_entry) :=
  let l := below_root (Clean src) h in
  omap (λ rel, e ← (list_to_map l : gmap string host_entry) !! rel; Some (rel, e))
    (merge_sort elements_le l.*1).

Fixpoint copy_walk (src root : string) (l : list (string * host_entry)) : cli () :=
  match l with
  | [] => mret tt
  | (rel, e) :: l =>
      if hfail env "walk" (Join2 src rel) then throw (HostError "walk" rel)
      else match e with
      | HDir => copy_walk src root l
      | HFile _ =>
          writeHostFileToFS (Join2 src rel) (Join2 root rel) ≫= λ _, copy_walk src root l
      end
  end.

Definition get_host : cli Host := λ w, Some (Ok (host w), w).

Definition cpHostToFS (recursive : bool) (src dst : string) : cli () :=
  e ← stat src;
  match e with
  | None => throw (HostError "stat" src)
  | Some HDir =>
      if negb recursive then throw (OmittingDirectory src)
      else h ← get_host; copy_walk src (Join2 (toFSPathArg dst) (Base src)) (walk src h)
  | Some (HFile _) =>
      let target := toFSPathArg dst in
      isDir ← (if HasSuffix target "/" || bool_decide (target = "/") then mret true
               else fsPathIsDir target);
      let target := if isDir : bool then Join2 target (Base src) else target in
      exists_ ← fsPathExists target;
      if exists_ : bool then throw (DestinationExists target)
      else writeHostFileToFS src target
  end.

Definition cpFSToHost (src dst : string) : cli () :=
  let srcFSPath := toFSPathArg src in
  e ← stat dst;
  let dst := match e with Some HDir => Join2 dst (Base srcFSPath) | _ => dst end in
  e ← stat dst;
  match e with
  | Some _ => throw (DestinationExists dst)
  | None =>
      data ← apiReq "GET" "/files" [("path", srcFSPath)] None;
      write_host dst data ≫= λ _, note ("note: wrote the secret at " +:+ srcFSPath)
  end.

Definition cpFSToFS (src dst : string) : cli () :=
  exists_ ← fsPathExists (toFSPathArg dst);
  if exists_ : bool then throw (DestinationExists dst)
  else post_file (toFSPathArg dst) (from_body (toFSPathArg src)).

Definition copy (recursive : bool) (src dst : string) : cli () :=
  match isHostPath src, isHostPath dst with
  | false, false => cpFSToFS src dst
  | true, false => cpHostToFS recursive src dst
  | false, true => cpFSToHost src dst
  | true, true =>
      b ← looksLikeVaultPath src;
      throw (NeedsFsPath "cp" (if b : bool then Some src else None))
  end.

Definition runCP (args : list string) : cli () :=
  '(l, rest) ← parse_flags [("r", KBool); ("R", KBool)] (expandCombinedFlags args "rR");
  let recursive := match last l with Some (_, VBool b) => b | _ => false end in
  match rest with
  | [src; dst] => copy recursive src dst
  | _ => throw (UsageError "cp")
  end.

Definition runRM (args : list string) : cli () :=
  '(l, rest) ← parse_flags [("r", KBool); ("R", KBool)] (expandCombinedFlags args "rR");
  let recursive := match last l with Some (_, VBool b) => b | _ => false end in
  match rest with
  | [p] =>
      if isHostPath p then hintVaultPath "rm" p
      else if recursive : bool then delete_fs (toFSPathArg p) true
      else
        isDir ← fsPathIsDirWithErr (toFSPathArg p);
        if isDir : bool then throw (IsDirectory p) else delete_fs (toFSPathArg p) false
  | _ => throw (UsageError "rm")
  end.

Definition runMkdir (args : list string) : cli () :=
  '(l, rest) ← parse_flags [("p", KBool)] (expandCombinedFlags args "p");
  match rest with
  | [p] =>
      if isHostPath p then throw (HostPath "mkdir" p false)
      else ignore (apiReq "POST" "/mkdir"
        (("path", toFSPathArg p) :: (if flag_bool l "p" false then [("parents", "1")] else [])) None)
  | _ => throw (UsageError "mkdir")
  end.

Definition runRmdir (args : list string) : cli () :=
  match args with
  | [p] =>
      if isHostPath p then throw (HostPath "rmdir" p false)
      else ignore (apiReq "POST" "/rmdir" [("path", toFSPathArg p)] None)
  | _ => throw (UsageError "rmdir")
  end.

(** *** Moving *)

Fixpoint each (f : string → cli ()) (l : list string) : cli () :=
  match l with
  | [] => mret tt
  | n :: l => f n ≫= λ _, each f l
  end.

Fixpoint fsCopy (fuel : nat) (src dst : string) : cli () :=
  match fuel with
  | O => λ _, None
  | S fuel =>
      isDir ← fsPathIsDirWithErr src;
      if negb isDir then post_file dst (from_body src)
      else
        _ ← apiReq "POST" "/mkdir" [("path", dst); ("parents", "1")] None;
        text ← apiReq "GET" "/files" [("path", src); ("list", "1"); ("all", "1")] None;
        names ← decode_reply names_decoder [] text;
        each (λ n, fsCopy fuel (Join2 src n) (Join2 dst n)) names
  end.

Definition mvFSToFS (fuel : nat) (src dst : string) : cli () :=
  exists_ ← fsPathExists (toFSPathArg dst);
  if exists_ : bool then throw (DestinationExists dst)
  else
    fsCopy fuel (toFSPathArg src) (toFSPathArg dst) ≫= λ _, delete_fs (toFSPathArg src) true.

Definition runMV (fuel : nat) (args : list string) : cli () :=
  match args with
  | [src; dst] =>
      match isHostPath src, isHostPath dst with
      | false, false => mvFSToFS fuel src dst
      | true, false => runCP [src; dst] ≫= λ _, remove_host src
      | false, true => runCP [src; dst] ≫= λ _, delete_fs (toFSPathArg src) true
      | true, true => throw (NeedsFsPath "mv" None)
      end
  | _ => throw (UsageError "mv")
  end.

End Cli.
End Cli.
