(* ===== verification/CliFacts.v ===== *)
(** * What a request does, seen from the command that sends it

    Each request of the command-line client, through its encoding, the multiplexer,
    the handler and the decoding of the answer, as one call on the file system. *)
From stdpp Require Import pretty.
From S2P Require Import Prelude GoStrings GoPath GoJson GoUtf8 MemFS MemFSFacts MemFSCases GoFloat GoJsonPrint GoHttp GoTime GoFlag Config.
From S2P Require Import Repo Node Daemon ControlAPI Cli.
Import GoStr GoPath GoJson UTF8 MemFS FSFacts FSPaths.

Module CliPaths.

(** ** Text *)

Lemma length_encode u : 1 ≤ String.length (utf8_encode u).
Proof. unfold utf8_encode. repeat case_match; simpl; lia. Qed.

Lemma coerce_longer n s : String.length s ≤ n → String.length s ≤ String.length (coerce s).
Proof.
  revert s. induction n as [|n IH]; intros s Hn; [destruct s; simpl in *; lia|].
  destruct s as [|a s]; [simpl; lia|]. cbn [String.length] in *.
  destruct (Z.ltb_spec (bval a) 128).
  { rewrite coerce_ascii by done. cbn [String.length]. specialize (IH s ltac:(lia)). lia. }
  destruct (utf8_decode a s) as [u r] eqn:Hd. rewrite (coerce_rune _ _ _ _ H Hd), length_sapp.
  destruct (decode_cases _ _ _ _ Hd H) as [[-> ->]|(t & -> & _ & -> & _)].
  - specialize (IH s ltac:(lia)). change (String.length (utf8_encode RuneError)) with 3. lia.
  - rewrite length_sapp in *. cbn [String.length]. specialize (IH r ltac:(lia)). lia.
Qed.

(** Text in front of anything. *)
Lemma coerce_app n s t : String.length s ≤ n → utf8_str s = true →
  coerce (s +:+ t) = s +:+ coerce t.
Proof.
  revert s. induction n as [|n IH]; intros s Hn Hs; [by destruct s; simpl in *; [|lia]|].
  destruct s as [|a s]; [done|]. cbn [String.length] in *. rewrite sapp_cons.
  apply bool_decide_eq_true in Hs.
  destruct (Z.ltb_spec (bval a) 128).
  { rewrite coerce_ascii in Hs |- * by done. injection Hs as Hs. rewrite sapp_cons. f_equal.
    apply IH; [lia|]. by apply bool_decide_eq_true. }
  destruct (utf8_decode a s) as [u r] eqn:Hd. rewrite (coerce_rune _ _ _ _ H Hd) in Hs.
  destruct (decode_cases _ _ _ _ Hd H) as [[-> ->]|(p & -> & _ & Henc & Hdec)].
  - apply (f_equal String.length) in Hs. rewrite length_sapp in Hs. cbn [String.length] in Hs.
    change (String.length (utf8_encode RuneError)) with 3 in Hs.
    pose proof (coerce_longer _ s (le_n _)). lia.
  - rewrite sapp_assoc, (coerce_rune _ _ _ _ H (Hdec (r +:+ t))), Henc, !sapp_cons, sapp_assoc.
    do 2 f_equal. rewrite length_sapp in Hn. apply IH; [lia|].
    apply bool_decide_eq_true. rewrite Henc, sapp_cons in Hs. injection Hs as Hs.
    by apply (inj (λ x, p +:+ x)) in Hs.
Qed.

Lemma utf8_app s t : utf8_str s = true → utf8_str t = true → utf8_str (s +:+ t) = true.
Proof.
  intros Hs Ht. apply bool_decide_eq_true. rewrite (coerce_app _ s t (le_n _) Hs).
  apply bool_decide_eq_true in Ht. by rewrite Ht.
Qed.

Lemma utf8_join l : Forall (λ s, utf8_str s = true) l → utf8_str (Join l "/") = true.
Proof.
  induction 1 as [|x l Hx Hl IH]; [done|]. destruct l as [|y l]; [done|].
  rewrite Join_cons. apply utf8_app; [done|]. by apply utf8_app.
Qed.

(** ** Canonical relative paths *)

Definition canon (l : list string) : string := Join l "/".

Lemma canon_snoc l c : l ≠ [] → canon (l ++ [c]) = canon l +:+ "/" +:+ c.
Proof.
  unfold canon. induction l as [|x l IH]; intros Hl; [done|]. destruct l as [|y l]; [done|].
  change ((x :: y :: l) ++ [c]) with (x :: y :: (l ++ [c])).
  rewrite !Join_cons, !sapp_assoc. do 2 f_equal. by apply IH.
Qed.

Lemma canon_ne l : l ≠ [] → Forall plain_name l → canon l ≠ "".
Proof.
  intros Hl Hp. destruct Hp as [|x l Hx Hp]; [done|]. unfold canon.
  destruct l; [by destruct Hx|]. rewrite Join_cons. by destruct x, Hx.
Qed.

Lemma canon_relative l : l ≠ [] → Forall plain_name l → is_rooted (canon l) = false.
Proof.
  intros Hl Hp. destruct Hp as [|x l (Hx & _ & _ & Hs) Hp]; [done|]. unfold canon, is_rooted.
  assert (∀ t, HasPrefix (x +:+ t) "/" = false) as H.
  { intros t. destruct x as [|a x]; [done|]. apply no_byte_cons in Hs as [Ha _].
    rewrite sapp_cons. simpl. by rewrite bool_decide_false. }
  destruct l; [|rewrite Join_cons; apply H].
  specialize (H ""). by rewrite sapp_nil_r in H.
Qed.

Lemma Clean_relative p l : p ≠ "" → is_rooted p = false → l ≠ [] → Forall plain_name l →
  clean_elems false (Split p slash) = l → Clean p = canon l.
Proof.
  intros Hp Hr Hl Hpl He. unfold Clean. rewrite decide_False by done. rewrite Hr, He.
  rewrite decide_False; [done|]. by apply canon_ne.
Qed.

Lemma Clean_canon l : l ≠ [] → Forall plain_name l → Clean (canon l) = canon l.
Proof.
  intros Hl Hp. apply Clean_relative; [by apply canon_ne|by apply canon_relative|done|done|].
  unfold canon. rewrite split_join by done. by apply clean_elems_plain.
Qed.

Lemma Join2_canon l c : l ≠ [] → Forall plain_name l → plain_name c →
  Join2 (canon l) c = canon (l ++ [c]).
Proof.
  intros Hl Hp Hc. unfold Join2.
  rewrite !filter_cons_True by (by apply canon_ne || by destruct Hc).
  change (Join (canon l :: c :: filter _ []) "/") with (canon l +:+ "/" +:+ c).
  rewrite <- canon_snoc by done. apply Clean_canon; [by destruct l|].
  apply Forall_app. split; [done|by constructor].
Qed.

Lemma normalize_canon l : l ≠ [] → Forall valid_name l → normalize (canon l) = Ok l.
Proof.
  intros Hl Hv. assert (Forall plain_name l) as Hp by (eapply Forall_impl; [done|by intros ? []]).
  assert (elems (canon l) = l) as He by by apply elems_split_join.
  rewrite elems_normalize; [by rewrite He|by apply canon_ne|by rewrite He].
Qed.

Lemma LastIndexByte_none s : no_byte slash s → LastIndexByte s slash = None.
Proof.
  induction s as [|a s IH]; [done|]. intros [Ha Hs]%no_byte_cons. simpl. rewrite IH by done.
  by rewrite decide_False.
Qed.

Lemma LastIndexByte_app s c : no_byte slash c →
  LastIndexByte (s +:+ "/" +:+ c) slash = Some (String.length s).
Proof.
  intros Hc. induction s as [|a s IH].
  - change ("" +:+ "/" +:+ c) with (String slash c). simpl.
    by rewrite LastIndexByte_none.
  - rewrite sapp_cons. cbn [LastIndexByte]. by rewrite IH.
Qed.

(** The directory of a canonical path. *)
Lemma Dir_canon l c : Forall plain_name l → plain_name c →
  Dir (canon (l ++ [c])) = match l with [] => "." | _ => canon l end.
Proof.
  intros Hp Hc. assert (no_byte slash c) as Hs by by destruct Hc as (_&_&_&?).
  destruct (decide (l = [])) as [->|Hl].
  { unfold Dir, canon. simpl. by rewrite LastIndexByte_none. }
  unfold Dir. rewrite canon_snoc, LastIndexByte_app by done.
  change ("/" +:+ c) with (String slash c).
  assert (stake (S (String.length (canon l))) (canon l +:+ String slash c) = canon l +:+ "/") as ->.
  { change (String slash c) with ("/" +:+ c). rewrite <- sapp_assoc.
    assert (S (String.length (canon l)) = String.length (canon l +:+ "/")) as ->
      by (rewrite length_sapp; simpl; lia). apply stake_app. }
  destruct l as [|x l]; [done|]. apply Clean_relative; [|..|done|done|].
  - intros Hx. apply (f_equal String.length) in Hx. rewrite length_sapp in Hx. simpl in Hx. lia.
  - pose proof (canon_relative (x :: l) ltac:(done) Hp) as Hr.
    pose proof (canon_ne (x :: l) ltac:(done) Hp) as Hne.
    unfold is_rooted in *. destruct (canon (x :: l)) as [|a t]; [done|]. rewrite sapp_cons.
    simpl in *. destruct (bool_decide _); [by destruct t|done].
  - assert (Split (canon (x :: l) +:+ "/") slash = (x :: l) ++ [""]) as ->.
    { change "/" with (String slash "") at 1. rewrite Split_snoc. f_equal.
      unfold canon. by apply split_join. }
    unfold clean_elems. rewrite fold_left_app, (clean_fold_plain _ (x :: l)) by done. cbn [fold_left].
    unfold clean_step. rewrite decide_True by by left.
    by rewrite (right_id_L [] (++)), reverse_involutive.
Qed.

End CliPaths.

Import GoStr GoPath GoJson UTF8 GoFloat JsonPrint GoHttp GoTime GoFlag Daemon ControlAPI Cli.

Module CliFacts.

(** ** Replies *)

(** What the decoder sees of a printed reply. *)
Lemma decode_printed {A} (d : decoder A) k j st zero : shape k j → (k ≤ max_depth)%N →
  Decode_stream d (Text (writeJSON st j)) zero = d (coerced j) zero.
Proof.
  intros Hj Hk. unfold Decode_stream, writeJSON. cbn [Text].
  by rewrite (parse_prefix_print k) by (done || by apply follow_sep).
Qed.

Lemma shape_jmap k (m : gmap string json) : map_Forall (λ _, shape k) m → shape (k + 1) (jmap m).
Proof.
  intros Hm. constructor. rewrite sort_by_perm. apply Forall_forall.
  intros [x j] Hx%elem_of_map_to_list. by apply Hm in Hx.
Qed.

Lemma meta_decoded (name mode time : string) (isDir : bool) (size : Z) b :
  struct_of [("is_dir", field_bool (λ _ b, b))]
    (coerced (jmap (list_to_map
      [("name", JStr name); ("is_dir", JBool isDir); ("mode", JStr mode); ("size", JInt size);
       ("mod_time", JStr time)]))) b = (isDir, true).
Proof.
  unfold jmap. set (n := JStr name). set (mo := JStr mode). set (t := JStr time).
  set (z := JInt size). set (d := JBool isDir). clearbody n mo t z.
  assert (sort_by fst (map_to_list (list_to_map
    [("name", n); ("is_dir", d); ("mode", mo); ("size", z); ("mod_time", t)] : gmap string json))
    = [("is_dir", d); ("mod_time", t); ("mode", mo); ("name", n); ("size", z)]) as ->
    by (by vm_compute).
  reflexivity.
Qed.

Lemma shape_JInt (z : Z) k : shape k (JInt z).
Proof. constructor. apply num_lit_pretty. Qed.

Lemma meta_shape f p name n : shape 1 (jmap (list_to_map (meta_json f p name n))).
Proof.
  apply (shape_jmap 0). unfold meta_json. simpl.
  repeat (apply map_Forall_insert_2; [first [apply shape_JInt | constructor]|]).
  apply map_Forall_empty.
Qed.

Lemma names_decoded (l l0 : list string) :
  names_decoder (coerced (JObj [("items", JArr (JStr <$> l))])) l0 = (coerce <$> l, true).
Proof.
  change (names_decoder (coerced (JObj [("items", JArr (JStr <$> l))])) l0) with
    (let (s', ok) := field_list (field_string (λ _ s, s)) "" (JArr (List.map coerced (JStr <$> l))) l0
     in (s', true && ok)).
  assert (List.map coerced (JStr <$> l) = (λ s, JStr (coerce s)) <$> l) as ->.
  { induction l as [|s l IH]; [done|]. simpl. f_equal. exact IH. }
  unfold field_list. rewrite <- list_fmap_compose. cbn [compose].
  f_equal; induction l as [|s l IH]; [done| |done|]; simpl; [by f_equal|done].
Qed.

(** ** Arguments *)

Lemma toFSPathArg_ne p : toFSPathArg p ≠ "".
Proof.
  unfold toFSPathArg. case_decide as Hd; [done|]. intros He. apply Hd.
  set (q := TrimSpace (TrimPrefix (TrimSpace p) "fs:")) in *.
  unfold TrimPrefix in He. destruct (HasPrefix q "/") eqn:Hp; [|by left].
  apply HasPrefix_spec in Hp as [t Ht]. rewrite Ht in *.
  rewrite sdrop_app in He. subst t. by right.
Qed.

Lemma Join2_ne a b : a ≠ "" → Join2 a b ≠ "".
Proof.
  intros Ha. unfold Join2. rewrite filter_cons_True by done.
  assert (∀ p, Clean p ≠ "") as Hc.
  { intros p. unfold Clean. case_decide; [done|]. case_match; [done|]. by case_decide. }
  apply Hc.
Qed.

(** ** Requests *)

Section requests.
Context {G : Type} `{Repo.GoGit G}.
Context (hmac_hex : string → bytes → string) (decode_error : string → string).
Context (env : Env) (st : runtimeState).

Local Abbreviation World := (World (G:=G)).
Local Abbreviation cli := (cli (G:=G)).
Local Abbreviation apiReq := (apiReq hmac_hex decode_error env st).

(** The client has the daemon's token, and the daemon can be reached. *)
Definition authed (w : World) : Prop :=
  Config.ControlToken (cfg (dmn w)) = ControlToken st ∧ ControlToken st ≠ "".

Definition reachable_daemon : Prop := ∀ n, up env (ControlAddr st) n = true.

(** The world after one request that left the daemon the file system [f]. *)
Definition step (w : World) (f : MemFS.MemFS) : World :=
  MkWorld (set_fs f (dmn w)) (S (sent w)) (host w) (out w) (notes w).

Lemma set_fs_id (d : Daemon (G:=G)) : set_fs (fs d) d = d.
Proof. by destruct d. Qed.

Lemma auth_request m path q body w : authed w → auth (dmn w) (request st m path q body) = true.
Proof.
  intros [Hc Hne]. unfold auth, header, request. simpl.
  assert (default "" (match body with
    | Some _ => <["Content-Type":="application/json"]> {["X-Valet-Token" := ControlToken st]}
    | None => {["X-Valet-Token" := ControlToken st]} end !! "X-Valet-Token")
    = ControlToken st) as ->.
  { destruct body; [rewrite lookup_insert_ne by done|]; by rewrite lookup_singleton_eq. }
  rewrite decide_False, Hc, !(bool_decide_false (_ = "")) by done. by apply bool_decide_true.
Qed.

(** The answer to a request, as the client takes it. *)
Definition taken (m path : string) (r : Response) (w : World)
  : option (result cli_error string * World) :=
  Some (if (300 <=? Status r)%Z then Err (ApiFailed m path (TrimSpace (Text r))) else Ok (Text r), w).

Lemma apiReq_taken m path q body w r d : reachable_daemon →
  ControlAPI.serve hmac_hex decode_error (denv env (sent w)) (request st m path q body) (dmn w)
    = (r, d) →
  apiReq m path q body w = taken m path r (MkWorld d (S (sent w)) (host w) (out w) (notes w)).
Proof.
  intros Hup Hs. unfold Cli.apiReq, taken. rewrite Hup, Hs. by destruct (_ <=? _)%Z.
Qed.

Lemma query_request m path q body k : NoDup q.*1 → q ≠ [] →
  query (request st m path q body) k = value_in q k.
Proof. intros. by apply query_encoded. Qed.

Lemma value_in_cons k' v q k :
  value_in ((k', v) :: q) k = if (k' =? k)%string then v else value_in q k.
Proof.
  unfold value_in. simpl. destruct (String.eqb_spec k' k) as [->|Hne].
  - by rewrite lookup_insert_eq.
  - by rewrite lookup_insert_ne.
Qed.

Lemma value_in_nil k : value_in [] k = "".
Proof. done. Qed.

(** A request on the files of the daemon: the handler, its queries answered. *)
Ltac run_files q Ha :=
  let Hq := fresh "Hq" in
  assert (∀ m path b k, query (request st m path q b) k = value_in q k) as Hq
    by (intros; apply query_request; [simpl; apply (bool_decide_unpack _); by vm_compute|done]);
  erewrite apiReq_taken;
  [|done|change (ControlAPI.serve hmac_hex decode_error ?e (request st ?m "/files" ?q ?b) ?d)
      with (handleFiles decode_error e (request st m "/files" q b) d);
    unfold handleFiles; rewrite (auth_request _ _ _ _ _ Ha); cbn [negb];
    rewrite !Hq, ?value_in_cons, ?value_in_nil; cbn [String.eqb Ascii.eqb Bool.eqb];
    repeat first [rewrite decide_False by done | rewrite decide_True by done]; reflexivity].

Lemma step_same w :
  MkWorld (dmn w) (S (sent w)) (host w) (out w) (notes w) = step w (fs (dmn w)).
Proof. unfold step. by rewrite set_fs_id. Qed.

(** An answer that is a failure of the file system. *)
Definition refused (m path : string) (code : Z) (e : MemFS.error) : cli_error :=
  ApiFailed m path (TrimSpace (Text (fs_fail code e))).

Lemma bind_some {A B} (c : cli A) (k : A → cli B) w a w' :
  c w = Some (Ok a, w') → (c ≫= k) w = k a w'.
Proof. intros Hc. unfold mbind, cli_bind. by rewrite Hc. Qed.

Lemma bind_fail {A B} (c : cli A) (k : A → cli B) w e w' :
  c w = Some (Err e, w') → (c ≫= k) w = Some (Err e, w').
Proof. intros Hc. unfold mbind, cli_bind. by rewrite Hc. Qed.

Lemma attempt_some {A} (c : cli A) w r w' : c w = Some (r, w') →
  attempt c w = Some (Ok r, w').
Proof. intros Hc. unfold attempt. by rewrite Hc. Qed.

Context (Hup : reachable_daemon).

Lemma meta_run p w : authed w → p ≠ "" →
  fsPathIsDirWithErr hmac_hex decode_error env st p w =
  Some (match MemFS.Stat (fs (dmn w)) p with
        | Ok n => Ok (MemFS.IsDir n)
        | Err e => Err (refused "GET" "/files" StatusNotFound e)
        end, step w (fs (dmn w))).
Proof.
  intros Ha Hp. unfold fsPathIsDirWithErr.
  assert (apiReq "GET" "/files" [("path", p); ("meta", "1")] None w =
    taken "GET" "/files" (getMeta (fs (dmn w)) p) (step w (fs (dmn w)))) as Hreq.
  { rewrite <- step_same. run_files [("path", p); ("meta", "1")] Ha. done. }
  unfold mbind, cli_bind. rewrite Hreq. unfold getMeta, taken.
  destruct (MemFS.Stat (fs (dmn w)) p) as [n|e]; [|done].
  cbn [Status writeJSON]. unfold StatusOK. cbn [Z.leb Z.compare Pos.compare Pos.compare_cont].
  unfold decode_reply. rewrite (decode_printed _ 1); [|apply meta_shape|done].
  unfold meta_json. by rewrite meta_decoded.
Qed.

Lemma exists_run p w : authed w → p ≠ "" →
  fsPathExists hmac_hex decode_error env st p w =
  Some (Ok (is_ok (MemFS.Stat (fs (dmn w)) p)), step w (fs (dmn w))).
Proof.
  intros Ha Hp. unfold fsPathExists.
  rewrite (bind_some _ _ _ _ _ (attempt_some _ _ _ _ (meta_run p w Ha Hp))).
  by destruct (MemFS.Stat _ _).
Qed.

Lemma isDir_run p w : authed w → p ≠ "" →
  fsPathIsDir hmac_hex decode_error env st p w =
  Some (Ok (match MemFS.Stat (fs (dmn w)) p with Ok n => MemFS.IsDir n | Err _ => false end),
        step w (fs (dmn w))).
Proof.
  intros Ha Hp. unfold fsPathIsDir.
  rewrite (bind_some _ _ _ _ _ (attempt_some _ _ _ _ (meta_run p w Ha Hp))).
  by destruct (MemFS.Stat _ _).
Qed.

Lemma reply_assoc {A B} (d : decoder A) zero m path q body (k : A → cli B) w :
  (text ← apiReq m path q body; x ← decode_reply d zero text; k x) w =
  ((apiReq m path q body ≫= decode_reply d zero) ≫= k) w.
Proof. unfold mbind, cli_bind. by destruct (apiReq m path q body w) as [[[] ?]|]. Qed.

(** The listing [fsCopy] asks for. *)
Lemma names_run p w : authed w → p ≠ "" →
  (apiReq "GET" "/files" [("path", p); ("list", "1"); ("all", "1")] None
     ≫= decode_reply names_decoder []) w =
  Some (match MemFS.List (fs (dmn w)) p with
        | Ok l => Ok (coerce <$> l)
        | Err e => Err (refused "GET" "/files" StatusNotFound e)
        end, step w (fs (dmn w))).
Proof.
  intros Ha Hp.
  assert (apiReq "GET" "/files" [("path", p); ("list", "1"); ("all", "1")] None w =
    taken "GET" "/files" (getList (fs (dmn w)) p true false) (step w (fs (dmn w)))) as Hreq.
  { rewrite <- step_same. run_files [("path", p); ("list", "1"); ("all", "1")] Ha. done. }
  unfold mbind, cli_bind. rewrite Hreq. unfold getList, taken.
  destruct (MemFS.List (fs (dmn w)) p) as [l|e]; [|done].
  cbn [Status writeJSON]. unfold StatusOK. cbn [Z.leb Z.compare Pos.compare Pos.compare_cont].
  unfold decode_reply. rewrite (decode_printed _ 2); [by rewrite names_decoded| |done].
  apply (shape_obj 1). constructor; [|constructor]. apply (shape_arr 0).
  apply Forall_fmap, Forall_true. intros s. constructor.
Qed.

Lemma mkdirs_run p w : authed w → p ≠ "" →
  let (r, f) := MemFS.MkdirAll (clock (denv env (sent w)) 0) (fs (dmn w)) p 493 in
  ∃ text, apiReq "POST" "/mkdir" [("path", p); ("parents", "1")] None w =
  Some (match r with
        | Ok _ => Ok text
        | Err e => Err (refused "POST" "/mkdir" StatusBadRequest e)
        end, step w f).
Proof.
  intros Ha Hp.
  assert (∀ m path b k, query (request st m path [("path", p); ("parents", "1")] b) k =
    value_in [("path", p); ("parents", "1")] k) as Hq.
  { intros. apply query_request; [simpl; apply (bool_decide_unpack _); by vm_compute|done]. }
  destruct (MemFS.MkdirAll _ _ p 493) as [r f] eqn:Hx.
  exists (Text (writeJSON StatusOK ok_body)).
  rewrite (apiReq_taken _ _ _ _ _
    (match r with Ok _ => writeJSON StatusOK ok_body | Err e => fs_fail StatusBadRequest e end)
    (set_fs f (dmn w)) Hup); [by destruct r|].
  change (ControlAPI.serve hmac_hex decode_error ?e (request st ?m "/mkdir" ?q ?b) ?d)
    with (handleMkdir e (request st m "/mkdir" q b) d).
  unfold handleMkdir. rewrite (auth_request _ _ _ _ _ Ha). cbn [negb].
  rewrite !Hq, !value_in_cons. cbn [String.eqb Ascii.eqb Bool.eqb].
  rewrite (decide_False (P := p = "")), (decide_True (P := "1" = "1")) by done.
  change (Method (request st "POST" "/mkdir" _ None)) with "POST".
  rewrite decide_False by (by intros []). rewrite Hx. by destruct r.
Qed.

(** *** Writing *)

(** A write, as the client sees it. *)
Definition put (p : string) (data : bytes) (w : World) : option (result cli_error () * World) :=
  let (r, f) := write_file (denv env (sent w)) p data (fs (dmn w)) in
  Some (if (300 <=? Status r)%Z then Err (ApiFailed "POST" "/files" (TrimSpace (Text r)))
        else Ok tt, step w f).

Lemma from_decoded src :
  Decode_stream (struct_of files_fields) (from_body src) (MkFilesBody "" "") =
  (MkFilesBody "" (coerce src), true).
Proof.
  unfold Decode_stream, from_body.
  rewrite <- (sapp_nil_r (print _)), (parse_prefix_print 1); [|by apply (shape_obj 0); repeat constructor|done|done].
  reflexivity.
Qed.

Lemma content_decoded data :
  Decode_stream (struct_of files_fields) (content_body data) (MkFilesBody "" "") =
  (MkFilesBody (coerce data) "", true).
Proof.
  unfold Decode_stream, content_body.
  rewrite <- (sapp_nil_r (print _)), (parse_prefix_print 1); [|by apply (shape_obj 0); repeat constructor|done|done].
  reflexivity.
Qed.

Lemma post_run dst body w : authed w → dst ≠ "" →
  post_file hmac_hex decode_error env st dst body w =
  let (r, f) := postFile decode_error (denv env (sent w)) (request st "POST" "/files" [("path", dst)] (Some body))
                  dst (fs (dmn w)) in
  Some (if (300 <=? Status r)%Z then Err (ApiFailed "POST" "/files" (TrimSpace (Text r)))
        else Ok tt, step w f).
Proof.
  intros Ha Hp.
  assert (∀ m path b k, query (request st m path [("path", dst)] b) k = value_in [("path", dst)] k) as Hq.
  { intros. apply query_request; [simpl; apply (bool_decide_unpack _); by vm_compute|done]. }
  unfold post_file, ignore. destruct (postFile _ _ _ _ _) as [r f] eqn:Hx.
  unfold mbind, cli_bind. erewrite apiReq_taken; [|done|].
  2:{ change (ControlAPI.serve hmac_hex decode_error ?e (request st ?m "/files" ?q ?b) ?d)
        with (handleFiles decode_error e (request st m "/files" q b) d).
      unfold handleFiles. rewrite (auth_request _ _ _ _ _ Ha). cbn [negb].
      rewrite !Hq, !value_in_cons. cbn [String.eqb Ascii.eqb Bool.eqb].
      change (Method (request st "POST" "/files" _ (Some body))) with "POST".
      rewrite (decide_False (P := dst = "")), (decide_False (P := "POST" = "GET")),
        (decide_True (P := "POST" = "POST" ∨ "POST" = "PUT")) by (done || by left).
      rewrite Hx. reflexivity. }
  unfold taken. by destruct (300 <=? Status r)%Z.
Qed.

Lemma content_run dst data w : authed w → dst ≠ "" →
  post_file hmac_hex decode_error env st dst (content_body data) w =
  put dst (of_string (coerce data)) w.
Proof.
  intros Ha Hp. rewrite post_run by done. unfold postFile, put.
  change (Body (request st "POST" "/files" _ (Some ?b))) with b.
  by rewrite content_decoded.
Qed.

Lemma from_run dst src w : authed w → dst ≠ "" → utf8_str src = true → src ≠ "" →
  post_file hmac_hex decode_error env st dst (from_body src) w =
  match MemFS.Read (fs (dmn w)) src with
  | Ok data => put dst data w
  | Err e => Some (Err (refused "POST" "/files" StatusNotFound e), step w (fs (dmn w)))
  end.
Proof.
  intros Ha Hp Hu%bool_decide_eq_true Hs. rewrite post_run by done. unfold postFile, put.
  change (Body (request st "POST" "/files" _ (Some ?b))) with b.
  rewrite from_decoded, Hu. cbn [negb From]. rewrite decide_True by done.
  by destruct (MemFS.Read _ src).
Qed.

(** *** Reading and removing *)

Lemma body_run p w : authed w → p ≠ "" →
  apiReq "GET" "/files" [("path", p)] None w =
  Some (match MemFS.Read (fs (dmn w)) p with
        | Ok data => Ok (to_string data)
        | Err e => Err (refused "GET" "/files" StatusNotFound e)
        end, step w (fs (dmn w))).
Proof.
  intros Ha Hp.
  assert (apiReq "GET" "/files" [("path", p)] None w =
    taken "GET" "/files" (getBody (fs (dmn w)) p) (step w (fs (dmn w)))) as Hreq.
  { rewrite <- step_same. run_files [("path", p)] Ha. done. }
  rewrite Hreq. unfold getBody, taken. by destruct (MemFS.Read _ p).
Qed.

Lemma delete_run p recursive w : authed w → p ≠ "" →
  delete_fs hmac_hex decode_error env st p recursive w =
  let res :=
    if recursive : bool
    then match removeRecursive (clock (denv env (sent w)))
                 (S (FSFacts.height (MemFS.root (fs (dmn w))))) 0 p (fs (dmn w)) with
         | Some (Ok _, f) => (Ok tt, f)
         | Some (Err e, f) => (Err e, f)
         | None => (Err MemFS.ErrInvalidPath, fs (dmn w))
         end
    else MemFS.Remove (clock (denv env (sent w)) 0) (fs (dmn w)) p in
  Some (match res.1 with
        | Ok _ => Ok tt
        | Err e => Err (refused "DELETE" "/files" StatusNotFound e)
        end, step w res.2).
Proof.
  intros Ha Hp. cbv zeta. set (q := ("path", p) :: (if recursive then [("recursive", "1")] else [])).
  assert (∀ m path b k, query (request st m path q b) k = value_in q k) as Hq.
  { intros. apply query_request; [|done].
    subst q. destruct recursive; simpl; apply (bool_decide_unpack _); by vm_compute. }
  unfold delete_fs, ignore. fold q. unfold mbind, cli_bind.
  set (res := if recursive then _ else _).
  erewrite apiReq_taken; [|done|].
  2:{ change (ControlAPI.serve hmac_hex decode_error ?e (request st ?m "/files" ?q ?b) ?d)
        with (handleFiles decode_error e (request st m "/files" q b) d).
      unfold handleFiles. rewrite (auth_request _ _ _ _ _ Ha). cbn [negb].
      unfold deleteFile. rewrite !Hq. unfold q. rewrite !value_in_cons.
      cbn [String.eqb Ascii.eqb Bool.eqb]. fold q.
      change (Method (request st "DELETE" "/files" _ None)) with "DELETE".
      rewrite (decide_False (P := p = "")), (decide_False (P := "DELETE" = "GET")),
        (decide_False (P := "DELETE" = "POST" ∨ "DELETE" = "PUT")),
        (decide_True (P := "DELETE" = "DELETE")) by (done || by intros [|]).
      instantiate (2 := match res.1 with Ok _ => writeJSON StatusOK ok_body
                        | Err e => fs_fail StatusNotFound e end).
      instantiate (1 := set_fs res.2 (dmn w)). subst res. destruct recursive.
      - rewrite value_in_cons. cbn [String.eqb Ascii.eqb Bool.eqb]. rewrite decide_True by done.
        by destruct (removeRecursive _ _ _ _ _) as [[[] ?]|].
      - rewrite value_in_nil, decide_False by done. by destruct (MemFS.Remove _ _ _) as [[] ?]. }
  unfold taken. by destruct res as [[] ?].
Qed.

End requests.

End CliFacts.
