(* ===== verification/CliCopy.v ===== *)
(** * Copying inside the vault: what [fsCopy] does to the tree

    Through the requests of [CliFacts], on canonical paths. *)
From S2P Require Import Prelude GoStrings GoPath GoJson GoUtf8 GoHttp Config MemFS MemFSFacts.
From S2P Require Import MemFSSpec MemFSRefine MemFSProps MemFSCases Repo Node Daemon.
From S2P Require Import ControlAPI DaemonFacts Cli CliFacts.
Import GoStr GoPath GoJson UTF8 GoHttp MemFS FSFacts FSInv FSSpec FSRefine FSReach FSPaths FSCases.
Import Daemon ControlAPI ControlFacts Cli CliPaths CliFacts.

Module CliCopy.

(** ** Single calls, on the contents *)

Lemma view_up m p q : p `prefix_of` q → is_Some (view m q) → is_Some (view m p).
Proof.
  intros [t ->] Hs. destruct (view m p) eqn:Hp; [by eexists|].
  rewrite (view_down _ _ t Hp) in Hs. by destruct Hs.
Qed.

(** Nothing changes but directories that appear above (or at) a location. *)
Definition grown (parts : list string) (m m' : MemFS) (q : list string) : Prop :=
  view m' q = view m q ∨ view m q = None ∧ view m' q = Some EDir ∧ q `prefix_of` parts.

Lemma mkdir_all_view now m p mode parts : reach m → normalize p = Ok parts →
  let m' := (MkdirAll now m p mode).2 in
  reach m' ∧ quota m' = quota m ∧ (total (root m') ≤ total (root m))%Z ∧
  match (MkdirAll now m p mode).1 with
  | Ok _ => ∀ q, view m' q = if decide (q `prefix_of` parts ∧ view m q = None)
                             then Some EDir else view m q
  | Err _ => m' = m
  end.
Proof.
  intros Hr Hp m'. pose proof (reach_inv _ Hr) as Hm. pose proof (reach_usage_ok _ Hr) as [Hu _].
  assert (fits m (incoming (OMkdirAll p mode))) as Hf by (unfold fits; simpl; lia).
  destruct (exec_usage now m (OMkdirAll p mode) Hm Hf) as (Hq & Ht & _).
  split; [exact (reach_step now m (OMkdirAll p mode) Hr Hf)|]. split; [done|].
  split; [simpl in Ht; fold m' in Ht; lia|].
  pose proof (exec_refines_spec now m (OMkdirAll p mode) Hm Hf) as [_ Href]. simpl in Href.
  fold m' in Href. destruct (MkdirAll now m p mode).1 as [u|e].
  - destruct Href as [Hs _]. inversion Hs as [|? ? parts' Hp' _ [Hv _]| | |]; simplify_eq/=.
    rewrite Hp in Hp'. injection Hp' as <-. exact Hv.
  - destruct Href as [Hfail Hsame]. apply Hsame. intros ->.
    inversion Hfail; simplify_eq/=;
      by match goal with H : normalize _ = Err _ |- _ => apply normalize_err in H end.
Qed.

Lemma mkdir_all_grown now m p mode parts : reach m → normalize p = Ok parts →
  ∀ q, grown parts m (MkdirAll now m p mode).2 q.
Proof.
  intros Hr Hp q. destruct (mkdir_all_view now m p mode parts Hr Hp) as (_ & _ & _ & Hv).
  unfold grown. destruct (MkdirAll now m p mode).1; [|left; by rewrite Hv].
  rewrite Hv. case_decide as Hd; [right; tauto|by left].
Qed.

Lemma grown_trans parts parts' m m1 m2 q : parts `prefix_of` parts' →
  grown parts m m1 q → view m2 q = view m1 q → grown parts' m m2 q.
Proof.
  intros Hpre [Hv|(Hn & Hd & Hq)] H2; unfold grown; rewrite H2; [by left|right].
  split_and!; [done|done|]. by etrans.
Qed.

(** A write through the control API, at a canonical path. *)
Lemma write_file_view e dir c data f : reach f → fits f (len data) →
  Forall valid_name (dir ++ [c]) →
  let r := (write_file e (canon (dir ++ [c])) data f).1 in
  let f' := (write_file e (canon (dir ++ [c])) data f).2 in
  reach f' ∧ quota f' = quota f ∧
  (∀ q, q ≠ dir ++ [c] → grown (dir ++ [c]) f f' q) ∧
  ((300 <=? Status r)%Z = false → view f' (dir ++ [c]) = Some (EFile data)).
Proof.
  intros Hr Hf Hv r f'. pose proof (normalize_canon (dir ++ [c]) ltac:(by destruct dir) Hv) as Hn.
  assert (Forall plain_name dir ∧ plain_name c) as [Hpd Hpc].
  { apply Forall_app in Hv as [Hd Hc]. apply Forall_singleton in Hc as [Hc _].
    split; [|done]. eapply Forall_impl; [done|by intros ? []]. }
  assert (∃ p, Dir (canon (dir ++ [c])) = p ∧ p ≠ "" ∧ p ≠ "/" ∧ normalize p = Ok dir)
    as (p & Hp & Hp1 & Hp2 & Hnp).
  { eexists. split; [done|]. rewrite Dir_canon by done. apply Forall_app in Hv as [Hv _].
    destruct dir as [|x dir]; [done|]. split; [by apply canon_ne|]. split; [|by apply normalize_canon].
    intros Heq. pose proof (canon_relative (x :: dir) ltac:(done) Hpd) as Hrel.
    by rewrite Heq in Hrel. }
  unfold r, f', write_file. rewrite Hp, bool_decide_true by done.
  destruct (mkdir_all_view (clock e 0) f p 493 dir Hr Hnp) as (Hr1 & Hq1 & Ht1 & _).
  pose proof (mkdir_all_grown (clock e 0) f p 493 dir Hr Hnp) as Hg.
  set (f1 := (MkdirAll (clock e 0) f p 493).2) in *.
  assert (fits f1 (len data)) as Hf1 by (unfold fits in *; lia).
  destruct (Write (clock e 1) f1 (canon (dir ++ [c])) data 384) as [wr f2] eqn:Hw.
  pose proof (Write_cases _ _ _ _ _ _ _ _ Hr1 Hf1 Hn Hw) as Ho.
  pose proof (reach_Write _ _ _ _ _ _ _ Hr1 Hf1 Hw) as Hr2.
  assert (quota f2 = quota f) as Hq2.
  { destruct (exec_usage (clock e 1) f1 (OWrite (canon (dir ++ [c])) data 384)
      (reach_inv _ Hr1) Hf1) as [Hq _]. simpl in Hq. rewrite Hw in Hq. simpl in Hq. congruence. }
  assert (dir `prefix_of` dir ++ [c]) as Hpre by by eexists.
  unfold write_outcome in Ho. destruct wr as [u|er].
  - destruct Ho as (_ & _ & Hview). simpl. split_and!; [done|done| |].
    + intros q Hq. eapply grown_trans; [done|apply Hg|]. rewrite Hview. by rewrite decide_False.
    + intros _. rewrite Hview. by rewrite decide_True.
  - cbn [fst snd fs_fail fail writeJSON Status]. split_and!; [done|done| |done].
    intros q Hq. eapply grown_trans; [done|apply Hg|].
    case_decide; [|by destruct Ho as [-> _]]. destruct Ho as [_ Hview].
    rewrite Hview. by rewrite decide_False.
Qed.

(** ** Prefixes *)

Lemma prefix_comparable (a b q : list string) : a `prefix_of` q → b `prefix_of` q →
  a `prefix_of` b ∨ b `prefix_of` a.
Proof.
  intros [x ->] [y Hy]. revert b Hy. induction a as [|k a IH]; intros b Hy.
  { left. by eexists. }
  destruct b as [|k' b]; [right; by eexists|]. injection Hy as -> Hy.
  destruct (IH b Hy) as [[t ->]|[t ->]]; [left|right]; by exists t.
Qed.

Lemma prefix_snoc_inv (a b : list string) c : a `prefix_of` b ++ [c] →
  a `prefix_of` b ∨ a = b ++ [c].
Proof.
  intros [t Ht]. destruct t as [|x t] using rev_ind.
  - right. by rewrite (right_id_L [] (++)) in Ht.
  - left. rewrite (assoc_L (++)) in Ht. apply app_inj_tail in Ht as [-> _]. by eexists.
Qed.

(** Two locations neither of which is inside the other. *)
Definition apart (a b : list string) : Prop := ¬ a `prefix_of` b ∧ ¬ b `prefix_of` a.

Lemma apart_snoc a b c c' : apart a b → apart (a ++ [c]) (b ++ [c']).
Proof.
  assert (∀ a b c c', apart a b → ¬ a ++ [c] `prefix_of` b ++ [c' : string]) as H.
  { clear. intros a b c c' [H1 H2] [Hp|Heq]%prefix_snoc_inv.
    - apply H1. etrans; [|done]. by eexists.
    - apply app_inj_tail in Heq as [-> _]. by apply H1. }
  intros Hab. split; [by apply H|]. apply H. by destruct Hab.
Qed.

Lemma apart_below a b q : apart a b → a `prefix_of` q → ¬ b `prefix_of` q.
Proof. intros [H1 H2] Ha Hb. by destruct (prefix_comparable a b q Ha Hb). Qed.

(** ** The recursion *)

Section copy.
Context {G : Type} `{Repo.GoGit G}.
Context (hmac_hex : string → bytes → string) (decode_error : string → string).
Context (env : Env) (st : runtimeState) (Hup : reachable_daemon env st).

Local Abbreviation World := (World (G:=G)).
Local Abbreviation fsCopy := (fsCopy hmac_hex decode_error env st).

(** A quota far from overflow. *)
Definition small (f : MemFS) : Prop := (0 < quota f < 2 ^ 62)%Z.

Definition good (w : World) : Prop := authed st w ∧ reach (fs (dmn w)) ∧ small (fs (dmn w)).

Definition files (w : World) : list string → option entry := view (fs (dmn w)).

Lemma good_step w f : good w → reach f → quota f = quota (fs (dmn w)) → good (step w f).
Proof.
  intros (Ha & _ & Hs) Hr Hq. split_and!; [done|done|]. unfold small. simpl. by rewrite Hq.
Qed.

Lemma small_fits w parts b : good w → files w parts = Some (EFile b) →
  fits (fs (dmn w)) (len b).
Proof.
  intros (_ & Hr & Hs) Hb. destruct (reach_usage_ok _ Hr) as [_ Hq].
  pose proof (old_size_total _ parts (reach_inv _ Hr)) as Ho. unfold files in Hb. rewrite Hb in Ho.
  simpl in Ho. unfold fits, quota_ok, small, two63 in *. lia.
Qed.

(** Outside the target nothing changes, but its missing parents appear. *)
Definition confined (dp : list string) (w w' : World) : Prop :=
  host w' = host w ∧ ∀ q, ¬ dp `prefix_of` q → grown dp (fs (dmn w)) (fs (dmn w')) q.

Definition copied (sp dp : list string) (w w' : World) : Prop :=
  ∀ q, files w' (dp ++ q) = files w (sp ++ q).

(** The names below a location are text, and no longer than the fuel. *)
Definition text_below (w : World) (sp : list string) : Prop :=
  ∀ q, is_Some (files w (sp ++ q)) → Forall (λ s, utf8_str s = true) (sp ++ q).

Record copyable (w : World) (sp dp : list string) (fuel : nat) : Prop := {
  c_src : is_Some (files w sp);
  c_dst q : files w (dp ++ q) = None;
  c_ne : sp ≠ [] ∧ dp ≠ [];
  c_valid : Forall valid_name sp ∧ Forall valid_name dp;
  c_apart : apart sp dp;
  c_text : text_below w sp;
  c_depth : bounded (fs (dmn w)) sp fuel;
}.

Definition copies (fuel : nat) (f : string → string → cli ()) : Prop :=
  ∀ sp dp w, good w → copyable w sp dp fuel →
  ∃ r w', f (canon sp) (canon dp) w = Some (r, w') ∧ good w' ∧ confined dp w w' ∧
    (r = Ok tt → copied sp dp w w').

Lemma valid_plain l : Forall valid_name l → Forall plain_name l.
Proof. intros Hl. eapply Forall_impl; [done|by intros ? []]. Qed.

(** A file. *)
Lemma copy_file sp dp w b fuel : good w → copyable w sp dp fuel →
  files w sp = Some (EFile b) →
  ∃ r w', post_file hmac_hex decode_error env st (canon dp) (from_body (canon sp)) w = Some (r, w') ∧
    good w' ∧ confined dp w w' ∧ (r = Ok tt → copied sp dp w w').
Proof.
  intros Hg [Hsrc Hdst [Hsp Hdp] [Hvs Hvd] Hap Htext _] Hb.
  assert (Hg' := Hg). destruct Hg' as (Ha & Hr & Hs). pose proof (reach_inv _ Hr) as Hm.
  rewrite from_run; [|done|done|apply canon_ne; [done|by apply valid_plain]| |].
  2:{ apply utf8_join. specialize (Htext []). rewrite (right_id_L [] (++)) in Htext. by apply Htext. }
  2:{ apply canon_ne; [done|by apply valid_plain]. }
  assert (MemFS.Read (fs (dmn w)) (canon sp) = Ok b) as ->.
  { apply Read_view; [done|]. exists sp. split; [by apply normalize_canon|done]. }
  destruct (exists_last Hdp) as (dir & c & ->). unfold put.
  pose proof (write_file_view (denv env (sent w)) dir c b (fs (dmn w)) Hr
    (small_fits _ _ _ Hg Hb) Hvd) as (Hr' & Hq' & Hgrow & Hok).
  destruct (write_file (denv env (sent w)) (canon (dir ++ [c])) b (fs (dmn w))) as [rs f'].
  cbn [fst snd] in *. eexists _, _. split; [done|]. split; [by apply good_step|]. split.
  - split; [done|]. intros q Hq. simpl. apply Hgrow. by intros ->.
  - intros Hres. destruct (300 <=? Status rs)%Z; [done|]. specialize (Hok eq_refl).
    intros q. unfold files in *. simpl. destruct (decide (q = [])) as [->|Hne].
    + by rewrite !(right_id_L [] (++)), Hok.
    + rewrite (view_file_below _ _ _ _ (reach_inv _ Hr') Hok Hne).
      by rewrite (view_file_below _ _ _ _ Hm Hb Hne).
Qed.

(** The children of a directory, one after the other. *)
Record copying (w : World) (sp dp : list string) (fuel : nat) (l : list string) : Prop := {
  k_ne : sp ≠ [] ∧ dp ≠ [];
  k_valid : Forall valid_name sp ∧ Forall valid_name dp;
  k_apart : apart sp dp;
  k_text : text_below w sp;
  k_depth : bounded (fs (dmn w)) sp (S fuel);
  k_dir : files w dp = Some EDir;
  k_src c : c ∈ l → is_Some (files w (sp ++ [c]));
  k_dst c q : c ∈ l → files w ((dp ++ [c]) ++ q) = None;
}.

Lemma copying_child w sp dp fuel c l : good w → copying w sp dp fuel (c :: l) →
  valid_name c ∧ copyable w (sp ++ [c]) (dp ++ [c]) fuel.
Proof.
  intros (_ & Hr & _) []. assert (c ∈ c :: l) as Hc by by left.
  destruct (view_below (fs (dmn w)) sp c (reach_inv _ Hr) (k_src0 c Hc)) as [_ Hvc].
  destruct k_valid0 as [Hs Hd]. split; [done|]. split.
  - by apply k_src0.
  - intros q. by apply k_dst0.
  - split; [by destruct sp|by destruct dp].
  - split; apply Forall_app; (split; [done|by apply Forall_singleton]).
  - by apply apart_snoc.
  - intros q Hq. rewrite <- (assoc_L (++)) in *. by apply k_text0.
  - intros q Hq. rewrite <- (assoc_L (++)) in Hq. apply k_depth0 in Hq. simpl in Hq. lia.
Qed.

(** A child copied leaves the rest as it was. *)
Lemma child_outside w w' sp dp fuel c l q : copying w sp dp fuel (c :: l) →
  confined (dp ++ [c]) w w' → ¬ dp ++ [c] `prefix_of` q → files w' q = files w q.
Proof.
  intros [] [_ Hc] Hq. destruct (Hc q Hq) as [Hv|(Hn & _ & Hp)]; [done|]. exfalso.
  apply prefix_snoc_inv in Hp as [Hp| ->]; [|by apply Hq].
  assert (is_Some (files w q)) as [? Hs] by (by eapply view_up; [|eexists]).
  unfold files in Hs. congruence.
Qed.

Lemma copying_next w w' sp dp fuel c l : NoDup (c :: l) → copying w sp dp fuel (c :: l) →
  confined (dp ++ [c]) w w' → copying w' sp dp fuel l.
Proof.
  intros Hnd Hk Hc. apply NoDup_cons in Hnd as [Hcl Hnd].
  assert (∀ q, ¬ dp ++ [c] `prefix_of` q → files w' q = files w q) as Hout
    by (intros; by eapply child_outside).
  assert (∀ q, files w' (sp ++ q) = files w (sp ++ q)) as Hsp.
  { intros q. apply Hout. intros Hp. eapply (apart_below sp dp (sp ++ q)); [apply Hk|by eexists|].
    etrans; [|done]. by eexists. }
  destruct Hk. split; try done.
  - intros q. rewrite Hsp. apply k_text0.
  - intros q Hq. unfold files in Hsp. rewrite Hsp in Hq. by apply k_depth0.
  - rewrite Hout; [done|]. intros [t Ht]. rewrite <- (assoc_L (++)) in Ht.
    apply (f_equal length) in Ht. rewrite !length_app in Ht. simpl in Ht. lia.
  - intros c' Hc'. rewrite Hsp. apply k_src0. by right.
  - intros c' q Hc'. rewrite Hout; [apply k_dst0; by right|].
    intros [t Ht]. rewrite <- !(assoc_L (++)) in Ht. apply app_inv_head in Ht.
    by simplify_eq/=.
Qed.

Lemma copy_children fuel f l : copies fuel f → ∀ w sp dp, good w → NoDup l →
  copying w sp dp fuel l →
  ∃ r w', each (λ n, f (Join2 (canon sp) n) (Join2 (canon dp) n)) l w = Some (r, w') ∧
    good w' ∧ host w' = host w ∧
    (∀ q, (∀ c, c ∈ l → ¬ dp ++ [c] `prefix_of` q) → files w' q = files w q) ∧
    (r = Ok tt → ∀ c q, c ∈ l → files w' ((dp ++ [c]) ++ q) = files w ((sp ++ [c]) ++ q)).
Proof.
  intros Hf. induction l as [|c l IH]; intros w sp dp Hg Hnd Hk.
  { exists (Ok tt), w. split_and!; [done|done|done|done|]. by intros _ c q Hc%elem_of_nil. }
  destruct (copying_child _ _ _ _ _ _ Hg Hk) as [Hvc Hcp].
  destruct (Hf _ _ w Hg Hcp) as (r1 & w1 & Hx & Hg1 & Hc1 & Hcopied).
  assert (∀ q, ¬ dp ++ [c] `prefix_of` q → files w1 q = files w q) as Hout1
    by (intros; by eapply child_outside).
  pose proof (copying_next _ _ _ _ _ _ _ Hnd Hk Hc1) as Hk1.
  assert (Hnd' := Hnd). apply NoDup_cons in Hnd' as [Hcl Hnd'].
  destruct (k_valid _ _ _ _ _ Hk) as [Hvs Hvd], (k_ne _ _ _ _ _ Hk) as [Hns Hnd0].
  destruct Hvc as [Hpc _]. cbn [each].
  rewrite !Join2_canon by (done || by apply valid_plain).
  destruct r1 as [[]|e].
  - rewrite (bind_some _ _ _ _ _ Hx).
    destruct (IH w1 sp dp Hg1 Hnd' Hk1) as (r & w' & Hx' & Hg' & Hh' & Hout & Hin).
    exists r, w'. split; [done|]. split; [done|]. split; [by rewrite Hh', (proj1 Hc1)|]. split.
    + intros q Hq. rewrite Hout; [apply Hout1, Hq; by left|]. intros c' Hc'. apply Hq. by right.
    + intros Hr c' q [->|Hc']%elem_of_cons.
      * rewrite Hout; [by apply Hcopied|]. intros c' Hc' [t Ht].
        rewrite <- !(assoc_L (++)) in Ht. apply app_inv_head in Ht. by simplify_eq/=.
      * rewrite (Hin Hr c' q Hc'). apply Hout1. intros Hp.
        eapply (apart_below sp dp); [apply Hk| |etrans; [|exact Hp]; by eexists].
        rewrite <- (assoc_L (++)). by eexists.
  - rewrite (bind_fail _ _ _ _ _ Hx). exists (Err e), w1. split; [done|]. split; [done|].
    split; [apply Hc1|]. split; [|done]. intros q Hq. apply Hout1, Hq. by left.
Qed.

(** A directory that has just been made for the copy. *)
Lemma made_directory w sp dp fuel f1 l :
  good w → copyable w sp dp (S fuel) → files w sp = Some EDir → good (step w f1) →
  (∀ q, view f1 q = if decide (q `prefix_of` dp ∧ view (fs (dmn w)) q = None)
                    then Some EDir else view (fs (dmn w)) q) →
  (∀ k, k ∈ l ↔ is_Some (view f1 (sp ++ [k]))) →
  (∀ q, ¬ dp `prefix_of` q → grown dp (fs (dmn w)) f1 q) ∧
  (∀ q, files (step w f1) (sp ++ q) = files w (sp ++ q)) ∧
  (∀ k q, files (step w f1) (dp ++ k :: q) = None) ∧
  copying (step w f1) sp dp fuel l.
Proof.
  intros Hg Hc Hsp Hg1 Hv Hl. destruct Hc. unfold files in *. simpl in *.
  assert (∀ q, ¬ dp `prefix_of` q → grown dp (fs (dmn w)) f1 q) as Hgrow.
  { intros q _. unfold grown. rewrite Hv. case_decide as Hd; [right; tauto|by left]. }
  assert (∀ q, view f1 (sp ++ q) = view (fs (dmn w)) (sp ++ q)) as Hsame.
  { intros q. rewrite Hv, decide_False; [done|]. intros [Hp _].
    apply (proj1 c_apart0). etrans; [|exact Hp]. by eexists. }
  assert (∀ k q, view f1 (dp ++ k :: q) = None) as Hnew.
  { intros k q. rewrite Hv, decide_False; [apply c_dst0|]. intros [[t Ht] _].
    apply (f_equal length) in Ht. rewrite !length_app in Ht. simpl in Ht. lia. }
  split_and!; [done|done|done|]. split; try done.
  - intros q. unfold files. simpl. rewrite Hsame. apply c_text0.
  - intros q. simpl. rewrite Hsame. apply c_depth0.
  - unfold files. simpl. rewrite Hv, decide_True; [done|]. split; [done|].
    specialize (c_dst0 []). by rewrite (right_id_L [] (++)) in c_dst0.
  - intros c Hc. unfold files. simpl. by apply Hl.
  - intros c q _. unfold files. simpl. rewrite <- (assoc_L (++)). apply Hnew.
Qed.

Lemma coerce_names w sp (l : list string) : text_below w sp → (∀ k, k ∈ l → is_Some (files w (sp ++ [k]))) →
  coerce <$> l = l.
Proof.
  intros Ht Hl. assert (Forall (λ s, coerce s = s) l) as Hall.
  { apply Forall_forall. intros k Hk. specialize (Ht _ (Hl k Hk)).
    apply Forall_app in Ht as [_ Hk']. rewrite Forall_singleton in Hk'.
    by apply bool_decide_eq_true in Hk'. }
  induction Hall as [|k l Hk _ IH]; [done|]. cbn [fmap list_fmap]. rewrite Hk. f_equal. apply IH.
  intros k' Hk'. apply Hl. by right.
Qed.

(** A directory: made, listed, and its children copied. *)
Lemma copy_dir sp dp w fuel f : good w → copyable w sp dp (S fuel) → copies fuel f →
  files w sp = Some EDir →
  ∃ r w', (_ ← apiReq hmac_hex decode_error env st "POST" "/mkdir"
                 [("path", canon dp); ("parents", "1")] None;
           text ← apiReq hmac_hex decode_error env st "GET" "/files"
                    [("path", canon sp); ("list", "1"); ("all", "1")] None;
           names ← decode_reply names_decoder [] text;
           each (λ n, f (Join2 (canon sp) n) (Join2 (canon dp) n)) names) w = Some (r, w') ∧
    good w' ∧ confined dp w w' ∧ (r = Ok tt → copied sp dp w w').
Proof.
  intros Hg Hc Hf Hsp. assert (Hg' := Hg). destruct Hg' as (Ha & Hr & Hs). assert (Hc' := Hc).
  destruct Hc' as [_ Hdst [Hnsp Hndp] [Hvs Hvd] Hap Htext _].
  assert (canon dp ≠ "" ∧ canon sp ≠ "") as [Hd0 Hs0]
    by (split; apply canon_ne; by try apply valid_plain).
  pose proof (mkdirs_run hmac_hex decode_error env st Hup (canon dp) w Ha Hd0) as Hmk.
  destruct (mkdir_all_view (clock (denv env (sent w)) 0) (fs (dmn w)) (canon dp) 493 dp Hr
    (normalize_canon _ Hndp Hvd)) as (Hr1 & Hq1 & _ & Hv1).
  pose proof (mkdir_all_grown (clock (denv env (sent w)) 0) (fs (dmn w)) (canon dp) 493 dp Hr
    (normalize_canon _ Hndp Hvd)) as Hgrow1.
  destruct (MkdirAll _ (fs (dmn w)) (canon dp) 493) as [r1 f1]. destruct Hmk as [text Hmk].
  cbn [fst snd] in *. pose proof (good_step w f1 Hg Hr1 Hq1) as Hg1.
  destruct r1 as [u|e].
  2:{ rewrite (bind_fail _ _ _ _ _ Hmk). eexists _, _. split; [done|]. split; [done|].
      split; [split; [done|]; intros q _; apply Hgrow1|done]. }
  rewrite (bind_some _ _ _ _ _ Hmk). set (w1 := step w f1) in *.
  pose proof (names_run hmac_hex decode_error env st Hup (canon sp) w1 (proj1 Hg1) Hs0) as Hnames.
  rewrite reply_assoc.
  pose proof (List_view f1 (canon sp) (reach_inv _ Hr1)) as Hlist.
  assert (view f1 sp = Some EDir) as Hsp1.
  { rewrite Hv1, decide_False; [done|]. intros [Hp _]. by apply (proj1 Hap). }
  change (fs (dmn w1)) with f1 in Hnames.
  destruct (MemFS.List f1 (canon sp)) as [l|e].
  2:{ exfalso. apply (Hlist sp); [by apply normalize_canon|done]. }
  destruct Hlist as (sp' & Hsp' & _ & _ & Hnd & Hl).
  rewrite (normalize_canon _ Hnsp Hvs) in Hsp'. injection Hsp' as <-.
  destruct (made_directory w sp dp fuel f1 l Hg Hc Hsp Hg1 Hv1 Hl) as (Hgrow & Hsame & Hnew & Hk).
  fold w1 in Hsame, Hnew, Hk.
  rewrite (coerce_names w1 sp l (k_text _ _ _ _ _ Hk) (k_src _ _ _ _ _ Hk)) in Hnames.
  set (w2 := step w1 f1) in *. assert (good w2) as Hg2 by by apply good_step.
  assert (copying w2 sp dp fuel l) as Hk2 by (destruct Hk; by split).
  destruct (copy_children fuel f l Hf w2 sp dp Hg2 Hnd Hk2) as (r & w' & Hx & Hg' & Hh & Hout & Hin).
  rewrite (bind_some _ _ _ _ _ Hnames). exists r, w'. split; [exact Hx|]. split; [done|]. split.
  - split; [by rewrite Hh|]. intros q Hq. eapply grown_trans; [done|by apply Hgrow|].
    apply Hout. intros c _ Hp. apply Hq. etrans; [|exact Hp]. by eexists.
  - intros Hok q. destruct q as [|k q].
    + rewrite !(right_id_L [] (++)), Hsp, Hout; [apply Hk|].
      intros c _ [t Ht]. rewrite <- (assoc_L (++)) in Ht. apply (f_equal length) in Ht.
      rewrite !length_app in Ht. simpl in Ht. lia.
    + destruct (decide (k ∈ l)) as [Hin'|Hnin].
      * rewrite (cons_middle k dp q), (cons_middle k sp q), !(assoc_L (++)).
        rewrite (Hin Hok k q Hin'), <- (assoc_L (++)). apply Hsame.
      * rewrite <- Hsame, Hout. change (files w2) with (files w1). rewrite Hnew.
        -- symmetry. rewrite (cons_middle k), (assoc_L (++)). apply view_down, eq_None_not_Some.
           intros Hsome. by apply Hnin, Hl.
        -- intros c Hcl [t Ht]. rewrite <- (assoc_L (++)) in Ht. apply app_inv_head in Ht.
           by simplify_eq/=.
Qed.

Lemma fsCopy_copies fuel : copies fuel (fsCopy fuel).
Proof.
  induction fuel as [|fuel IH]; intros sp dp w Hg Hc.
  { pose proof (c_depth _ _ _ _ Hc []) as Hd. rewrite (right_id_L [] (++)) in Hd.
    specialize (Hd (c_src _ _ _ _ Hc)). lia. }
  cbn [Cli.fsCopy]. assert (Hg' := Hg). destruct Hg' as (Ha & Hr & Hs).
  destruct (c_ne _ _ _ _ Hc) as [Hnsp Hndp], (c_valid _ _ _ _ Hc) as [Hvs Hvd].
  assert (canon sp ≠ "") as Hs0 by (apply canon_ne; [done|by apply valid_plain]).
  pose proof (meta_run hmac_hex decode_error env st Hup (canon sp) w Ha Hs0) as Hmeta.
  pose proof (Stat_view (fs (dmn w)) (canon sp) sp (reach_inv _ Hr) (normalize_canon _ Hnsp Hvs)) as Hst.
  pose proof (c_src _ _ _ _ Hc) as Hsome. unfold files in Hsome.
  destruct (Stat (fs (dmn w)) (canon sp)) as [n|e]; [|by rewrite Hst in Hsome; destruct Hsome].
  rewrite (bind_some _ _ _ _ _ Hmeta).
  assert (good (step w (fs (dmn w)))) as Hg1 by by apply good_step.
  assert (copyable (step w (fs (dmn w))) sp dp (S fuel)) as Hc1.
  { destruct Hc. split; try done. }
  destruct Hst as [[Hv Hd]|(b & Hv & Hd)]; rewrite Hd; cbn [negb].
  - destruct (copy_dir sp dp _ fuel (fsCopy fuel) Hg1 Hc1 IH Hv) as (r & w' & ? & ? & ? & ?).
    by exists r, w'.
  - destruct (copy_file sp dp _ b _ Hg1 Hc1 Hv) as (r & w' & ? & ? & ? & ?).
    by exists r, w'.
Qed.

End copy.

End CliCopy.
