(* ===== verification/CliTheorems.v ===== *)
(** * The command line: properties *)
From S2P Require Import Prelude GoStrings GoPath GoJson GoUtf8 GoFloat GoJsonPrint GoHttp Config.
From S2P Require Import MemFS MemFSFacts MemFSSpec MemFSRefine MemFSProps MemFSCases.
From S2P Require Import Repo Node Daemon ControlAPI DaemonFacts DaemonTheorems GoFlag Cli CliFacts CliCopy.
Import GoStr GoPath GoJson UTF8 JsonPrint GoHttp MemFS FSFacts FSInv FSSpec FSRefine FSReach FSPaths.
Import FSCases Daemon ControlAPI ControlFacts GoFlag Cli CliPaths CliFacts CliCopy.

Module CliTheorems.

Section theorems.
Context {G : Type} `{Repo.GoGit G}.
Context (hmac_hex : string → bytes → string) (decode_error : string → string).
Context (env : Env) (st : runtimeState).

Local Abbreviation World := (World (G:=G)).

(** ** Moving inside the vault *)

Lemma delete_tree (Hup : reachable_daemon env st) w sp : good st w → sp ≠ [] → Forall valid_name sp → is_Some (files w sp) →
  ∃ w', delete_fs hmac_hex decode_error env st (canon sp) true w = Some (Ok tt, w') ∧
    host w' = host w ∧
    ∀ q, files w' q = if decide (sp `prefix_of` q) then None else files w q.
Proof.
  intros (Ha & Hr & Hs) Hne Hv Hsome.
  assert (canon sp ≠ "") as Hs0 by (apply canon_ne; [done|by apply valid_plain]).
  rewrite (delete_run hmac_hex decode_error env st Hup (canon sp) true w Ha Hs0). cbv zeta.
  destruct (removeRecursive_spec (clock (denv env (sent w))) (S (height (root (fs (dmn w))))) 0
    (canon sp) (fs (dmn w)) sp Hr (normalize_canon _ Hne Hv) Hsome (bounded_height _ _))
    as (res & f & Hx & Hr' & Hok & Hview).
  rewrite decide_False in Hok by done. rewrite Hx. destruct res as [i|]; [|done].
  eexists. split; [done|]. split; [done|]. intros q. unfold files. simpl. rewrite Hview.
  unfold cut_view. destruct (decide (sp `prefix_of` q)) as [Hp|Hp].
  - rewrite decide_True; [done|]. split; [done|]. intros ->. by apply prefix_nil_inv in Hp.
  - by rewrite decide_False by naive_solver.
Qed.

(** C24: moving a file or a directory to a place that is not inside it, nor it inside the
    place, ends; on success the whole tree is at the new place with every body as it
    was, nothing is left at the old one, and elsewhere at most missing parents of the
    new place appear; on failure the tree is still where it was, whole. *)
Theorem mv_moves_tree src dst sp dp fuel w :
  reachable_daemon env st → good st w →
  isHostPath src = false → isHostPath dst = false →
  toFSPathArg src = canon sp → toFSPathArg dst = canon dp →
  copyable w sp dp fuel →
  ∃ r w', runMV hmac_hex decode_error env st fuel [src; dst] w = Some (r, w') ∧
    host w' = host w ∧
    match r with
    | Ok _ =>
        (∀ q, files w' (dp ++ q) = files w (sp ++ q)) ∧
        (∀ q, files w' (sp ++ q) = None) ∧
        (∀ q, ¬ dp `prefix_of` q → ¬ sp `prefix_of` q →
           grown dp (fs (dmn w)) (fs (dmn w')) q)
    | Err _ => ∀ q, files w' (sp ++ q) = files w (sp ++ q)
    end.
Proof.
  intros Hup Hg Hhs Hhd Hsrc Hdst Hc. unfold runMV. rewrite Hhs, Hhd. unfold mvFSToFS.
  rewrite Hsrc, Hdst. assert (Hg' := Hg). destruct Hg' as (Ha & Hr & Hs).
  assert (Hc' := Hc). destruct Hc' as [Hsome Hnone [Hnsp Hndp] [Hvs Hvd] Hap _ _].
  assert (canon dp ≠ "") as Hd0 by (apply canon_ne; [done|by apply valid_plain]).
  pose proof (exists_run hmac_hex decode_error env st Hup (canon dp) w Ha Hd0) as Hex.
  pose proof (Stat_view (fs (dmn w)) (canon dp) dp (reach_inv _ Hr) (normalize_canon _ Hndp Hvd)) as Hst.
  specialize (Hnone []) as Hnone0. rewrite (right_id_L [] (++)) in Hnone0. unfold files in Hnone0.
  destruct (Stat (fs (dmn w)) (canon dp)) as [n|e].
  { destruct Hst as [[Hv _]|(b & Hv & _)]; congruence. }
  rewrite (bind_some _ _ _ _ _ Hex). cbn [is_ok].
  set (w1 := step w (fs (dmn w))).
  assert (good st w1) as Hg1 by by apply good_step.
  assert (copyable w1 sp dp fuel) as Hc1 by (destruct Hc; by split).
  destruct (fsCopy_copies hmac_hex decode_error env st Hup fuel sp dp w1 Hg1 Hc1)
    as (r & w2 & Hx & Hg2 & [Hh2 Hconf] & Hcop).
  assert (∀ q, files w2 (sp ++ q) = files w (sp ++ q)) as Hsame.
  { intros q. destruct (Hconf (sp ++ q)) as [Hv|(_ & _ & Hp)]; [|done|].
    - intros Hp. eapply (apart_below sp dp); [done| |exact Hp]. by eexists.
    - exfalso. apply (proj1 Hap). etrans; [|exact Hp]. by eexists. }
  destruct r as [[]|er].
  2:{ rewrite (bind_fail _ _ _ _ _ Hx). exists (Err er), w2. by split_and!. }
  rewrite (bind_some _ _ _ _ _ Hx). specialize (Hcop eq_refl).
  assert (is_Some (files w2 sp)) as Hs2.
  { specialize (Hsame []). rewrite !(right_id_L [] (++)) in Hsame. by rewrite Hsame. }
  destruct (delete_tree Hup w2 sp Hg2 Hnsp Hvs Hs2) as (w3 & Hdel & Hh3 & Hview).
  exists (Ok tt), w3. split; [done|]. split; [by rewrite Hh3, Hh2|]. split_and!.
  - intros q. rewrite Hview, decide_False.
    + apply Hcop.
    + intros Hp. destruct Hap as [H1 H2].
      eapply (apart_below dp sp); [by split| |exact Hp]. by eexists.
  - intros q. rewrite Hview, decide_True; [done|]. by eexists.
  - intros q Hd Hsq. unfold grown. fold (files w3 q). rewrite Hview, decide_False by done.
    by destruct (Hconf q Hd) as [Hv|Hv]; [left|right].
Qed.

(** ** Moving a file of the machine into the vault *)

(** The flags of [cp] do not start with a path. *)
Lemma host_not_flag src : isHostPath src = true → flag_name src = None ∧
  expandCombinedFlags [src] "rR" = [src].
Proof.
  unfold isHostPath. destruct (HasPrefix src "fs:"); [done|].
  destruct src as [|a src]; [done|]. intros Hh.
  assert (a ≠ "-"%char) as Ha.
  { intros ->. simpl in Hh. done. }
  split.
  - simpl. destruct a as [[] [] [] [] [] [] [] []]; by try done.
  - unfold expandCombinedFlags. cbn [fmap list_fmap mjoin list_join].
    destruct (decide _); [|done].
    assert (HasPrefix (String a src) "-" = false) as ->; [|done].
    simpl. by rewrite bool_decide_false.
Qed.

Lemma expand_one dst : expandCombinedFlags [dst] "rR" = [dst] ∨
  2 ≤ length (expandCombinedFlags [dst] "rR").
Proof.
  unfold expandCombinedFlags. cbn [fmap list_fmap mjoin list_join].
  destruct (decide _) as [Hl|]; [|by left]. destruct (_ && _); [|by left]. right.
  rewrite (right_id_L [] (++)). destruct dst as [|a [|b [|c dst]]]; simpl in *; lia.
Qed.

(** [cp] of one file of the machine, as [mv] calls it. *)
Lemma runCP_host src dst w u w' : isHostPath src = true → isHostPath dst = false →
  runCP hmac_hex decode_error env st [src; dst] w = Some (Ok u, w') →
  cpHostToFS hmac_hex decode_error env st false src dst w = Some (Ok u, w').
Proof.
  intros Hs Hd. destruct (host_not_flag src Hs) as [Hflag Hexp]. unfold runCP.
  assert (expandCombinedFlags [src; dst] "rR" = src :: expandCombinedFlags [dst] "rR") as ->.
  { unfold expandCombinedFlags in *. cbn [fmap list_fmap mjoin list_join] in *.
    rewrite (right_id_L [] (++)) in Hexp. by rewrite Hexp. }
  assert (∀ l, Parse [("r", KBool); ("R", KBool)] (src :: l) = Ok ([], src :: l)) as Hp.
  { intros l. cbn [Parse]. by rewrite Hflag. }
  unfold parse_flags. rewrite Hp. unfold mbind, cli_bind, mret, cli_ret.
  destruct (expand_one dst) as [->|Hl].
  - unfold copy. by rewrite Hs, Hd.
  - destruct (expandCombinedFlags [dst] "rR") as [|x [|y l]]; simpl in Hl; [lia|lia|done].
Qed.

(** A file written through the API can be read. *)
Lemma put_read (w : World) p data u w' : reach (fs (dmn w)) → fits (fs (dmn w)) (len data) →
  put env p data w = Some (Ok u, w') →
  MemFS.Read (fs (dmn w')) p = Ok data ∧ host w' = host w.
Proof.
  intros Hr Hf. unfold put, write_file.
  set (f1 := if bool_decide _ then _ else _).
  assert (reach f1 ∧ fits f1 (len data)) as [Hr1 Hf1].
  { subst f1. case_bool_decide; [|done].
    pose proof (reach_inv _ Hr) as Hm.
    set (o := OMkdirAll (Dir p) 493).
    assert (fits (fs (dmn w)) (incoming o)) as Hfo
      by (pose proof (reach_usage_ok _ Hr); unfold fits; simpl; lia).
    destruct (exec_usage (clock (denv env (sent w)) 0) _ o Hm Hfo) as (_ & Ht & _).
    split; [exact (reach_step _ _ o Hr Hfo)|]. unfold fits in *. simpl in Ht. lia. }
  destruct (Write _ f1 p data 384) as [[[]|e] f2] eqn:Hw; [|done].
  intros [= _ <-]. split; [|done]. simpl.
  by destruct (write_read _ _ _ _ _ _ (reach_inv _ Hr1) Hf1 Hw).
Qed.

(** [cp] of a file of the machine: what it stores, and where. *)
Lemma cpHostToFS_file (Hup : reachable_daemon env st) src dst b w w' : good st w →
  host w !! Clean src = Some (HFile b) → fits (fs (dmn w)) (len (of_string (coerce b))) →
  cpHostToFS hmac_hex decode_error env st false src dst w = Some (Ok tt, w') →
  ∃ target, (target = toFSPathArg dst ∨ target = Join2 (toFSPathArg dst) (Base src)) ∧
    MemFS.Read (fs (dmn w')) target = Ok (of_string (coerce b)).
Proof.
  intros (Ha & Hr & Hs) Hb Hf. unfold cpHostToFS, stat. unfold mbind at 1, cli_bind at 1.
  rewrite Hb. destruct (hfail env "stat" src); [done|].
  set (t0 := toFSPathArg dst).
  assert (∃ isDir w1, (if HasSuffix t0 "/" || bool_decide (t0 = "/") then mret true
      else fsPathIsDir hmac_hex decode_error env st t0) w = Some (Ok isDir, w1) ∧
      authed st w1 ∧ fs (dmn w1) = fs (dmn w) ∧ host w1 = host w)
    as (isDir & w1 & Hx & Ha1 & Hfs1 & Hh1).
  { destruct (_ || _); [by exists true, w|]. do 2 eexists. split_and!.
    - apply (isDir_run hmac_hex decode_error env st Hup); [done|apply toFSPathArg_ne].
    - done.
    - done.
    - done. }
  rewrite (bind_some _ _ _ _ _ Hx). cbv zeta.
  set (target := if isDir then Join2 t0 (Base src) else t0).
  assert (target ≠ "") as Hne.
  { subst target t0. destruct isDir; [apply Join2_ne|]; apply toFSPathArg_ne. }
  rewrite (bind_some _ _ _ _ _ (exists_run hmac_hex decode_error env st Hup target w1 Ha1 Hne)).
  destruct (is_ok _); [done|]. set (w2 := step w1 (fs (dmn w1))).
  unfold writeHostFileToFS, read_host. unfold mbind at 1, cli_bind at 1.
  change (host w2) with (host w1). rewrite Hh1, Hb. destruct (hfail env "read" src); [done|].
  rewrite (content_run hmac_hex decode_error env st Hup target b w2 Ha1 Hne). intros Hput.
  assert (fs (dmn w2) = fs (dmn w)) as Hfs2 by done.
  exists target. split; [subst target; destruct isDir; [by right|by left]|].
  apply put_read in Hput as [Hread _]; [done|by rewrite Hfs2..].
Qed.

(** [mv] of a file of this machine into the vault that succeeds stores the file's
    bytes as text (every ill-formed byte replaced by the error rune, because the body
    travels in a JSON string) and then deletes the original: it survives exactly when
    it was valid UTF-8. *)
Theorem mv_host_file src dst b fuel w u w' :
  reachable_daemon env st → good st w → isHostPath src = true → isHostPath dst = false →
  host w !! Clean src = Some (HFile b) →
  fits (fs (dmn w)) (len (of_string (coerce b))) →
  runMV hmac_hex decode_error env st fuel [src; dst] w = Some (Ok u, w') →
  host w' !! Clean src = None ∧
  (∃ target, (target = toFSPathArg dst ∨ target = Join2 (toFSPathArg dst) (Base src)) ∧
     MemFS.Read (fs (dmn w')) target = Ok (of_string (coerce b))) ∧
  (of_string (coerce b) = of_string b ↔ utf8_str b = true).
Proof.
  intros Hup Hg Hs Hd Hb Hf. unfold runMV. rewrite Hs, Hd.
  destruct (runCP hmac_hex decode_error env st [src; dst] w) as [[[[]|e] w1]|] eqn:Hcp;
    [|by rewrite (bind_fail _ _ _ _ _ Hcp)|].
  2:{ unfold mbind, cli_bind. by rewrite Hcp. }
  rewrite (bind_some _ _ _ _ _ Hcp). unfold remove_host. destruct (hfail env "remove" src); [done|].
  intros [= _ <-]. cbn [host set_host dmn]. split; [|split].
  - apply map_lookup_filter_None. right. intros x _. simpl. unfold under.
    by rewrite bool_decide_true.
  - apply runCP_host in Hcp; [|done..].
    destruct (cpHostToFS_file Hup src dst b w _ Hg Hb Hf Hcp) as (target & Ht & Hread).
    by exists target.
  - unfold utf8_str. rewrite bool_decide_eq_true. split; [|by intros ->].
    intros He. by rewrite <- (to_of_string (coerce b)), He, to_of_string.
Qed.

(** ** Moving a directory into itself *)

Lemma bind_none {A B} (c : cli (G:=G) A) (k : A → cli B) w : c w = None → (c ≫= k) w = None.
Proof. intros Hc. unfold mbind, cli_bind. by rewrite Hc. Qed.

(** The next round starts from the directory the last one has made. *)
Lemma into_itself (Hup : reachable_daemon env st) b fuel : utf8_str b = true → ∀ sp w,
  good st w → sp ≠ [] → Forall valid_name (sp ++ [b]) → files w sp = Some EDir →
  (∀ k q, files w (sp ++ k :: q) = None) →
  fsCopy hmac_hex decode_error env st fuel (canon sp) (canon (sp ++ [b])) w = None.
Proof.
  intros Hb. induction fuel as [|fuel IH]; intros sp w Hg Hne Hv Hdir Hempty; [done|].
  assert (Hg' := Hg). destruct Hg' as (Ha & Hr & Hs).
  assert (Hv' := Hv). apply Forall_app in Hv' as [Hvs Hvb].
  rewrite Forall_singleton in Hvb.
  assert (sp ++ [b] ≠ []) as Hne' by by destruct sp.
  assert (canon sp ≠ "" ∧ canon (sp ++ [b]) ≠ "") as [Hs0 Hd0]
    by (split; apply canon_ne; by try apply valid_plain).
  cbn [Cli.fsCopy].
  pose proof (meta_run hmac_hex decode_error env st Hup (canon sp) w Ha Hs0) as Hmeta.
  pose proof (Stat_view (fs (dmn w)) (canon sp) sp (reach_inv _ Hr) (normalize_canon _ Hne Hvs)) as Hst.
  unfold files in Hdir. destruct (Stat (fs (dmn w)) (canon sp)) as [n|e]; [|congruence].
  destruct Hst as [[_ Hd]|(? & ? & _)]; [|congruence]. rewrite Hd in Hmeta.
  rewrite (bind_some _ _ _ _ _ Hmeta). cbn [negb]. set (w1 := step w (fs (dmn w))).
  assert (good st w1) as Hg1 by by apply good_step.
  pose proof (mkdirs_run hmac_hex decode_error env st Hup (canon (sp ++ [b])) w1 Ha Hd0) as Hmk.
  change (fs (dmn w1)) with (fs (dmn w)) in Hmk.
  set (now := clock (denv env (sent w1)) 0) in *.
  destruct (mkdir_all_view now (fs (dmn w)) (canon (sp ++ [b])) 493 (sp ++ [b]) Hr
    (normalize_canon _ Hne' Hv)) as (Hr1 & Hq1 & _ & Hv1).
  assert (∃ u, (MkdirAll now (fs (dmn w)) (canon (sp ++ [b])) 493).1 = Ok u) as [u Hok].
  { pose proof (reach_usage_ok _ Hr) as [Hu _].
    assert (fits (fs (dmn w)) (incoming (OMkdirAll (canon (sp ++ [b])) 493))) as Hf
      by (unfold fits; simpl; lia).
    pose proof (exec_refines_spec now _ _ (reach_inv _ Hr) Hf) as [_ Href]. simpl in Href.
    destruct (MkdirAll now (fs (dmn w)) (canon (sp ++ [b])) 493).1 as [u|e]; [by exists u|].
    destruct Href as [Hfail _]. exfalso. pose proof (normalize_canon _ Hne' Hv) as Hn.
    assert (∃ pre bd, pre `prefix_of` sp ++ [b] ∧ view (fs (dmn w)) pre = Some (EFile bd))
      as (pre & bd & Hpre & Hbd).
    { inversion Hfail; simplify_eq/=; rewrite Hn in *; simplify_eq/=; eauto. }
    apply prefix_snoc_inv in Hpre as [Hpre| ->].
    - destruct Hpre as [t ->]. destruct t as [|k t].
      + rewrite (right_id_L [] (++)) in Hdir. congruence.
      + assert (k :: t ≠ []) as Hkt by done.
        rewrite (view_file_below _ _ _ _ (reach_inv _ Hr) Hbd Hkt) in Hdir. done.
    - pose proof (Hempty b []) as Hn'. unfold files in Hn'. congruence. }
  destruct (MkdirAll now (fs (dmn w)) (canon (sp ++ [b])) 493) as [r1 f1]. simpl in Hok. subst r1.
  cbn [fst snd] in *. destruct Hmk as [text Hmk]. rewrite (bind_some _ _ _ _ _ Hmk).
  set (w2 := step w1 f1). assert (good st w2) as Hg2 by by apply good_step.
  assert (∀ q, view f1 (sp ++ q) = if decide (q = [] ∨ q = [b]) then Some EDir else None) as Hbelow.
  { intros q. rewrite Hv1. destruct q as [|k q].
    - rewrite (right_id_L [] (++)), Hdir. rewrite decide_False by naive_solver.
      by rewrite decide_True by by left.
    - pose proof (Hempty k q) as Hn. unfold files in Hn. rewrite Hn.
      destruct (decide (k :: q = [b])) as [Hkb|Hkb].
      + injection Hkb as -> ->. by rewrite !decide_True by (done || by right).
      + rewrite !decide_False; [done|naive_solver|]. intros [[t Ht] _].
        rewrite <- (assoc_L (++)) in Ht. apply app_inv_head in Ht.
        destruct q; simplify_eq/=. }
  pose proof (names_run hmac_hex decode_error env st Hup (canon sp) w2 (proj1 Hg2) Hs0) as Hnames.
  pose proof (List_view f1 (canon sp) (reach_inv _ Hr1)) as Hlist.
  change (fs (dmn w2)) with f1 in Hnames.
  destruct (MemFS.List f1 (canon sp)) as [l|e].
  2:{ exfalso. apply (Hlist sp); [by apply normalize_canon|]. specialize (Hbelow []).
      rewrite (right_id_L [] (++)) in Hbelow. rewrite Hbelow. by rewrite decide_True by by left. }
  destruct Hlist as (sp' & Hsp' & _ & _ & Hnd & Hl).
  rewrite (normalize_canon _ Hne Hvs) in Hsp'. injection Hsp' as <-.
  assert (l = [b]) as ->.
  { assert (∀ k, k ∈ l ↔ k = b) as Hk.
    { intros k. rewrite Hl, Hbelow. destruct (decide ([k] = [] ∨ [k] = [b])) as [Hd'|Hd'].
      - split; [naive_solver|by eexists].
      - split; [by intros []|]. intros ->. exfalso. apply Hd'. by right. }
    destruct l as [|k [|k' l]].
    - exfalso. apply (elem_of_nil b), Hk. done.
    - by rewrite (proj1 (Hk k) ltac:(by left)).
    - exfalso. apply NoDup_cons in Hnd as [Hnin _]. apply Hnin.
      rewrite (proj1 (Hk k)), <- (proj1 (Hk k')) by (by repeat first [left | right]). by left. }
  assert (coerce <$> [b] = [b]) as Hcb.
  { cbn [fmap list_fmap]. apply bool_decide_eq_true in Hb. by rewrite Hb. }
  rewrite Hcb in Hnames. set (w3 := step w2 f1) in *.
  rewrite reply_assoc, (bind_some _ _ _ _ _ Hnames). cbn [each]. apply bind_none.
  destruct Hvb as [Hpb _].
  rewrite !Join2_canon by (done || by apply valid_plain).
  assert (good st w3) as Hg3 by by apply good_step.
  apply IH; [done|done| | |].
  - apply Forall_app. split; [done|]. apply Forall_app in Hv as [_ ?]. done.
  - unfold files. simpl. rewrite Hbelow. by rewrite decide_True by by right.
  - intros k q. unfold files. simpl. rewrite <- (assoc_L (++)), Hbelow.
    rewrite decide_False; [done|]. intros [|]; by destruct q.
Qed.

(** Moving an empty directory into itself never ends: every round of the copy makes a
    directory one level further down and finds it when it lists, however many rounds
    one waits for (the model puts no limit on the length of a request); nothing compares
    the two paths. *)
Theorem mv_into_itself src dst sp b w :
  reachable_daemon env st → good st w →
  isHostPath src = false → isHostPath dst = false →
  toFSPathArg src = canon sp → toFSPathArg dst = canon (sp ++ [b]) →
  sp ≠ [] → Forall valid_name (sp ++ [b]) → utf8_str b = true →
  files w sp = Some EDir → (∀ k q, files w (sp ++ k :: q) = None) →
  ∀ fuel, runMV hmac_hex decode_error env st fuel [src; dst] w = None.
Proof.
  intros Hup Hg Hhs Hhd Hsrc Hdst Hne Hv Hb Hdir Hempty fuel.
  unfold runMV. rewrite Hhs, Hhd. unfold mvFSToFS. rewrite Hsrc, Hdst.
  assert (Hg' := Hg). destruct Hg' as (Ha & Hr & Hs).
  assert (sp ++ [b] ≠ []) as Hne' by by destruct sp.
  assert (canon (sp ++ [b]) ≠ "") as Hd0 by (apply canon_ne; [done|by apply valid_plain]).
  pose proof (exists_run hmac_hex decode_error env st Hup (canon (sp ++ [b])) w Ha Hd0) as Hex.
  pose proof (Stat_view (fs (dmn w)) (canon (sp ++ [b])) (sp ++ [b]) (reach_inv _ Hr)
    (normalize_canon _ Hne' Hv)) as Hst.
  pose proof (Hempty b []) as Hnone. unfold files in Hnone.
  destruct (Stat (fs (dmn w)) (canon (sp ++ [b]))) as [n|e].
  { destruct Hst as [[Hx _]|(? & Hx & _)]; congruence. }
  rewrite (bind_some _ _ _ _ _ Hex). cbn [is_ok]. apply bind_none.
  apply into_itself; [done|done|by apply good_step|done..].
Qed.

End theorems.

(** ** Concrete runs *)

Import DaemonDemo.

Definition cenv : Env := MkEnv (λ _ _, true) (λ _, env true) (λ _ _, false).
Definition cst : runtimeState := MkState "127.0.0.1:7000" "s3cret".

(** A key of two bytes on the machine, the first of which is no UTF-8. *)
Definition binary : string := String "255" "k".
Definition machine : Host := {["/tmp" := HDir; "/tmp/k.bin" := HFile binary]}.

Definition w0 : World (G:=toy_git) := MkWorld d2 0 machine [] [].
(** With an empty directory [e]. *)
Definition f3 : MemFS.MemFS := (FSSpec.exec (clock (env true) 0) (fs d2) (FSSpec.OMkdirAll "/e" 493)).2.
Definition w3 : World (G:=toy_git) := MkWorld (set_fs f3 d2) 0 machine [] [].

Lemma reach_f3 : reach f3.
Proof. apply reach_step; [apply DaemonTheorems.reach_fs_d2|vm_compute; done]. Qed.

Lemma up_cenv : reachable_daemon cenv cst.
Proof. done. Qed.

Lemma good_w0 : good cst w0.
Proof. split_and!; [done|apply DaemonTheorems.reach_fs_d2|split; by vm_compute]. Qed.

Lemma good_w3 : good cst w3.
Proof. split_and!; [done|apply reach_f3|split; by vm_compute]. Qed.

Lemma below_keys q : is_Some (files w0 ("keys" :: q)) → q ∈ [[]; ["aws"]; ["aws"; "id"]].
Proof.
  set (n := λ p, default (MemFS.root (fs d2)) (at_path (MemFS.root (fs d2)) p)).
  assert (MemFS.Children (n []) !! "keys" = Some (n ["keys"])) as H1 by (vm_compute; done).
  assert (MemFS.Children (n ["keys"]) = {["aws" := n ["keys"; "aws"]]}) as H2
    by (vm_compute; done).
  assert (MemFS.Children (n ["keys"; "aws"]) = {["id" := n ["keys"; "aws"; "id"]]}) as H3
    by (vm_compute; done).
  assert (MemFS.Children (n ["keys"; "aws"; "id"]) = ∅) as H4 by (vm_compute; done).
  unfold files, view. change (MemFS.root (fs (dmn w0))) with (n []). intros Hq.
  rewrite view_node_cons, H1 in Hq. cbn [mbind option_bind] in Hq.
  destruct q as [|k q]; [left|]. rewrite view_node_cons, H2 in Hq.
  destruct (decide ("aws" = k)) as [<-|Hk];
    [|rewrite lookup_singleton_ne in Hq by done; by destruct Hq].
  rewrite lookup_singleton_eq in Hq. cbn [mbind option_bind] in Hq.
  destruct q as [|k q]; [right; left|]. rewrite view_node_cons, H3 in Hq.
  destruct (decide ("id" = k)) as [<-|Hk];
    [|rewrite lookup_singleton_ne in Hq by done; by destruct Hq].
  rewrite lookup_singleton_eq in Hq. cbn [mbind option_bind] in Hq.
  destruct q as [|k q]; [do 2 right; left|]. rewrite view_node_cons, H4, lookup_empty in Hq.
  by destruct Hq.
Qed.

Lemma nothing_below (w : World (G:=toy_git)) k q :
  MemFS.Children (MemFS.root (fs (dmn w))) !! k = None → files w (k :: q) = None.
Proof. intros Hk. unfold files, view. by rewrite view_node_cons, Hk. Qed.

Lemma copyable_keys : copyable w0 ["keys"] ["old"] 5.
Proof.
  split.
  - vm_compute. by eexists.
  - intros q. apply nothing_below. vm_compute. done.
  - done.
  - split; (constructor; [|constructor]); split; vm_compute; done.
  - split; intros [t Ht]; discriminate Ht.
  - intros q Hq. apply below_keys in Hq. set_unfold.
    destruct Hq as [->|[->|[->|[]]]]; repeat constructor; vm_compute; done.
  - intros q Hq. apply below_keys in Hq. set_unfold.
    destruct Hq as [->|[->|[->|[]]]]; simpl; lia.
Qed.

Lemma mv_moves_tree_witness :
  ∃ w', runMV hmac id cenv cst 5 ["fs:/keys"; "old"] w0 = Some (Ok tt, w') ∧
    files w' ["old"; "aws"; "id"] = Some (EFile (of_string "A")) ∧
    files w' ["keys"; "aws"; "id"] = None.
Proof.
  destruct (mv_moves_tree hmac id cenv cst "fs:/keys" "old" ["keys"] ["old"] 5 w0)
    as (r & w' & Hx & _ & Hr);
    [exact up_cenv|exact good_w0|vm_compute; done..|exact copyable_keys|].
  assert (is_ok (from_option fst (Err MissingCommand)
    (runMV hmac id cenv cst 5 ["fs:/keys"; "old"] w0)) = true) as Hok by (vm_compute; done).
  rewrite Hx in Hok. destruct r as [[]|]; [|done]. exists w'. split; [done|].
  destruct Hr as (Hnew & Hold & _). split.
  - etrans; [exact (Hnew ["aws"; "id"])|]. vm_compute. done.
  - exact (Hold ["aws"; "id"]).
Defined.

Lemma mv_into_itself_witness :
  ¬ ∃ fuel r, runMV hmac id cenv cst fuel ["e"; "e/f"] w3 = Some r.
Proof.
  intros (fuel & r & Hr). assert (runMV hmac id cenv cst fuel ["e"; "e/f"] w3 = None) as Hn.
  { apply (mv_into_itself hmac id cenv cst "e" "e/f" ["e"] "f" w3);
      [exact up_cenv|exact good_w3|vm_compute; done..| | | |].
    - repeat constructor; vm_compute; done.
    - vm_compute. done.
    - vm_compute. done.
    - intros k q. unfold files, view.
      set (n := default (MemFS.root f3) (MemFS.Children (MemFS.root f3) !! "e")).
      assert (MemFS.Children (MemFS.root f3) !! "e" = Some n) as H1 by (vm_compute; done).
      assert (MemFS.Children n = ∅) as H2 by (vm_compute; done).
      change (MemFS.root (fs (dmn w3))) with (MemFS.root f3).
      rewrite <- app_comm_cons, view_node_cons, H1. cbn [mbind option_bind app].
      by rewrite view_node_cons, H2, lookup_empty. }
  congruence.
Defined.

(** After moving [binary] into [keys]. *)
Definition w4 : World (G:=toy_git) :=
  from_option snd w0 (runMV hmac id cenv cst 0 ["/tmp/k.bin"; "keys"] w0).

Lemma mv_host_file_witness :
  runMV hmac id cenv cst 0 ["/tmp/k.bin"; "keys"] w0 = Some (Ok tt, w4) ∧
  host w4 !! "/tmp/k.bin" = None ∧ of_string (coerce binary) ≠ of_string binary.
Proof.
  assert (runMV hmac id cenv cst 0 ["/tmp/k.bin"; "keys"] w0 = Some (Ok tt, w4)) as Hx
    by (vm_compute; reflexivity).
  split; [exact Hx|].
  destruct (mv_host_file hmac id cenv cst "/tmp/k.bin" "keys" binary 0 w0 tt w4)
    as (Hgone & _ & Hsame);
    [exact up_cenv|exact good_w0|vm_compute; reflexivity..|exact Hx|].
  split; [exact Hgone|]. intros He. apply Hsame in He. vm_compute in He. discriminate He.
Defined.

End CliTheorems.
