(* ===== verification/CliLogic.v ===== *)
(** * A program logic for commands

    [wp c Q w]: run from [w], [c] comes to an end and its result and the world it
    leaves satisfy [Q].  Being total, it is also what the commands' theorems say. *)
From S2P Require Import Prelude GoStrings GoPath GoJson GoHttp MemFS MemFSSpec.
From S2P Require Import Repo Daemon ControlAPI Cli CliFacts.
Import GoStr GoJson GoHttp MemFS Daemon Cli CliFacts.

Module CliLogic.

Section logic.
Context {G : Type} `{Repo.GoGit G}.

Local Abbreviation World := (World (G:=G)).
Local Abbreviation cli := (cli (G:=G)).

Definition wp {A} (c : cli A) (Q : result cli_error A → World → Prop) (w : World) : Prop :=
  ∃ r w', c w = Some (r, w') ∧ Q r w'.

(** ** The rules *)

Lemma wp_mono {A} (c : cli A) (Q Q' : result cli_error A → World → Prop) w :
  (∀ r w', Q r w' → Q' r w') → wp c Q w → wp c Q' w.
Proof. intros HQ (r & w' & Hc & Hq). exists r, w'. split; [done|by apply HQ]. Qed.

Lemma wp_ret {A} (a : A) (Q : result cli_error A → World → Prop) w : Q (Ok a) w → wp (mret a) Q w.
Proof. intros HQ. by exists (Ok a), w. Qed.

Lemma wp_throw {A} e (Q : result cli_error A → World → Prop) w : Q (Err e) w → wp (throw e) Q w.
Proof. intros HQ. by exists (Err e), w. Qed.

Lemma wp_bind {A B} (c : cli A) (k : A → cli B) Q w :
  wp c (λ r w', match r with Ok a => wp (k a) Q w' | Err e => Q (Err e) w' end) w →
  wp (c ≫= k) Q w.
Proof.
  intros (r & w1 & Hc & Hr). unfold wp, mbind, cli_bind. rewrite Hc.
  destruct r as [a|e]; [exact Hr|by exists (Err e), w1].
Qed.

Lemma wp_attempt {A} (c : cli A) (Q : result cli_error (result cli_error A) → World → Prop) w :
  wp c (λ r w', Q (Ok r) w') w → wp (attempt c) Q w.
Proof. intros (r & w1 & Hc & Hr). exists (Ok r), w1. split; [by apply attempt_some|done]. Qed.

Lemma wp_ignore_attempt {A} (c : cli A) (Q : result cli_error () → World → Prop) w :
  wp c (λ _ w', Q (Ok tt) w') w → wp (ignore (attempt c)) Q w.
Proof.
  intros Hc. apply wp_bind, wp_attempt. eapply wp_mono; [|exact Hc].
  intros r w' HQ. by apply wp_ret.
Qed.

(** Where the run is known. *)
Lemma wp_run {A} (c : cli A) (Q : result cli_error A → World → Prop) w r w' :
  c w = Some (r, w') → wp c Q w → Q r w'.
Proof. intros Hc (r1 & w1 & Hc1 & HQ). rewrite Hc in Hc1. by simplify_eq. Qed.

(** ** Requests leave the files of the machine alone *)

Context (hmac_hex : string → bytes → string) (decode_error : string → string).
Context (env : Env) (st : runtimeState).

Lemma wp_apiReq m path q body Q w :
  (∀ r d n, Q r (MkWorld d n (host w) (out w) (notes w))) →
  wp (apiReq hmac_hex decode_error env st m path q body) Q w.
Proof.
  intros HQ. unfold wp, apiReq. destruct (up _ _ _).
  - destruct (ControlAPI.serve _ _ _ _ _) as [resp d].
    destruct (300 <=? Status resp)%Z; do 2 eexists; by split.
  - do 2 eexists. by split.
Qed.

Lemma wp_decode_reply {A} (d : decoder A) zero text Q w :
  (∀ r, Q r w) → wp (decode_reply d zero text) Q w.
Proof.
  intros HQ. unfold decode_reply. destruct (Decode_stream _ _ _) as [a ok].
  destruct ok; [by apply wp_ret|by apply wp_throw].
Qed.

Lemma wp_isDir p Q w :
  (∀ r d n, Q r (MkWorld d n (host w) (out w) (notes w))) →
  wp (fsPathIsDirWithErr hmac_hex decode_error env st p) Q w.
Proof.
  intros HQ. apply wp_bind, wp_apiReq. intros [text|e] d n; [|by apply HQ].
  apply wp_decode_reply. intros r. by apply HQ.
Qed.

Lemma wp_stat p Q w :
  Q (Ok (if hfail env "stat" p then None else host w !! GoPath.Clean p)) w → wp (stat env p) Q w.
Proof. intros HQ. by do 2 eexists. Qed.

Lemma wp_hint {A} cmd p (Q : result cli_error A → World → Prop) w :
  (∀ e, Q (Err e) w) → wp (hintVaultPath env cmd p) Q w.
Proof.
  intros HQ. apply wp_bind. unfold looksLikeVaultPath.
  destruct (negb _); [by apply wp_ret, wp_throw|].
  by apply wp_bind, wp_stat, wp_ret, wp_throw.
Qed.

End logic.
End CliLogic.
