(* ===== verification/EnvFile.v ===== *)
(** * cmd/valetfs/exec.go: arguments and env files

    The pure half of [exec]: its command line and the dotenv files it injects. *)
From S2P Require Import Prelude GoStrings Cli.
Import GoStr Cli.

Module EnvFile.

(** ** Names and values *)

Inductive execKind := execKindEnvFile | execKindValue | execKindFile.

#[export] Instance execKind_eq_dec : EqDecision execKind.
Proof. solve_decision. Defined.

Record execBinding := MkBinding { kind : execKind; name : string; path : string }.

Definition is_letter (a : ascii) : bool :=
  let n := nat_of_ascii a in
  bool_decide (97 ≤ n ≤ 122) || bool_decide (65 ≤ n ≤ 90) || bool_decide (n = 95).

Definition is_name_digit (a : ascii) : bool := bool_decide (48 ≤ nat_of_ascii a ≤ 57).

Fixpoint name_rest (s : string) : bool :=
  match s with
  | EmptyString => true
  | String a r => (is_letter a || is_name_digit a) && name_rest r
  end.

(** A rune beyond ASCII is no letter, and none of its bytes is one. *)
Definition validEnvName (s : string) : bool :=
  match s with
  | EmptyString => false
  | String a r => is_letter a && name_rest r
  end.

Definition trimSecretNewline (s : string) (keep : bool) : string :=
  if keep then s else TrimSuffix (TrimSuffix s (str1 newline)) (str1 cr).

Definition backslash : ascii := "\"%char.

Fixpoint unescapeDoubleQuoted (s : string) : string :=
  match s with
  | EmptyString => EmptyString
  | String a r =>
      if decide (a = backslash) then
        match r with
        | EmptyString => str1 a
        | String b r =>
            if decide (b = "n"%char) then String newline (unescapeDoubleQuoted r)
            else if decide (b = "r"%char) then String cr (unescapeDoubleQuoted r)
            else if decide (b = "t"%char) then String tab (unescapeDoubleQuoted r)
            else if decide (b = backslash ∨ b = dquote) then String b (unescapeDoubleQuoted r)
            else String backslash (String b (unescapeDoubleQuoted r))
        end
      else String a (unescapeDoubleQuoted r)
  end.

(** ** Env files *)

(** What is between two quotes [c]. *)
Definition quoted (c : ascii) (s : string) : option string :=
  if bool_decide (2 ≤ String.length s) && HasPrefix s (str1 c) && HasSuffix s (str1 c)
  then Some (stake (String.length s - 2) (sdrop 1 s)) else None.

Definition squote : ascii := "'"%char.

Definition env_value (val : string) : string :=
  match quoted squote val with
  | Some v => v
  | None =>
      match quoted dquote val with
      | Some v => unescapeDoubleQuoted v
      | None => TrimRight val [" "%char; tab]
      end
  end.

(** One line: nothing, or one variable. *)
Definition parseEnvLine (i : nat) (line : string) : result line_error (option string) :=
  let t := TrimSpace line in
  if decide (t = "") then Ok None
  else if HasPrefix t "#" then Ok None
  else
    let t := TrimSpace (TrimPrefix t "export ") in
    match IndexByte t "=" with
    | None => Err (NotKeyValue (S i))
    | Some eq =>
        let key := TrimSpace (stake eq t) in
        if validEnvName key
        then Ok (Some (key +:+ "=" +:+ env_value (sdrop (S eq) t)))
        else Err (UnusableName (S i))
    end.

Fixpoint parseEnvLines (i : nat) (lines : list string) : result line_error (list string) :=
  match lines with
  | [] => Ok []
  | line :: lines =>
      match parseEnvLine i line with
      | Err e => Err e
      | Ok v =>
          match parseEnvLines (S i) lines with
          | Err e => Err e
          | Ok out => Ok (match v with Some kv => kv :: out | None => out end)
          end
      end
  end.

Definition parseEnvFile (b : string) : result line_error (list string) :=
  parseEnvLines 0 (Split (ReplaceAll b (String cr (str1 newline)) (str1 newline)) newline).

(** ** The command line of [exec] *)

(** The words before and after the first bare [--]. *)
Fixpoint split_dashes (args : list string) : option (list string * list string) :=
  match args with
  | [] => None
  | a :: args =>
      if decide (a = "--") then Some ([], args)
      else '(opts, argv) ← split_dashes args; Some (a :: opts, argv)
  end.

(** The text before and after the first [=], when that is not its first byte. *)
Definition split_eq (s : string) : option (string * string) :=
  match IndexByte s "=" with
  | Some (S j) => Some (stake (S j) s, sdrop (S (S j)) s)
  | _ => None
  end.

Definition split_flag (a : string) : string * option string :=
  match split_eq a with
  | Some (n, v) => if HasPrefix a "-" then (n, Some v) else (a, None)
  | None => (a, None)
  end.

Record options := MkOptions {
  bindings : list execBinding; positional : list string; keepNL : bool
}.

Definition add_binding (b : execBinding) (o : options) : options :=
  MkOptions (bindings o ++ [b]) (positional o) (keepNL o).

Definition named_binding (k : execKind) (v : string) : execBinding :=
  match split_eq v with
  | Some (n, p) => MkBinding k n p
  | None => MkBinding k v ""
  end.

(** The flag that makes a binding, and how its value is read. *)
Definition flag_kind (flag : string) : option execKind :=
  if decide (flag = "--env") then Some execKindEnvFile
  else if decide (flag = "--as") then Some execKindValue
  else if decide (flag = "--as-file") then Some execKindFile
  else None.

Definition bind_value (flag : string) (k : execKind) (v : string) (o : options)
  : result exec_error options :=
  match k with
  | execKindEnvFile => Ok (add_binding (MkBinding execKindEnvFile "" v) o)
  | _ =>
      let b := named_binding k v in
      if validEnvName (name b) then Ok (add_binding b o) else Err (BadName flag (name b))
  end.

Fixpoint parse_opts (opts : list string) (o : options) : result exec_error options :=
  match opts with
  | [] => Ok o
  | a :: opts =>
      let (flag, inline) := split_flag a in
      if decide (flag = "-h" ∨ flag = "--help") then Err Help
      else if decide (flag = "--keep-newline") then
        parse_opts opts (MkOptions (bindings o) (positional o) true)
      else
        match flag_kind flag with
        | Some k =>
            match inline, opts with
            | Some v, _ =>
                match bind_value flag k v o with
                | Ok o => parse_opts opts o
                | Err e => Err e
                end
            | None, v :: opts =>
                match bind_value flag k v o with
                | Ok o => parse_opts opts o
                | Err e => Err e
                end
            | None, [] => Err (NeedsValue flag)
            end
        | None =>
            if HasPrefix a "-" && negb (bool_decide (a = "-")) then Err (UnknownOption a)
            else parse_opts opts (MkOptions (bindings o) (positional o ++ [a]) (keepNL o))
        end
  end.

(** What the message of a binding without a path calls its flag. *)
Definition kind_flag (k : execKind) : string :=
  match k with execKindValue => "as" | execKindFile => "as-file" | execKindEnvFile => "" end.

(** Paths for the bindings without one, in order; what is left over. *)
Fixpoint bind_paths (bs : list execBinding) (ps : list string)
  : result exec_error (list execBinding * list string) :=
  match bs with
  | [] => Ok ([], ps)
  | b :: bs =>
      if decide (path b = "") then
        match ps with
        | [] => Err (NoVaultPath (kind_flag (kind b)) (name b))
        | p :: ps =>
            match bind_paths bs ps with
            | Ok (bs, ps) => Ok (MkBinding (kind b) (name b) p :: bs, ps)
            | Err e => Err e
            end
        end
      else
        match bind_paths bs ps with
        | Ok (bs, ps) => Ok (b :: bs, ps)
        | Err e => Err e
        end
  end.

Definition parseExecArgs (args : list string)
  : result exec_error (list execBinding * list string * bool) :=
  match split_dashes args with
  | None => Err NoSeparator
  | Some (_, []) => Err NoCommand
  | Some (opts, argv) =>
      match parse_opts opts (MkOptions [] [] false) with
      | Err e => Err e
      | Ok o =>
          match bind_paths (bindings o) (positional o) with
          | Err e => Err e
          | Ok (bs, rest) =>
              match bs ++ (MkBinding execKindEnvFile "" <$> rest) with
              | [] => Err NothingToInject
              | bs => Ok (bs, argv, keepNL o)
              end
          end
      end
  end.

(** ** Small runs *)

Example env_lines :
  parseEnvFile (Join ["# keys"; "export A = 1 "; "B='x y'"; "C=#no"; ""] (str1 newline))
  = Ok ["A= 1"; "B=x y"; "C=#no"].
Proof. by vm_compute. Qed.

Example args_order :
  parseExecArgs ["--as"; "A"; "fs:/a"; "--as-file=B=fs:/b"; "rest"; "--"; "cmd"; "--"; "-v"]
  = Ok ([MkBinding execKindValue "A" "fs:/a"; MkBinding execKindFile "B" "fs:/b";
         MkBinding execKindEnvFile "" "rest"], ["cmd"; "--"; "-v"], false).
Proof. by vm_compute. Qed.

End EnvFile.
