(* ===== verification/EnvFileProps.v ===== *)
(** * cmd/valetfs/exec.go: what arguments and env files mean *)
From S2P Require Import Prelude GoStrings Cli EnvFile.
Import GoStr Cli EnvFile.

Module EnvFileTheorems.

(** ** Writing an env file *)

(** A value between double quotes. *)
Fixpoint escape (s : string) : string :=
  match s with
  | EmptyString => EmptyString
  | String a r =>
      if decide (a = newline) then String backslash (String "n" (escape r))
      else if decide (a = cr) then String backslash (String "r" (escape r))
      else if decide (a = backslash ∨ a = dquote) then String backslash (String a (escape r))
      else String a (escape r)
  end.

Record variable := MkVariable { export : bool; key : string; value : string }.

Definition env_line (v : variable) : string :=
  (if export v then "export " else "") +:+
  key v +:+ "=" +:+ str1 dquote +:+ escape (value v) +:+ str1 dquote.

(** Lines end in a line feed, or in a carriage return and a line feed. *)
Definition line_end (crlf : bool) : string :=
  if crlf then String cr (str1 newline) else str1 newline.

Definition pair_of (v : variable) : string := key v +:+ "=" +:+ value v.

(** *** Reading it *)

Lemma undo_escape s : unescapeDoubleQuoted (escape s) = s.
Proof.
  induction s as [|a s IH]; [done|]. cbn [escape].
  destruct (decide (a = newline)) as [->|Hn]; [cbn; by rewrite IH|].
  destruct (decide (a = cr)) as [->|Hc]; [cbn; by rewrite IH|].
  destruct (decide (a = backslash ∨ a = dquote)) as [[->| ->]|Ho]; [cbn; by rewrite IH..|].
  cbn [unescapeDoubleQuoted]. rewrite decide_False by naive_solver. by rewrite IH.
Qed.

Lemma escape_one_line c s : c = newline ∨ c = cr → no_byte c (escape s).
Proof.
  intros Hc. induction s as [|a s IH]; [done|]. cbn [escape].
  repeat case_decide; rewrite !no_byte_cons; destruct Hc as [-> | ->]; naive_solver.
Qed.

Lemma name_rest_graph s : name_rest s = true → graph_str s = true ∧ no_byte "=" s.
Proof.
  induction s as [|a s IH]; [done|]. cbn [name_rest graph_str].
  rewrite no_byte_cons, !andb_true_iff. intros [Ha Hs]. destruct (IH Hs) as [Hg He].
  split_and!; [|done| |done].
  - unfold graph, is_letter, is_name_digit in *. repeat case_bool_decide; try done;
      apply andb_true_iff; rewrite !Nat.leb_le; lia.
  - intros ->. vm_compute in Ha. done.
Qed.

Lemma name_graph s : validEnvName s = true →
  (∃ a r, s = String a r ∧ graph a = true ∧ a ≠ "#"%char) ∧ graph_str s = true ∧
  no_byte "=" s.
Proof.
  destruct s as [|a r]; [done|]. cbn [validEnvName]. intros [Ha Hr]%andb_true_iff.
  assert (name_rest (String a r) = true) as Hn by (cbn [name_rest]; by rewrite Ha, Hr).
  apply name_rest_graph in Hn as [Hg He]. split_and!; [|done|done].
  exists a, r. split_and!; [done| |].
  - cbn [graph_str] in Hg. by apply andb_true_iff in Hg as [? _].
  - intros ->. vm_compute in Ha. done.
Qed.

Lemma graph_no_byte c s : graph c = false → graph_str s = true → no_byte c s.
Proof.
  intros Hc. induction s as [|a s IH]; [done|]. cbn [graph_str].
  intros [Ha Hs]%andb_true_iff. rewrite no_byte_cons. split; [congruence|by apply IH].
Qed.

(** The text of a line without [export]. *)
Definition core (v : variable) : string :=
  key v +:+ "=" +:+ str1 dquote +:+ escape (value v) +:+ str1 dquote.

Lemma core_trimmed v pre : validEnvName (key v) = true → pre = "" ∨ pre = "export " →
  TrimSpace (pre +:+ core v) = pre +:+ core v.
Proof.
  intros Hk Hp. destruct (name_graph _ Hk) as ((a & r & Hs & Ha & _) & _ & _).
  assert (∃ u, pre +:+ core v = u +:+ str1 dquote) as Hend.
  { exists (pre +:+ key v +:+ "=" +:+ str1 dquote +:+ escape (value v)).
    unfold core. by rewrite !sapp_assoc. }
  destruct Hp as [-> | ->].
  - apply (TrimSpace_id _ a (r +:+ "=" +:+ str1 dquote +:+ escape (value v) +:+ str1 dquote) dquote);
      [|done|done|done]. unfold core. by rewrite Hs.
  - apply (TrimSpace_id _ "e" ("xport " +:+ core v) dquote); done.
Qed.

Lemma quoted_around s : quoted dquote (str1 dquote +:+ s +:+ str1 dquote) = Some s.
Proof.
  change (str1 dquote +:+ ?t) with (String dquote t). unfold quoted, HasSuffix.
  assert (String.length (String dquote (s +:+ str1 dquote)) = S (S (String.length s))) as ->
    by (cbn [String.length]; rewrite length_sapp; simpl; lia).
  change (String.length (str1 dquote)) with 1. rewrite !bool_decide_true by lia.
  replace (S (S (String.length s)) - 1) with (S (String.length s)) by lia.
  replace (S (S (String.length s)) - 2) with (String.length s) by lia. cbn [sdrop].
  rewrite sdrop_app, stake_app, bool_decide_true by done.
  assert (HasPrefix (String dquote (s +:+ str1 dquote)) (str1 dquote) = true) as ->; [|done].
  apply HasPrefix_spec. by exists (s +:+ str1 dquote).
Qed.

Lemma env_value_quoted s : env_value (str1 dquote +:+ escape s +:+ str1 dquote) = s.
Proof.
  unfold env_value. assert (quoted squote (str1 dquote +:+ escape s +:+ str1 dquote) = None) as ->.
  { unfold quoted. change (str1 dquote +:+ ?t) with (String dquote t).
    cbn [HasPrefix str1]. rewrite (bool_decide_false (dquote = squote)) by done.
    by rewrite andb_false_r. }
  rewrite quoted_around. apply undo_escape.
Qed.

Lemma sdrop_S_app s c t : sdrop (S (String.length s)) (s +:+ String c t) = t.
Proof. induction s as [|a s IH]; [done|]. exact IH. Qed.

Lemma TrimPrefix_export v : validEnvName (key v) = true →
  TrimPrefix (core v) "export " = core v.
Proof.
  intros Hk. unfold TrimPrefix. destruct (HasPrefix _ _) eqn:Hp; [|done]. exfalso.
  apply HasPrefix_spec in Hp as [t Ht]. destruct (name_graph _ Hk) as (_ & Hg & _).
  assert (∀ pre (k t u : string), no_byte "=" pre → graph_str k = true →
    k +:+ "=" +:+ t = pre +:+ " " +:+ u → False) as Hno.
  { clear. induction pre as [|a pre IH]; intros [|b k] t u Hp Hk Heq; simplify_eq/=.
    - apply no_byte_cons in Hp as [Hp _]. done.
    - apply no_byte_cons in Hp as [_ Hp]. apply andb_true_iff in Hk as [_ Hk].
      by eapply IH. }
  by apply (Hno "export" (key v) (str1 dquote +:+ escape (value v) +:+ str1 dquote) t).
Qed.

Lemma parse_line_core i v : validEnvName (key v) = true →
  parseEnvLine i (env_line v) = Ok (Some (pair_of v)).
Proof.
  intros Hk. destruct (name_graph _ Hk) as ((a & r & Hs & Ha & Hh) & Hg & He).
  set (pre := if export v then "export " else "").
  assert (env_line v = pre +:+ core v) as -> by done.
  assert (pre = "" ∨ pre = "export ") as Hp by (subst pre; destruct (export v); [by right|by left]).
  unfold parseEnvLine. rewrite core_trimmed by done.
  assert (core v = String a (r +:+ "=" +:+ str1 dquote +:+ escape (value v) +:+ str1 dquote)) as Hc
    by (unfold core; by rewrite Hs).
  rewrite decide_False by (rewrite Hc; by destruct Hp as [-> | ->]).
  assert (HasPrefix (pre +:+ core v) "#" = false) as ->.
  { rewrite Hc. destruct Hp as [-> | ->]; [|done].
    rewrite sapp_nil_l. cbn [HasPrefix]. by rewrite bool_decide_false. }
  assert (TrimSpace (TrimPrefix (pre +:+ core v) "export ") = core v) as ->.
  { destruct Hp as [-> | ->].
    - rewrite sapp_nil_l, TrimPrefix_export by done. by apply (core_trimmed v ""); [|left].
    - rewrite TrimPrefix_app. by apply (core_trimmed v ""); [|left]. }
  unfold core. change ("=" +:+ ?t) with (String "=" t).
  rewrite IndexByte_app by done. cbv beta match zeta. change ("=" +:+ ?t) with (String "=" t). rewrite stake_app, sdrop_S_app.
  assert (TrimSpace (key v) = key v) as ->.
  { destruct (graph_last (key v)) as (u & b & Hb & Hgb); [by rewrite Hs|done|].
    by apply (TrimSpace_id _ a r b); [| |exists u|]. }
  by rewrite Hk, env_value_quoted.
Qed.

(** *** Line ends *)

Lemma replace_skip s n old new c o : old = String c o → no_byte c s → String.length s ≤ n →
  replace_fuel n s old new = s.
Proof.
  intros -> . revert n. induction s as [|a s IH]; intros [|n] Hs Hn; simpl in *; [done..|lia|].
  apply no_byte_cons in Hs as [Ha Hs]. rewrite bool_decide_false by done. simpl.
  rewrite IH by (done || lia). done.
Qed.

Lemma replace_crlf s n t : no_byte cr s → String.length s < n →
  replace_fuel n (s +:+ line_end true +:+ t) (line_end true) (str1 newline) =
  s +:+ str1 newline +:+ replace_fuel (n - String.length s - 1) t (line_end true) (str1 newline).
Proof.
  revert n. induction s as [|a s IH]; intros [|n] Hs Hn; simpl in Hn; [lia| |lia|].
  - rewrite !sapp_nil_l. change (line_end true +:+ t) with (String cr (String newline t)).
    cbn [replace_fuel].
    assert (HasPrefix (String cr (String newline t)) (line_end true) = true) as ->
      by (apply HasPrefix_spec; by exists t).
    change (sdrop _ (String cr (String newline t))) with t.
    change (String.length "") with 0. by rewrite !Nat.sub_0_r, Nat.sub_succ, Nat.sub_0_r.
  - apply no_byte_cons in Hs as [Ha Hs]. rewrite !sapp_cons. cbn [replace_fuel].
    assert (HasPrefix (String a (s +:+ line_end true +:+ t)) (line_end true) = false) as ->.
    { unfold line_end. cbn [HasPrefix]. by rewrite bool_decide_false. }
    rewrite IH by (done || lia). done.
Qed.

Lemma Join_no_byte l c sep : no_byte c sep → Forall (no_byte c) l → no_byte c (Join l sep).
Proof.
  intros Hs. induction 1 as [|x l Hx Hl IH]; [done|]. destruct l as [|y l]; [done|].
  rewrite Join_cons, !no_byte_app. done.
Qed.

(** Whatever the line ends, the lines come back. *)
Lemma lines_back crlf l : l ≠ [] → Forall (no_byte cr) l →
  ReplaceAll (Join l (line_end crlf)) (line_end true) (str1 newline) = Join l (str1 newline).
Proof.
  intros Hne Hc. unfold ReplaceAll. destruct crlf.
  2:{ cbn [line_end]. eapply replace_skip; [done|by apply Join_no_byte|done]. }
  generalize (le_n (String.length (Join l (line_end true)))).
  generalize (String.length (Join l (line_end true))) at 2 3. intros n Hn. revert n Hn.
  induction l as [|x l IH]; [done|]; intros n Hlen. apply Forall_cons in Hc as [Hcx Hc].
  destruct l as [|y l].
  - cbn [Join] in *. by eapply replace_skip.
  - rewrite !Join_cons in *. rewrite !length_sapp in Hlen. simpl (String.length (line_end _)) in Hlen.
    rewrite replace_crlf by (done || lia). rewrite IH by (done || lia). done.
Qed.

Lemma parse_lines i l : Forall (λ v, validEnvName (key v) = true) l →
  parseEnvLines i (env_line <$> l) = Ok (pair_of <$> l).
Proof.
  intros Hl. revert i. induction Hl as [|v l Hv Hl IH]; intros i; [done|].
  cbn [fmap list_fmap parseEnvLines]. rewrite parse_line_core by done.
  change (list_fmap _ _ env_line l) with (env_line <$> l). by rewrite IH.
Qed.

Lemma env_line_no_byte c v : c = newline ∨ c = cr → validEnvName (key v) = true →
  no_byte c (env_line v).
Proof.
  intros Hc Hk. destruct (name_graph _ Hk) as (_ & Hg & _).
  unfold env_line. rewrite !no_byte_app. split_and!.
  - by destruct (export v), Hc as [-> | ->].
  - apply graph_no_byte; [by destruct Hc as [-> | ->]|done].
  - by destruct Hc as [-> | ->].
  - by destruct Hc as [-> | ->].
  - by apply escape_one_line.
  - by destruct Hc as [-> | ->].
Qed.

(** C26: an env file written with every value between double quotes (line feeds, carriage
    returns, backslashes and double quotes escaped), with or without [export], with
    either kind of line end, is read back as exactly those variables: every byte of
    every value survives, be it a blank at the end, a hash sign or no UTF-8 at all. *)
Theorem env_file_roundtrip crlf l :
  Forall (λ v, validEnvName (key v) = true) l →
  parseEnvFile (Join (env_line <$> l) (line_end crlf)) = Ok (pair_of <$> l).
Proof.
  intros Hl. destruct (decide (l = [])) as [->|Hne]; [by destruct crlf|].
  assert (∀ c, c = newline ∨ c = cr → Forall (no_byte c) (env_line <$> l)) as Hb.
  { intros c Hc. apply Forall_fmap. eapply Forall_impl; [exact Hl|].
    intros v Hv. by apply env_line_no_byte. }
  assert (env_line <$> l ≠ []) as Hne' by by destruct l.
  unfold parseEnvFile. change (String cr (str1 newline)) with (line_end true).
  rewrite lines_back by (done || apply Hb; by right).
  rewrite Split_Join by (done || apply Hb; by left). by apply parse_lines.
Qed.

Lemma env_file_roundtrip_witness :
  parseEnvFile (Join (env_line <$> [MkVariable true "A" "x # y "; MkVariable false "B_2" (str1 newline)])
                     (line_end true)) = Ok ["A=x # y "; "B_2=" +:+ str1 newline].
Proof.
  apply (env_file_roundtrip true
    [MkVariable true "A" "x # y "; MkVariable false "B_2" (str1 newline)]).
  repeat constructor.
Defined.

(** ** The forms of a binding *)

(** [--as=NAME=path], [--as NAME=path] and [--as NAME path]. *)
Inductive form := Inline | Separate | Spaced.

Record wish := MkWish { wform : form; wbind : execBinding }.

Definition the_flag (k : execKind) : string :=
  match k with
  | execKindEnvFile => "--env" | execKindValue => "--as" | execKindFile => "--as-file"
  end.

Definition flag_value (b : execBinding) : string :=
  match kind b with execKindEnvFile => path b | _ => name b +:+ "=" +:+ path b end.

Definition words (x : wish) : list string :=
  let b := wbind x in
  match wform x with
  | Inline => [the_flag (kind b) +:+ "=" +:+ flag_value b]
  | Separate => [the_flag (kind b); flag_value b]
  | Spaced => [the_flag (kind b); name b; path b]
  end.

(** A word that is no option. *)
Definition plain_word (p : string) : Prop := p ≠ "" ∧ HasPrefix p "-" = false.

(** An env file has no name, so its path goes with the flag. *)
Definition wish_ok (x : wish) : Prop :=
  match kind (wbind x) with
  | execKindEnvFile => wform x ≠ Spaced ∧ name (wbind x) = "" ∧ path (wbind x) ≠ "" ∧
      path (wbind x) ≠ "--"
  | _ => validEnvName (name (wbind x)) = true ∧
      match wform x with Spaced => plain_word (path (wbind x)) | _ => path (wbind x) ≠ "" end
  end.

(** What the parser has of it after the first pass. *)
Definition unbound (x : wish) : execBinding :=
  match wform x with
  | Spaced => MkBinding (kind (wbind x)) (name (wbind x)) ""
  | _ => wbind x
  end.
Definition loose (x : wish) : list string :=
  match wform x with Spaced => [path (wbind x)] | _ => [] end.

Lemma split_eq_at s t : s ≠ "" → no_byte "=" s → split_eq (s +:+ "=" +:+ t) = Some (s, t).
Proof.
  intros Hne Hs. unfold split_eq. change ("=" +:+ t) with (String "=" t).
  rewrite IndexByte_app by done. destruct (String.length s) as [|n] eqn:Hl; [by destruct s|].
  rewrite <- Hl, stake_app, sdrop_S_app. done.
Qed.

Lemma split_eq_none s : no_byte "=" s → split_eq s = None.
Proof. unfold no_byte, split_eq. by intros ->. Qed.

Lemma plain_split_flag p : HasPrefix p "-" = false → split_flag p = (p, None).
Proof. intros Hp. unfold split_flag. rewrite Hp. by destruct (split_eq p) as [[]|]. Qed.

Lemma the_flag_eq k : no_byte "=" (the_flag k).
Proof. by destruct k. Qed.

Lemma split_flag_inline k v : split_flag (the_flag k +:+ "=" +:+ v) = (the_flag k, Some v).
Proof.
  unfold split_flag. rewrite split_eq_at by (apply the_flag_eq || by destruct k).
  by destruct k.
Qed.

Lemma named_binding_full k n p : validEnvName n = true →
  named_binding k (n +:+ "=" +:+ p) = MkBinding k n p.
Proof.
  intros Hn. destruct (name_graph _ Hn) as ((a & r & Hs & _) & _ & He).
  unfold named_binding. rewrite split_eq_at; [done| |done]. by rewrite Hs.
Qed.

Lemma named_binding_bare k n : validEnvName n = true → named_binding k n = MkBinding k n "".
Proof.
  intros Hn. destruct (name_graph _ Hn) as (_ & _ & He).
  unfold named_binding. by rewrite split_eq_none.
Qed.

Lemma bind_value_full x o : wish_ok x → wform x ≠ Spaced →
  bind_value (the_flag (kind (wbind x))) (kind (wbind x)) (flag_value (wbind x)) o
  = Ok (add_binding (wbind x) o).
Proof.
  destruct x as [f [k n p]]. unfold wish_ok, flag_value. simpl. intros Hx Hf.
  destruct k; simpl in *.
  - destruct Hx as (_ & -> & _). done.
  - destruct Hx as [Hn _]. rewrite named_binding_full by done. simpl. by rewrite Hn.
  - destruct Hx as [Hn _]. rewrite named_binding_full by done. simpl. by rewrite Hn.
Qed.

Lemma bind_value_bare k n o : validEnvName n = true → k ≠ execKindEnvFile →
  bind_value (the_flag k) k n o = Ok (add_binding (MkBinding k n "") o).
Proof.
  intros Hn Hk. unfold bind_value. rewrite named_binding_bare by done.
  destruct k; [done|cbn [name]; by rewrite Hn..].
Qed.

(** One flag, its value inline or in the next word. *)
Lemma parse_inline k v rest o : parse_opts ((the_flag k +:+ "=" +:+ v) :: rest) o =
  match bind_value (the_flag k) k v o with Ok o => parse_opts rest o | Err e => Err e end.
Proof. cbn [parse_opts]. rewrite split_flag_inline. by destruct k. Qed.

Lemma parse_separate k v rest o : parse_opts (the_flag k :: v :: rest) o =
  match bind_value (the_flag k) k v o with Ok o => parse_opts rest o | Err e => Err e end.
Proof. by destruct k. Qed.

Lemma parse_plain p rest o : plain_word p →
  parse_opts (p :: rest) o =
  parse_opts rest (MkOptions (bindings o) (positional o ++ [p]) (keepNL o)).
Proof.
  intros [_ Hp]. cbn [parse_opts]. rewrite plain_split_flag by done.
  assert (∀ f, HasPrefix f "-" = true → p ≠ f) as Hf by (intros f Hf ->; congruence).
  rewrite decide_False by (intros [Hx|Hx]; revert Hx; by apply Hf).
  rewrite decide_False by (by apply Hf). unfold flag_kind.
  rewrite !decide_False by (by apply Hf). by rewrite Hp.
Qed.

Lemma parse_wish x rest o : wish_ok x →
  parse_opts (words x ++ rest) o =
  parse_opts rest (MkOptions (bindings o ++ [unbound x]) (positional o ++ loose x) (keepNL o)).
Proof.
  intros Hx. unfold words, unbound, loose. destruct (wform x) eqn:Hf; cbn [app].
  - rewrite parse_inline, bind_value_full by (done || by rewrite Hf).
    by rewrite (right_id_L [] (++)).
  - rewrite parse_separate, bind_value_full by (done || by rewrite Hf).
    by rewrite (right_id_L [] (++)).
  - rewrite parse_separate. unfold wish_ok in Hx. rewrite Hf in Hx.
    destruct (kind (wbind x)) eqn:Hk; [by destruct Hx| |]; destruct Hx as [Hn Hp];
      rewrite bind_value_bare, parse_plain by done; done.
Qed.

Lemma parse_wishes l o extra : Forall wish_ok l → Forall plain_word extra →
  parse_opts (mjoin (words <$> l) ++ extra) o =
  Ok (MkOptions (bindings o ++ (unbound <$> l)) (positional o ++ mjoin (loose <$> l) ++ extra) (keepNL o)).
Proof.
  intros Hl He. revert o. induction Hl as [|x l Hx Hl IH]; intros o.
  - simpl. rewrite (right_id_L [] (++)). revert o.
    induction He as [|p extra Hp He IHe]; intros o.
    + simpl. rewrite (right_id_L [] (++)). by destruct o.
    + rewrite parse_plain, IHe by done. simpl. by rewrite <- (assoc_L (++)).
  - cbn [fmap list_fmap mjoin list_join]. rewrite <- (assoc_L (++)).
    rewrite parse_wish by done. etrans; [apply IH|]. simpl. by rewrite <- !(assoc_L (++)).
Qed.

Lemma bind_wishes l extra : Forall wish_ok l →
  bind_paths (unbound <$> l) (mjoin (loose <$> l) ++ extra) = Ok (wbind <$> l, extra).
Proof.
  induction 1 as [|x l Hx Hl IH]; [done|].
  assert (path (unbound x) = "" ∧ wform x = Spaced ∨
    path (unbound x) ≠ "" ∧ unbound x = wbind x ∧ loose x = []) as Hcase.
  { unfold unbound, loose, wish_ok in *. destruct (wform x); [right..|by left].
    all: destruct (kind (wbind x)); naive_solver. }
  cbn [fmap list_fmap mjoin list_join bind_paths].
  destruct Hcase as [[Hp Hf]|(Hp & Hu & ->)].
  - assert (kind (unbound x) = kind (wbind x) ∧ name (unbound x) = name (wbind x)) as [-> ->]
      by (unfold unbound; by rewrite Hf).
    rewrite decide_True by done. unfold loose at 1. rewrite Hf. cbn [app].
    unfold mjoin, fmap in *. rewrite IH. by destruct x as [f []].
  - rewrite decide_False by done. rewrite Hu. cbn [app]. unfold mjoin, fmap in *. by rewrite IH.
Qed.

Lemma split_dashes_app l argv : Forall (λ w, w ≠ "--") l →
  split_dashes (l ++ "--" :: argv) = Some (l, argv).
Proof.
  induction 1 as [|w l Hw Hl IH]; [done|]. cbn [app split_dashes].
  rewrite decide_False by done. by rewrite IH.
Qed.

Lemma words_no_dashes x : wish_ok x → Forall (λ w, w ≠ "--") (words x).
Proof.
  destruct x as [f [k n p]]. unfold wish_ok, words, flag_value. simpl. intros Hx.
  assert (validEnvName n = true → ∀ t, n +:+ t ≠ "--") as Hn.
  { intros Hv t. destruct n as [|a n]; [done|]. intros [= -> _]. done. }
  assert (∀ t, the_flag k +:+ "=" +:+ t ≠ "--") as Hk by by destruct k.
  assert (the_flag k ≠ "--") as Hk' by by destruct k.
  destruct f; repeat constructor; try done; simpl in *.
  - destruct k; [naive_solver|apply Hn; naive_solver..].
  - destruct k; [naive_solver| |]; destruct Hx as [Hv _];
      rewrite <- (sapp_nil_r n); by apply Hn.
  - destruct k; [naive_solver| |]; destruct Hx as [_ [_ Hp]]; by intros ->.
Qed.

(** Every way of writing a binding means the same: for any mix of [--as=NAME=path],
    [--as NAME=path], [--as NAME path] (the same for [--as-file], and the first two for
    [--env]) the parser gives exactly the bindings meant, in the order written, the
    other paths follow as env files, and every word after the first bare [--] is
    handed to the command as it stands. *)
Theorem exec_forms_agree l extra argv :
  Forall wish_ok l → Forall plain_word extra → l ≠ [] ∨ extra ≠ [] → argv ≠ [] →
  parseExecArgs ((mjoin (words <$> l) ++ extra) ++ "--" :: argv) =
  Ok ((wbind <$> l) ++ (MkBinding execKindEnvFile "" <$> extra), argv, false).
Proof.
  intros Hl He Hne Ha. unfold parseExecArgs. rewrite split_dashes_app.
  - destruct argv as [|c argv]; [done|]. rewrite parse_wishes by done. simpl.
    rewrite bind_wishes by done.
    destruct ((wbind <$> l) ++ (MkBinding execKindEnvFile "" <$> extra)) eqn:Hx; [|done].
    apply app_eq_nil in Hx as [H1 H2]. apply fmap_nil_inv in H1, H2. naive_solver.
  - apply Forall_app. split.
    + clear Hne. induction Hl as [|x l Hx Hl IH]; [done|]. cbn [fmap list_fmap mjoin list_join].
      apply Forall_app. split; [by apply words_no_dashes|exact IH].
    + eapply Forall_impl; [exact He|]. intros p [_ Hp] ->. done.
Qed.

Lemma exec_forms_agree_witness :
  parseExecArgs ["--as"; "A"; "fs:/a"; "--as-file=B=fs:/b"; "--env"; "e"; "rest"; "--"; "curl"; "--"; "-v"]
  = Ok ([MkBinding execKindValue "A" "fs:/a"; MkBinding execKindFile "B" "fs:/b";
         MkBinding execKindEnvFile "" "e"; MkBinding execKindEnvFile "" "rest"],
        ["curl"; "--"; "-v"], false).
Proof.
  apply (exec_forms_agree
    [MkWish Spaced (MkBinding execKindValue "A" "fs:/a");
     MkWish Inline (MkBinding execKindFile "B" "fs:/b");
     MkWish Separate (MkBinding execKindEnvFile "" "e")] ["rest"] ["curl"; "--"; "-v"]);
    [|repeat constructor; done|by left|done].
  repeat constructor; done.
Defined.

End EnvFileTheorems.
