(* ===== verification/Exec.v ===== *)
(** * cmd/valetfs/exec.go: running a command with secrets

    [runExec] over the daemon, the files of the machine and the child process.  The
    child is a function of its arguments, its environment and the files it sees; every
    call on a file may fail.  Signals and the text of the help page are left out. *)
From stdpp Require Import pretty.
From S2P Require Import Prelude GoStrings GoPath Repo Daemon ControlAPI Cli EnvFile.
Import GoStr GoPath Daemon Cli EnvFile.

Module Exec.

(** How a child ends. *)
Inductive exit := Exited (code : Z) | Signaled (sig : Z) | Stopped | WaitFailed (e : string).

(** What the process finds around it. *)
Record Machine := MkMachine {
  environ : list string;
  tmp_root : string;                                  (* os.TempDir *)
  suffix : string → string;                           (* the name MkdirTemp settles on *)
  written : string → nat;                             (* bytes of a write that fails *)
  zero_writes : string → nat;                         (* writes of zeros that succeed *)
  spawn : list string → list string → Host → option (Host * exit);
}.

Section Exec.
Context {G : Type} `{Repo.GoGit G}.
Context (hmac_hex : string → bytes → string) (decode_error : string → string).
Context (env : Env) (st : runtimeState) (m : Machine).

Local Abbreviation cli := (cli (G:=G)).

(** ** Calls on the machine *)

(** The first entry of the environment counts. *)
Definition getenv (k : string) : string :=
  let pre := k +:+ "=" in
  default "" (head (omap (λ e, if HasPrefix e pre then Some (TrimPrefix e pre) else None) (environ m))).

Definition exists_at (h : Host) (p : string) : bool :=
  match h !! p with Some _ => true | None => false end.

(** A new entry at [p], which must not exist, in a directory that does. *)
Definition make (op p : string) (e : host_entry) : cli () := λ w,
  if hfail env op p || exists_at (host w) (Clean p) || negb (has_dir (host w) (Dir (Clean p)))
  then Some (Err (HostError op p), w)
  else Some (Ok tt, set_host (<[Clean p := e]> (host w)) w).

Definition MkdirTemp (parent : string) : cli string :=
  let d := (if HasSuffix parent "/" then parent else parent +:+ "/") +:+ "valetfs-exec-"
             +:+ suffix m parent in
  make "mkdtemp" d HDir ≫= λ _, mret d.

Fixpoint first_temp (parents : list string) : cli (option string) :=
  match parents with
  | [] => mret None
  | p :: ps =>
      if decide (p = "") then first_temp ps
      else
        e ← stat env p;
        match e with
        | Some HDir =>
            r ← attempt (MkdirTemp p);
            match r with Ok d => mret (Some d) | Err _ => first_temp ps end
        | _ => first_temp ps
        end
  end.

(** The directory, and whether it is on disk. *)
Definition privateTempDir : cli (string * bool) :=
  d ← first_temp [getenv "XDG_RUNTIME_DIR"; "/dev/shm"];
  match d with
  | Some d => mret (d, false)
  | None => d ← MkdirTemp (tmp_root m); mret (d, true)
  end.

Definition set_body (p body : string) (w : World (G:=G)) : World :=
  set_host (<[Clean p := HFile body]> (host w)) w.

Definition write_body (p body : string) : cli () := λ w,
  if hfail env "write" p
  then Some (Err (HostError "write" p), set_body p (stake (written m p) body) w)
  else Some (Ok tt, set_body p body w).

Definition close (p : string) : cli () := λ w,
  if hfail env "close" p then Some (Err (HostError "close" p), w) else Some (Ok tt, w).

Definition writeSecretFile (dst body : string) : cli () :=
  make "create" dst (HFile "") ≫= λ _, write_body dst body ≫= λ _, close dst.

(** How many bytes are zeroed: 4096 at a time, while the writes succeed. *)
Fixpoint zero_loop (fuel writes left : nat) : nat :=
  match fuel, writes with
  | S fuel, S writes =>
      if decide (left = 0) then 0
      else let n := 4096 `min` left in n + zero_loop fuel writes (left - n)
  | _, _ => 0
  end.

Fixpoint zero_string (n : nat) : string :=
  match n with O => "" | S n => String "000" (zero_string n) end.

Definition zeroed (writes : nat) (body : string) : string :=
  let n := zero_loop (S (String.length body)) writes (String.length body) in
  zero_string n +:+ sdrop n body.

(** [os.Remove]: a directory must be empty. *)
Definition removable (h : Host) (p : string) : bool :=
  match h !! p with
  | Some (HFile _) => true
  | Some HDir => bool_decide (filter (λ e, HasPrefix e.1 (p +:+ "/") = true) h = ∅)
  | None => false
  end.

Definition remove_one (p : string) : cli () := λ w,
  if hfail env "unlink" p || negb (removable (host w) (Clean p))
  then Some (Err (HostError "unlink" p), w)
  else Some (Ok tt, set_host (delete (Clean p) (host w)) w).

Definition wipeFile (p : string) : cli () :=
  e ← stat env p;
  (match e with
   | Some (HFile body) =>
       if hfail env "open" p then mret tt
       else λ w, Some (Ok tt, set_body p (zeroed (zero_writes m p) body) w)
   | _ => mret tt
   end) ≫= λ _, ignore (attempt (remove_one p)).

(** ** Reading the vault *)

Definition fetchVaultFile (fsPath : string) : cli string :=
  r ← attempt (fsPathIsDirWithErr hmac_hex decode_error env st fsPath);
  match r with
  | Err e => throw (CannotRead (TrimPrefix fsPath "/") e)
  | Ok true => throw (IsADirectory (TrimPrefix fsPath "/"))
  | Ok false => apiReq hmac_hex decode_error env st "GET" "/files" [("path", fsPath)] None
  end.

(** ** Injecting *)

(** The environment so far, the directory made and the files in it. *)
Record xstate := MkX { xenv : list string; tmpDir : option string; tmpFiles : list string }.

Definition outcome : Type := xstate * option cli_error.

Definition fallible {A} (c : cli A) (s : xstate) (k : A → cli outcome) : cli outcome :=
  r ← attempt c;
  match r with Ok a => k a | Err e => mret (s, Some e) end.

Definition tempDir (s : xstate) : cli string :=
  match tmpDir s with
  | Some d => mret d
  | None =>
      '(d, onDisk) ← privateTempDir;
      (if onDisk : bool then note ("note: wrote under " +:+ d) else mret tt) ≫= λ _, mret d
  end.

Definition vault_text (b : execBinding) : cli string :=
  if isHostPath (path b) then hintVaultPath env "exec" (path b)
  else fetchVaultFile (toFSPathArg (path b)).

Definition add_env (vars : list string) (s : xstate) : xstate :=
  MkX (xenv s ++ vars) (tmpDir s) (tmpFiles s).

(** Where the [n]-th file goes. *)
Definition subdir (d : string) (n : nat) : string := Join2 d (pretty n).

Definition inject_file (b : execBinding) (body : string) (s : xstate) : cli outcome :=
  fallible (tempDir s) s (λ d,
    let s := MkX (xenv s) (Some d) (tmpFiles s) in
    let sub := subdir d (length (tmpFiles s)) in
    let dst := Join2 sub (Base (toFSPathArg (path b))) in
    fallible (make "mkdir" sub HDir ≫= λ _, writeSecretFile dst body) s (λ _,
      mret (MkX (xenv s ++ [name b +:+ "=" +:+ dst]) (tmpDir s) (tmpFiles s ++ [dst]), None))).

Definition inject (keep : bool) (b : execBinding) (s : xstate) : cli outcome :=
  fallible (vault_text b) s (λ body,
    match kind b with
    | execKindEnvFile =>
        match parseEnvFile body with
        | Err e => mret (s, Some (EnvFileError (path b) e))
        | Ok [] => mret (s, Some (NoVariables (path b)))
        | Ok vars => mret (add_env vars s, None)
        end
    | execKindValue => mret (add_env [name b +:+ "=" +:+ trimSecretNewline body keep] s, None)
    | execKindFile => inject_file b body s
    end).

Fixpoint inject_all (keep : bool) (bs : list execBinding) (s : xstate) : cli outcome :=
  match bs with
  | [] => mret (s, None)
  | b :: bs =>
      '(s, e) ← inject keep b s;
      match e with
      | Some _ => mret (s, e)
      | None => inject_all keep bs s
      end
  end.

(** ** The command *)

Definition cleanup (s : xstate) : cli () :=
  each wipeFile (tmpFiles s) ≫= λ _,
  match tmpDir s with
  | Some d => ignore (attempt (remove_host env d))
  | None => mret tt
  end.

Definition start (argv envs : list string) : cli (option exit) := λ w,
  match spawn m argv envs (host w) with
  | None => Some (Ok None, w)
  | Some (h, x) => Some (Ok (Some x), set_host h w)
  end.

(** The code [valetfs] itself exits with. *)
Definition exit_code (x : exit) : result cli_error Z :=
  match x with
  | Exited c => Ok c
  | Signaled s => Ok (128 + s)%Z
  | Stopped => Ok 1%Z
  | WaitFailed e => Err (WaitError e)
  end.

Definition run_child (argv : list string) (s : xstate) : cli Z :=
  x ← start argv (xenv s);
  cleanup s ≫= λ _,
  match x with
  | None => throw (CannotStart (default "" (head argv)))
  | Some x => match exit_code x with Ok c => mret c | Err e => throw e end
  end.

Definition runExec (args : list string) : cli Z :=
  match parseExecArgs args with
  | Err Help => note "help" ≫= λ _, mret 0%Z
  | Err e => throw (ExecError e)
  | Ok (bs, argv, keep) =>
      '(s, e) ← inject_all keep bs (MkX (environ m) None []);
      match e with
      | Some e => cleanup s ≫= λ _, throw e
      | None => run_child argv s
      end
  end.

End Exec.
End Exec.
