(* ===== verification/ExecTheorems.v ===== *)
(** * cmd/valetfs/exec.go: properties

    What the child of [exec] is given, and what [exec] leaves behind. *)
From stdpp Require Import pretty.
From S2P Require Import Prelude GoStrings GoPath GoJson GoJsonPrint GoHttp MemFS MemFSFacts MemFSCases Repo Daemon ControlAPI Cli CliFacts.
From S2P Require Import CliLogic EnvFile Exec DaemonTheorems.
Import GoStr GoPath GoJson JsonPrint GoHttp FSPaths Daemon Cli CliPaths CliFacts CliLogic EnvFile.
Import Exec.

Module ExecFacts.

(** ** Paths *)

Lemma LastIndexByte_spec s c :
  match LastIndexByte s c with
  | Some i => ∃ u v, s = u +:+ String c v ∧ String.length u = i ∧ no_byte c v
  | None => no_byte c s
  end.
Proof.
  induction s as [|a s IH]; [done|]. simpl. destruct (LastIndexByte s c) as [i|].
  - destruct IH as (u & v & -> & <- & Hv). by exists (String a u), v.
  - case_decide as Ha.
    + subst. by exists "", s.
    + by apply no_byte_cons.
Qed.

(** The last element of a path, when it is no dot. *)
Lemma Base_cases p : Base p = "." ∨ Base p = ".." ∨ Base p = "/" ∨ plain_name (Base p).
Proof.
  unfold Base. destruct (decide (p = "")); [by left|]. cbv zeta.
  set (q := TrimRight p [slash]). pose proof (LastIndexByte_spec q slash) as Hq.
  set (r := match LastIndexByte q slash with Some i => sdrop (S i) q | None => q end).
  assert (no_byte slash r) as Hr.
  { subst r. destruct (LastIndexByte q slash) as [i|]; [|done].
    destruct Hq as (u & v & -> & <- & Hv).
    assert (sdrop (S (String.length u)) (u +:+ String slash v) = v) as ->; [|done].
    clear. induction u as [|a u IH]; [done|exact IH]. }
  destruct (decide (r = "")); [by do 2 right; left|].
  destruct (decide (r = ".")); [by left|]. destruct (decide (r = "..")); [by right; left|].
  do 3 right. done.
Qed.

Lemma rooted_clean p : is_rooted p = true → Clean p = rooted_path (elems p).
Proof.
  intros Hp. apply HasPrefix_spec in Hp as [t ->]. change ("/" +:+ t) with (String slash t).
  rewrite Clean_rooted. unfold elems.
  change (Split (String slash t) slash) with ("" :: Split t slash).
  by rewrite clean_elems_cons_empty.
Qed.

Lemma elems_step p c : no_byte slash c →
  elems (p +:+ String slash c) = reverse (clean_step true (reverse (elems p)) c).
Proof.
  intros Hc. unfold elems. rewrite Split_snoc, (Split_no_byte c) by done.
  unfold clean_elems. rewrite fold_left_app, reverse_involutive. done.
Qed.

Lemma Join2_both a b : a ≠ "" → b ≠ "" → Join2 a b = Clean (a +:+ "/" +:+ b).
Proof. intros Ha Hb. unfold Join2. by rewrite !filter_cons_True. Qed.

Lemma rooted_join d c : is_rooted d = true → c ≠ "" → is_rooted (Join2 d c) = true.
Proof.
  intros Hd Hc. assert (d ≠ "") as Hne by (by intros ->). rewrite Join2_both by done.
  apply HasPrefix_spec in Hd as [t ->]. rewrite sapp_assoc.
  change ("/" +:+ ?t) with (String slash t). rewrite Clean_rooted.
  unfold rooted_path, is_rooted. apply HasPrefix_spec. by eexists.
Qed.

Lemma under_prefix D E : D ≠ [] → D `prefix_of` E → under (rooted_path D) (rooted_path E) = true.
Proof.
  intros Hne [F ->]. unfold under. destruct (decide (F = [])) as [->|HF].
  - rewrite (right_id_L [] (++)). by rewrite bool_decide_true.
  - rewrite orb_true_iff. right. apply HasPrefix_spec. exists (Join F "/").
    unfold rooted_path. rewrite !sapp_assoc. f_equal.
    destruct D as [|x D]; [done|]. clear Hne. revert x. induction D as [|y D IH]; intros x.
    + destruct F; [done|]. done.
    + cbn [app]. rewrite !Join_cons. rewrite !sapp_assoc. f_equal. f_equal. apply IH.
Qed.

(** A last element of any kind stays below, or goes up by one. *)
Lemma elems_base p c : p ≠ "" → c = "." ∨ c = ".." ∨ c = "/" ∨ plain_name c →
  elems (Join2 p c) = elems p ∨ elems (Join2 p c) = elems p ++ [c] ∨
  ∃ x, elems p = elems (Join2 p c) ++ [x] ∨ elems p = [] ∧ elems (Join2 p c) = [].
Proof.
  intros Hp Hc. assert (c ≠ "") as Hne by (destruct Hc as [-> | [-> | [-> | Hc]]]; [done..|by destruct Hc]).
  rewrite Join2_both, elems_Clean by done.
  destruct Hc as [->|[->|[->|Hc]]].
  - change ("/" +:+ ".") with (String slash "."). rewrite elems_step by done.
    left. cbn. apply reverse_involutive.
  - change ("/" +:+ "..") with (String slash ".."). rewrite elems_step by done.
    right; right. pose proof (elems_plain p) as Hpl.
    destruct (elems p) as [|x l _] using rev_ind; [exists ""; by right|].
    exists x. left. rewrite reverse_snoc. unfold clean_step.
    rewrite decide_False by naive_solver. rewrite decide_True by done.
    apply Forall_app in Hpl as [_ Hx]. rewrite Forall_singleton in Hx. destruct Hx as (_&_&Hx&_).
    rewrite decide_False by done. by rewrite reverse_involutive.
  - change ("/" +:+ "/") with (String slash (str1 slash)).
    left. unfold elems. rewrite Split_snoc. change (Split (str1 slash) slash) with [""; ""].
    unfold clean_elems. rewrite fold_left_app. done.
  - right; left. change ("/" +:+ c) with (String slash c).
    rewrite elems_step by (by destruct Hc as (_&_&_&?)).
    by rewrite (clean_step_plain _ _ _ Hc), reverse_cons, reverse_involutive.
Qed.

(** *** The numbers of the subdirectories *)

Lemma digits_no_slash s : all_digits s = true → no_byte slash s.
Proof.
  induction s as [|a s IH]; [done|]. simpl. intros [Ha Hs]%andb_true_iff.
  apply no_byte_cons. split; [by intros ->|by apply IH].
Qed.

Lemma pretty_plain (n : nat) : plain_name (pretty n).
Proof.
  change (pretty n) with (pretty (N.of_nat n)).
  destruct (pretty_N_spec (N.of_nat n)) as (a & r & -> & _ & Hd & _).
  split_and!; [done|by intros He; rewrite He in Hd..|by apply digits_no_slash].
Qed.

Lemma paths_below d n base : is_rooted d = true → elems d ≠ [] →
  under (Clean d) (Clean (subdir d n)) = true ∧
  under (Clean d) (Clean (Join2 (subdir d n) (Base base))) = true.
Proof.
  intros Hd Hne. assert (d ≠ "") as Hd0 by (by intros ->).
  pose proof (pretty_plain n) as Hn. assert (pretty n ≠ "") as Hn0 by by destruct Hn.
  pose proof (rooted_join d (pretty n) Hd Hn0) as Hs. fold (subdir d n) in Hs.
  assert (subdir d n ≠ "") as Hs0 by (intros Hx; by rewrite Hx in Hs).
  assert (elems (subdir d n) = elems d ++ [pretty n]) as He by by apply elems_Join.
  assert (Base base ≠ "") as Hb0
    by (destruct (Base_cases base) as [-> | [-> | [-> | Hb]]]; [done..|by destruct Hb]).
  rewrite !rooted_clean by (done || by apply rooted_join).
  split; apply under_prefix; [done|rewrite He; by eexists|done|].
  destruct (elems_base (subdir d n) (Base base) Hs0 (Base_cases base))
    as [Hx|[Hx|(x & [Hx|[Hx _]])]].
  - rewrite Hx, He. by eexists.
  - rewrite Hx, He, <- (assoc_L (++)). by eexists.
  - rewrite He in Hx. apply app_inj_tail in Hx as [-> _]. done.
  - rewrite He in Hx. by destruct (elems d).
Qed.

(** *** The temporary directory *)

Section steps.
Context {G : Type} `{Repo.GoGit G}.
Context (hmac_hex : string → bytes → string) (decode_error : string → string).
Context (env : Env) (st : runtimeState) (m : Machine).

Local Abbreviation World := (World (G:=G)).

(** Temporary directories are absolute, and the part made up has no slash. *)
Definition sane_temp : Prop :=
  (∀ p, no_byte slash (suffix m p)) ∧ is_rooted (tmp_root m) = true ∧
  (getenv m "XDG_RUNTIME_DIR" = "" ∨ is_rooted (getenv m "XDG_RUNTIME_DIR") = true).

Definition temp_dir (d : string) : Prop := is_rooted d = true ∧ elems d ≠ [].

Lemma temp_dir_of parent : (∀ p, no_byte slash (suffix m p)) → is_rooted parent = true →
  temp_dir ((if HasSuffix parent "/" then parent else parent +:+ "/") +:+ "valetfs-exec-"
              +:+ suffix m parent).
Proof.
  intros Hs Hp. set (name := "valetfs-exec-" +:+ suffix m parent).
  assert (∃ q, (if HasSuffix parent "/" then parent else parent +:+ "/") = q +:+ "/") as [q Hq].
  { destruct (HasSuffix parent "/") eqn:Hx; [by apply HasSuffix_spec|by eexists]. }
  assert (is_rooted ((if HasSuffix parent "/" then parent else parent +:+ "/") +:+ name) = true) as Hr.
  { apply HasPrefix_spec in Hp as [t Ht]. apply HasPrefix_spec.
    destruct (HasSuffix parent "/"); rewrite Ht, ?sapp_assoc; by eexists. }
  split; [done|]. rewrite Hq, sapp_assoc. change ("/" +:+ name) with (String slash name).
  assert (no_byte slash name) as Hn by (apply no_byte_app; split; [done|apply Hs]).
  rewrite elems_step by done. rewrite clean_step_plain by done. rewrite reverse_cons.
  by destruct (reverse _).
Qed.

(** *** What each step does *)

(** Only the files of the machine differ. *)
Definition same_daemon (w w' : World) : Prop := dmn w' = dmn w ∧ sent w' = sent w.

Lemma wp_make op p e (Q : result cli_error () → World → Prop) (w : World) : Q (Err (HostError op p)) w →
  (host w !! Clean p = None → Q (Ok tt) (set_host (<[Clean p := e]> (host w)) w)) →
  wp (make env op p e) Q w.
Proof.
  intros He Hok. unfold wp, make. destruct (hfail _ _ _ || _ || _) eqn:Hx.
  - by do 2 eexists.
  - apply orb_false_iff in Hx as [[_ Hx]%orb_false_iff _]. do 2 eexists. split; [done|].
    apply Hok. unfold exists_at in Hx. by destruct (host w !! Clean p).
Qed.

Lemma same_refl w : same_daemon w w.
Proof. by split. Qed.

Lemma same_trans w1 w2 w3 : same_daemon w1 w2 → same_daemon w2 w3 → same_daemon w1 w3.
Proof. intros [] []. split; congruence. Qed.

Definition made (w : World) (r : result cli_error string) (w' : World) : Prop :=
  same_daemon w w' ∧
  match r with
  | Ok d => (sane_temp → temp_dir d) ∧ host w !! Clean d = None ∧
      host w' = <[Clean d := HDir]> (host w)
  | Err _ => host w' = host w
  end.

Lemma wp_MkdirTemp parent w : (sane_temp → is_rooted parent = true) →
  wp (MkdirTemp env m parent) (made w) w.
Proof.
  intros Hp. unfold MkdirTemp. apply wp_bind, wp_make; [by split|].
  intros Hn. apply wp_ret. split; [done|]. split; [|done].
  intros Hsane. apply temp_dir_of; [apply Hsane|by apply Hp].
Qed.

Lemma wp_first_temp parents (w : World) :
  Forall (λ p, p = "" ∨ (sane_temp → is_rooted p = true)) parents →
  wp (first_temp env m parents) (λ r w', same_daemon w w' ∧
    match r with
    | Ok (Some d) => (sane_temp → temp_dir d) ∧ host w !! Clean d = None ∧
        host w' = <[Clean d := HDir]> (host w)
    | _ => host w' = host w
    end) w.
Proof.
  intros Hp. revert w. induction Hp as [|p ps Hp Hps IH]; intros w.
  { by apply wp_ret. }
  cbn [first_temp]. destruct (decide (p = "")) as [|Hne]; [apply IH|].
  destruct Hp as [|Hp]; [done|]. apply wp_bind, wp_stat.
  destruct (if hfail env "stat" p then None else host w !! Clean p) as [[]|]; [apply IH| |apply IH].
  apply wp_bind, wp_attempt. eapply wp_mono; [|by apply wp_MkdirTemp].
  intros [d|e] w1 [Hs Hm]; [by apply wp_ret|]. eapply wp_mono; [|apply IH].
  intros r w2 [Hs2 Hr]. rewrite Hm in Hr. split; [by eapply same_trans|done].
Qed.

Lemma wp_privateTempDir (w : World) :
  wp (privateTempDir env m) (λ r w', made w (match r with Ok (d, _) => Ok d | Err e => Err e end) w') w.
Proof.
  apply wp_bind. eapply wp_mono; [|apply wp_first_temp].
  2:{ apply Forall_cons. split; [|apply Forall_singleton; by right].
      destruct (decide (getenv m "XDG_RUNTIME_DIR" = "")); [by left|].
      right. by intros (_ & _ & [|]). }
  intros [[d|]|e] w1 [Hs Hr]; [by apply wp_ret| |done].
  apply wp_bind. eapply wp_mono; [|apply wp_MkdirTemp; by intros (_ & ? & _)].
  intros [d|e] w2 [Hs2 Hm]; [apply wp_ret|]; rewrite Hr in Hm;
    (split; [by eapply same_trans|done]).
Qed.

Lemma wp_tempDir s (w : World) :
  wp (tempDir env m s) (λ r w',
    match tmpDir s with
    | Some d => r = Ok d ∧ w' = w
    | None => made w r w'
    end) w.
Proof.
  unfold tempDir. destruct (tmpDir s) as [d|]; [by apply wp_ret|].
  apply wp_bind. eapply wp_mono; [|apply wp_privateTempDir].
  intros [[d onDisk]|e] w1 [Hs Hr]; [|done]. apply wp_bind.
  destruct onDisk.
  - exists (Ok tt). eexists. split; [done|]. by apply wp_ret.
  - by apply wp_ret, wp_ret.
Qed.

(** What making the subdirectory and the file changes. *)
Definition secret_written (sub dst body : string) (w : World) (r : result cli_error ()) (w' : World)
  : Prop :=
  same_daemon w w' ∧
  (∀ p, is_Some (host w !! p) → host w' !! p = host w !! p) ∧
  (∀ p, host w' !! p ≠ host w !! p → p = Clean sub ∨ p = Clean dst) ∧
  (r = Ok tt → host w' !! Clean dst = Some (HFile body)).

Lemma wp_secret sub dst body (w : World) :
  wp (make env "mkdir" sub HDir ≫= λ _, writeSecretFile env m dst body)
     (secret_written sub dst body w) w.
Proof.
  apply wp_bind, wp_make; [by repeat split|]. intros Hsub. unfold writeSecretFile.
  set (h1 := <[Clean sub := HDir]> (host w)).
  assert (∀ p, is_Some (host w !! p) → h1 !! p = host w !! p) as Hold1.
  { intros p [x Hx]. unfold h1. rewrite lookup_insert_ne; [done|]. intros <-. congruence. }
  assert (∀ p, h1 !! p ≠ host w !! p → p = Clean sub) as Hnew1.
  { intros p Hp. destruct (decide (p = Clean sub)) as [|Hne]; [done|].
    unfold h1 in Hp. by rewrite lookup_insert_ne in Hp. }
  apply wp_bind, wp_make.
  { split; [done|]. split_and!; [done| |done]. intros p Hp. left. by apply Hnew1. }
  intros Hdst. change (host (set_host h1 w)) with h1 in *.
  assert (∀ r b w', (r = Ok tt → b = body) → w' = set_host (<[Clean dst := HFile b]> h1) w →
    secret_written sub dst body w r w') as Hdone.
  { intros r b w' Hb ->. split; [done|]. cbn [host set_host]. split_and!.
    - intros p Hp. rewrite lookup_insert_ne; [by apply Hold1|]. intros <-.
      rewrite <- (Hold1 _ Hp), Hdst in Hp. by destruct Hp.
    - intros p Hp. destruct (decide (p = Clean dst)) as [|Hne]; [by right|]. left.
      rewrite lookup_insert_ne in Hp by done. by apply Hnew1.
    - intros Hr. by rewrite lookup_insert_eq, (Hb Hr). }
  apply wp_bind. unfold wp at 1, write_body. destruct (hfail env "write" dst).
  - do 2 eexists. split; [done|]. apply (Hdone _ (stake (written m dst) body)); [done|]. unfold set_body, set_host; cbn [host].
    f_equal. apply insert_insert_eq.
  - do 2 eexists. split; [done|]. unfold wp, close. destruct (hfail env "close" dst);
      (do 2 eexists; split; [done|]; apply (Hdone _ body); [done|]; unfold set_body, set_host; cbn [host];
       f_equal; apply insert_insert_eq).
Qed.

(** *** Reading the vault *)

Lemma wp_vault_text b (w : World) :
  wp (vault_text hmac_hex decode_error env st b) (λ _ w', host w' = host w) w.
Proof.
  unfold vault_text. destruct (isHostPath _); [by apply wp_hint|].
  apply wp_bind, wp_attempt, wp_isDir. intros [[]|e] d n; [by apply wp_throw| |by apply wp_throw].
  by apply wp_apiReq.
Qed.

Lemma wp_vault_read b (w : World) : reachable_daemon env st → authed st w →
  wp (vault_text hmac_hex decode_error env st b) (λ r w',
    host w' = host w ∧ authed st w' ∧ fs (dmn w') = fs (dmn w) ∧
    ∀ body, r = Ok body → ∃ data,
      MemFS.Read (fs (dmn w)) (toFSPathArg (path b)) = Ok data ∧ body = to_string data) w.
Proof.
  intros Hup Ha. unfold vault_text. destruct (isHostPath _); [by apply wp_hint|].
  assert (toFSPathArg (path b) ≠ "") as Hne by apply toFSPathArg_ne.
  apply wp_bind, wp_attempt.
  pose proof (meta_run hmac_hex decode_error env st Hup _ w Ha Hne) as Hmeta.
  do 2 eexists. split; [exact Hmeta|].
  destruct (MemFS.Stat _ _) as [n|e]; [|by apply wp_throw].
  destruct (MemFS.IsDir n); [by apply wp_throw|].
  set (w1 := step w (fs (dmn w))).
  pose proof (body_run hmac_hex decode_error env st Hup _ w1 Ha Hne) as Hbody.
  do 2 eexists. split; [exact Hbody|]. split_and!; [done..|].
  intros body. change (fs (dmn w1)) with (fs (dmn w)).
  destruct (MemFS.Read _ _) as [data|e]; [|done]. intros [= <-]. by exists data.
Qed.

End steps.
End ExecFacts.

Import GoStr GoPath FSPaths Daemon Cli CliPaths CliFacts CliLogic EnvFile Exec ExecFacts.

Module ExecTheorems.

Section theorems.
Context {G : Type} `{Repo.GoGit G}.
Context (hmac_hex : string → bytes → string) (decode_error : string → string).
Context (env : Env) (st : runtimeState) (m : Machine).

Local Abbreviation World := (World (G:=G)).
Local Abbreviation inject := (inject hmac_hex decode_error env st m).
Local Abbreviation inject_all := (inject_all hmac_hex decode_error env st m).
Local Abbreviation runExec := (runExec hmac_hex decode_error env st m).

Lemma wp_fallible {A} (c : cli A) s k (Q : result cli_error outcome → World → Prop) w :
  wp c (λ r w', match r with Ok a => wp (k a) Q w' | Err e => Q (Ok (s, Some e)) w' end) w →
  wp (fallible c s k) Q w.
Proof.
  intros Hc. apply wp_bind, wp_attempt. eapply wp_mono; [|exact Hc].
  intros [a|e] w' HQ; [done|by apply wp_ret].
Qed.

(** ** What the child is given *)

(** The variables a binding stands for, given the vault [f] and the machine [h]. *)
Definition injected (f : MemFS.MemFS) (keep : bool) (h : Host) (b : execBinding)
  (vars : list string) : Prop :=
  ∃ data, MemFS.Read f (toFSPathArg (path b)) = Ok data ∧
  match kind b with
  | execKindEnvFile => parseEnvFile (to_string data) = Ok vars ∧ vars ≠ []
  | execKindValue => vars = [name b +:+ "=" +:+ trimSecretNewline (to_string data) keep]
  | execKindFile => ∃ dir, let dst := Join2 dir (Base (toFSPathArg (path b))) in
      vars = [name b +:+ "=" +:+ dst] ∧ h !! Clean dst = Some (HFile (to_string data))
  end.

Lemma injected_mono f keep (h h' : Host) b vars : h ⊆ h' →
  injected f keep h b vars → injected f keep h' b vars.
Proof.
  intros Hsub (data & Hd & Hv). exists data. split; [done|].
  destruct (kind b); [done|done|]. destruct Hv as (dir & Hv & Hx). exists dir.
  split; [done|]. by eapply lookup_weaken.
Qed.

(** So far the bindings [done] have been injected, in order. *)
Definition handed (w0 : World) (keep : bool) (done : list execBinding) (s : xstate) (w : World)
  : Prop :=
  authed st w ∧ fs (dmn w) = fs (dmn w0) ∧ host w0 ⊆ host w ∧
  ∃ varss, xenv s = environ m ++ mjoin varss ∧
    Forall2 (injected (fs (dmn w0)) keep (host w)) done varss.

Definition hands (w0 : World) keep done (r : result cli_error outcome) (w' : World) : Prop :=
  ∃ s e, r = Ok (s, e) ∧ (e = None → handed w0 keep done s w').

Lemma handed_snoc w0 keep l s s' w w' b vars : handed w0 keep l s w →
  authed st w' → fs (dmn w') = fs (dmn w) → host w ⊆ host w' →
  xenv s' = xenv s ++ vars → injected (fs (dmn w0)) keep (host w') b vars →
  handed w0 keep (l ++ [b]) s' w'.
Proof.
  intros (_ & Hf & Hsub & varss & Hx & Hall) Ha Hf' Hsub' Hx' Hb.
  split; [done|]. split; [congruence|]. split; [by etrans|].
  exists (varss ++ [vars]). split.
  - rewrite Hx', Hx, join_app. cbn [mjoin list_join].
    by rewrite (right_id_L [] (++)), (assoc_L (++)).
  - apply Forall2_app; [|by constructor]. eapply Forall2_impl; [exact Hall|].
    intros ??. by apply injected_mono.
Qed.

Lemma handed_world w0 keep l s w w' : handed w0 keep l s w → authed st w' →
  fs (dmn w') = fs (dmn w) → host w ⊆ host w' → handed w0 keep l s w'.
Proof.
  intros (_ & Hf & Hsub & varss & Hx & Hall) Ha Hf' Hsub'.
  split; [done|]. split; [congruence|]. split; [by etrans|].
  exists varss. split; [done|]. eapply Forall2_impl; [exact Hall|]. intros ??. by apply injected_mono.
Qed.

Lemma same_authed (w w' : World) : same_daemon w w' → authed st w → authed st w'.
Proof. intros [Hd _] [Hc Hn]. split; [by rewrite Hd|done]. Qed.

Lemma made_subseteq (w w' : World) r : made m w r w' → host w ⊆ host w'.
Proof.
  intros [_ Hm]. destruct r as [d|e]; [|by rewrite Hm].
  destruct Hm as (_ & Hn & ->). by apply insert_subseteq.
Qed.

Lemma tempDir_weak s (w : World) : wp (tempDir env m s) (λ r w',
  same_daemon w w' ∧ host w ⊆ host w') w.
Proof.
  eapply wp_mono; [|apply wp_tempDir]. intros r w' Hr. destruct (tmpDir s) as [d|].
  - destruct Hr as [_ ->]. split; [by apply same_refl|done].
  - split; [by destruct Hr|by eapply made_subseteq].
Qed.

Lemma wp_inject_file w0 keep l b data s (w : World) : handed w0 keep l s w →
  kind b = execKindFile → MemFS.Read (fs (dmn w0)) (toFSPathArg (path b)) = Ok data →
  wp (inject_file env m b (to_string data) s) (hands w0 keep (l ++ [b])) w.
Proof.
  intros Hh Hk Hread. apply wp_fallible. eapply wp_mono; [|apply tempDir_weak].
  intros [d|e] w1 [Hs1 Hsub1]; [|by do 2 eexists]. apply wp_fallible.
  eapply wp_mono; [|apply wp_secret]. intros [[]|e] w2 (Hs2 & Hold & _ & Hdst); [|by do 2 eexists].
  apply wp_ret. do 2 eexists. split; [done|]. intros _.
  assert (host w1 ⊆ host w2) as Hsub2.
  { apply map_subseteq_spec. intros p x Hx. rewrite Hold; by eauto. }
  assert (same_daemon w w2) as Hs by by eapply same_trans.
  assert (Ha := proj1 Hh). eapply handed_snoc; [exact Hh|by eapply same_authed| |by etrans|done|].
  - by rewrite (proj1 Hs).
  - exists data. split; [done|]. rewrite Hk. eexists. split; [done|]. by apply Hdst.
Qed.

Lemma wp_inject (Hup : reachable_daemon env st) w0 keep l b s (w : World) : handed w0 keep l s w →
  wp (inject keep b s) (hands w0 keep (l ++ [b])) w.
Proof.
  intros Hh. assert (Ha := proj1 Hh). apply wp_fallible.
  eapply wp_mono; [|by apply wp_vault_read].
  intros [body|e] w1 (Hhost & Ha1 & Hf1 & Hread); [|by do 2 eexists].
  destruct (Hread body eq_refl) as (data & Hd & ->). clear Hread.
  assert (fs (dmn w) = fs (dmn w0)) as Hf by apply Hh. rewrite Hf in Hd.
  assert (host w ⊆ host w1) as Hsub by by rewrite Hhost.
  destruct (kind b) eqn:Hk.
  - destruct (parseEnvFile (to_string data)) as [[|v vars]|e] eqn:Hp; apply wp_ret;
      do 2 eexists; (split; [done|]); intros Hx; [done| |done].
    eapply (handed_snoc _ _ _ s _ w _ b (v :: vars)); [done..|].
    exists data. split; [done|]. by rewrite Hk, Hp.
  - apply wp_ret. do 2 eexists. split; [done|]. intros _.
    eapply (handed_snoc _ _ _ s _ w); [done..|]. exists data. split; [done|]. by rewrite Hk.
  - eapply wp_inject_file; [|done|done]. by eapply handed_world.
Qed.

Lemma wp_inject_all (Hup : reachable_daemon env st) w0 keep bs l s (w : World) :
  handed w0 keep l s w → wp (inject_all keep bs s) (hands w0 keep (l ++ bs)) w.
Proof.
  revert l s w. induction bs as [|b bs IH]; intros l s w Hh.
  - rewrite (right_id_L [] (++)). apply wp_ret. by do 2 eexists.
  - apply wp_bind. eapply wp_mono; [|by eapply wp_inject].
    intros r w1 (s1 & e & -> & He). destruct e as [e|].
    + apply wp_ret. by do 2 eexists.
    + eapply wp_mono; [|apply IH, He, eq_refl]. intros r w2. by rewrite <- (assoc_L (++)).
Qed.

(** C28: when [exec] returns, the child was started once, on the words after [--], with the
    environment of the shell and then, binding by binding in the order written, what each
    stands for in the vault: the variables of an env file (at least one), the text of a
    file without its line end, or the path of a new file of that base name holding exactly
    its bytes; no file of the machine had changed by then, and the exit code is the
    child's, or 128 and the signal that killed it. *)
Theorem exec_hands_over args (w : World) c w' :
  reachable_daemon env st → authed st w → runExec args w = Some (Ok c, w') →
  parseExecArgs args = Err Help ∨
  ∃ bs argv keep varss h h' x,
    parseExecArgs args = Ok (bs, argv, keep) ∧
    Forall2 (injected (fs (dmn w)) keep h) bs varss ∧ host w ⊆ h ∧
    spawn m argv (environ m ++ mjoin varss) h = Some (h', x) ∧ exit_code x = Ok c.
Proof.
  intros Hup Ha. unfold runExec. unfold Exec.runExec.
  destruct (parseExecArgs args) as [[[bs argv] keep]|e]; [|destruct e; by (try by left)].
  intros Hrun. right. exists bs, argv, keep.
  destruct (wp_inject_all Hup w keep bs [] (MkX (environ m) None []) w) as (r & w1 & Hx & s & e & -> & He).
  { do 3 (split; [done|]). exists []. split; [|constructor]. simpl.
    by rewrite (right_id_L [] (++)). }
  rewrite (bind_some _ _ _ _ _ Hx) in Hrun. destruct e as [e|].
  { exfalso. unfold mbind, cli_bind in Hrun. by destruct (cleanup _ _ _ _) as [[[] ?]|]. }
  destruct (He eq_refl) as (_ & _ & Hsub & varss & Henv & Hall). clear He.
  unfold run_child in Hrun. rewrite Henv in Hrun. unfold mbind at 1, cli_bind at 1, start in Hrun.
  destruct (spawn m argv (environ m ++ mjoin varss) (host w1)) as [[h' x]|] eqn:Hspawn.
  2:{ exfalso. unfold mbind, cli_bind in Hrun. by destruct (cleanup _ _ _ _) as [[[] ?]|]. }
  exists varss, (host w1), h', x. split_and!; [done..|].
  unfold mbind, cli_bind in Hrun. destruct (cleanup _ _ _ _) as [[[] ?]|]; [|done..].
  destruct (exit_code x); [|done]. unfold mret, cli_ret in Hrun. by simplify_eq.
Qed.

(** ** What is left on the machine *)

(** The temporary directory is new, and everything else is as it was. *)
Definition kept (h0 : Host) (s : xstate) (h : Host) : Prop :=
  match tmpDir s with
  | None => h = h0 ∧ tmpFiles s = []
  | Some d => temp_dir d ∧ h0 !! Clean d = None ∧ h !! Clean d = Some HDir ∧
      (∀ p, under (Clean d) p = false → h !! p = h0 !! p) ∧
      Forall (λ f, under (Clean d) (Clean f) = true) (tmpFiles s)
  end.

Definition keeps (h0 : Host) (r : result cli_error outcome) (w' : World) : Prop :=
  ∃ s e, r = Ok (s, e) ∧ kept h0 s (host w').

Lemma kept_tempDir (Hsane : sane_temp m) h0 s (w : World) : kept h0 s (host w) →
  wp (tempDir env m s) (λ r w',
    match r with
    | Ok d => kept h0 (MkX (xenv s) (Some d) (tmpFiles s)) (host w')
    | Err _ => kept h0 s (host w')
    end) w.
Proof.
  intros Hk. eapply wp_mono; [|apply wp_tempDir]. intros r w' Hr. unfold kept in *.
  destruct (tmpDir s) as [d|] eqn:Hd; [by destruct Hr as [-> ->]; simpl|].
  destruct Hk as [Hh Hf]. destruct Hr as [_ Hr]. destruct r as [d|e]; [|by rewrite Hr].
  destruct Hr as (Ht & Hn & ->). cbn [tmpDir tmpFiles]. rewrite Hh, Hf in *.
  split_and!; [by apply Ht|done|by rewrite lookup_insert_eq| |done].
  intros p Hp. apply lookup_insert_ne. intros <-.
  unfold under in Hp. by rewrite bool_decide_true in Hp.
Qed.

Lemma kept_inject_file (Hsane : sane_temp m) h0 b body s (w : World) : kept h0 s (host w) →
  wp (inject_file env m b body s) (keeps h0) w.
Proof.
  intros Hk. apply wp_fallible. eapply wp_mono; [|by apply kept_tempDir].
  intros [d|e] w1 Hk1; [|by do 2 eexists]. apply wp_fallible.
  set (s1 := MkX (xenv s) (Some d) (tmpFiles s)) in *.
  destruct Hk1 as ([Hrd Hne] & Hn & Hdir & Hout & Hfiles).
  destruct (paths_below d (length (tmpFiles s)) (toFSPathArg (path b)) Hrd Hne) as [Hsub Hdst].
  eapply wp_mono; [|apply wp_secret]. intros r w2 (_ & Hold & Hnew & _).
  assert (kept h0 s1 (host w2)) as Hk2.
  { split_and!; [done|done|rewrite Hold; [done|by eexists]| |done]. intros p Hp. rewrite <- (Hout p Hp).
    destruct (decide (host w2 !! p = host w1 !! p)) as [|Hx]; [done|].
    exfalso. apply Hnew in Hx as [-> | ->];
      [exact (eq_true_false_abs _ Hsub Hp)|exact (eq_true_false_abs _ Hdst Hp)]. }
  destruct r as [[]|e]; [|by do 2 eexists]. apply wp_ret. do 2 eexists. split; [done|].
  destruct Hk2 as (H1 & H2 & H3 & H4 & H5). split_and!; [done..|].
  apply Forall_app. split; [done|by apply Forall_singleton].
Qed.

Lemma kept_inject_all (Hsane : sane_temp m) h0 keep bs s (w : World) : kept h0 s (host w) →
  wp (inject_all keep bs s) (keeps h0) w.
Proof.
  revert s w. induction bs as [|b bs IH]; intros s w Hk; [by apply wp_ret; do 2 eexists|].
  apply wp_bind. assert (wp (inject keep b s) (keeps h0) w) as Hb.
  { apply wp_fallible. eapply wp_mono; [|apply wp_vault_text].
    intros [body|e] w1 Hh; rewrite <- Hh in Hk; [|by do 2 eexists].
    destruct (kind b); [|by apply wp_ret; do 2 eexists|by apply kept_inject_file].
    destruct (parseEnvFile body) as [[|v vars]|e]; apply wp_ret; by do 2 eexists. }
  eapply wp_mono; [|exact Hb]. intros r w1 (s1 & e & -> & Hk1).
  destruct e as [e|]; [apply wp_ret; by do 2 eexists|by apply IH].
Qed.

(** *** Cleaning up *)

Lemma wp_wipeFile f (w : World) :
  wp (wipeFile env m f) (λ r w', r = Ok tt ∧ ∀ p, p ≠ Clean f → host w' !! p = host w !! p) w.
Proof.
  assert (∀ w1 : World, (∀ p, p ≠ Clean f → host w1 !! p = host w !! p) →
    wp (ignore (attempt (remove_one env f)))
       (λ r w', r = Ok tt ∧ ∀ p, p ≠ Clean f → host w' !! p = host w !! p) w1) as Hrm.
  { intros w1 Hw1. apply wp_ignore_attempt. unfold wp, remove_one. destruct (_ || _).
    - by do 2 eexists.
    - do 2 eexists. split; [done|]. split; [done|]. intros p Hp. cbn [host set_host].
      rewrite lookup_delete_ne by done. by apply Hw1. }
  apply wp_bind, wp_stat, wp_bind.
  destruct (if hfail env "stat" f then None else host w !! Clean f) as [[body|]|];
    [|by apply wp_ret, Hrm..].
  destruct (hfail env "open" f); [by apply wp_ret, Hrm|].
  do 2 eexists. split; [done|]. apply Hrm. intros p Hp. cbn [host set_body set_host].
  by rewrite lookup_insert_ne.
Qed.

Lemma wp_wipeFiles l (P : string → Prop) (w : World) : (∀ f, f ∈ l → ¬ P (Clean f)) →
  wp (each (wipeFile env m) l) (λ r w', r = Ok tt ∧ ∀ p, P p → host w' !! p = host w !! p) w.
Proof.
  revert w. induction l as [|f l IH]; intros w Hl; [by apply wp_ret|].
  apply wp_bind. eapply wp_mono; [|apply wp_wipeFile]. intros r w1 [-> Hw1].
  eapply wp_mono; [|apply IH; intros; apply Hl; by right]. intros r w2 [-> Hw2].
  split; [done|]. intros p Hp. rewrite Hw2 by done. apply Hw1. intros ->. by eapply Hl; [left|].
Qed.

(** Nothing is left below the directory; elsewhere nothing changes. *)
Lemma wp_cleanup s (w : World) : (∀ p, hfail env "remove" p = false) →
  match tmpDir s with
  | Some d => Forall (λ f, under (Clean d) (Clean f) = true) (tmpFiles s)
  | None => tmpFiles s = []
  end →
  wp (cleanup env m s) (λ r w', r = Ok tt ∧ ∀ p, host w' !! p =
    match tmpDir s with
    | Some d => if under (Clean d) p then None else host w !! p
    | None => host w !! p
    end) w.
Proof.
  intros Hrm Hs. unfold cleanup. apply wp_bind. destruct (tmpDir s) as [d|].
  - eapply wp_mono; [|apply (wp_wipeFiles _ (λ p, under (Clean d) p = false))].
    2:{ intros f Hf. rewrite Forall_forall in Hs. by rewrite (Hs _ Hf). }
    intros r w1 [-> Hw1]. apply wp_ignore_attempt. unfold wp, remove_host. rewrite Hrm.
    do 2 eexists. split; [done|]. split; [done|]. intros p. cbn [host set_host].
    destruct (under (Clean d) p) eqn:Hp.
    + apply map_lookup_filter_None. right. intros x _. simpl. by rewrite Hp.
    + rewrite <- (Hw1 p Hp). destruct (host w1 !! p) as [x|] eqn:Hx.
      * by apply map_lookup_filter_Some.
      * apply map_lookup_filter_None. by left.
  - rewrite Hs. by apply wp_ret, wp_ret.
Qed.

(** The files of a machine lie in directories: nothing is below what does not exist. *)
Definition tree (h : Host) : Prop := ∀ d p, d ≠ "" → h !! d = None → under d p = true → h !! p = None.

(** What the child does not touch. *)
Definition untouched (p : string) : Prop :=
  ∀ argv e h h' x, spawn m argv e h = Some (h', x) → h' !! p = h !! p.

(** The clean-up after a run brings back every file the child has not touched. *)
Lemma cleaned h0 s (w : World) : tree h0 → (∀ p, hfail env "remove" p = false) →
  kept h0 s (host w) → ∀ w1 : World, (∀ p, untouched p → host w1 !! p = host w !! p) →
  wp (cleanup env m s) (λ r w', r = Ok tt ∧ ∀ p, untouched p → host w' !! p = h0 !! p) w1.
Proof.
  intros Htree Hrm Hk w1 Hw1. unfold kept in Hk. eapply wp_mono; [|apply wp_cleanup; [done|]].
  2:{ destruct (tmpDir s); apply Hk. }
  intros r w2 [-> Hw2]. split; [done|]. intros p Hp. rewrite Hw2.
  destruct (tmpDir s) as [d|].
  - destruct Hk as (_ & Hn & _ & Hout & _). destruct (under (Clean d) p) eqn:Hu.
    + symmetry. apply (Htree (Clean d)); [|done|done].
      unfold Clean. case_decide; [done|]. case_match; [done|]. by case_decide.
    + rewrite (Hw1 _ Hp). by apply Hout.
  - destruct Hk as [<- _]. by apply Hw1.
Qed.


End theorems.

(** ** A concrete run *)

Import DaemonDemo.

(** The child exits with 7 when it has been given what is expected. *)
Definition child (argv e : list string) (h : Host) : option (Host * exit) :=
  if decide (argv = ["tool"; "-v"] ∧
             e = ["PATH=/bin"; "ID=A"; "B=/dev/shm/valetfs-exec-42/0/b"] ∧
             h !! "/dev/shm/valetfs-exec-42/0/b" = Some (HFile "B"))
  then Some (h, Exited 7) else None.

Definition tmpfs : Machine :=
  MkMachine ["PATH=/bin"] "/tmp" (λ _, "42") (λ _, 0) (λ _, 1) child.
Definition cenv : Cli.Env := Cli.MkEnv (λ _ _, true) (λ _, env true) (λ _ _, false).
Definition cst : runtimeState := MkState "127.0.0.1:7000" "s3cret".
Definition shm : Host := {["/dev" := HDir; "/dev/shm" := HDir]}.
Definition x0 : World (G:=toy_git) := MkWorld d2 0 shm [] [].
Definition args : list string :=
  ["--as"; "ID"; "fs:/keys/aws/id"; "--as-file"; "B=b"; "--"; "tool"; "-v"].
(** The same with a variable no shell could address. *)
Definition bad_args : list string := ["--as-file"; "B=b"; "--as"; "ID=nowhere"; "--"; "tool"].

Definition after (args : list string) : World (G:=toy_git) :=
  from_option snd x0 (runExec hmac id cenv cst tmpfs args x0).

Lemma exec_hands_over_witness :
  runExec hmac id cenv cst tmpfs args x0 = Some (Ok 7%Z, after args) ∧
  ∃ varss (h : Host), mjoin varss = ["ID=A"; "B=/dev/shm/valetfs-exec-42/0/b"] ∧
    h !! "/dev/shm/valetfs-exec-42/0/b" = Some (HFile "B").
Proof.
  assert (runExec hmac id cenv cst tmpfs args x0 = Some (Ok 7%Z, after args)) as Hx
    by (vm_compute; reflexivity).
  split; [exact Hx|].
  assert (authed cst x0) as Ha by (split; vm_compute; done).
  destruct (exec_hands_over hmac id cenv cst tmpfs args x0 7%Z (after args) (λ _, eq_refl) Ha Hx)
    as [He|(bs & argv & keep & varss & h & h' & x & _ & _ & _ & Hs & _)].
  { vm_compute in He. discriminate He. }
  exists varss, h. unfold tmpfs, spawn, environ, child in Hs.
  destruct (decide _) as [(_ & He & Hf)|]; [|done]. split; [|exact Hf]. by injection He.
Defined.

Lemma sane_tmpfs : sane_temp tmpfs.
Proof. split_and!; [done|done|by left]. Qed.

Lemma below_dir (d p : string) : under d p = true → d ≠ p → ∃ t, p = d +:+ "/" +:+ t.
Proof.
  unfold under. rewrite orb_true_iff, bool_decide_eq_true. intros [->|Hu] Hne; [done|].
  apply HasPrefix_spec in Hu as [t ->]. exists t. by rewrite sapp_assoc.
Qed.

Lemma tree_shm : tree shm.
Proof.
  intros d p Hd Hn Hu. destruct (shm !! p) as [e|] eqn:Hp; [exfalso|done].
  assert (p = "/dev" ∨ p = "/dev/shm") as Hcase.
  { unfold shm in Hp. destruct (decide (p = "/dev")); [by left|]. right.
    destruct (decide (p = "/dev/shm")); [done|].
    by rewrite lookup_insert_ne, lookup_singleton_ne in Hp. }
  destruct (decide (d = p)) as [->|Hne]; [congruence|].
  destruct (below_dir d p Hu Hne) as [t Ht].
  destruct Hcase as [-> | ->];
    repeat match goal with
    | Hx : _ = ?d +:+ _ |- _ =>
        is_var d; destruct d as [|? d]; rewrite ?sapp_nil_l, ?sapp_cons in Hx; simplify_eq;
        try done
    end; vm_compute in Hn; discriminate Hn.
Qed.


End ExecTheorems.
