(* ===== verification/E2ee.v ===== *)
(** * internal/e2ee: the first version of the encrypted channel

    X25519, HKDF and ChaCha20-Poly1305 come from [golang.org/x/crypto]: they are
    the operations of [V1Crypto], with the laws the code relies on.  A connection
    is the state of one end; frames are texts. *)
From S2P Require Import Prelude GoStrings GoJson GoJsonPrint GoBase64.
Import GoStr GoJson JsonPrint.

Module E2ee.

(** ** Primitives *)

Class V1Crypto := {
  X25519 : string → string → option string;
  Basepoint : string;
  derive : string → string;
  Seal : string → string → string → string;
  Open : string → string → string → option string;
}.

(** What the packages document: a key agreement both ends compute alike, and
    decryption undoing encryption. *)
Class V1CryptoLaws `{V1Crypto} := {
  agreement a b A B : X25519 a Basepoint = Some A → X25519 b Basepoint = Some B →
    X25519 a B = X25519 b A;
  Open_Seal key nonce pt : Open key nonce (Seal key nonce pt) = Some pt;
}.

Definition NonceSize : nat := 12.

Section E2ee.
Context `{V1Crypto}.

Record KeyPair := MkKeyPair { Priv : string; Pub : string }.

(** [Generate], on the 32 random bytes it reads. *)
Definition Generate (priv : string) : option KeyPair :=
  MkKeyPair priv <$> X25519 priv Basepoint.

Definition PubB64 (k : KeyPair) : string := Base64.Encode (Pub k).

Definition decodePub (b64 : string) : option string :=
  raw ← Base64.Decode b64;
  if decide (String.length raw = 32) then Some raw else None.

Definition deriveKey (ownPriv peerPub : string) : option string :=
  derive <$> X25519 ownPriv peerPub.

(** A [Session] is its key; [nonce] are the random bytes [seal] reads. *)
Definition seal (key nonce pt : string) : string :=
  Base64.Encode (nonce +:+ Seal key nonce pt).

Definition open (key b64 : string) : option string :=
  raw ← Base64.Decode b64;
  if decide (String.length raw < NonceSize) then None
  else Open key (stake NonceSize raw) (sdrop NonceSize raw).

(** ** Frames *)

Record frame := MkFrame { Sys : string; Role : string; KX : string; FPub : string; Enc : string }.

Definition frame_fields : list (string * decoder frame) :=
  [("sys", field_string (λ f x, MkFrame x (Role f) (KX f) (FPub f) (Enc f)));
   ("role", field_string (λ f x, MkFrame (Sys f) x (KX f) (FPub f) (Enc f)));
   ("kx", field_string (λ f x, MkFrame (Sys f) (Role f) x (FPub f) (Enc f)));
   ("pub", field_string (λ f x, MkFrame (Sys f) (Role f) (KX f) x (Enc f)));
   ("enc", field_string (λ f x, MkFrame (Sys f) (Role f) (KX f) (FPub f) x))].

(** [None]: the frame does not decode. *)
Definition decode_frame (raw : string) : option frame :=
  match Unmarshal (struct_of frame_fields) raw (MkFrame "" "" "" "" "") with
  | (f, true) => Some f
  | _ => None
  end.

Definition hello_frame (k : KeyPair) : string :=
  print (JObj [("kx", JStr "hello"); ("pub", JStr (PubB64 k))]).

Definition enc_frame (enc : string) : string := print (JObj [("enc", JStr enc)]).

(** ** A connection

    [delivered] are the frames handed to the application, [sent] those given to
    the transport. *)
Record Conn := MkConn {
  kp : KeyPair;
  isController : bool;
  sess : option string;
  rekeys : nat;
  delivered : list string;
  sent : list string;
}.

Definition deliver (b : string) (c : Conn) : Conn :=
  MkConn (kp c) (isController c) (sess c) (rekeys c) (delivered c ++ [b]) (sent c).

Definition transmit (b : string) (c : Conn) : Conn :=
  MkConn (kp c) (isController c) (sess c) (rekeys c) (delivered c) (sent c ++ [b]).

Definition WrapController (k : KeyPair) (daemonPubB64 : string) : option Conn :=
  peer ← decodePub daemonPubB64;
  key ← deriveKey (Priv k) peer;
  Some (MkConn k true (Some key) 0 [] []).

Definition WrapDaemon (k : KeyPair) : Conn := MkConn k false None 0 [] [].

(** A [kx:hello] on the daemon side: a new session replaces the old one. *)
Definition hello (f : frame) (c : Conn) : Conn :=
  if isController c then c
  else match peer ← decodePub (FPub f); deriveKey (Priv (kp c)) peer with
  | Some key =>
      MkConn (kp c) (isController c) (Some key)
             (match sess c with Some _ => S (rekeys c) | None => rekeys c end)
             (delivered c) (sent c)
  | None => c
  end.

Definition handle (b : string) (c : Conn) : Conn :=
  match decode_frame b with
  | None => c
  | Some f =>
      if decide (Sys f ≠ "") then deliver b c
      else if decide (KX f = "hello") then hello f c
      else if decide (Enc f ≠ "") then
        match sess c with
        | None => c
        | Some key =>
            match open key (Enc f) with
            | Some pt => deliver pt c
            | None => c
            end
        end
      else c
  end.

(** The handshake part of [Start]. *)
Definition Start (c : Conn) : Conn :=
  if isController c then transmit (hello_frame (kp c)) c else c.

Definition Send (nonce b : string) (c : Conn) : result string Conn :=
  match sess c with
  | None => Err "e2ee: session not established"
  | Some key => Ok (transmit (enc_frame (seal key nonce b)) c)
  end.

Definition Rekeys (c : Conn) : nat := rekeys c.

End E2ee.

End E2ee.
