(* ===== verification/Session.v ===== *)
(** * internal/session: the second version of the encrypted channel

    The Noise implementation is [github.com/flynn/noise]: its handshake and cipher
    states are the operations of [Noise].  A [Conn] is the state of one end; the
    code mutates it under its mutex, one inbound frame at a time. *)
From S2P Require Import Prelude GoStrings GoJson GoJsonPrint GoBase64.
Import GoStr GoJson JsonPrint.

Module Session.

(** ** The Noise library *)

Record DHKey := MkDHKey { Private : string; Public : string }.

(** A handshake or cipher state is consumed and replaced; reading or writing the
    last handshake message also gives the two cipher states (initiator to
    responder first). *)
Class Noise := {
  HandshakeState : Type;
  CipherState : Type;
  NewHandshakeState (initiator : bool) (prologue : string) (static : DHKey)
    (peer rand : string) : option HandshakeState;
  ReadMessage : HandshakeState → string →
    option (HandshakeState * option (CipherState * CipherState));
  WriteMessage : HandshakeState →
    option (string * HandshakeState * option (CipherState * CipherState));
  hsPeerStatic : HandshakeState → string;
  Encrypt : CipherState → string → string → option (string * CipherState);
  Decrypt : CipherState → string → string → option string * CipherState;
}.

(** What the library documents of the IK pattern: two ends that share the
    prologue, where the initiator knows the responder's key, complete, identify
    each other and hold the same cipher states; decryption undoes encryption and
    both move on together, and a failure leaves the state as it was. *)
Class NoiseLaws `{Noise} := {
  IK_runs prologue (vault daemon : DHKey) rv rd i r :
    NewHandshakeState true prologue vault (Public daemon) rv = Some i →
    NewHandshakeState false prologue daemon "" rd = Some r →
    ∃ m1 i' r' m2 r'' i'' c1 c2,
      WriteMessage i = Some (m1, i', None) ∧
      ReadMessage r m1 = Some (r', None) ∧ hsPeerStatic r' = Public vault ∧
      WriteMessage r' = Some (m2, r'', Some (c1, c2)) ∧
      ReadMessage i' m2 = Some (i'', Some (c1, c2));
  Decrypt_Encrypt c ad pt ct c' :
    Encrypt c ad pt = Some (ct, c') → ct ≠ "" ∧ Decrypt c ad ct = (Some pt, c');
  Decrypt_fails c ad ct c' : Decrypt c ad ct = (None, c') → c' = c;
}.

Definition Protocol : string := "Noise_IK_25519_ChaChaPoly_SHA256".

Definition nul : string := String "000" "".

Definition prologue (sid : string) : string := Protocol +:+ nul +:+ sid.

(** The additional data of a transport frame: session and direction. *)
Definition ad (sid : string) (fromInitiator : bool) : string :=
  sid +:+ nul +:+ (if fromInitiator then "v" else "d").

Inductive error := ErrUnauthorised | ErrNotEstablished | ErrHandshake | ErrClosed.

#[export] Instance error_eq_dec : EqDecision error.
Proof. solve_decision. Defined.

(** ** Frames *)

Record frame := MkFrame { Sys : string; NX : string; N : string; M : string }.

Definition frame_fields : list (string * decoder frame) :=
  [("sys", field_string (λ f x, MkFrame x (NX f) (N f) (M f)));
   ("nx", field_string (λ f x, MkFrame (Sys f) x (N f) (M f)));
   ("n", field_string (λ f x, MkFrame (Sys f) (NX f) x (M f)));
   ("m", field_string (λ f x, MkFrame (Sys f) (NX f) (N f) x))].

Definition decode_frame (raw : string) : option frame :=
  match Unmarshal (struct_of frame_fields) raw (MkFrame "" "" "" "") with
  | (f, true) => Some f
  | _ => None
  end.

Definition nx_frame (n msg : string) : string :=
  print (JObj [("nx", JStr n); ("m", JStr (Base64.Encode msg))]).

Definition n_frame (ct : string) : string :=
  print (JObj [("n", JStr (Base64.Encode ct))]).

(** ** Keys as text *)

Definition PubB64 (pub : string) : string := Base64.Encode pub.

Definition ParsePub (s : string) : option string :=
  b ← Base64.Decode s;
  if decide (String.length b = 32) then Some b else None.

Definition subtleEqual (a b : string) : bool := bool_decide (a = b).

Section Session.
Context `{Noise}.

(** ** One end of a session *)

(** [pins] are the keys given to [OnPin], [delivered] the frames handed to the
    application, [sent] those given to the transport; [ready] says that the
    channel of that name is closed. *)
Record Conn := MkConn {
  initiator : bool;
  sid : string;
  static : DHKey;
  authorised : list string;
  hs : option HandshakeState;
  send : option CipherState;
  recv : option CipherState;
  peerPub : string;
  failErr : option error;
  ready : bool;
  closed : bool;
  pins : list string;
  delivered : list string;
  sent : list string;
}.

(** *** Field updates *)

Definition set_hs (h : option HandshakeState) (c : Conn) : Conn :=
  MkConn (initiator c) (sid c) (static c) (authorised c) h (send c) (recv c) (peerPub c)
    (failErr c) (ready c) (closed c) (pins c) (delivered c) (sent c).
Definition set_ciphers (s r : option CipherState) (c : Conn) : Conn :=
  MkConn (initiator c) (sid c) (static c) (authorised c) (hs c) s r (peerPub c)
    (failErr c) (ready c) (closed c) (pins c) (delivered c) (sent c).
Definition set_peer (p : string) (c : Conn) : Conn :=
  MkConn (initiator c) (sid c) (static c) (authorised c) (hs c) (send c) (recv c) p
    (failErr c) (ready c) (closed c) (pins c) (delivered c) (sent c).
Definition set_fail (e : error) (c : Conn) : Conn :=
  MkConn (initiator c) (sid c) (static c) (authorised c) (hs c) (send c) (recv c) (peerPub c)
    (Some e) (ready c) (closed c) (pins c) (delivered c) (sent c).
Definition close (c : Conn) : Conn :=
  MkConn (initiator c) (sid c) (static c) (authorised c) (hs c) (send c) (recv c) (peerPub c)
    (failErr c) (ready c) true (pins c) (delivered c) (sent c).
Definition markReady (c : Conn) : Conn :=
  MkConn (initiator c) (sid c) (static c) (authorised c) (hs c) (send c) (recv c) (peerPub c)
    (failErr c) true (closed c) (pins c) (delivered c) (sent c).
Definition pin (p : string) (c : Conn) : Conn :=
  MkConn (initiator c) (sid c) (static c) (authorised c) (hs c) (send c) (recv c) (peerPub c)
    (failErr c) (ready c) (closed c) (pins c ++ [p]) (delivered c) (sent c).
Definition deliver (b : string) (c : Conn) : Conn :=
  MkConn (initiator c) (sid c) (static c) (authorised c) (hs c) (send c) (recv c) (peerPub c)
    (failErr c) (ready c) (closed c) (pins c) (delivered c ++ [b]) (sent c).
Definition transmit (b : string) (c : Conn) : Conn :=
  MkConn (initiator c) (sid c) (static c) (authorised c) (hs c) (send c) (recv c) (peerPub c)
    (failErr c) (ready c) (closed c) (pins c) (delivered c) (sent c ++ [b]).

Definition NewVault (id : string) (st : DHKey) (peer rand : string) : option Conn :=
  if decide (peer = "") then None
  else
    h ← NewHandshakeState true (prologue id) st peer rand;
    Some (MkConn true id st [] (Some h) None None peer None false false [] [] []).

Definition NewDaemon (id : string) (st : DHKey) (auth : list string) (rand : string)
  : option Conn :=
  h ← NewHandshakeState false (prologue id) st "" rand;
  Some (MkConn false id st auth (Some h) None None "" None false false [] [] []).

Definition Established (c : Conn) : bool := bool_decide (is_Some (send c)).

(** Whether the key is accepted; with no list every key is, and is reported. *)
Definition authorise (pub : string) (c : Conn) : result error unit * Conn :=
  if decide (authorised c = []) then (Ok tt, pin pub c)
  else if existsb (λ a, subtleEqual a pub) (authorised c) then (Ok tt, c)
  else (Err ErrUnauthorised, c).

(** [rand] is what a fresh handshake state would draw. *)
Definition readHandshake1 (rand : string) (f : frame) (c : Conn) : Conn :=
  if initiator c then c
  else match Base64.Decode (M f) with
  | None => c
  | Some msg =>
      let start :=
        match hs c with
        | Some h => Some (h, c)
        | None =>
            h ← NewHandshakeState false (prologue (sid c)) (static c) "" rand;
            Some (h, set_ciphers None None (set_hs (Some h) c))
        end in
      match start with
      | None => c
      | Some (h, c) =>
          match ReadMessage h msg with
          | None => set_hs None c
          | Some (h, _) =>
              let c := set_hs (Some h) c in
              let peer := hsPeerStatic h in
              match authorise peer c with
              | (Err e, c) => close (set_fail e c)
              | (Ok _, c) =>
                  match WriteMessage h with
                  | None => set_fail ErrHandshake c
                  | Some (out, _, cs) =>
                      let '(c1, c2) := match cs with
                                       | Some (a, b) => (Some a, Some b)
                                       | None => (None, None)
                                       end in
                      markReady (set_hs None (transmit (nx_frame "2" out)
                        (set_peer peer (set_ciphers c2 c1 c))))
                  end
              end
          end
      end
  end.

Definition readHandshake2 (f : frame) (c : Conn) : Conn :=
  if negb (initiator c) then c
  else match Base64.Decode (M f) with
  | None => c
  | Some msg =>
      match hs c, send c with
      | Some h, None =>
          match ReadMessage h msg with
          | None => set_fail ErrHandshake c
          | Some (_, cs) =>
              let '(c1, c2) := match cs with
                               | Some (a, b) => (Some a, Some b)
                               | None => (None, None)
                               end in
              markReady (set_hs None (set_ciphers c1 c2 c))
          end
      | _, _ => c
      end
  end.

Definition readTransport (f : frame) (c : Conn) : Conn :=
  match Base64.Decode (N f) with
  | None => c
  | Some raw =>
      match recv c with
      | None => c
      | Some cs =>
          match Decrypt cs (ad (sid c) (negb (initiator c))) raw with
          | (Some pt, cs) => deliver pt (set_ciphers (send c) (Some cs) c)
          | (None, cs) => set_ciphers (send c) (Some cs) c
          end
      end
  end.

Definition handle (rand b : string) (c : Conn) : Conn :=
  match decode_frame b with
  | None => c
  | Some f =>
      if decide (Sys f ≠ "") then deliver b c
      else if decide (NX f = "1") then readHandshake1 rand f c
      else if decide (NX f = "2") then readHandshake2 f c
      else if decide (N f ≠ "") then readTransport f c
      else c
  end.

Definition Send (b : string) (c : Conn) : result error Conn :=
  match send c with
  | None => Err ErrNotEstablished
  | Some cs =>
      match Encrypt cs (ad (sid c) (initiator c)) b with
      | None => Err ErrHandshake
      | Some (ct, cs) => Ok (transmit (n_frame ct) (set_ciphers (Some cs) (recv c) c))
      end
  end.

(** [Start] up to the wait: the vault writes the first message. *)
Definition Start (c : Conn) : result error Conn :=
  if initiator c then
    match hs c with
    | None => Err ErrHandshake
    | Some h =>
        match WriteMessage h with
        | None => Err ErrHandshake
        | Some (out, h, _) => Ok (transmit (nx_frame "1" out) (set_hs (Some h) c))
        end
    end
  else Ok c.

(** [abandon]: the first reason is kept. *)
Definition abandon (e : error) (c : Conn) : Conn :=
  markReady (match failErr c with None => set_fail e c | Some _ => c end).

(** What [Start] returns on the vault side once [ready] is closed. *)
Definition Start_result (c : Conn) : result error unit :=
  match failErr c with
  | Some e => Err e
  | None => if Established c then Ok tt else Err ErrClosed
  end.

End Session.

End Session.
