(* ===== verification/Dual.v ===== *)
(** * internal/session/dual.go: one connection, two protocol versions

    The first frame that opens a handshake chooses the layer; from then on every
    frame goes to that layer. *)
From S2P Require Import Prelude GoStrings GoJson GoJsonPrint GoBase64 E2ee Session.
Import GoStr GoJson JsonPrint.

Module Dual.

Record probe := MkProbe { Sys : string; KX : string; NX : string }.

Definition probe_fields : list (string * decoder probe) :=
  [("sys", field_string (λ p x, MkProbe x (KX p) (NX p)));
   ("kx", field_string (λ p x, MkProbe (Sys p) x (NX p)));
   ("nx", field_string (λ p x, MkProbe (Sys p) (KX p) x))].

Definition decode_probe (raw : string) : option probe :=
  match Unmarshal (struct_of probe_fields) raw (MkProbe "" "" "") with
  | (p, true) => Some p
  | _ => None
  end.

Section Dual.
Context `{E2ee.V1Crypto, Session.Noise}.

Inductive layer := LV1 (c : E2ee.Conn) | LV2 (c : Session.Conn).

(** [early] are the frames delivered before a version was chosen. *)
Record Dual := MkDual {
  v1cfg : E2ee.KeyPair;
  v2sid : string;
  v2static : Session.DHKey;
  v2auth : list string;
  chosen : option layer;
  early : list string;
}.

Definition NewDual (k : E2ee.KeyPair) (sid : string) (st : Session.DHKey)
    (auth : list string) : Dual := MkDual k sid st auth None [].

Definition set_chosen (l : option layer) (d : Dual) : Dual :=
  MkDual (v1cfg d) (v2sid d) (v2static d) (v2auth d) l (early d).

Definition Version (d : Dual) : Z :=
  match chosen d with None => 0 | Some (LV1 _) => 1 | Some (LV2 _) => 2 end.

(** Everything handed to the application, everything sent, every key pinned. *)
Definition delivered (d : Dual) : list string :=
  early d ++ match chosen d with
             | None => []
             | Some (LV1 c) => E2ee.delivered c
             | Some (LV2 c) => Session.delivered c
             end.

Definition sent (d : Dual) : list string :=
  match chosen d with
  | None => []
  | Some (LV1 c) => E2ee.sent c
  | Some (LV2 c) => Session.sent c
  end.

Definition pins (d : Dual) : list string :=
  match chosen d with Some (LV2 c) => Session.pins c | _ => [] end.

Definition choose (rand : string) (version : Z) (d : Dual) : Dual :=
  match chosen d with
  | Some _ => d
  | None =>
      if decide (version = 2%Z) then
        match Session.NewDaemon (v2sid d) (v2static d) (v2auth d) rand with
        | None => d
        | Some c => set_chosen (Some (LV2 c)) d
        end
      else if decide (version = 1%Z) then
        set_chosen (Some (LV1 (E2ee.WrapDaemon (v1cfg d)))) d
      else d
  end.

(** The shim hands the frame to whatever layer listens. *)
Definition feed (rand b : string) (d : Dual) : Dual :=
  match chosen d with
  | None => d
  | Some (LV1 c) => set_chosen (Some (LV1 (E2ee.handle b c))) d
  | Some (LV2 c) => set_chosen (Some (LV2 (Session.handle rand b c))) d
  end.

Definition deliver (b : string) (d : Dual) : Dual :=
  MkDual (v1cfg d) (v2sid d) (v2static d) (v2auth d) (chosen d) (early d ++ [b]).

Definition handle (rand b : string) (d : Dual) : Dual :=
  match decode_probe b with
  | None => d
  | Some p =>
      match chosen d with
      | Some _ => feed rand b d
      | None =>
          if decide (NX p = "1") then feed rand b (choose rand 2 d)
          else if decide (KX p = "hello") then feed rand b (choose rand 1 d)
          else if decide (Sys p ≠ "") then deliver b d
          else d
      end
  end.

(** [nonce] is what the v1 layer would draw. *)
Definition Send (nonce b : string) (d : Dual) : option Dual :=
  match chosen d with
  | None => None
  | Some (LV1 c) =>
      match E2ee.Send nonce b c with
      | Ok c => Some (set_chosen (Some (LV1 c)) d)
      | Err _ => None
      end
  | Some (LV2 c) =>
      match Session.Send b c with
      | Ok c => Some (set_chosen (Some (LV2 c)) d)
      | Err _ => None
      end
  end.

End Dual.

End Dual.
