(* ===== verification/Authorized.v ===== *)
(** * internal/session/authorized.go: the list of vault identities

    The list in memory and the text of the file it is kept in; a missing file is
    [None].  Labels follow the key on its line. *)
From S2P Require Import Prelude GoStrings GoJson GoBase64 GoTime Session.
Import GoStr GoJson.

Module Authorized.

Record authEntry := MkEntry { pub : string; label : string }.

Inductive error := ErrKey (line : nat) | ErrTooLong | ErrIO.

Definition newline : ascii := "010".

Fixpoint take_while {A} (f : A → bool) (l : list A) : list A :=
  match l with
  | [] => []
  | x :: l => if f x then x :: take_while f l else []
  end.

(** [bufio.Scanner]: lines without their end-of-line, a final carriage return
    dropped, no empty last line; a line that fills its 64 KB buffer is an error. *)
Definition drop_cr (l : string) : string :=
  TrimSuffix l (String "013" "").

Definition fits_buffer (l : string) : bool := (Z.of_nat (String.length l) <? 65536)%Z.

(** The lines scanned, and whether the scan ended without an error. *)
Definition scan_lines (s : string) : list string * bool :=
  let ls := Split s newline in
  let ls := match last ls with Some "" => List.removelast ls | _ => ls end in
  (drop_cr <$> take_while fits_buffer ls, forallb fits_buffer ls).

(** The loop of [OpenAuthorizedVaults]; [n] is the number of lines before. *)
Fixpoint read_entries (n : nat) (ls : list string) : result error (list authEntry) :=
  match ls with
  | [] => Ok []
  | l :: ls =>
      let text := TrimSpace l in
      if bool_decide (text = "") || HasPrefix text "#" then read_entries (S n) ls
      else match Fields text with
      | [] => read_entries (S n) ls
      | f :: rest =>
          match Session.ParsePub f with
          | None => Err (ErrKey (S n))
          | Some p =>
              let? es := read_entries (S n) ls in
              Ok (MkEntry p (Join rest " ") :: es)
          end
      end
  end.

Definition OpenAuthorizedVaults (file : option string) : result error (list authEntry) :=
  match file with
  | None => Ok []
  | Some text =>
      let (ls, ok) := scan_lines text in
      let? es := read_entries 0 ls in
      if ok then Ok es else Err ErrTooLong
  end.

Definition Keys (es : list authEntry) : list string := pub <$> es.

Definition Has (p : string) (es : list authEntry) : bool :=
  existsb (λ e, Session.subtleEqual (pub e) p) es.

Definition header : list string :=
  ["# ValetFS authorized vault identities.";
   "# One base64 X25519 public key per line, optionally followed by a label.";
   "# These are public keys, not secrets. Removing a line un-pins that vault.";
   "# An EMPTY list means trust-on-first-use: the next vault to connect is pinned."].

(** Lines, each with its newline. *)
Definition lines_text (ls : list string) : string :=
  fold_right (λ l t, l +:+ String newline t) "" ls.

Definition entry_line (e : authEntry) : string :=
  Base64.Encode (pub e) +:+ (if decide (label e = "") then "" else " " +:+ label e).

(** What [save] writes; the rename makes the new text replace the old at once. *)
Definition save_text (es : list authEntry) : string :=
  lines_text (header ++ (entry_line <$> es)).

(** The file after [save]: replaced, or as it was when some step failed. *)
Definition save (io_ok : bool) (es : list authEntry) (file : option string)
  : result error unit * option string :=
  if io_ok then (Ok tt, Some (save_text es)) else (Err ErrIO, file).

Definition Add (io_ok : bool) (p l : string) (es : list authEntry) (file : option string)
  : result error unit * list authEntry * option string :=
  if decide (String.length p = 32) then
    if Has p es then (Ok tt, es, file)
    else
      let es := es ++ [MkEntry p l] in
      let (r, file) := save io_ok es file in (r, es, file)
  else (Err (ErrKey 0), es, file).

Definition Remove (io_ok : bool) (p : string) (es : list authEntry) (file : option string)
  : bool * result error unit * list authEntry * option string :=
  let kept := List.filter (λ e, negb (Session.subtleEqual (pub e) p)) es in
  if Has p es then let (r, file) := save io_ok kept file in (true, r, kept, file)
  else (false, Ok tt, kept, file).

Definition List (es : list authEntry) : list string := sort_strings (entry_line <$> es).

Definition DefaultLabel (now : Z) : string :=
  let '(y, m, d) := GoTime.civil (now / GoTime.Second / 86400) in
  "pinned-" +:+ GoTime.padded 4 y +:+ "-" +:+ GoTime.padded 2 m +:+ "-" +:+ GoTime.padded 2 d.

(** [LoadOrGenerateStatic]: the key stored in the file, or a fresh one written
    there; an empty path keeps the key in memory only. *)
Definition LoadOrGenerateStatic `{Session.Noise} (dh_base : string → option string)
    (fresh : Session.DHKey) (path : string) (file : option string) (io_ok : bool)
  : result error (Session.DHKey * bool) * option string :=
  if decide (path = "") then (Ok (fresh, false), file)
  else match file with
  | Some b =>
      if decide (String.length b = 32) then
        match dh_base b with
        | Some p => (Ok (Session.MkDHKey b p, true), file)
        | None => (Err ErrIO, file)
        end
      else (Err ErrIO, file)
  | None =>
      if io_ok then (Ok (fresh, false), Some (Session.Private fresh)) else (Err ErrIO, None)
  end.

End Authorized.
