(* ===== verification/SessionTheorems.v ===== *)
(** * What the second channel version guarantees, and what it does not *)
From S2P Require Import Prelude GoStrings GoJson GoUtf8 GoFloat GoJsonPrint GoBase64 Session.
Import GoStr GoJson UTF8 GoFloat JsonPrint Session.

Module SessionFacts.

(** ** Frames the code builds *)

Lemma enc6_ascii v : (0 ≤ v < 64)%Z → (bval (Base64.enc6 v) <? 128)%Z = true.
Proof. revert v. apply Base64.six_bits with (H := _). by vm_compute. Qed.

Lemma ascii_str_enc6 v s : (0 ≤ v < 64)%Z →
  ascii_str (String (Base64.enc6 v) s) = ascii_str s.
Proof. intros Hv. cbn [ascii_str]. by rewrite enc6_ascii. Qed.

Lemma ascii_Encode s : ascii_str (Base64.Encode s) = true.
Proof.
  induction s as [|a|a b|a b c r IH] using Base64.string_ind3; [done|..];
    cbn [Base64.Encode];
    pose proof (bval_range a); try pose proof (bval_range b); try pose proof (bval_range c);
    repeat (rewrite ascii_str_enc6; [|by Base64.bits]); done.
Qed.

Lemma utf8_Encode s : utf8_str (Base64.Encode s) = true.
Proof. apply ascii_utf8, ascii_Encode. Qed.

(** A flat object of strings is read back as it was printed. *)
Lemma parse_strings l :
  Forall (λ kv, utf8_str kv.1 = true ∧ utf8_str kv.2 = true) l →
  parse (print (JObj (prod_map id JStr <$> l))) = Some (JObj (prod_map id JStr <$> l)).
Proof.
  intros Hl. apply (parse_print_value (0 + 1)); [|done]. constructor.
  apply Forall_fmap. eapply Forall_impl; [exact Hl|]. intros [k v] [Hk Hv].
  split; [done|]. by constructor.
Qed.

Lemma decode_nx n msg : utf8_str n = true →
  decode_frame (nx_frame n msg) = Some (MkFrame "" n "" (Base64.Encode msg)).
Proof.
  intros Hn. unfold decode_frame, Unmarshal, nx_frame.
  assert (parse (print (JObj [("nx", JStr n); ("m", JStr (Base64.Encode msg))])) =
    Some (JObj [("nx", JStr n); ("m", JStr (Base64.Encode msg))])) as ->; [|done].
  apply (parse_strings [("nx", n); ("m", Base64.Encode msg)]).
  repeat constructor; [done|apply utf8_Encode].
Qed.

Lemma decode_n ct : decode_frame (n_frame ct) = Some (MkFrame "" "" (Base64.Encode ct) "").
Proof.
  unfold decode_frame, Unmarshal, n_frame.
  assert (parse (print (JObj [("n", JStr (Base64.Encode ct))])) =
    Some (JObj [("n", JStr (Base64.Encode ct))])) as ->; [|done].
  apply (parse_strings [("n", Base64.Encode ct)]). repeat constructor. apply utf8_Encode.
Qed.

Lemma Encode_nonempty s : s ≠ "" → Base64.Encode s ≠ "".
Proof. by destruct s as [|a [|b [|c r]]]. Qed.

Lemma ParsePub_PubB64 p : String.length p = 32 → ParsePub (PubB64 p) = Some p.
Proof.
  intros Hp. unfold ParsePub, PubB64. rewrite Base64.Decode_Encode. simpl.
  by rewrite decide_True.
Qed.

Section facts.
Context `{Noise}.

(** ** Daemon side *)

(** The key may hold a session with this daemon. *)
Definition accepted (c : Conn) (p : string) : Prop := authorised c = [] ∨ p ∈ authorised c.

Lemma authorise_ok p c c' : authorise p c = (Ok tt, c') →
  accepted c p ∧ c' = (if decide (authorised c = []) then pin p c else c).
Proof.
  unfold authorise, accepted. case_decide as Ha; [intros; simplify_eq; auto|].
  destruct (existsb _ _) eqn:He; [|done]. intros; simplify_eq. split; [|done]. right.
  apply existsb_exists in He as (a & Hin & He). unfold subtleEqual in He.
  apply bool_decide_eq_true in He. subst. by apply list_elem_of_In.
Qed.

Lemma authorise_err p c e c' : authorise p c = (Err e, c') →
  ¬ accepted c p ∧ e = ErrUnauthorised ∧ c' = c.
Proof.
  unfold authorise, accepted. case_decide as Ha; [done|].
  destruct (existsb _ _) eqn:He; [done|]. intros; simplify_eq. split_and!; [|done|done].
  intros [?|Hin]; [done|]. apply not_true_iff_false in He. apply He, existsb_exists.
  exists p. split; [by apply list_elem_of_In|]. by apply bool_decide_eq_true.
Qed.

(** What stays, and what holds of the session's keys. *)
Record daemon_inv (auth : list string) (c : Conn) : Prop := {
  di_role : initiator c = false;
  di_auth : authorised c = auth;
  di_keys : is_Some (send c) ∨ is_Some (recv c) → accepted c (peerPub c);
}.

(** One frame delivers at most one thing: a presence frame as it came, or what the
    cipher of an accepted peer decrypted. *)
Definition delivery (c : Conn) (b : string) (ds : list string) : Prop :=
  ds = [] ∨
  (ds = [b] ∧ ∃ f, decode_frame b = Some f ∧ Sys f ≠ "") ∨
  (∃ f raw cs cs' pt, ds = [pt] ∧ decode_frame b = Some f ∧
     Base64.Decode (N f) = Some raw ∧ recv c = Some cs ∧
     Decrypt cs (ad (sid c) (negb (initiator c))) raw = (Some pt, cs') ∧
     (initiator c = false → accepted c (peerPub c))).

Ltac no_delivery := exists []; rewrite (right_id_L [] (++)); by split; [|left].

Lemma readHandshake1_inv auth rand f c : daemon_inv auth c →
  daemon_inv auth (readHandshake1 rand f c) ∧
  delivered (readHandshake1 rand f c) = delivered c ∧
  sid (readHandshake1 rand f c) = sid c.
Proof.
  intros [Hr Ha Hk]. unfold readHandshake1. rewrite Hr.
  destruct (Base64.Decode (M f)) as [msg|]; [|by split].
  set (start := match hs c with Some h => _ | None => _ end).
  assert (∀ h c', start = Some (h, c') → daemon_inv auth c' ∧ delivered c' = delivered c ∧
    sid c' = sid c) as Hst.
  { intros h c' Hs. subst start. destruct (hs c); simplify_eq/=; [by split|].
    destruct (NewHandshakeState _ _ _ _); simplify_eq/=. split; [|done].
    split; [done|done|]. simpl. intros [[? ?]|[? ?]]; done. }
  clearbody start. destruct start as [[h c']|]; [|by split].
  destruct (Hst _ _ eq_refl) as ([Hr' Ha' Hk'] & Hd' & Hs').
  destruct (ReadMessage h msg) as [[h' o]|]; [|by split].
  destruct (authorise (hsPeerStatic h') (set_hs (Some h') c')) as [[u|e] c2] eqn:Hau.
  - destruct u. apply authorise_ok in Hau as [Hacc ->].
    destruct (WriteMessage h') as [[[out ?] cs]|].
    + destruct cs as [[a b]|]; case_decide; (split; [|done]); (split; [done|done|]);
        intros _; exact Hacc.
    + case_decide; (split; [|done]); split; done.
  - apply authorise_err in Hau as (_ & _ & ->). split; [|done]. by split.
Qed.

Lemma handle_inv auth rand b c : daemon_inv auth c →
  daemon_inv auth (handle rand b c) ∧
  sid (handle rand b c) = sid c ∧
  ∃ ds, delivered (handle rand b c) = delivered c ++ ds ∧ delivery c b ds.
Proof.
  intros Hi. pose proof Hi as [Hr Ha Hk]. unfold handle, delivery.
  destruct (decode_frame b) as [f|] eqn:Hf;
    [|split_and!; [done|done|]; no_delivery].
  case_decide; [split_and!; [by split|done|]; exists [b]; split; [done|right; left; eauto]|].
  case_decide.
  { destruct (readHandshake1_inv auth rand f c Hi) as (Hi1 & Hi2 & Hi3).
    split_and!; [done|done|]. no_delivery. }
  case_decide.
  { unfold readHandshake2. rewrite Hr. simpl. split_and!; [done|done|]. no_delivery. }
  case_decide;
    [|split_and!; [done|done|]; no_delivery].
  unfold readTransport. destruct (Base64.Decode (N f)) as [raw|] eqn:Hraw;
    [|split_and!; [done|done|]; no_delivery].
  destruct (recv c) as [cs|] eqn:Hcs;
    [|split_and!; [done|done|]; no_delivery].
  destruct (Decrypt cs _ raw) as [[pt|] cs'] eqn:Hdec; simpl.
  - split_and!; [split; [done|done|]|done|].
    + intros _. apply Hk. right. by eexists.
    + exists [pt]. split; [done|]. right. right. exists f, raw, cs, cs', pt.
      split_and!; try done. intros _. apply Hk. right. by eexists.
  - split_and!; [split; [done|done|]|done|].
    + intros _. apply Hk. right. by eexists.
    + no_delivery.
Qed.

Lemma NewDaemon_inv id st auth rand c :
  NewDaemon id st auth rand = Some c → daemon_inv auth c.
Proof.
  unfold NewDaemon. intros (h & _ & Hc)%bind_Some. simplify_eq/=.
  split; [done|done|]. simpl. intros [[? ?]|[? ?]]; done.
Qed.

Lemma Send_inv auth m c c' : daemon_inv auth c → Send m c = Ok c' → daemon_inv auth c'.
Proof.
  intros [Hr Ha Hk] Hs. unfold Send in Hs. destruct (send c) as [cs|] eqn:Hc; [|done].
  destruct (Encrypt _ _ _) as [[ct cs']|]; [|done]. simplify_eq. split; [done|done|].
  intros _. apply Hk. left. by eexists.
Qed.

(** On either side, frames only add to what was delivered. *)
Lemma handle_prefix rand b c : delivered c `prefix_of` delivered (handle rand b c).
Proof.
  unfold handle. destruct (decode_frame b) as [f|]; [|done].
  case_decide; [by eexists|]. case_decide; [|case_decide; [|case_decide; [|done]]].
  - unfold readHandshake1. destruct (initiator c); [done|].
    destruct (Base64.Decode (M f)) as [msg|]; [|done].
    set (start := match hs c with Some h => _ | None => _ end).
    assert (∀ h c', start = Some (h, c') → delivered c' = delivered c) as Hst.
    { intros h c' Hs. subst start. destruct (hs c); simplify_eq/=; [done|].
      by destruct (NewHandshakeState _ _ _ _); simplify_eq/=. }
    clearbody start. destruct start as [[h c']|]; [|done]. rewrite <- (Hst _ _ eq_refl).
    destruct (ReadMessage h msg) as [[h' o]|]; [|done].
    destruct (authorise (hsPeerStatic h') (set_hs (Some h') c')) as [[u|e] c2] eqn:Hau.
    + destruct u. apply authorise_ok in Hau as [_ ->].
      destruct (WriteMessage h') as [[[out ?] [[]|]]|]; by case_decide.
    + by apply authorise_err in Hau as (_ & _ & ->).
  - unfold readHandshake2. destruct (negb _); [done|].
    destruct (Base64.Decode (M f)) as [msg|]; [|done].
    destruct (hs c) as [h|]; [|done]. destruct (send c); [done|].
    by destruct (ReadMessage h msg) as [[? [[]|]]|].
  - unfold readTransport. destruct (Base64.Decode (N f)) as [raw|]; [|done].
    destruct (recv c) as [cs|]; [|done].
    destruct (Decrypt cs _ raw) as [[pt|] cs']; [by eexists|done].
Qed.

(** What a daemon's connection can become: frames arrive, frames are sent. *)
Inductive dreach (auth : list string) : Conn → Prop :=
  | dreach_new id st rand c : NewDaemon id st auth rand = Some c → dreach auth c
  | dreach_handle rand b c : dreach auth c → dreach auth (handle rand b c)
  | dreach_send m c c' : dreach auth c → Send m c = Ok c' → dreach auth c'.

Lemma dreach_inv auth c : dreach auth c → daemon_inv auth c.
Proof.
  induction 1 as [id st rand c Hc|rand b c Hc IH|m c c' Hc IH Hs].
  - by eapply NewDaemon_inv.
  - by apply (handle_inv auth rand b c).
  - by eapply Send_inv.
Qed.

(** ** Two ends *)

(** [a] writes what [b] reads. *)
Definition paired (a b : Conn) : Prop :=
  is_Some (send a) ∧ send a = recv b ∧ sid a = sid b ∧ initiator a = negb (initiator b).

Fixpoint send_all (ms : list string) (c : Conn) : option Conn :=
  match ms with
  | [] => Some c
  | m :: ms => match Send m c with Ok c => send_all ms c | Err _ => None end
  end.

Definition handle_all (rand : string) (bs : list string) (c : Conn) : Conn :=
  fold_left (λ c b, handle rand b c) bs c.

Lemma send_one `{!NoiseLaws} rand m a a' b : paired a b → Send m a = Ok a' →
  ∃ fr, sent a' = sent a ++ [fr] ∧
    paired a' (handle rand fr b) ∧ delivered (handle rand fr b) = delivered b ++ [m] ∧
    send (handle rand fr b) = send b ∧ recv a' = recv a ∧
    sid a' = sid a ∧ initiator a' = initiator a ∧ delivered a' = delivered a ∧
    sent (handle rand fr b) = sent b.
Proof.
  intros ([cs Hs] & Hsr & Hsid & Hrole) Hsend. unfold Send in Hsend. rewrite Hs in *.
  destruct (Encrypt cs _ m) as [[ct cs']|] eqn:He; [|done]. simplify_eq/=.
  destruct (Decrypt_Encrypt _ _ _ _ _ He) as [Hct Hd].
  eexists. split; [done|]. unfold handle. rewrite decode_n. cbn [Sys NX N M].
  rewrite decide_False by (by intros []). rewrite decide_False, decide_False by done.
  rewrite decide_True by (by apply Encode_nonempty).
  unfold readTransport. simpl. rewrite Base64.Decode_Encode, <- Hsr, <- Hsid.
  rewrite <- Hrole, Hd. simpl. split_and!; done.
Qed.

Lemma send_all_delivers `{!NoiseLaws} rand ms a a' b : paired a b → send_all ms a = Some a' →
  ∃ frs, sent a' = sent a ++ frs ∧
    paired a' (handle_all rand frs b) ∧
    delivered (handle_all rand frs b) = delivered b ++ ms ∧
    send (handle_all rand frs b) = send b ∧ recv a' = recv a ∧
    sent (handle_all rand frs b) = sent b ∧ delivered a' = delivered a.
Proof.
  revert a b. induction ms as [|m ms IH]; intros a b Hp Hs; simpl in Hs.
  - simplify_eq. exists []. by rewrite !(right_id_L [] (++)).
  - destruct (Send m a) as [a1|] eqn:Hm; [|done].
    destruct (send_one rand m a a1 b Hp Hm) as (fr & Hf1 & Hp1 & Hd1 & Hs1 & Hr1 & _ & _ & Hda & Hsb).
    destruct (IH _ _ Hp1 Hs) as (frs & Hf & Hp' & Hd' & Hs' & Hr' & Hsb' & Hda').
    exists (fr :: frs). unfold handle_all in *. simpl.
    rewrite Hf, Hf1, Hd', Hd1, Hs', Hs1, Hr', Hr1, Hsb', Hsb, Hda', Hda, <- !(assoc_L (++)).
    done.
Qed.

(** The daemon's answer to a first message that reads, from an accepted key. *)
Lemma handshake1_ok rand c h m h1 out h2 c1 c2 :
  initiator c = false →
  hs c = Some h ∨ (hs c = None ∧
    NewHandshakeState false (prologue (sid c)) (static c) "" rand = Some h) →
  ReadMessage h m = Some (h1, None) →
  WriteMessage h1 = Some (out, h2, Some (c1, c2)) → accepted c (hsPeerStatic h1) →
  let c' := handle rand (nx_frame "1" m) c in
  send c' = Some c2 ∧ recv c' = Some c1 ∧ peerPub c' = hsPeerStatic h1 ∧ hs c' = None ∧
  sent c' = sent c ++ [nx_frame "2" out] ∧ delivered c' = delivered c ∧
  sid c' = sid c ∧ initiator c' = false ∧ authorised c' = authorised c ∧ closed c' = closed c ∧
  static c' = static c ∧ failErr c' = failErr c ∧
  pins c' = pins c ++ (if decide (authorised c = []) then [hsPeerStatic h1] else []).
Proof.
  intros Hi Hh Hr Hw Ha c'. subst c'. unfold handle. rewrite decode_nx by done. cbn [Sys NX N M].
  rewrite decide_False by (by intros []). rewrite decide_True by done. unfold readHandshake1. rewrite Hi. simpl.
  rewrite Base64.Decode_Encode. cbn zeta.
  set (start := match hs c with Some h => _ | None => _ end).
  assert (∃ c0, start = Some (h, c0) ∧ authorised c0 = authorised c ∧ sent c0 = sent c ∧
    delivered c0 = delivered c ∧ sid c0 = sid c ∧ initiator c0 = false ∧ closed c0 = closed c ∧
    static c0 = static c ∧ failErr c0 = failErr c ∧ pins c0 = pins c)
    as (c0 & -> & Ha0 & Hs0 & Hd0 & Hi0 & Hr0 & Hc0 & Hst0 & Hf0 & Hp0).
  { subst start. destruct Hh as [->|[-> ->]]; eexists; split_and!; try done. }
  rewrite Hr. destruct (authorise (hsPeerStatic h1) (set_hs (Some h1) c0)) as [[[]|e] c3] eqn:Hau.
  - apply authorise_ok in Hau as [_ ->]. rewrite Hw. cbn [authorised set_hs]. rewrite Ha0.
    rewrite <- Hs0, <- Hd0, <- Hi0, <- Hc0, <- Hst0, <- Hf0, <- Hp0.
    destruct (decide (authorised c = [])); [by split_and!|].
    rewrite (right_id_L [] (++)). by split_and!.
  - apply authorise_err in Hau as [Hn _]. destruct Hn. unfold accepted in *.
    cbn [authorised set_hs]. by rewrite Ha0.
Qed.

End facts.
End SessionFacts.

Import GoStr GoJson GoFloat JsonPrint Session SessionFacts.

(** ** A Noise implementation without secrecy, for concrete runs

    It runs the messages of the IK pattern and meets the laws. *)
Module ToyNoise.

Definition keys (p : string) : (string * nat) * (string * nat) :=
  ((p +:+ "v", 0), (p +:+ "d", 0)).

Record toy_state := MkToy { tinit : bool; tpro : string; tme : DHKey; tpeer : string }.

Definition toy_read (h : toy_state) (m : string)
  : option (toy_state * option ((string * nat) * (string * nat))) :=
  if tinit h then
    if decide (m = tpro h +:+ "ok") then Some (h, Some (keys (tpro h))) else None
  else if HasPrefix m (tpro h)
  then Some (MkToy false (tpro h) (tme h) (TrimPrefix m (tpro h)), None)
  else None.

Definition toy_write (h : toy_state)
  : option (string * toy_state * option ((string * nat) * (string * nat))) :=
  if tinit h then Some (tpro h +:+ Public (tme h), h, None)
  else Some (tpro h +:+ "ok", h, Some (keys (tpro h))).

Definition toy_decrypt (c : string * nat) (ad ct : string) : option string * (string * nat) :=
  match ct with
  | String a r =>
      if bool_decide (a = ascii_of_nat (c.2)) && HasPrefix r (c.1 +:+ ad)
      then (Some (TrimPrefix r (c.1 +:+ ad)), (c.1, S c.2)) else (None, c)
  | EmptyString => (None, c)
  end.

#[export] Instance toy_noise : Noise := {|
  HandshakeState := toy_state;
  CipherState := string * nat;
  NewHandshakeState i p st peer _ := Some (MkToy i p st peer);
  ReadMessage := toy_read;
  WriteMessage := toy_write;
  hsPeerStatic := tpeer;
  Encrypt c ad pt := Some (String (ascii_of_nat c.2) ((c.1 +:+ ad) +:+ pt), (c.1, S c.2));
  Decrypt := toy_decrypt;
|}.

Lemma HasPrefix_app s t : HasPrefix (s +:+ t) s = true.
Proof. apply HasPrefix_spec. by exists t. Qed.

#[export] Instance toy_laws : NoiseLaws.
Proof.
  split.
  - intros p v d rv rd i r Hi Hr. simpl in *. simplify_eq. do 8 eexists.
    split; [reflexivity|]. simpl. unfold toy_read. simpl. rewrite HasPrefix_app, TrimPrefix_app.
    split; [reflexivity|]. simpl. split; [done|]. split; [reflexivity|]. simpl.
    rewrite decide_True by done. done.
  - intros c ad pt ct c' Hc. simpl in *. simplify_eq. split; [done|]. simpl.
    rewrite bool_decide_eq_true_2, HasPrefix_app, TrimPrefix_app by done. done.
  - intros c ad ct c' Hc. simpl in *. unfold toy_decrypt in Hc. by split_matches.
Qed.

Definition vault : DHKey := MkDHKey "v-secret" "vault-key".
Definition intruder : DHKey := MkDHKey "i-secret" "other-key".
Definition daemon : DHKey := MkDHKey "d-secret" "daemon-key".

Definition daemon_conn (auth : list string) : Conn :=
  default (MkConn false "" daemon [] None None None "" None false false [] [] [])
    (NewDaemon "sid" daemon auth "").
Definition vault_conn (k : DHKey) : Conn :=
  default (daemon_conn []) (NewVault "sid" k (Public daemon) "").

End ToyNoise.

Module SessionTheorems.
Import ToyNoise.

Section theorems.
Context `{Noise}.

(** C9: whatever arrives, a daemon's session delivers at most one thing per frame:
    a presence frame as it came, or the plaintext its cipher state decrypted; and
    it holds cipher states only for a peer the list of vaults accepts. *)
Theorem session_delivery auth c rand b :
  dreach auth c →
  (is_Some (recv c) → auth = [] ∨ peerPub c ∈ auth) ∧
  ∃ ds, delivered (handle rand b c) = delivered c ++ ds ∧ delivery c b ds.
Proof.
  intros Hc. pose proof (dreach_inv _ _ Hc) as Hi. split.
  - intros Hr. pose proof (di_keys _ _ Hi (or_intror Hr)) as Ha.
    unfold accepted in Ha. by rewrite (di_auth _ _ Hi) in Ha.
  - by apply (handle_inv auth rand b c Hi).
Qed.


(** A vault whose handshake reads but whose key is not on the list is refused:
    the connection closes with [ErrUnauthorised], nothing is sent back or
    delivered, and no cipher state exists. *)
Theorem unauthorised_refused rand c h m h1 o :
  initiator c = false → hs c = Some h → send c = None → recv c = None →
  ReadMessage h m = Some (h1, o) →
  authorised c ≠ [] → hsPeerStatic h1 ∉ authorised c →
  let c' := handle rand (nx_frame "1" m) c in
  closed c' = true ∧ failErr c' = Some ErrUnauthorised ∧
  sent c' = sent c ∧ delivered c' = delivered c ∧ pins c' = pins c ∧
  send c' = None ∧ recv c' = None.
Proof.
  intros Hi Hh Hs Hrv Hr Hne Hnin c'. subst c'. unfold handle. rewrite decode_nx by done.
  cbn [Sys NX N M]. rewrite decide_False by (by intros []). rewrite decide_True by done.
  unfold readHandshake1. rewrite Hi. cbn [M]. rewrite Base64.Decode_Encode, Hh. simpl.
  rewrite Hr. destruct (authorise _ _) as [[[]|e] c0] eqn:Hau.
  - apply authorise_ok in Hau as [[?|?] _]; done.
  - apply authorise_err in Hau as (_ & -> & ->). done.
Qed.

(** Trust on first use never closes on a live connection: with no vault listed,
    a second vault with another key completes its handshake as the first did; both
    keys are reported for pinning and the second one holds the session. *)
Theorem tofu_never_closes `{!NoiseLaws} s d (v1 v2 : DHKey) rd1 rd2 ra rb cd i1 i2 :
  NewDaemon s d [] rd1 = Some cd →
  is_Some (NewHandshakeState false (prologue s) d "" rd2) →
  NewHandshakeState true (prologue s) v1 (Public d) ra = Some i1 →
  NewHandshakeState true (prologue s) v2 (Public d) rb = Some i2 →
  ∃ m1 m2,
    (∃ i', WriteMessage i1 = Some (m1, i', None)) ∧
    (∃ i', WriteMessage i2 = Some (m2, i', None)) ∧
    let cd2 := handle rd2 (nx_frame "1" m2) (handle rd2 (nx_frame "1" m1) cd) in
    pins cd2 = [Public v1; Public v2] ∧ peerPub cd2 = Public v2 ∧
    Established cd2 = true ∧ failErr cd2 = None.
Proof.
  unfold NewDaemon. intros (h1 & Hh1 & [= <-])%bind_Some [h2 Hh2] Hi1 Hi2.
  destruct (IK_runs _ _ _ _ _ _ _ Hi1 Hh1)
    as (m1 & i1' & r1 & o1 & r1' & i1'' & a1 & b1 & Hw1 & Hr1 & Hp1 & Hw1' & _).
  destruct (IK_runs _ _ _ _ _ _ _ Hi2 Hh2)
    as (m2 & i2' & r2 & o2 & r2' & i2'' & a2 & b2 & Hw2 & Hr2 & Hp2 & Hw2' & _).
  exists m1, m2. split; [eauto|]. split; [eauto|].
  set (cd := MkConn false _ _ _ _ _ _ _ _ _ _ _ _ _).
  destruct (handshake1_ok rd2 cd h1 m1 r1 o1 r1' a1 b1 eq_refl (or_introl eq_refl) Hr1 Hw1'
    (or_introl eq_refl)) as (_ & _ & _ & Hhs & _ & _ & Hs & Hi & Ha & _ & Hst & Hf & Hpins).
  set (cd1 := handle rd2 (nx_frame "1" m1) cd) in *.
  destruct (handshake1_ok rd2 cd1 h2 m2 r2 o2 r2' a2 b2 Hi) as (Hs2 & _ & Hpp & _ & _ & _ & _ & _ & _ & _ & _ & Hf2 & Hpins2);
    [right; by rewrite Hs, Hst|done|done|by left|].
  unfold Established. rewrite Hs2, Hpp, Hf2, Hf, Hpins2, Hpins, Ha, Hp1, Hp2. done.
Qed.

(** An established session dies on one frame anybody can write: a first
    handshake message that does not even read drops both cipher states, so nothing
    can be sent or received until a new handshake. *)
Theorem garbage_ends_session rand c m h :
  initiator c = false → hs c = None →
  NewHandshakeState false (prologue (sid c)) (static c) "" rand = Some h →
  ReadMessage h m = None →
  let c' := handle rand (nx_frame "1" m) c in
  send c' = None ∧ recv c' = None ∧ failErr c' = failErr c ∧ closed c' = closed c ∧
  ∀ b, Send b c' = Err ErrNotEstablished.
Proof.
  intros Hi Hh Hn Hr c'. subst c'. unfold handle. rewrite decode_nx by done.
  cbn [Sys NX N M]. rewrite decide_False by (by intros []). rewrite decide_True by done.
  unfold readHandshake1. rewrite Hi. cbn [M]. rewrite Base64.Decode_Encode, Hh, Hn. simpl.
  by rewrite Hr.
Qed.

End theorems.

(** *** Concrete runs *)

(** The daemon after the handshake of [k], and that vault. *)
Definition run_handshake (k : DHKey) (auth : list string) : Conn * Conn :=
  match Start (vault_conn k) with
  | Ok v =>
      let f1 := List.hd "" (sent v) in
      let d := handle "" f1 (daemon_conn auth) in
      (d, handle "" (List.hd "" (sent d)) v)
  | Err _ => (daemon_conn auth, vault_conn k)
  end.

Definition presence_frame : string :=
  print (JObj [("sys", JStr "peer_online"); ("role", JStr "vault")]).

Lemma toy_send_all ms c : is_Some (send c) → is_Some (send_all ms c).
Proof.
  revert c. induction ms as [|m ms IH]; intros c [cs Hc]; [by eexists|]. simpl.
  unfold Send. rewrite Hc. apply IH. by eexists.
Qed.

Lemma session_delivery_witness :
  let c := daemon_conn ["vault-key"] in
  ∃ ds, delivered (handle "" presence_frame c) = delivered c ++ ds ∧
    delivery c presence_frame ds ∧ ds = [presence_frame].
Proof.
  intros c.
  destruct (session_delivery ["vault-key"] c "" presence_frame) as [_ (ds & H1 & H2)].
  { by apply (dreach_new _ "sid" daemon ""). }
  exists ds. split; [exact H1|]. split; [exact H2|].
  assert (delivered (handle "" presence_frame c) = [presence_frame]) as Hd by (vm_compute; done).
  rewrite Hd in H1. by symmetry.
Defined.


Lemma unauthorised_refused_witness :
  let c := daemon_conn ["vault-key"] in
  closed (handle "" (nx_frame "1" (prologue "sid" +:+ "other-key")) c) = true.
Proof.
  intros c.
  apply (unauthorised_refused "" c (MkToy false (prologue "sid") daemon "")
    (prologue "sid" +:+ "other-key") (MkToy false (prologue "sid") daemon "other-key") None);
    try done.
  intros Hin. apply list_elem_of_singleton in Hin. discriminate Hin.
Defined.

Lemma tofu_never_closes_witness :
  let d := handle "" (nx_frame "1" (prologue "sid" +:+ "other-key"))
             (handle "" (nx_frame "1" (prologue "sid" +:+ "vault-key")) (daemon_conn [])) in
  pins d = ["vault-key"; "other-key"] ∧ peerPub d = "other-key".
Proof.
  destruct (tofu_never_closes "sid" daemon vault intruder "" "" "" "" (daemon_conn [])
    (MkToy true (prologue "sid") vault "daemon-key")
    (MkToy true (prologue "sid") intruder "daemon-key"))
    as (m1 & m2 & [i1 H1] & [i2 H2] & H3 & H4 & _); [done|by eexists|done|done|].
  injection H1 as <- _. injection H2 as <- _. split; [exact H3|exact H4].
Defined.

Lemma garbage_ends_session_witness :
  let d := (run_handshake vault ["vault-key"]).1 in
  Established d = true ∧
  Established (handle "" (nx_frame "1" "noise") d) = false.
Proof.
  intros d. split; [vm_compute; done|]. unfold Established.
  destruct (garbage_ends_session "" d "noise" (MkToy false (prologue "sid") daemon ""))
    as [H1 _]; [vm_compute; done..|]. by rewrite H1.
Defined.

End SessionTheorems.
