(* ===== verification/ChannelProps.v ===== *)
(** * The first channel version, the choice between the two, and what reaches the node *)
From S2P Require Import Prelude GoStrings GoJson GoFloat GoJsonPrint GoBase64 GoTime.
From S2P Require Import Rpc Node NodeTheorems E2ee Session SessionTheorems Dual.
Import GoStr GoJson GoFloat JsonPrint SessionFacts.

Module ChannelFacts.

Section e2ee.
Context `{E2ee.V1Crypto}.

Lemma decode_hello k :
  E2ee.decode_frame (E2ee.hello_frame k) =
  Some (E2ee.MkFrame "" "" "hello" (E2ee.PubB64 k) "").
Proof.
  unfold E2ee.decode_frame, Unmarshal, E2ee.hello_frame.
  assert (parse (print (JObj [("kx", JStr "hello"); ("pub", JStr (E2ee.PubB64 k))])) =
    Some (JObj [("kx", JStr "hello"); ("pub", JStr (E2ee.PubB64 k))])) as ->; [|done].
  apply (parse_strings [("kx", "hello"); ("pub", E2ee.PubB64 k)]).
  repeat constructor. apply utf8_Encode.
Qed.

Lemma decode_enc s :
  E2ee.decode_frame (E2ee.enc_frame (Base64.Encode s)) =
  Some (E2ee.MkFrame "" "" "" "" (Base64.Encode s)).
Proof.
  unfold E2ee.decode_frame, Unmarshal, E2ee.enc_frame.
  assert (parse (print (JObj [("enc", JStr (Base64.Encode s))])) =
    Some (JObj [("enc", JStr (Base64.Encode s))])) as ->; [|done].
  apply (parse_strings [("enc", Base64.Encode s)]). repeat constructor. apply utf8_Encode.
Qed.

Lemma decodePub_PubB64 k : String.length (E2ee.Pub k) = 32 →
  E2ee.decodePub (E2ee.PubB64 k) = Some (E2ee.Pub k).
Proof.
  intros Hk. unfold E2ee.decodePub, E2ee.PubB64. rewrite Base64.Decode_Encode. simpl.
  by rewrite decide_True.
Qed.

Lemma open_seal `{!E2ee.V1CryptoLaws} key nonce pt : String.length nonce = E2ee.NonceSize →
  E2ee.open key (E2ee.seal key nonce pt) = Some pt.
Proof.
  intros Hn. unfold E2ee.open, E2ee.seal. rewrite Base64.Decode_Encode.
  cbn [mbind option_bind]. rewrite decide_False by (rewrite length_sapp; lia).
  rewrite <- Hn, stake_app, sdrop_app. apply E2ee.Open_Seal.
Qed.

End e2ee.

Section dual.
Context `{E2ee.V1Crypto, Session.Noise}.

Lemma version_feed rand b d : Dual.Version (Dual.feed rand b d) = Dual.Version d.
Proof. unfold Dual.feed, Dual.Version.
  destruct (Dual.chosen d) as [[]|] eqn:Hc; simpl; by rewrite ?Hc. Qed.

Lemma v1_delivered b c : ∃ ds, E2ee.delivered (E2ee.handle b c) = E2ee.delivered c ++ ds ∧
  length ds ≤ 1.
Proof.
  unfold E2ee.handle, E2ee.hello.
  destruct (E2ee.decode_frame b) as [f|]; [|exists []; by rewrite (right_id_L [] (++)); split; [|simpl; lia]].
  case_decide; [by exists [b]|].
  case_decide; [exists []; rewrite (right_id_L [] (++)); split; [|simpl; lia]; by split_matches|].
  case_decide; [|exists []; rewrite (right_id_L [] (++)); by split; [|simpl; lia]].
  destruct (E2ee.sess c); [|exists []; rewrite (right_id_L [] (++)); by split; [|simpl; lia]].
  destruct (E2ee.open _ _) as [pt|]; [by exists [pt]|].
  exists []; rewrite (right_id_L [] (++)); by split; [|simpl; lia].
Qed.

Lemma choose_2 rand d : Dual.chosen d = None →
  Dual.choose rand 2 d =
    match Session.NewDaemon (Dual.v2sid d) (Dual.v2static d) (Dual.v2auth d) rand with
    | None => d
    | Some c => Dual.set_chosen (Some (Dual.LV2 c)) d
    end.
Proof. intros Hc. unfold Dual.choose. by rewrite Hc. Qed.

Lemma choose_1 rand d : Dual.chosen d = None →
  Dual.choose rand 1 d = Dual.set_chosen (Some (Dual.LV1 (E2ee.WrapDaemon (Dual.v1cfg d)))) d.
Proof. intros Hc. unfold Dual.choose. by rewrite Hc. Qed.

(** Nothing delivered is ever lost. *)
Lemma feed_delivered rand b d :
  Dual.delivered d `prefix_of` Dual.delivered (Dual.feed rand b d).
Proof.
  unfold Dual.feed, Dual.delivered. destruct (Dual.chosen d) as [[c|c]|] eqn:Hc; simpl.
  - destruct (v1_delivered b c) as (ds & -> & _). rewrite (assoc_L (++)). by eexists.
  - apply prefix_app. apply handle_prefix.
  - by rewrite Hc.
Qed.

End dual.
End ChannelFacts.

Module ChannelTheorems.
Import ChannelFacts.

(** C11: a controller that knows the daemon's key is heard, whatever the daemon held
    before: its hello gives both ends one key (counting a rekey when there was
    one), and every message it seals is then delivered as it was. *)
Theorem e2ee_end_to_end `{E2ee.V1CryptoLaws} kc kd cd c0 :
  E2ee.X25519 (E2ee.Priv kc) E2ee.Basepoint = Some (E2ee.Pub kc) →
  E2ee.X25519 (E2ee.Priv kd) E2ee.Basepoint = Some (E2ee.Pub kd) →
  String.length (E2ee.Pub kc) = 32 → String.length (E2ee.Pub kd) = 32 →
  E2ee.kp cd = kd → E2ee.isController cd = false →
  E2ee.WrapController kc (E2ee.PubB64 kd) = Some c0 →
  let c1 := E2ee.Start c0 in
  ∃ f, E2ee.sent c1 = [f] ∧
    let cd1 := E2ee.handle f cd in
    E2ee.sess cd1 = E2ee.sess c1 ∧
    E2ee.rekeys cd1 = E2ee.rekeys cd + (if E2ee.sess cd is Some _ then 1 else 0) ∧
    ∀ nonce b, String.length nonce = E2ee.NonceSize →
      ∃ c2 f2, E2ee.Send nonce b c1 = Ok c2 ∧ E2ee.sent c2 = [f; f2] ∧
        E2ee.delivered (E2ee.handle f2 cd1) = E2ee.delivered cd ++ [b].
Proof.
  intros Hc Hd Hlc Hld Hkp Hrole. unfold E2ee.WrapController.
  rewrite decodePub_PubB64 by done. cbn [mbind option_bind].
  intros (key & Hkey & [= <-])%bind_Some. exists (E2ee.hello_frame kc). split; [done|].
  assert (E2ee.deriveKey (E2ee.Priv kd) (E2ee.Pub kc) = Some key) as Hkey'.
  { unfold E2ee.deriveKey in *. by rewrite <- (E2ee.agreement _ _ _ _ Hc Hd). }
  assert (E2ee.handle (E2ee.hello_frame kc) cd =
    E2ee.MkConn kd false (Some key) (E2ee.rekeys cd + (if E2ee.sess cd is Some _ then 1 else 0))
      (E2ee.delivered cd) (E2ee.sent cd)) as ->.
  { unfold E2ee.handle. rewrite decode_hello. cbn [E2ee.Sys E2ee.KX].
    rewrite decide_False by (by intros []). rewrite decide_True by done.
    unfold E2ee.hello. rewrite Hrole. cbn [E2ee.FPub]. rewrite decodePub_PubB64 by done.
    cbn [mbind option_bind]. rewrite Hkp, Hkey'. f_equal. destruct (E2ee.sess cd); lia. }
  split; [done|]. split; [done|]. intros nonce b Hn.
  do 2 eexists. split; [done|]. split; [done|].
  unfold E2ee.handle, E2ee.seal at 1. rewrite decode_enc.
  cbn [E2ee.Sys E2ee.KX E2ee.Enc E2ee.sess].
  rewrite decide_False by (by intros []). rewrite decide_False by done.
  rewrite decide_True.
  - change (Base64.Encode (nonce +:+ E2ee.Seal key nonce b)) with (E2ee.seal key nonce b).
    by rewrite open_seal.
  - apply Encode_nonempty. by destruct nonce.
Qed.

(** The first frame that opens a handshake settles the version for good, by its
    shape alone; until then only presence is delivered; and nothing delivered is
    ever taken back. *)
Theorem dual_choice `{E2ee.V1Crypto, Session.Noise} rand b d :
  let d' := Dual.handle rand b d in
  (Dual.chosen d ≠ None → Dual.Version d' = Dual.Version d) ∧
  (Dual.chosen d = None →
   if decide (Dual.chosen d' = None)
   then Dual.delivered d' = Dual.delivered d ∨
        (Dual.delivered d' = Dual.delivered d ++ [b] ∧
         ∃ p, Dual.decode_probe b = Some p ∧ Dual.Sys p ≠ "")
   else ∃ p, Dual.decode_probe b = Some p ∧
        ((Dual.NX p = "1" ∧ Dual.Version d' = 2%Z) ∨
         (Dual.NX p ≠ "1" ∧ Dual.KX p = "hello" ∧ Dual.Version d' = 1%Z))) ∧
  Dual.delivered d `prefix_of` Dual.delivered d'.
Proof.
  intros d'. subst d'. unfold Dual.handle.
  destruct (Dual.decode_probe b) as [p|] eqn:Hp.
  2:{ split_and!; [done| |done]. intros ->. rewrite decide_True by done. by left. }
  destruct (Dual.chosen d) as [l|] eqn:Hc.
  { split_and!; [intros _; apply version_feed|done|apply feed_delivered]. }
  split; [done|].
  destruct (decide (Dual.NX p = "1")) as [Hnx|Hnx].
  { rewrite choose_2 by done.
    destruct (Session.NewDaemon _ _ _ _) as [c|] eqn:Hn.
    - split; [intros _; rewrite decide_False by (by simpl); exists p; split; [done|left; done]|].
      unfold Dual.feed, Dual.delivered. simpl. rewrite Hc. apply prefix_app, prefix_nil.
    - unfold Dual.feed. rewrite Hc. split; [|done].
      intros _. rewrite decide_True by done. by left. }
  destruct (decide (Dual.KX p = "hello")) as [Hkx|Hkx].
  { rewrite choose_1 by done.
    split; [intros _; rewrite decide_False by (by simpl); exists p; split; [done|right; done]|].
    unfold Dual.feed, Dual.delivered. simpl. rewrite Hc. apply prefix_app, prefix_nil. }
  destruct (decide (Dual.Sys p ≠ "")).
  - unfold Dual.deliver, Dual.delivered. simpl. rewrite Hc, !(right_id_L [] (++)).
    split; [|by eexists]. intros _. rewrite decide_True by done. right. split; [done|eauto].
  - split; [|done]. intros _. rewrite decide_True by done. by left.
Qed.

(** C12: the encrypted channels do not keep the hub out of the node: a frame with a
    [sys] member and a [role] that is not a string passes a v2 connection (and one
    that has not chosen) unauthenticated, as presence, whatever keys it holds, and
    the node then takes it for a request: it cancels the countdown and runs it,
    here a SET_CONFIG. *)
Theorem forged_presence_runs `{E2ee.V1Crypto, Session.Noise} `{Node.NodeHost W}
    Quote sha corrupt t now rand d (n : Node.MemoryNode (W:=W)) :
  (∀ c, Dual.chosen d ≠ Some (Dual.LV1 c)) →
  Dual.delivered (Dual.handle rand NodeDemo.forged_frame d) =
    Dual.delivered d ++ [NodeDemo.forged_frame] ∧
  let n' := Node.onData Quote sha corrupt t now NodeDemo.forged_frame n in
  Node.grace n' = None ∧ Node.graceEnd n' = None ∧
  Node.Grace n' = (86400 * GoTime.Second)%Z ∧
  Node.sent n' = Node.sent n ++ [Rpc.Encode (Rpc.Reply Rpc.zero_message true Node.ok_result None)].
Proof.
  intros Hv1. split; [|done]. unfold Dual.handle.
  assert (Dual.decode_probe NodeDemo.forged_frame = Some (Dual.MkProbe "x" "" "")) as ->
    by (by vm_compute).
  destruct (Dual.chosen d) as [[c|c]|] eqn:Hc.
  - by destruct (Hv1 c).
  - unfold Dual.feed. rewrite Hc.
    assert (Session.handle rand NodeDemo.forged_frame c =
      Session.deliver NodeDemo.forged_frame c) as ->.
    { unfold Session.handle.
      assert (Session.decode_frame NodeDemo.forged_frame = Some (Session.MkFrame "x" "" "" ""))
        as -> by (by vm_compute). done. }
    unfold Dual.delivered. rewrite Hc. simpl. by rewrite (assoc_L (++)).
  - unfold Dual.delivered, Dual.deliver. simpl. by rewrite Hc, !(right_id_L [] (++)).
Qed.

(** *** Concrete runs *)

Import ToyNoise NodeDemo.

(** A key agreement and a cipher that keep no secrets. *)
#[local] Instance toy_crypto : E2ee.V1Crypto := {|
  E2ee.X25519 a B := Some (if decide (B = "base") then "P" +:+ a else "shared");
  E2ee.Basepoint := "base";
  E2ee.derive s := s;
  E2ee.Seal k n p := k +:+ p;
  E2ee.Open k n c := if HasPrefix c k then Some (TrimPrefix c k) else None;
|}.

#[local] Instance toy_crypto_laws : E2ee.V1CryptoLaws.
Proof.
  split.
  - intros a b A B HA HB. simpl in *. simplify_eq. by rewrite !decide_False.
  - intros k n p. simpl. by rewrite ToyNoise.HasPrefix_app, TrimPrefix_app.
Defined.

Definition phone : E2ee.KeyPair :=
  E2ee.MkKeyPair "0123456789012345678901234567890" "P0123456789012345678901234567890".
Definition host_key : E2ee.KeyPair :=
  E2ee.MkKeyPair "abcdefghijabcdefghijabcdefghija" "Pabcdefghijabcdefghijabcdefghija".

Lemma e2ee_end_to_end_witness :
  let cd := E2ee.MkConn host_key false (Some "an older key") 0 [] [] in
  ∃ c0, E2ee.WrapController phone (E2ee.PubB64 host_key) = Some c0 ∧
    let cd1 := E2ee.handle (E2ee.hello_frame phone) cd in
    E2ee.rekeys cd1 = 1 ∧
    ∃ f2, E2ee.delivered (E2ee.handle f2 cd1) = ["ping"].
Proof.
  intros cd.
  assert (is_Some (E2ee.WrapController phone (E2ee.PubB64 host_key))) as [c0 Hc0]
    by (vm_compute; by eexists).
  exists c0. split; [exact Hc0|].
  destruct (e2ee_end_to_end phone host_key cd c0) as (f & H1 & H2 & H3 & H4);
    [done|done|done|done|done|done|exact Hc0|].
  assert (f = E2ee.hello_frame phone) as ->.
  { unfold E2ee.WrapController in Hc0. rewrite decodePub_PubB64 in Hc0 by done.
    vm_compute in Hc0. injection Hc0 as <-. by injection H1. }
  split; [exact H3|].
  destruct (H4 "nonce-nonce-" "ping" eq_refl) as (c2 & f2 & _ & _ & Hd).
  exists f2. exact Hd.
Defined.

Definition demo_dual (auth : list string) : Dual.Dual :=
  Dual.NewDual host_key "sid" ToyNoise.daemon auth.

Lemma forged_presence_runs_witness :
  Dual.delivered (Dual.handle "" NodeDemo.forged_frame (demo_dual ["vault-key"])) =
    [NodeDemo.forged_frame] ∧
  Node.grace NodeDemo.node1 ≠ None ∧
  Node.grace (Node.onData id id id (λ _, NodeDemo.clk) 2000 NodeDemo.forged_frame NodeDemo.node1)
    = None.
Proof.
  destruct (forged_presence_runs id id id (λ _, NodeDemo.clk) 2000 "" (demo_dual ["vault-key"])
    NodeDemo.node1) as (H1 & H2 & _); [done|].
  split; [exact H1|]. split; [vm_compute; done|exact H2].
Defined.

End ChannelTheorems.
