(* ===== verification/AuthorizedProps.v ===== *)
(** * The list of authorised vaults survives its file *)
From S2P Require Import Prelude GoStrings GoJson GoBase64 Session SessionTheorems Authorized.
Import GoStr GoJson Authorized.

Module AuthorizedFacts.

(** An entry as the code creates them: a 32-byte key and a label of words. *)
Definition entry_ok (e : authEntry) : Prop :=
  String.length (pub e) = 32 ∧
  (∃ ws, Forall word ws ∧ label e = Join ws " ") ∧
  fits_buffer (entry_line e) = true.

Lemma enc6_graph v : (0 ≤ v < 64)%Z → graph (Base64.enc6 v) = true.
Proof. revert v. apply Base64.six_bits with (H := _). by vm_compute. Qed.

Lemma graph_Encode s : graph_str (Base64.Encode s) = true.
Proof.
  induction s as [|a|a b|a b c r IH] using Base64.string_ind3; [done|..];
    cbn [Base64.Encode graph_str];
    pose proof (bval_range a); try pose proof (bval_range b); try pose proof (bval_range c);
    rewrite !enc6_graph by Base64.bits; done.
Qed.

(** No digit of the encoding starts a comment. *)
Lemma Encode_no_comment s t : s ≠ "" → HasPrefix (Base64.Encode s +:+ t) "#" = false.
Proof.
  assert (∀ v r, (0 ≤ v < 64)%Z → HasPrefix (String (Base64.enc6 v) r) "#" = false) as He.
  { intros v r Hv. cbn [HasPrefix]. rewrite bool_decide_eq_false_2; [done|]. revert v Hv.
    apply (Base64.six_bits (λ v, Base64.enc6 v ≠ "#"%char)). by vm_compute. }
  destruct s as [|a [|b [|c r]]]; [done|..]; intros _; cbn [Base64.Encode];
    rewrite sapp_cons; apply He; pose proof (bval_range a);
    try pose proof (bval_range b); try pose proof (bval_range c); Base64.bits.
Qed.

Lemma word_Encode p : String.length p = 32 → word (Base64.Encode p).
Proof.
  intros Hp. split; [|apply graph_Encode]. apply SessionFacts.Encode_nonempty. by intros ->.
Qed.

(** The line of an entry is its words with single blanks. *)
Lemma entry_line_words e ws : Forall word ws → label e = Join ws " " →
  entry_line e = Join (Base64.Encode (pub e) :: ws) " ".
Proof.
  intros Hws Hl. unfold entry_line. rewrite Hl. destruct ws as [|w ws].
  - by rewrite decide_True, sapp_nil_r.
  - rewrite Join_cons. rewrite decide_False; [done|].
    destruct (Join_words (w :: ws)) as [(a & t & -> & _) _]; done.
Qed.

Lemma graph_no_newline s : graph_str s = true → no_byte newline s.
Proof.
  induction s as [|a s IH]; [done|]. simpl. intros [Ha Hs]%andb_true_iff.
  apply no_byte_cons. split; [|by apply IH]. by intros ->.
Qed.

Lemma words_no_newline ws : Forall word ws → no_byte newline (Join ws " ").
Proof.
  induction 1 as [|w ws [_ Hw] Hws IH]; [done|].
  destruct ws as [|w2 ws]; [by apply graph_no_newline|]. rewrite Join_cons.
  apply no_byte_app. split; [by apply graph_no_newline|].
  apply no_byte_app. by split.
Qed.

Lemma Split_lines ls : Forall (no_byte newline) ls →
  Split (lines_text ls) newline = ls ++ [""].
Proof. induction 1 as [|l ls Hl Hls IH]; [done|]. simpl. by rewrite Split_app, IH. Qed.

Lemma drop_cr_graph l b : (∃ u, l = u +:+ str1 b) → graph b = true → drop_cr l = l.
Proof.
  intros [u Hu] Hb. unfold drop_cr, TrimSuffix. destruct (HasSuffix l _) eqn:Hs; [|done].
  apply HasSuffix_spec in Hs as [t Ht]. exfalso. rewrite Hu in Ht.
  apply (sapp_inj_last u t b) in Ht. by subst b.
Qed.

Lemma take_while_all {A} (f : A → bool) l : forallb f l = true → take_while f l = l.
Proof.
  induction l as [|x l IH]; [done|]. simpl. intros [Hx Hl]%andb_true_iff.
  by rewrite Hx, IH.
Qed.

(** Lines that fit and do not end in a carriage return are scanned as they are. *)
Lemma scan_lines_text ls :
  Forall (λ l, no_byte newline l ∧ fits_buffer l = true ∧ drop_cr l = l) ls →
  scan_lines (lines_text ls) = (ls, true).
Proof.
  intros Hls. unfold scan_lines. rewrite Split_lines by (eapply Forall_impl; [exact Hls|by intros ? []]).
  rewrite last_snoc, List.removelast_last.
  assert (forallb fits_buffer ls = true) as Hf.
  { apply forallb_forall. intros l Hl. rewrite Forall_forall in Hls.
    by apply Hls, list_elem_of_In. }
  rewrite Hf, take_while_all by done. f_equal.
  induction Hls as [|l ls (_ & _ & Hl) Hls IH]; [done|]. rewrite fmap_cons, Hl. f_equal.
  apply IH. simpl in Hf. by apply andb_true_iff in Hf as [_ ?].
Qed.

Lemma read_entries_ok n es : Forall entry_ok es →
  read_entries n (entry_line <$> es) = Ok es.
Proof.
  revert n. induction es as [|e es IH]; intros n Hes; [done|].
  apply Forall_cons in Hes as [(Hp & (ws & Hws & Hl) & _) Hes]. cbn [fmap list_fmap read_entries].
  assert (Forall word (Base64.Encode (pub e) :: ws)) as Hall
    by (constructor; [by apply word_Encode|done]).
  rewrite (entry_line_words e ws Hws Hl), TrimSpace_words by done.
  rewrite bool_decide_eq_false_2; [|destruct (Join_words _ Hall) as [(a & t & -> & _) _]; done].
  assert (HasPrefix (Join (Base64.Encode (pub e) :: ws) " ") "#" = false) as ->.
  { destruct ws as [|w ws].
    - rewrite <- (sapp_nil_r (Join _ _)). apply Encode_no_comment. by intros Hx; rewrite Hx in Hp.
    - rewrite Join_cons. apply Encode_no_comment. by intros Hx; rewrite Hx in Hp. }
  cbn [orb]. rewrite Fields_Join by done.
  change (Session.ParsePub (Base64.Encode (pub e))) with
    (Session.ParsePub (Session.PubB64 (pub e))).
  rewrite SessionFacts.ParsePub_PubB64, IH, <- Hl by done. by destruct e.
Qed.

Lemma read_header n ls : read_entries n (header ++ ls) = read_entries (4 + n) ls.
Proof. reflexivity. Qed.

Lemma header_ok : Forall (λ l, no_byte newline l ∧ fits_buffer l = true ∧ drop_cr l = l) header.
Proof. unfold header. repeat constructor. Qed.

Lemma open_save es : Forall entry_ok es →
  OpenAuthorizedVaults (Some (save_text es)) = Ok es.
Proof.
  intros Hes. unfold OpenAuthorizedVaults, save_text.
  rewrite scan_lines_text.
  - rewrite read_header, read_entries_ok by done. done.
  - apply Forall_app. split; [apply header_ok|]. apply Forall_fmap.
    eapply Forall_impl; [exact Hes|]. intros e (Hp & (ws & Hws & Hl) & Hfit).
    assert (Forall word (Base64.Encode (pub e) :: ws)) as Hall
      by (constructor; [by apply word_Encode|done]).
    simpl. rewrite (entry_line_words e ws Hws Hl) in *. split_and!; [by apply words_no_newline|done|].
    destruct (Join_words _ Hall) as [_ (u & b & Hu & Hb)]; [done|].
    eapply drop_cr_graph; [by exists u|done].
Qed.

Lemma Has_spec p es : Has p es = true ↔ p ∈ Keys es.
Proof.
  unfold Has, Keys. rewrite existsb_exists, list_elem_of_fmap. split.
  - intros (e & Hin & He). unfold Session.subtleEqual in He. apply bool_decide_eq_true in He.
    exists e. split; [done|]. by apply list_elem_of_In.
  - intros (e & -> & Hin). exists e. split; [by apply list_elem_of_In|].
    by apply bool_decide_eq_true.
Qed.

End AuthorizedFacts.

Module AuthorizedTheorems.
Import AuthorizedFacts.

(** A list that was saved is read back entry for entry, so a restart neither
    forgets a pinned vault nor changes one; adding a key that is listed changes
    nothing, and after an addition that was written the file holds the list that
    is in memory, with the new key on it. *)
Theorem authorized_restart p l es file :
  Forall entry_ok es → entry_ok (MkEntry p l) →
  OpenAuthorizedVaults (Some (save_text es)) = Ok es ∧
  let '(r, es', file') := Add true p l es file in
  r = Ok tt ∧ Has p es' = true ∧
  (Has p es = true → es' = es ∧ file' = file) ∧
  (Has p es = false → ∃ text, file' = Some text ∧ OpenAuthorizedVaults (Some text) = Ok es').
Proof.
  intros Hes Hp. split; [by apply open_save|]. unfold Add.
  destruct Hp as (Hlen & Hlab & Hfit). simpl in Hlen. rewrite decide_True by done.
  destruct (Has p es) eqn:Hh; simpl.
  - split_and!; [done|done|done|done].
  - split_and!; [done| |done|].
    + apply Has_spec. unfold Keys. rewrite fmap_app. apply elem_of_app. right. by left.
    + intros _. eexists. split; [done|]. apply open_save, Forall_snoc; [done|]. done.
Qed.

Definition k1 : string := "0123456789abcdef0123456789abcdef".
Definition k2 : string := "fedcba9876543210fedcba9876543210".

Lemma demo_entry_ok p : String.length p = 32 →
  fits_buffer (entry_line (MkEntry p "pinned-2026-01-02")) = true →
  entry_ok (MkEntry p "pinned-2026-01-02").
Proof.
  intros Hp Hf. split_and!; [done| |done]. exists ["pinned-2026-01-02"]. split; [|done].
  by repeat constructor.
Defined.

Lemma authorized_restart_witness :
  OpenAuthorizedVaults (Some (save_text [MkEntry k1 "pinned-2026-01-02"])) =
    Ok [MkEntry k1 "pinned-2026-01-02"] ∧
  ∃ text, (Add true k2 "pinned-2026-01-02" [MkEntry k1 "pinned-2026-01-02"] None).2 = Some text ∧
    Keys <$> OpenAuthorizedVaults (Some text) = Ok [k1; k2].
Proof.
  destruct (authorized_restart k2 "pinned-2026-01-02" [MkEntry k1 "pinned-2026-01-02"] None)
    as [H1 H2].
  { constructor; [|constructor]. by apply demo_entry_ok. }
  { by apply demo_entry_ok. }
  split; [exact H1|]. eexists. split; [vm_compute; reflexivity|]. vm_compute. done.
Defined.

End AuthorizedTheorems.
