(* ===== verification/Main.v ===== *)
(** * cmd/valetfs/main.go: the program around the commands

    Global options, the runtime file that says where the daemon is, the choice of the
    command, completion, the connection key and the list of vault identities.  Output
    is a list of texts; the usage and help texts are not spelt out. *)
From stdpp Require Import pretty.
From S2P Require Import Prelude GoStrings GoPath GoJson GoFloat GoJsonPrint GoBase64 GoHttp GoFlag.
From S2P Require Import Config Repo Daemon ControlAPI Cli EnvFile Exec Session Authorized.
Import GoStr GoPath GoJson JsonPrint GoHttp GoFlag Daemon Cli Exec.

Module Main.

(** ** The connection key of [serve --join] *)

Record joinKey := MkJoin {
  V : Z; SID : string; Token : string; Signaling : string; VaultPub : string; Claim : string
}.

Definition join_fields : list (string * decoder joinKey) :=
  [("v", field_int (λ k z, MkJoin z (SID k) (Token k) (Signaling k) (VaultPub k) (Claim k)));
   ("sid", field_string (λ k s, MkJoin (V k) s (Token k) (Signaling k) (VaultPub k) (Claim k)));
   ("token", field_string (λ k s, MkJoin (V k) (SID k) s (Signaling k) (VaultPub k) (Claim k)));
   ("signaling", field_string (λ k s, MkJoin (V k) (SID k) (Token k) s (VaultPub k) (Claim k)));
   ("vault_pub", field_string (λ k s, MkJoin (V k) (SID k) (Token k) (Signaling k) s (Claim k)));
   ("claim", field_string (λ k s, MkJoin (V k) (SID k) (Token k) (Signaling k) (VaultPub k) s))].

Inductive join_error := JDecode | JJson | JMissing.

Definition decodeJoinKey (s : string) : result join_error joinKey :=
  let s := TrimSpace s in
  match (match Base64.RawURLDecode s with Some raw => Some raw | None => Base64.Decode s end) with
  | None => Err JDecode
  | Some raw =>
      let (k, ok) := Unmarshal (struct_of join_fields) raw (MkJoin 0 "" "" "" "" "") in
      if negb ok then Err JJson
      else if bool_decide (SID k = "") || bool_decide (Token k = "") then Err JMissing
      else Ok k
  end.

(** ** Global options *)

(** [wantsHelp]: up to a bare [--]. *)
Fixpoint wantsHelp (args : list string) : bool :=
  match args with
  | [] => false
  | a :: args =>
      if decide (a = "--") then false
      else if decide (a = "-h" ∨ a = "--help") then true
      else wantsHelp args
  end.

Definition addr_flag : string := "--daemon-addr=".

Definition global_option (a : string) : bool := bool_decide (a = "-v") || HasPrefix a addr_flag.

(** Verbosity, the address given, the command and its arguments. *)
Definition parseGlobalCLIOptions (args : list string) : bool * string * list string :=
  match args with
  | [] => (false, "", [])
  | cmd :: args =>
      (existsb (λ a, bool_decide (a = "-v")) args,
       default "" (last (omap (λ a, if HasPrefix a addr_flag
                                    then Some (TrimPrefix a addr_flag) else None) args)),
       cmd :: List.filter (λ a, negb (global_option a)) args)
  end.

(** ** The runtime file *)

Definition runtime_fields : list (string * decoder runtimeState) :=
  [("control_addr", field_string (λ s v, MkState v (ControlToken s)));
   ("control_token", field_string (λ s v, MkState (ControlAddr s) v))].

(** What the daemon marshals into runtime.json. *)
Definition runtime_json (r : RuntimeState) : json := JObj
  [("control_url", JStr (ControlURL r)); ("control_addr", JStr (Daemon.ControlAddr r));
   ("control_token", JStr (RControlToken r)); ("webdav_addr", JStr (WebDAVAddr r));
   ("mountpoint", JStr (Mountpoint r))].

Section Main.
Context {G : Type} `{Repo.GoGit G}.
Context (hmac_hex : string → bytes → string) (decode_error : string → string).
Context (env : Cli.Env) (m : Machine).

Local Abbreviation cli := (cli (G:=G)).

Definition loadRuntimeState (runPath : string) : cli runtimeState :=
  r ← attempt (read_host env runPath);
  match r with
  | Err _ => throw NoDaemon
  | Ok text =>
      let (st, ok) := Unmarshal (struct_of runtime_fields) text (MkState "" "") in
      if negb ok || bool_decide (ControlAddr st = "") || bool_decide (ControlToken st = "")
      then throw NoDaemon else mret st
  end.

Definition detectExistingDaemon (runtimeDir : string) : cli bool :=
  r ← attempt (loadRuntimeState (Join2 runtimeDir "runtime.json"));
  match r with
  | Err _ => mret false
  | Ok st =>
      a ← attempt (apiReq hmac_hex decode_error env st "GET" "/status" [] None);
      mret (is_ok a)
  end.

(** ** Completion *)

(** [os.ReadDir], by name. *)
Definition read_dir (h : Host) (dir : string) : option (list (string * host_entry)) :=
  if has_dir h (Clean dir) then
    Some (sort_by fst (omap (λ e, if decide (Dir e.1 = Clean dir ∧ e.1 ≠ Clean dir)
                                 then Some (Base e.1, e.2) else None) (map_to_list h)))
  else None.

Definition slash_if (d : bool) (s : string) : string := if d then s +:+ "/" else s.

Definition completeHostPath (cur : string) : cli (list string) := λ w,
  let cur := if decide (cur = "") then "./" else cur in
  let base := Dir cur in
  let base := if bool_decide (base = ".") && HasPrefix cur "./" then "./" else base in
  let prefix := Base cur in
  Some (Ok (if hfail env "readdir" base then [] else
    match read_dir (host w) base with
    | None => []
    | Some l =>
        omap (λ e, if HasPrefix e.1 prefix
                   then Some (slash_if (bool_decide (e.2 = HDir)) (Join2 base e.1)) else None) l
    end), w).

Definition completeFSPath (st : runtimeState) (cur : string) : cli (list string) :=
  let prefixOut := if HasPrefix cur "fs:" then "fs:" else "" in
  let cur := TrimPrefix cur "fs:" in
  let '(parent, prefix) :=
    match LastIndexByte cur slash with
    | Some i => (stake i cur, sdrop (S i) cur)
    | None => ("", cur)
    end in
  r ← attempt (
    text ← apiReq hmac_hex decode_error env st "GET" "/files"
      [("path", toFSPathArg parent); ("list", "1"); ("all", "1"); ("detail", "1")] None;
    decode_reply items_decoder [] text);
  mret (match r with
  | Err _ => []
  | Ok items =>
      omap (λ it, if HasPrefix (iName it) prefix
                  then Some (slash_if (iDir it)
                         (prefixOut +:+ TrimPrefix (Join2 parent (iName it)) "/")) else None) items
  end).

Definition fs_commands : list string := ["ls"; "cat"; "del"; "rm"; "mkdir"; "rmdir"].

Definition runComplete (st : runtimeState) (args : list string) : cli () :=
  match args with
  | [] => mret tt
  | cmd :: rest =>
      let cur := default "" (last rest) in
      suggest ←
        (if decide (cmd ∈ fs_commands) then completeFSPath st cur
         else if decide (cmd = "exec") then
           if decide ("--" ∈ rest) then mret [] else completeFSPath st cur
         else if decide (cmd = "cp" ∨ cmd = "mv") then
           if isHostPath cur then completeHostPath cur else completeFSPath st cur
         else mret []);
      print_lines (sort_strings suggest)
  end.

(** ** The commands *)

(** [runCLI]; [home] is the user's home directory, if there is one. *)
Definition runCLI (fuel : nat) (home : option string) (args : list string) : cli Z :=
  let '(_, daemonAddr, args) := parseGlobalCLIOptions args in
  match args with
  | [] => throw MissingCommand
  | cmd :: args =>
      if wantsHelp args then note "help" ≫= λ _, mret 0%Z
      else
        match home with
        | None => throw (OtherError "home")
        | Some home =>
            st ← loadRuntimeState (Join2 (Join3 home ".valetfs" "run") "runtime.json");
            let st := if decide (daemonAddr = "") then st
                      else MkState daemonAddr (ControlToken st) in
            let ok (c : cli ()) : cli Z := c ≫= λ _, mret 0%Z in
            if decide (cmd = "exec") then runExec hmac_hex decode_error env st m args
            else if decide (cmd = "status") then
              ok (apiReq hmac_hex decode_error env st "GET" "/status" [] None ≫= emit)
            else if decide (cmd = "ls") then ok (runLS hmac_hex decode_error env st args)
            else if decide (cmd = "cat") then ok (runCat hmac_hex decode_error env st args)
            else if decide (cmd = "del" ∨ cmd = "rm") then
              ok (runRM hmac_hex decode_error env st args)
            else if decide (cmd = "mkdir") then ok (runMkdir hmac_hex decode_error env st args)
            else if decide (cmd = "rmdir") then ok (runRmdir hmac_hex decode_error env st args)
            else if decide (cmd = "mv") then ok (runMV hmac_hex decode_error env st fuel args)
            else if decide (cmd = "cp") then ok (runCP hmac_hex decode_error env st args)
            else if decide (cmd = "completion") then
              match args with
              | "bash" :: _ => note "completion" ≫= λ _, mret 0%Z
              | _ => throw (UsageError "completion")
              end
            else if decide (cmd = "__complete") then ok (runComplete st args)
            else if decide (cmd = "stop") then
              ok (ignore (apiReq hmac_hex decode_error env st "POST" "/shutdown" [] None))
            else mret 0%Z
        end
  end.

(** ** Vault identities *)

Definition defaultAuthorizedVaultsPath (v : string) (home : option string) : string :=
  if decide (v ≠ "") then v
  else match home with
  | Some home => Join3 home ".valetfs" "authorized_vaults"
  | None => "/tmp/valetfs-authorized_vaults"
  end.

Definition of_auth {A} (r : result Authorized.error A) : cli A :=
  match r with Ok a => mret a | Err _ => throw (OtherError "authorized") end.

(** One identity out of the list and the file; whether it was there. *)
Definition forget (path pub : string) (es : list Authorized.authEntry)
  : cli (bool * list Authorized.authEntry) := λ w,
  let file := match host w !! Clean path with Some (HFile b) => Some b | _ => None end in
  let '(removed, r, es, file) :=
    Authorized.Remove (negb (hfail env "write" path)) pub es file in
  let w := match file with
           | Some b => set_host (<[Clean path := HFile b]> (host w)) w
           | None => w
           end in
  match r with
  | Ok _ => Some (Ok (removed, es), w)
  | Err _ => Some (Err (OtherError "authorized"), w)
  end.

Fixpoint forget_all (path : string) (lines : list string) (es : list Authorized.authEntry)
  : cli () :=
  match lines with
  | [] => mret tt
  | line :: lines =>
      match Session.ParsePub (default "" (head (Fields line))) with
      | None => throw (OtherError "key")
      | Some pub => '(_, es) ← forget path pub es; forget_all path lines es
      end
  end.

Definition open_list (path : string) : cli (list Authorized.authEntry) := λ w,
  match host w !! Clean path with
  | Some HDir => Some (Err (HostError "read" path), w)
  | e =>
      if hfail env "read" path then Some (Err (HostError "read" path), w)
      else of_auth (Authorized.OpenAuthorizedVaults
                      (match e with Some (HFile b) => Some b | _ => None end)) w
  end.

Definition runVaults (dflt : string) (args : list string) : cli () :=
  '(l, rest) ← parse_flags [("authorized-vaults", KString)] args;
  let path := flag_string l "authorized-vaults" dflt in
  match rest with
  | [] => throw (UsageError "vaults")
  | sub :: rest =>
      es ← open_list path;
      if decide (sub = "list") then
        match Authorized.List es with
        | [] => note "no vault identities"
        | lines => print_lines lines
        end
      else if decide (sub = "forget") then
        match rest with
        | [] => throw (UsageError "vaults")
        | p :: _ =>
            match Session.ParsePub p with
            | None => throw (OtherError "key")
            | Some pub =>
                '(removed, _) ← forget path pub es;
                if removed : bool then note "un-pinned"
                else throw (OtherError "that key was not pinned")
            end
        end
      else if decide (sub = "forget-all") then
        forget_all path (Authorized.List es) es ≫= λ _, note "all un-pinned"
      else throw (OtherError "unknown subcommand")
  end.

End Main.
End Main.
