(* ===== verification/MainTheorems.v ===== *)
(** * cmd/valetfs/main.go: properties of the program around the commands *)
From S2P Require Import Prelude GoStrings GoPath GoJson GoUtf8 GoFloat GoJsonPrint GoHttp Config Repo Daemon.
From S2P Require Import ControlAPI DaemonFacts Cli CliFacts CliLogic EnvFile Exec Main.
From S2P Require Import Serve DaemonTheorems.
Import GoStr GoPath GoJson GoFloat UTF8 JsonPrint GoHttp Daemon ControlAPI ControlFacts Cli CliFacts CliLogic.
Import CliPaths Exec Main.

Module MainTheorems.

(** ** Global options *)

Lemma plain_options cmd rest : Forall (λ a, global_option a = false) rest →
  parseGlobalCLIOptions (cmd :: rest) = (false, "", cmd :: rest).
Proof.
  intros Hf. unfold parseGlobalCLIOptions.
  assert (existsb (λ a, bool_decide (a = "-v")) rest = false ∧
    omap (λ a, if HasPrefix a addr_flag then Some (TrimPrefix a addr_flag) else None) rest = [] ∧
    List.filter (λ a, negb (global_option a)) rest = rest) as (-> & -> & ->); [|done].
  induction Hf as [|a rest Ha Hf (IH1 & IH2 & IH3)]; [done|].
  assert (Ha' := Ha). unfold global_option in Ha'. apply orb_false_iff in Ha' as [H1 H2].
  simpl. rewrite H1, H2, Ha, IH1, IH3. split_and!; [done|exact IH2|done].
Qed.

Section theorems.
Context {G : Type} `{Repo.GoGit G}.
Context (hmac_hex : string → bytes → string) (decode_error : string → string).
Context (env : Cli.Env) (m : Machine).

Local Abbreviation World := (World (G:=G)).
Local Abbreviation runCLI := (runCLI hmac_hex decode_error env m).

(** The global option [-v] is taken out of the words of a child command too: whatever
    follows the [--] of [exec], the child is run as if it had not been written. *)
Lemma verbose_taken_from_child fuel home opts argv argv' :
  runCLI fuel home ("exec" :: opts ++ "--" :: argv ++ "-v" :: argv') =
  runCLI fuel home ("exec" :: opts ++ "--" :: argv ++ argv').
Proof.
  unfold runCLI, Main.runCLI, parseGlobalCLIOptions.
  rewrite !List.filter_app, !omap_app. cbn [List.filter omap list_omap].
  rewrite !List.filter_app, !omap_app. done.
Qed.

(** *** The runtime file *)

Definition runtime_path (home : string) : string :=
  Join2 (Join3 home ".valetfs" "run") "runtime.json".

Lemma runtime_decoded r : utf8_str (Daemon.ControlAddr r) = true →
  utf8_str (RControlToken r) = true →
  struct_of runtime_fields (coerced (runtime_json r)) (MkState "" "") =
  (MkState (Daemon.ControlAddr r) (RControlToken r), true).
Proof.
  intros Ha%bool_decide_eq_true Ht%bool_decide_eq_true.
  transitivity (MkState (coerce (Daemon.ControlAddr r)) (coerce (RControlToken r)), true);
    [reflexivity|by rewrite Ha, Ht].
Qed.

Lemma load_runtime r p (w : World) :
  utf8_str (ControlURL r) = true → utf8_str (Daemon.ControlAddr r) = true →
  utf8_str (RControlToken r) = true → utf8_str (WebDAVAddr r) = true →
  utf8_str (Mountpoint r) = true →
  Daemon.ControlAddr r ≠ "" → RControlToken r ≠ "" → hfail env "read" p = false →
  host w !! Clean p = Some (HFile (print (runtime_json r))) →
  loadRuntimeState env p w =
  Some (Ok (MkState (Daemon.ControlAddr r) (RControlToken r)), w).
Proof.
  intros H1 H2 H3 H4 H5 Ha Ht Hf Hh. unfold loadRuntimeState.
  assert (attempt (read_host env p) w =
    Some (Ok (Ok (print (runtime_json r))), w)) as Hread.
  { apply attempt_some. unfold read_host. by rewrite Hh, Hf. }
  rewrite (bind_some _ _ _ _ _ Hread). unfold Unmarshal.
  assert (jok 1 (runtime_json r)) as Hok.
  { apply (jok_obj 0). repeat (constructor; [split; [done|by constructor]|]). constructor. }
  rewrite (parse_print_value 1) by done.
  rewrite <- (proj2 (jok_shape _ _ Hok)), runtime_decoded by done.
  rewrite !bool_decide_false by done. done.
Qed.

(** A request for the status that carries the token changes nothing. *)
Lemma status_request st (w : World) : authed st w → (∀ n, up env (ControlAddr st) n = true) →
  apiReq hmac_hex decode_error env st "GET" "/status" [] None w =
    Some (Ok (Text (writeJSON StatusOK (jmap (status_body (denv env (sent w)) (dmn w))))),
          MkWorld (dmn w) (S (sent w)) (host w) (out w) (notes w)).
Proof.
  intros Hauth Hup.
  rewrite (apiReq_taken hmac_hex decode_error env st "GET" "/status" [] None w
    (writeJSON StatusOK (jmap (status_body (denv env (sent w)) (dmn w)))) (dmn w) Hup); [done|].
  change (ControlAPI.serve hmac_hex decode_error ?e (request st "GET" "/status" [] None) ?x)
    with (handleStatus e (request st "GET" "/status" [] None) x).
  unfold handleStatus. by rewrite (auth_request st _ _ _ _ _ Hauth).
Qed.

(** A daemon whose file is there, and which answers, is found; looking changes nothing. *)
Lemma existing_detected r dir (w : World) :
  let p := Join2 dir "runtime.json" in
  utf8_str (ControlURL r) = true → utf8_str (Daemon.ControlAddr r) = true →
  utf8_str (RControlToken r) = true → utf8_str (WebDAVAddr r) = true →
  utf8_str (Mountpoint r) = true →
  Daemon.ControlAddr r ≠ "" → RControlToken r ≠ "" → hfail env "read" p = false →
  host w !! Clean p = Some (HFile (print (runtime_json r))) →
  Config.ControlToken (cfg (dmn w)) = RControlToken r → (∀ n, up env (Daemon.ControlAddr r) n = true) →
  detectExistingDaemon hmac_hex decode_error env dir w =
    Some (Ok true, MkWorld (dmn w) (S (sent w)) (host w) (out w) (notes w)).
Proof.
  intros p H1 H2 H3 H4 H5 Ha Ht Hf Hh Htok Hup. unfold detectExistingDaemon.
  rewrite (bind_some _ _ _ _ _ (attempt_some _ _ _ _ (load_runtime r p w H1 H2 H3 H4 H5 Ha Ht Hf Hh))).
  assert (authed (MkState (Daemon.ControlAddr r) (RControlToken r)) w) as Hauth by done.
  by rewrite (bind_some _ _ _ _ _ (attempt_some _ _ _ _ (status_request _ _ Hauth Hup))).
Qed.

(** The state file the daemon writes is one the command line can use: with the file in
    place and the daemon reachable at the address in it, [valetfs status] is let in by the
    daemon's own check of the token, prints the daemon's status and changes nothing; the
    token reaches the client through that file only. *)
Theorem runtime_file_admits denv0 d d' (w : World) home fuel rest r :
  writeRuntimeState denv0 d = (None, d') → runtime d' = Some r → dmn w = d' →
  utf8_str (devAddr d) = true → utf8_str (Config.ControlToken (cfg d)) = true →
  utf8_str (WebdavAddr d) = true → utf8_str (Config.MountPoint (cfg d)) = true →
  devAddr d ≠ "" → Config.ControlToken (cfg d) ≠ "" →
  host w !! Clean (runtime_path home) = Some (HFile (print (runtime_json r))) →
  hfail env "read" (runtime_path home) = false → (∀ n, up env (devAddr d) n = true) →
  Forall (λ a, global_option a = false) rest → wantsHelp rest = false →
  runCLI fuel (Some home) ("status" :: rest) w =
  Some (Ok 0%Z, MkWorld d' (S (sent w)) (host w)
                  (out w ++ [Text (writeJSON StatusOK (jmap (status_body (denv env (sent w)) d')))]) (notes w)).
Proof.
  intros Hwrite Hr Hd Ua Ut Uw Um Ha Ht Hh Hf Hup Hrest Hhelp.
  unfold writeRuntimeState in Hwrite. destruct (runtime_os denv0); [done|]. injection Hwrite as Hd'.
  set (r0 := MkRuntime ("http://" +:+ devAddr d) (devAddr d) (Config.ControlToken (cfg d))
    (WebdavAddr d) (Config.MountPoint (cfg d))).
  assert (r = MkRuntime ("http://" +:+ devAddr d) (devAddr d) (Config.ControlToken (cfg d))
    (WebdavAddr d) (Config.MountPoint (cfg d))) as ->.
  { rewrite <- Hd' in Hr. by injection Hr. }
  assert (cfg d' = cfg d) as Hcfg by by rewrite <- Hd'.
  unfold runCLI, Main.runCLI. rewrite plain_options, Hhelp by done.
  fold (runtime_path home).
  assert (utf8_str ("http://" +:+ devAddr d) = true) as Uu by by apply utf8_app.
  rewrite (bind_some _ _ _ _ _ (load_runtime r0 (runtime_path home) w Uu Ua Ut Uw Um Ha Ht Hf Hh)).
  cbv beta zeta. rewrite (decide_True (P := "" = "")) by done.
  set (st := MkState (devAddr d) (Config.ControlToken (cfg d))).
  assert (authed st w) as Hauth by (split; [by rewrite Hd, Hcfg|done]).
  pose proof (status_request st w Hauth Hup) as Hreq. rewrite Hd in Hreq.
  rewrite (decide_False (P := "status" = "exec")), (decide_True (P := "status" = "status")) by done.
  assert ((apiReq hmac_hex decode_error env st "GET" "/status" [] None ≫= emit) w =
    Some (Ok tt, MkWorld d' (S (sent w)) (host w)
       (out w ++ [Text (writeJSON StatusOK (jmap (status_body (denv env (sent w)) d')))]) (notes w))) as Hemit
    by by rewrite (bind_some _ _ _ _ _ Hreq).
  by rewrite (bind_some _ _ _ _ _ Hemit).
Qed.

End theorems.

(** ** A concrete run *)

Import DaemonDemo.

Definition started : Daemon (G:=toy_git) := go (Serve.EStart (Ok "127.0.0.1:7000")) d2.
Definition recorded : Daemon (G:=toy_git) := (writeRuntimeState (env true) started).2.
Definition state_text : string :=
  match runtime recorded with Some r => print (runtime_json r) | None => "" end.
Definition w0 : World (G:=toy_git) :=
  MkWorld recorded 0 {["/home/u/.valetfs/run/runtime.json" := HFile state_text]} [] [].
Definition menv : Cli.Env := Cli.MkEnv (λ _ _, true) (λ _, env true) (λ _ _, false).
Definition nothing : Machine := MkMachine [] "/tmp" (λ _, "1") (λ _, 0) (λ _, 0) (λ _ _ _, None).

Lemma runtime_file_admits_witness :
  ∃ w', runCLI hmac id menv nothing 0 (Some "/home/u") ["status"] w0 = Some (Ok 0%Z, w') ∧
    out w' = [Text (writeJSON StatusOK (jmap (status_body (env true) recorded)))].
Proof.
  assert (writeRuntimeState (env true) started = (None, recorded)) as Hw by (vm_compute; done).
  destruct (runtime recorded) as [r|] eqn:Hr; [|vm_compute in Hr; done].
  assert (host w0 !! Clean (runtime_path "/home/u") = Some (HFile (print (runtime_json r)))) as Hh.
  { assert (host w0 !! Clean (runtime_path "/home/u") = Some (HFile state_text)) as ->
      by (vm_compute; reflexivity). unfold state_text. by rewrite Hr. }
  eexists. split.
  - apply (runtime_file_admits hmac id menv nothing (env true) started recorded w0 "/home/u" 0 [] r
      Hw Hr eq_refl); [vm_compute; done..|exact Hh|done|done|constructor|done].
  - done.
Defined.

End MainTheorems.
