(* ===== verification/Webrtc.v ===== *)
(** * internal/webrtc: messages and relay servers

    The messages of the legacy channel ([rpc.go]) and what the peer makes of the relay
    servers the signalling service names ([peer.go]); [pion] and the negotiation it
    performs are outside. *)
From S2P Require Import Prelude GoStrings GoJson GoFloat GoJsonPrint Rpc.
Import GoStr GoJson GoFloat JsonPrint.

Module Webrtc.

(** ** Messages *)

Record RPCMessage := MkRPC {
  V : Z; ID : string; Type_ : string; Method : string; Params : Rpc.params; OK : bool;
  Result : Rpc.params; Code : string; Msg : string; Topic : string; Payload : Rpc.params;
}.

Definition zero_rpc : RPCMessage := MkRPC 0 "" "" "" ∅ false ∅ "" "" "" ∅.

Definition NewRequest (id method : string) (ps : Rpc.params) : RPCMessage :=
  MkRPC 1 id "REQ" method ps false ∅ "" "" "" ∅.

Definition rpc_json (m : RPCMessage) : json :=
  JObj ([("v", JInt (V m))] ++ Rpc.omit_string "id" (ID m) ++ [("type", JStr (Type_ m))] ++
        Rpc.omit_string "method" (Method m) ++ Rpc.omit_map "params" (Params m) ++
        Rpc.omit_bool "ok" (OK m) ++ Rpc.omit_map "result" (Result m) ++
        Rpc.omit_string "code" (Code m) ++ Rpc.omit_string "message" (Msg m) ++
        Rpc.omit_string "topic" (Topic m) ++ Rpc.omit_map "payload" (Payload m)).

Definition EncodeRPC (m : RPCMessage) : string := print (rpc_json m).

Definition set_v x m := MkRPC x (ID m) (Type_ m) (Method m) (Params m) (OK m) (Result m) (Code m) (Msg m) (Topic m) (Payload m).
Definition set_id x m := MkRPC (V m) x (Type_ m) (Method m) (Params m) (OK m) (Result m) (Code m) (Msg m) (Topic m) (Payload m).
Definition set_type x m := MkRPC (V m) (ID m) x (Method m) (Params m) (OK m) (Result m) (Code m) (Msg m) (Topic m) (Payload m).
Definition set_method x m := MkRPC (V m) (ID m) (Type_ m) x (Params m) (OK m) (Result m) (Code m) (Msg m) (Topic m) (Payload m).
Definition set_params x m := MkRPC (V m) (ID m) (Type_ m) (Method m) x (OK m) (Result m) (Code m) (Msg m) (Topic m) (Payload m).
Definition set_ok x m := MkRPC (V m) (ID m) (Type_ m) (Method m) (Params m) x (Result m) (Code m) (Msg m) (Topic m) (Payload m).
Definition set_result x m := MkRPC (V m) (ID m) (Type_ m) (Method m) (Params m) (OK m) x (Code m) (Msg m) (Topic m) (Payload m).
Definition set_code x m := MkRPC (V m) (ID m) (Type_ m) (Method m) (Params m) (OK m) (Result m) x (Msg m) (Topic m) (Payload m).
Definition set_msg x m := MkRPC (V m) (ID m) (Type_ m) (Method m) (Params m) (OK m) (Result m) (Code m) x (Topic m) (Payload m).
Definition set_topic x m := MkRPC (V m) (ID m) (Type_ m) (Method m) (Params m) (OK m) (Result m) (Code m) (Msg m) x (Payload m).
Definition set_payload x m := MkRPC (V m) (ID m) (Type_ m) (Method m) (Params m) (OK m) (Result m) (Code m) (Msg m) (Topic m) x.

Definition rpc_fields : list (string * decoder RPCMessage) :=
  [("v", field_int (λ m x, set_v x m));
   ("id", field_string (λ m x, set_id x m));
   ("type", field_string (λ m x, set_type x m));
   ("method", field_string (λ m x, set_method x m));
   ("params", field_map Params (λ m x, set_params x m));
   ("ok", field_bool (λ m x, set_ok x m));
   ("result", field_map Result (λ m x, set_result x m));
   ("code", field_string (λ m x, set_code x m));
   ("message", field_string (λ m x, set_msg x m));
   ("topic", field_string (λ m x, set_topic x m));
   ("payload", field_map Payload (λ m x, set_payload x m))].

(** The message as far as it was decoded, and whether there was no error. *)
Definition DecodeRPC (b : string) : RPCMessage * bool :=
  Unmarshal (struct_of rpc_fields) b zero_rpc.

(** ** Relay servers *)

(** A server as the signalling service describes it; [urls] is any JSON. *)
Record described := MkDescribed { URLs : json; Username : string; Credential : string }.

(** [webrtc.ICEServer]: a password only where one is needed. *)
Record ICEServer := MkServer { urls : list string; password : option (string * string) }.

Definition defaultICEServers : list ICEServer := [MkServer ["stun:stun.l.google.com:19302"] None].

Definition strings_of (l : list json) : list string :=
  omap (λ j, match j with JStr s => Some s | _ => None end) l.

Definition url_list (j : json) : list string :=
  match j with
  | JStr u => [u]
  | JArr l => strings_of l
  | _ => []
  end.

Definition normalizeICEServer (s : described) : option ICEServer :=
  match url_list (URLs s) with
  | [] => None
  | us =>
      Some (MkServer us
        (if bool_decide (Username s ≠ "" ∨ Credential s ≠ "")
         then Some (Username s, Credential s) else None))
  end.

Definition normalizeICEServers (l : list described) : list ICEServer := omap normalizeICEServer l.

(** [newPeer] replaces an empty list. *)
Definition peer_servers (l : list ICEServer) : list ICEServer :=
  match l with [] => defaultICEServers | _ => l end.

End Webrtc.
