(* ===== verification/ServeLoop.v ===== *)
(** * cmd/valetfs/main.go: what [serve] does besides wiring

    Starting locked or mounted, keeping the control plane, whom a connection accepts, and
    the messages of the legacy WebRTC channel. *)
From S2P Require Import Prelude GoStrings GoPath GoJson GoFloat GoJsonPrint GoTime Config MemFS Rpc Node.
From S2P Require Import Repo Daemon Serve E2ee Session Dual Authorized Main Webrtc.
Import GoStr GoPath GoJson JsonPrint GoTime Daemon.

Module ServeLoop.

(** [serve] takes its own flag out of the arguments. *)
Definition serve_args (args : list string) : bool * list string :=
  let is_v a := bool_decide (a = "-v" ∨ a = "--verbose") in
  (existsb is_v args, List.filter (λ a, negb (is_v a)) args).

(** ** Starting *)

Section start.
Context {G : Type} `{Repo.GoGit G}.

(** A persisted identity (a key file that is there and not empty) starts locked. *)
Definition resuming (resumeKeyFile : string) (size : option Z) : bool :=
  bool_decide (resumeKeyFile ≠ "") && from_option (λ n, (0 <? n)%Z) false size.

Definition boot (env : Env) (ln : result string string) (resumeKeyFile : string) (size : option Z)
    (d : Daemon (G:=G)) : option string * Daemon (G:=G) :=
  match StartDevAPI env ln d with
  | (Some e, d) => (Some e, d)
  | (None, d) => (None, if resuming resumeKeyFile size then d else Mount d)
  end.

(** ** Keeping the control plane *)

(** Attempt [i] to reconnect: how long it takes, and whether it succeeds. *)
Record Attempt := MkAttempt { takes : Z; connects : bool }.

Definition window : Z := 30 * Second.

(** The loop of [reconnect]: when it ends, and the attempt that succeeded, if any. *)
Fixpoint reconnect_loop (attempts : nat → Attempt) (fuel i : nat) (now deadline backoff : Z)
  : option (Z * option nat) :=
  match fuel with
  | O => None
  | S fuel =>
      if (now <? deadline)%Z then
        let now := (now + backoff + takes (attempts i))%Z in
        if connects (attempts i) then Some (now, Some i)
        else reconnect_loop attempts fuel (S i) now deadline
               (if (backoff <? 8 * Second)%Z then backoff * 2 else backoff)%Z
      else Some (now, None)
  end.

(** The daemon when the loop has ended: as it was, or locked. *)
Definition reconnect (env : Env) (attempts : nat → Attempt) (fuel : nat) (start : Z)
    (d : Daemon (G:=G)) : option (Z * option nat * Daemon (G:=G)) :=
  match reconnect_loop attempts fuel 0 start (start + window) Second with
  | None => None
  | Some (t, Some i) => Some (t, Some i, d)
  | Some (t, None) => Some (t, None, Serve.self_lock env d)
  end.

(** ** Whom a connection accepts *)

(** The identity named by the connection key, else those on record. *)
Definition attach_authorised (join : option string) (recorded : list string) : list string :=
  match join with Some p => [p] | None => recorded end.

Definition attach `{Session.Noise} (kp : E2ee.KeyPair) (sid : string) (st : Session.DHKey)
    (join : option string) (recorded : list Authorized.authEntry) : Dual.Dual :=
  Dual.NewDual kp sid st (attach_authorised join (Authorized.Keys recorded)).

(** ** The legacy channel *)

(** A remote WRITE: serve again, make the directory, store; errors are only logged. *)
Definition remote_write (env : Env) (p content : string) (d : Daemon (G:=G)) : Daemon (G:=G) :=
  let d := Mount d in
  let f := (MemFS.MkdirAll (clock env 0) (fs d) (Dir p) 493).2 in
  set_fs (MemFS.Write (clock env 1) f p (of_string content) 384).2 d.

(** The reply to STATUS. *)
Definition status_reply (id : string) (d : Daemon (G:=G)) : string :=
  Webrtc.EncodeRPC (Webrtc.MkRPC 1 id "RES" "" ∅ true
    {["mounted" := JBool (0 <=? MemFS.Used (fs d))%Z; "used" := JInt (MemFS.Used (fs d))]} "" "" "" ∅).

Record command := MkCommand { CType : string; Action : string; CPayload : Rpc.params }.

Definition command_fields : list (string * decoder command) :=
  [("type", field_string (λ c x, MkCommand x (Action c) (CPayload c)));
   ("action", field_string (λ c x, MkCommand (CType c) x (CPayload c)));
   ("payload", GoFloat.field_map CPayload (λ c x, MkCommand (CType c) (Action c) x))].

(** What both forms of a WRITE do with their parameters. *)
Definition write_of (env : Env) (ps : Rpc.params) (d : Daemon (G:=G)) : Daemon (G:=G) :=
  let p := Node.get_string "path" ps in
  if decide (p = "") then d else remote_write env p (Node.get_string "content" ps) d.

(** The callback of the data channel: what is sent back, and the daemon. *)
Definition webrtc_onData (env : Env) (msg : string) (d : Daemon (G:=G))
  : option string * Daemon (G:=G) :=
  match Webrtc.DecodeRPC msg with
  | (m, ok) =>
      if ok && bool_decide (ToUpper (Webrtc.Type_ m) = "REQ") then
        let method := ToUpper (Webrtc.Method m) in
        if decide (method = "UNMOUNT") then (None, lock env d)
        else if decide (method = "WRITE") then (None, write_of env (Webrtc.Params m) d)
        else if decide (method = "STATUS") then (Some (status_reply (Webrtc.ID m) d), d)
        else (None, d)
      else
        match Unmarshal (struct_of command_fields) msg (MkCommand "" "" ∅) with
        | (c, true) =>
            let action := ToUpper (Action c) in
            if decide (action = "UNMOUNT") then (None, lock env d)
            else if decide (action = "WRITE") then (None, write_of env (CPayload c) d)
            else (None, d)
        | _ => (None, d)
        end
  end.

End start.

(** ** The vault's side of it *)

(** A body as [vault pair] and [vault sync] push it without the hub. *)
Definition push_frame (id p body : string) : string :=
  Webrtc.EncodeRPC (Webrtc.NewRequest id "WRITE"
    {["path" := JStr (TrimPrefix p "/"); "content" := JStr body]}).

End ServeLoop.
