(* ===== verification/ServeLoopProps.v ===== *)
(** * cmd/valetfs/main.go: the control plane is lost, and the legacy channel *)
From S2P Require Import Prelude GoStrings GoPath GoJson GoUtf8 GoFloat GoJsonPrint GoTime Config MemFS MemFSFacts MemFSSpec MemFSRefine.
From S2P Require Import Rpc Node Repo Daemon Serve DaemonTheorems Webrtc ServeLoop.
Import GoJson UTF8 GoFloat JsonPrint GoTime Rpc Daemon ServeLoop DaemonTheorems FSInv FSSpec.

Module ServeLoopTheorems.

Section theorems.
Context {G : Type} `{Repo.GoGit G}.

(** Time spent in the attempts from [i] on. *)
Fixpoint spent (attempts : nat → Attempt) (n i : nat) : Z :=
  match n with O => 0 | S n => takes (attempts i) + spent attempts n (S i) end.

(** The loop ends after at most six attempts: with the first that succeeds, or when the
    window is over. *)
Lemma reconnect_loop_ends attempts start : (∀ i, (0 ≤ takes (attempts i))%Z) →
  ∃ t res, reconnect_loop attempts 7 0 start (start + window) Second = Some (t, res) ∧
    (t ≤ start + 31 * Second + spent attempts 6 0)%Z ∧
    match res with
    | Some i => i < 6 ∧ connects (attempts i) = true ∧ ∀ j, j < i → connects (attempts j) = false
    | None => (start + window ≤ t)%Z ∧ connects (attempts 0) = false
    end.
Proof.
  intros Ht. pose proof (Ht 0). pose proof (Ht 1). pose proof (Ht 2).
  pose proof (Ht 3). pose proof (Ht 4). pose proof (Ht 5). clear Ht.
  cbn [reconnect_loop spent]. unfold window, Second in *.
  repeat match goal with
  | |- context [if (?a <? ?b)%Z then _ else _] => destruct (Z.ltb_spec a b); try lia
  | |- context [if connects ?a then _ else _] => destruct (connects a) eqn:?
  end; try lia; (eexists _, _; split; [reflexivity|]; split; [lia|]; try (by split; [lia|]));
  (split; [lia|]); (split; [assumption|]); intros j Hj;
  repeat (destruct j as [|j]; [assumption|]); lia.
Qed.

(** C38: when the link to the hub drops, [serve] comes to a decision: after at most six
    attempts and within 31 seconds of waiting plus the time the attempts themselves take,
    it is either connected again by the first attempt that succeeded, the daemon untouched,
    or the window of 30 seconds is over and the daemon has locked itself: unmounted, every
    file gone and its bytes zeroed. *)
Theorem control_plane_lost env attempts start (d : Daemon (G:=G)) :
  (∀ i, (0 ≤ takes (attempts i))%Z) →
  ∃ t res d', reconnect env attempts 7 start d = Some (t, res, d') ∧
    (t ≤ start + 31 * Second + spent attempts 6 0)%Z ∧
    match res with
    | Some i => i < 6 ∧ connects (attempts i) = true ∧
                (∀ j, j < i → connects (attempts j) = false) ∧ d' = d
    | None => (start + window ≤ t)%Z ∧ connects (attempts 0) = false ∧
              mounted d' = false ∧
              (∀ q, FSFacts.view (fs d') q = if decide (q = []) then Some FSFacts.EDir else None) ∧
              MemFS.used (fs d') = 0%Z ∧
              MemFS.released (fs d') = MemFS.wipe_walk (MemFS.root (fs d)) ++ MemFS.released (fs d) ∧
              Forall all_zero (MemFS.wipe_walk (MemFS.root (fs d)))
    end.
Proof.
  intros Ht. destruct (reconnect_loop_ends attempts start Ht) as (t & res & Hrun & Hlate & Hres).
  unfold reconnect. rewrite Hrun. destruct res as [i|].
  - exists t, (Some i), d. destruct Hres as (H1 & H2 & H3). by split_and!.
  - exists t, None, (lock env d). destruct Hres as [H1 H2]. split; [done|]. split; [done|].
    rewrite lock_mounted, lock_fs. split_and!; try done.
    + intros q. unfold FSFacts.view. simpl. case_decide as Hq; [by subst|by apply view_new_dir].
    + apply FSRefine.wipe_walk_zero.
Qed.

(** ** The legacy channel *)

Definition push_params (p body : string) : params := {["path" := JStr p; "content" := JStr body]}.

Lemma push_json id p body :
  Webrtc.rpc_json (Webrtc.NewRequest id "WRITE" (push_params p body)) =
  JObj ([("v", JInt 1)] ++ omit_string "id" id ++ [("type", JStr "REQ"); ("method", JStr "WRITE");
    ("params", JObj [("content", JStr body); ("path", JStr p)])]).
Proof.
  assert (omit_map "params" (push_params p body) =
    [("params", JObj [("content", JStr body); ("path", JStr p)])]) as Hp.
  { unfold omit_map, push_params. rewrite decide_False.
    - unfold jmap. set (x := JStr p). set (y := JStr body). clearbody x y. by vm_compute.
    - intros Hx. apply (f_equal (lookup "path")) in Hx. by vm_compute in Hx. }
  unfold Webrtc.rpc_json, Webrtc.NewRequest. cbn [Webrtc.Params]. by rewrite Hp.
Qed.

Lemma push_decoded id p body : utf8_str id = true → utf8_str p = true →
  Webrtc.DecodeRPC (Webrtc.EncodeRPC (Webrtc.NewRequest id "WRITE" (push_params p body))) =
  (Webrtc.NewRequest id "WRITE" (push_params p (coerce body)), true).
Proof.
  intros Hi%bool_decide_eq_true Hp%bool_decide_eq_true.
  unfold Webrtc.DecodeRPC, Webrtc.EncodeRPC, Unmarshal, parse. rewrite push_json.
  rewrite <- (GoStr.sapp_nil_r (print _)), (parse_prefix_print 2); [|apply (shape_obj 1)|done|done].
  - cbn [mbind option_bind]. rewrite decide_True by done.
    unfold omit_string. destruct (decide (id = "")) as [->|Hne]; cbn [coerced List.map app fst snd];
      rewrite ?Hi, Hp; reflexivity.
  - assert (shape 1 (JObj [("content", JStr body); ("path", JStr p)])) as Hps
      by (apply (shape_obj 0); repeat constructor).
    unfold omit_string. case_decide; repeat (apply Forall_cons_2; [|]); try apply Forall_nil_2;
      simpl; try done; try constructor; apply num_lit_pretty.
Qed.

(** A body pushed without the hub is stored as the text JSON makes of it: every byte that
    is not part of valid UTF-8 arrives as the replacement character. *)
Lemma legacy_push env id p body (d : Daemon (G:=G)) :
  let q := GoStr.TrimPrefix p "/" in
  utf8_str id = true → utf8_str q = true → q ≠ "" →
  webrtc_onData env (push_frame id p body) d = (None, remote_write env q (coerce body) d).
Proof.
  intros q Hi Hq Hne. unfold webrtc_onData, push_frame. fold q.
  change {["path" := JStr q; "content" := JStr body]} with (push_params q body).
  rewrite push_decoded by done. unfold Webrtc.NewRequest. cbn [Webrtc.Type_ Webrtc.Method Webrtc.Params andb].
  change (GoStr.ToUpper "REQ") with "REQ". change (GoStr.ToUpper "WRITE") with "WRITE".
  rewrite bool_decide_true by done. cbv beta match. rewrite decide_False, decide_True by done.
  unfold write_of. change (Node.get_string "path" _) with q.
  change (Node.get_string "content" _) with (coerce body). by rewrite decide_False.
Qed.

End theorems.

(** *** A concrete run *)

Import DaemonDemo.

(** Every attempt takes a second and fails. *)
Lemma control_plane_lost_witness :
  ∃ t d', reconnect (env true) (λ _, MkAttempt Second false) 7 0 d1 = Some (t, None, d') ∧
    mounted d' = false ∧ (t ≤ 37 * Second)%Z.
Proof.
  assert (∀ i : nat, (0 ≤ takes ((λ _, MkAttempt Second false) i))%Z) as Ht by done.
  destruct (control_plane_lost (env true) (λ _, MkAttempt Second false) 0 d1 Ht)
    as (t & res & d' & Hrun & Hlate & Hres).
  assert (res = None) as -> by (by destruct res as [i|]; [destruct Hres as (_ & ? & _)|]).
  exists t, d'. split; [exact Hrun|]. split; [apply Hres|exact Hlate].
Defined.

End ServeLoopTheorems.
