(* ===== verification/Hub.v ===== *)
(** * internal/hub: the session hub

    Sessions, their tokens and the sockets connected for each role; what the hub
    sends is a log of (socket, frame).  A WebSocket handler is split at its blocking
    receive: connecting, one received frame, disconnecting. *)
From S2P Require Import Prelude GoStrings GoJson GoFloat GoJsonPrint.
Import GoStr GoJson GoFloat JsonPrint.

Module Hub.

Definition roleDaemon : string := "daemon".
Definition roleVault : string := "vault".

(** [conns] maps a role to its socket; [versions] is [None] while the slice is nil. *)
Record session := MkSession {
  sid : string;
  daemonTok : string;
  vaultTok : string;
  daemonPub : string;
  conns : gmap string nat;
  versions : option (list Z);
  claimHash : string;
  daemonPubV2 : string;
}.

Definition other (role : string) : string :=
  if decide (role = roleDaemon) then roleVault else roleDaemon.

Record Server := MkServer {
  sessions : gmap string session;
  sent : list (nat * string);
}.

Definition New : Server := MkServer ∅ [].

Definition set_conns (cs : gmap string nat) (s : session) : session :=
  MkSession (sid s) (daemonTok s) (vaultTok s) (daemonPub s) cs (versions s) (claimHash s)
    (daemonPubV2 s).

Definition set_vaultTok (t : string) (s : session) : session :=
  MkSession (sid s) (daemonTok s) t (daemonPub s) (conns s) (versions s) (claimHash s)
    (daemonPubV2 s).

Definition put_session (s : session) (srv : Server) : Server :=
  MkServer (<[sid s := s]> (sessions srv)) (sent srv).

Definition send_to (ws : nat) (b : string) (srv : Server) : Server :=
  MkServer (sessions srv) (sent srv ++ [(ws, b)]).

(** ** Frames *)

Definition presence (sys role : string) : string :=
  print (JObj [("sys", JStr sys); ("role", JStr role)]).

Definition sendPresence (ws : nat) (sys role : string) (srv : Server) : Server :=
  send_to ws (presence sys role) srv.

(** An object that carries a [sys] key (a [null] or another value carries none). *)
Definition isSystemFrame (data : string) : bool :=
  match parse data with
  | Some (JObj l) => bool_decide ("sys" ∈ l.*1)
  | _ => false
  end.

Definition isKeepalive (data : string) : bool :=
  let (sys, ok) := Unmarshal (struct_of [("sys", field_string (λ _ x, x))]) data "" in
  ok && bool_decide (sys = "ka").

Definition ka_ack : string := print (JObj [("sys", JStr "ka_ack")]).

(** ** Requests *)

Record create_body := MkCreate {
  Role : string; Init : bool; Pub : string; PubV2 : string; Versions : option (list Z);
  ClaimSecret : string;
}.

Definition create_fields : list (string * decoder create_body) :=
  [("role", field_string (λ b x, MkCreate x (Init b) (Pub b) (PubV2 b) (Versions b) (ClaimSecret b)));
   ("init", field_bool (λ b x, MkCreate (Role b) x (Pub b) (PubV2 b) (Versions b) (ClaimSecret b)));
   ("pub", field_string (λ b x, MkCreate (Role b) (Init b) x (PubV2 b) (Versions b) (ClaimSecret b)));
   ("pub_v2", field_string (λ b x, MkCreate (Role b) (Init b) (Pub b) x (Versions b) (ClaimSecret b)));
   ("versions", λ v b,
      let set x b := MkCreate (Role b) (Init b) (Pub b) (PubV2 b) x (ClaimSecret b) in
      match v with
      | JNull => (set None b, true)
      | _ => field_ints (λ b x, set (Some x) b) v b
      end);
   ("claim_secret", field_string (λ b x, MkCreate (Role b) (Init b) (Pub b) (PubV2 b) (Versions b) x))].

(** The status code and the body of a response. *)
Definition response : Type := Z * json.

Definition error_body (e : string) : json := JObj [("error", JStr e)].

Section Hub.
Context (sha256_hex : string → string).

(** [id] and [tok] are what [idgen] and [randomHex] return; a decoding error is
    ignored and leaves what was decoded. *)
Definition handleCreate (id tok body : string) (srv : Server) : response * Server :=
  let (b, _) := Decode_stream (struct_of create_fields) body (MkCreate "" false "" "" None "") in
  if decide (Role b = roleDaemon) then
    let s := MkSession id tok "" (Pub b) ∅ (Versions b)
               (if decide (ClaimSecret b = "") then "" else sha256_hex (ClaimSecret b)) (PubV2 b) in
    ((200%Z, JObj [("daemon_token", JStr tok); ("session_id", JStr id)]), put_session s srv)
  else ((400%Z, error_body "role must be daemon"), srv).

Definition claim_id (path : string) : string :=
  TrimSuffix (TrimPrefix path "/ws/sessions/") "/claim".

(** [secret] is the header [X-Valet-Claim-Secret], [tok] a fresh token. *)
Definition handleClaim (tok path secret : string) (srv : Server) : response * Server :=
  match sessions srv !! claim_id path with
  | None => ((404%Z, error_body "no such session"), srv)
  | Some s =>
      if bool_decide (claimHash s ≠ "") && negb (bool_decide (sha256_hex secret = claimHash s))
      then ((403%Z, error_body "forbidden"), srv)
      else
        let first := bool_decide (vaultTok s = "") in
        let s := if first then set_vaultTok tok s else s in
        ((200%Z, JObj [("controller_token", JStr (vaultTok s));
                       ("daemon_pub", JStr (daemonPub s));
                       ("daemon_pub_v2", JStr (daemonPubV2 s));
                       ("first_claim", JBool first);
                       ("versions", match versions s with
                                      | Some l => JArr (JInt <$> l)
                                      | None => JNull
                                      end)]),
         MkServer (<[claim_id path := s]> (sessions srv)) (sent srv))
  end.

Definition not_found : response := (404%Z, JStr "404 page not found").

(** [ServeHTTP] of everything but the upgrade. *)
Definition ServeHTTP (id tok method path body secret : string) (srv : Server)
  : response * Server :=
  if bool_decide (path = "/ws/sessions" ∧ method = "POST") then handleCreate id tok body srv
  else if HasPrefix path "/ws/sessions/" && HasSuffix path "/claim" &&
          bool_decide (method = "POST") then handleClaim tok path secret srv
  else (not_found, srv).

End Hub.

(** ** Sockets *)

(** [handleWS] up to its receive loop; [None]: refused. *)
Definition connect (ws : nat) (id role tok : string) (srv : Server) : option Server :=
  match sessions srv !! id with
  | None => None
  | Some s =>
      if bool_decide (role ≠ roleDaemon ∧ role ≠ roleVault) then None
      else
        let want := if decide (role = roleVault) then vaultTok s else daemonTok s in
        if bool_decide (want = "" ∨ tok ≠ want) then None
        else
          let s := set_conns (<[role := ws]> (conns s)) s in
          let srv := MkServer (<[id := s]> (sessions srv)) (sent srv) in
          Some (match conns s !! other role with
                | Some o => sendPresence ws "peer_online" (other role)
                              (sendPresence o "peer_online" role srv)
                | None => srv
                end)
  end.

(** One turn of the loop of the handler of [ws]. *)
Definition receive (ws : nat) (id role data : string) (srv : Server) : Server :=
  if isSystemFrame data then
    if isKeepalive data then send_to ws ka_ack srv else srv
  else
    match s ← sessions srv !! id; conns s !! other role with
    | Some peer => send_to peer data srv
    | None => srv
    end.

(** The deferred function when the handler of [ws] ends. *)
Definition disconnect (ws : nat) (id role : string) (srv : Server) : Server :=
  match sessions srv !! id with
  | None => srv
  | Some s =>
      let s := if bool_decide (conns s !! role = Some ws)
               then set_conns (delete role (conns s)) s else s in
      let srv := MkServer (<[id := s]> (sessions srv)) (sent srv) in
      match conns s !! other role with
      | Some peer => sendPresence peer "peer_offline" role srv
      | None => srv
      end
  end.

End Hub.
