(* ===== verification/Ws.v ===== *)
(** * internal/transport/ws: a WebSocket to the session hub

    The connection as a state machine (what starts it, a frame or an error of the
    socket, a tick of the keepalive, [Close]), the check of the hub's address, and the
    dialling.  The HTTP client and [golang.org/x/net/websocket] are functions on the
    outside world [W]. *)
From stdpp Require Import pretty.
From S2P Require Import Prelude GoStrings GoJson GoFloat GoJsonPrint GoBase64 GoTime GoHttp.
From S2P Require Import GoUrl Rpc.
Import GoStr GoJson JsonPrint GoTime GoHttp GoNet GoUrl.

Module Ws.

(** ** The connection *)

(** What the registered callbacks are called with. *)
Inductive callback := COpen | CData (b : string) | CClose.

(** [done] is the closed channel, [dead] a socket on which [Receive] fails; a goroutine
    that has returned is not [reading] or not [ticking]. *)
Record Conn := MkConn {
  ws : nat;
  sid : string;
  token : string;
  started : bool;
  done : bool;
  dead : bool;
  reading : bool;
  ticking : bool;
  lastRead : Z;
  calls : list callback;
  sent : list string;
}.

Definition new_conn (ws : nat) (sid token : string) : Conn :=
  MkConn ws sid token false false false false false 0 [] [].

Definition readSilenceLimit : Z := 90 * Second.
Definition keepaliveInterval : Z := 25 * Second.
Definition ka : string := print (JObj [("sys", JStr "ka")]).

Definition Start (now : Z) (c : Conn) : Conn :=
  if started c then c
  else MkConn (ws c) (sid c) (token c) true (done c) (dead c) true true now
         (calls c ++ [COpen]) (sent c).

Definition stop (c : Conn) : Conn :=
  MkConn (ws c) (sid c) (token c) (started c) true (dead c) (reading c) (ticking c)
    (lastRead c) (calls c) (sent c).

Definition kill (c : Conn) : Conn :=
  MkConn (ws c) (sid c) (token c) (started c) (done c) true (reading c) (ticking c)
    (lastRead c) (calls c) (sent c).

Definition Close (c : Conn) : Conn := kill (stop c).

Definition Send (b : string) (c : Conn) : Conn :=
  MkConn (ws c) (sid c) (token c) (started c) (done c) (dead c) (reading c) (ticking c)
    (lastRead c) (calls c) (sent c ++ [b]).

(** [Receive] returned a frame. *)
Definition read_frame (now : Z) (b : string) (c : Conn) : Conn :=
  MkConn (ws c) (sid c) (token c) (started c) (done c) (dead c) (reading c) (ticking c) now
    (calls c ++ [CData b]) (sent c).

(** [Receive] failed: the loop ends and says so. *)
Definition read_error (c : Conn) : Conn :=
  MkConn (ws c) (sid c) (token c) (started c) true (dead c) false (ticking c) (lastRead c)
    (calls c ++ [CClose]) (sent c).

Definition stop_ticking (c : Conn) : Conn :=
  MkConn (ws c) (sid c) (token c) (started c) (done c) (dead c) (reading c) false
    (lastRead c) (calls c) (sent c).

(** One tick: the keepalive is sent; when that succeeds, silence is looked for. *)
Definition tick (now : Z) (send_ok : bool) (c : Conn) : Conn :=
  if negb send_ok then stop_ticking c
  else
    let c := Send ka c in
    if (readSilenceLimit <? now - lastRead c)%Z then stop_ticking (kill c) else c.

(** What can happen, and when. *)
Inductive event :=
  | Frame (b : string)       (* a frame arrives *)
  | Lost                     (* the socket reports an error *)
  | Tick (send_ok : bool)    (* the ticker of the keepalive fires *)
  | Done                     (* the keepalive sees that [done] is closed *)
  | CloseCall.

(** A dead socket delivers no frame; a goroutine that has ended does nothing. *)
Definition step (now : Z) (e : event) (c : Conn) : Conn :=
  match e with
  | Frame b => if reading c && negb (dead c) then read_frame now b c else c
  | Lost => if reading c then read_error c else c
  | Tick ok => if ticking c then tick now (ok && negb (dead c)) c else c
  | Done => if done c then stop_ticking c else c
  | CloseCall => Close c
  end.

Definition run (es : list (Z * event)) (c : Conn) : Conn :=
  fold_left (λ c te, step te.1 te.2 c) es c.

(** ** The address of the hub *)

Inductive ws_error :=
  | BadUrl (hub : string)
  | UnsupportedScheme (hub scheme : string)
  | PlaintextRefused (hub : string)
  | HubStatus (endpoint : string) (code : Z) (body : string)
  | PublishStatus (code : Z)
  | BadReply
  | Network (e : string).

Definition checkHubURL (allowInsecure : bool) (hubURL : string) : result ws_error () :=
  match Parse hubURL with
  | None => Err (BadUrl hubURL)
  | Some u =>
      if bool_decide (Scheme u = "https" ∨ Scheme u = "wss") then Ok tt
      else if negb (bool_decide (Scheme u = "http" ∨ Scheme u = "ws"))
      then Err (UnsupportedScheme hubURL (Scheme u))
      else if bool_decide (Hostname u = "localhost") then Ok tt
      else if from_option IsLoopback false (ParseIP (Hostname u)) then Ok tt
      else if allowInsecure then Ok tt
      else Err (PlaintextRefused hubURL)
  end.

Definition toWSScheme (httpURL : string) : string :=
  if HasPrefix httpURL "https://" then "wss://" +:+ TrimPrefix httpURL "https://"
  else "ws://" +:+ TrimPrefix httpURL "http://".

(** [NewClaimSecret], on the 32 random bytes it reads. *)
Definition NewClaimSecret (rand : string) : string := Base64.RawURLEncode rand.

(** ** Dialling *)

(** A POST: endpoint, headers and body; the status and the body of the reply. *)
Record Net (W : Type) := MkNet {
  post : string → list (string * string) → string → W → result string (Z * string) * W;
  dial : string → string → W → result string nat * W;
}.
Arguments post {W} _.
Arguments dial {W} _.

Section Dial.
Context {W : Type} (net : Net W) (allowInsecure : bool).

Definition json_type : string * string := ("Content-Type", "application/json").

(** The reply, decoded; [zero] is the variable it is decoded into. *)
Definition postJSONWithHeader {A} (d : decoder A) (zero : A) (endpoint header value : string)
    (body : option json) (w : W) : result ws_error A * W :=
  let hs := json_type :: if bool_decide (header ≠ "" ∧ value ≠ "") then [(header, value)] else [] in
  match post net endpoint hs (from_option print "" body) w with
  | (Err e, w) => (Err (Network e), w)
  | (Ok (code, text), w) =>
      if (code =? 200)%Z then
        match Decode_stream d text zero with
        | (a, true) => (Ok a, w)
        | _ => (Err BadReply, w)
        end
      else (Err (HubStatus endpoint code text), w)
  end.

Definition postJSON {A} (d : decoder A) (zero : A) (endpoint : string) (body : option json) (w : W)
  : result ws_error A * W := postJSONWithHeader d zero endpoint "" "" body w.

Definition dialWS (hubURL sid role tok : string) (w : W) : result ws_error nat * W :=
  let wsURL := toWSScheme hubURL +:+ "/ws/connect?sid=" +:+ QueryEscape sid +:+
               "&role=" +:+ QueryEscape role +:+ "&token=" +:+ QueryEscape tok in
  match dial net wsURL (TrimSuffix hubURL "/") w with
  | (Ok s, w) => (Ok s, w)
  | (Err e, w) => (Err (Network e), w)
  end.

(** *** The daemon's side *)

Record created := MkCreated { SessionID : string; DaemonToken : string }.

Definition created_fields : list (string * decoder created) :=
  [("session_id", field_string (λ r x, MkCreated x (DaemonToken r)));
   ("daemon_token", field_string (λ r x, MkCreated (SessionID r) x))].

Definition nonempty (k v : string) : list (string * json) :=
  if decide (v = "") then [] else [(k, JStr v)].

Definition versions_json : json := JArr (JInt <$> Rpc.Supported).

(** The body of the request, in the order of its keys. *)
Definition create_body (pub pubV2 claimSecret : string) : json :=
  JObj (nonempty "claim_secret" claimSecret ++ [("init", JBool true)] ++
        nonempty "pub" pub ++ nonempty "pub_v2" pubV2 ++
        [("role", JStr "daemon"); ("versions", versions_json)]).

Definition DialDaemon (hubURL pub pubV2 claimSecret : string) (w : W) : result ws_error Conn * W :=
  match checkHubURL allowInsecure hubURL with
  | Err e => (Err e, w)
  | Ok _ =>
      match postJSON (struct_of created_fields) (MkCreated "" "") (hubURL +:+ "/ws/sessions")
              (Some (create_body pub pubV2 claimSecret)) w with
      | (Err e, w) => (Err e, w)
      | (Ok r, w) =>
          match dialWS hubURL (SessionID r) "daemon" (DaemonToken r) w with
          | (Err e, w) => (Err e, w)
          | (Ok s, w) => (Ok (new_conn s (SessionID r) (DaemonToken r)), w)
          end
      end
  end.

Definition ReconnectDaemon (hubURL sessionID tok : string) (w : W) : result ws_error Conn * W :=
  match checkHubURL allowInsecure hubURL with
  | Err e => (Err e, w)
  | Ok _ =>
      match dialWS hubURL sessionID "daemon" tok w with
      | (Err e, w) => (Err e, w)
      | (Ok s, w) => (Ok (new_conn s sessionID tok), w)
      end
  end.

Definition JoinDaemon := ReconnectDaemon.

Definition PublishPub (hubURL sessionID tok pub pubV2 : string) (w : W) : result ws_error () * W :=
  match checkHubURL allowInsecure hubURL with
  | Err e => (Err e, w)
  | Ok _ =>
      let body := print (JObj [("pub", JStr pub); ("pub_v2", JStr pubV2); ("versions", versions_json)]) in
      match post net (hubURL +:+ "/ws/sessions/" +:+ sessionID +:+ "/pub")
              [json_type; ("X-Valet-Role-Token", tok)] body w with
      | (Err e, w) => (Err (Network e), w)
      | (Ok (code, _), w) => (if (code =? 204)%Z then Ok tt else Err (PublishStatus code), w)
      end
  end.

(** *** The vault's side *)

Record claimed := MkClaimed {
  ControllerToken : string; DaemonPub : string; DaemonPubV2 : string; Versions : list Z }.

Definition claimed_fields : list (string * decoder claimed) :=
  [("controller_token", field_string (λ r x, MkClaimed x (DaemonPub r) (DaemonPubV2 r) (Versions r)));
   ("daemon_pub", field_string (λ r x, MkClaimed (ControllerToken r) x (DaemonPubV2 r) (Versions r)));
   ("daemon_pub_v2", field_string (λ r x, MkClaimed (ControllerToken r) (DaemonPub r) x (Versions r)));
   ("versions", field_ints (λ r x, MkClaimed (ControllerToken r) (DaemonPub r) (DaemonPubV2 r) x))].

(** The connection, the daemon's key and the versions the hub shows. *)
Definition DialController (hubURL sessionID claimSecret : string) (w : W)
  : result ws_error (Conn * string * list Z) * W :=
  match checkHubURL allowInsecure hubURL with
  | Err e => (Err e, w)
  | Ok _ =>
      match postJSONWithHeader (struct_of claimed_fields) (MkClaimed "" "" "" [])
              (hubURL +:+ "/ws/sessions/" +:+ sessionID +:+ "/claim")
              "X-Valet-Claim-Secret" claimSecret None w with
      | (Err e, w) => (Err e, w)
      | (Ok r, w) =>
          match dialWS hubURL sessionID "vault" (ControllerToken r) w with
          | (Err e, w) => (Err e, w)
          | (Ok s, w) => (Ok (new_conn s "" "", DaemonPub r, Versions r), w)
          end
      end
  end.

End Dial.
End Ws.
