(* ===== verification/HubProps.v ===== *)
(** * What the hub guarantees, and what it does not *)
From S2P Require Import Prelude GoStrings GoJson GoFloat GoJsonPrint Hub.
From S2P Require Import GoTime Rpc Node NodeTheorems.
Import GoStr GoJson GoFloat JsonPrint Hub.

Module HubTheorems.

(** C14: claiming is authorised by the claim secret: a session that has one answers a
    claim with success exactly when the secret hashes to it, nothing but the vault
    token of that session changes, the token is drawn by the first claim only, and
    every later one gets the same. *)
Theorem claim_authorised sha tok path secret srv s :
  sessions srv !! claim_id path = Some s →
  let '((code, body), srv') := handleClaim sha tok path secret srv in
  (code = 200%Z ↔ (claimHash s = "" ∨ sha secret = claimHash s)) ∧
  sent srv' = sent srv ∧
  (∀ id, id ≠ claim_id path → sessions srv' !! id = sessions srv !! id) ∧
  (code ≠ 200%Z → srv' = srv) ∧
  (code = 200%Z → ∃ s', sessions srv' !! claim_id path = Some s' ∧
     s' = set_vaultTok (if decide (vaultTok s = "") then tok else vaultTok s) s ∧
     ∃ l, body = JObj l ∧ obj_lookup "controller_token" l = Some (JStr (vaultTok s')) ∧
       (tok ≠ "" → ∀ tok' secret' l' srv'',
          handleClaim sha tok' path secret' srv' = ((200%Z, JObj l'), srv'') →
          obj_lookup "controller_token" l' = Some (JStr (vaultTok s')) ∧
          obj_lookup "first_claim" l' = Some (JBool false))).
Proof.
  intros Hs. unfold handleClaim. rewrite Hs.
  destruct (bool_decide (claimHash s ≠ "") && negb (bool_decide (sha secret = claimHash s))) eqn:Hb.
  - apply andb_true_iff in Hb as [H1%bool_decide_eq_true H2%negb_true_iff].
    apply bool_decide_eq_false in H2. split_and!; [|done..]. split; [done|]. by intros [?|?].
  - assert (claimHash s = "" ∨ sha secret = claimHash s) as Hok.
    { destruct (decide (claimHash s = "")); [by left|right].
      apply andb_false_iff in Hb as [Hb|Hb]; [by apply bool_decide_eq_false in Hb|].
      apply negb_false_iff in Hb. by apply bool_decide_eq_true in Hb. }
    set (s' := if bool_decide (vaultTok s = "") then _ else s).
    assert (s' = set_vaultTok (if decide (vaultTok s = "") then tok else vaultTok s) s) as Hs'.
    { subst s'. clear. destruct (decide (vaultTok s = "")) as [Hv|Hv].
      - by rewrite bool_decide_eq_true_2.
      - rewrite bool_decide_eq_false_2 by done. by destruct s. }
    split_and!; [done|done| |done|].
    + intros id Hid. cbn [sessions]. rewrite lookup_insert_ne; [done|congruence].
    + intros _. exists s'. cbn [sessions]. rewrite lookup_insert_eq. split; [done|]. split; [done|].
      eexists. split; [done|]. split; [done|].
      intros Htok tok' secret' l' srv''.
      destruct (bool_decide (claimHash s' ≠ "") && _); [done|]. intros Hx.
      assert (vaultTok s' ≠ "") as Hv.
      { rewrite Hs'. simpl. by case_decide. }
      rewrite bool_decide_eq_false_2 in Hx by done. injection Hx as <- _. done.
Qed.

(** C15: the hub relays between the two roles and nobody else: a frame received on one
    socket reaches at most the socket of the other role of the same session and
    then carries no [sys] member, or is answered with an acknowledgement to its
    sender; and a socket is only ever registered for a role whose token it showed. *)
Theorem relay_confined ws id role data srv :
  let srv' := receive ws id role data srv in
  sessions srv' = sessions srv ∧
  (sent srv' = sent srv ∨
   (sent srv' = sent srv ++ [(ws, ka_ack)] ∧ isSystemFrame data = true) ∨
   (∃ s peer, sessions srv !! id = Some s ∧ conns s !! other role = Some peer ∧
      sent srv' = sent srv ++ [(peer, data)] ∧ isSystemFrame data = false)) ∧
  ∀ tok srv2, connect ws id role tok srv = Some srv2 →
    ∃ s, sessions srv !! id = Some s ∧ tok ≠ "" ∧
      ((role = roleVault ∧ tok = vaultTok s) ∨ (role = roleDaemon ∧ tok = daemonTok s)).
Proof.
  intros srv'. subst srv'. unfold receive. split_and!.
  - destruct (isSystemFrame data); [by destruct (isKeepalive data)|]. by case_match.
  - destruct (isSystemFrame data) eqn:Hf; [destruct (isKeepalive data); auto|].
    destruct (sessions srv !! id) as [s|] eqn:Hs; simpl; [|by left].
    destruct (conns s !! other role) as [peer|] eqn:Hp; [|by left].
    right. right. exists s, peer. done.
  - intros tok srv2. unfold connect. destruct (sessions srv !! id) as [s|]; [|done].
    case_bool_decide as Hr; [done|]. case_bool_decide as Ht; [done|]. intros _.
    exists s. split; [done|].
    destruct (decide (role = roleVault)) as [->|Hv];
      [destruct (decide (tok = vaultTok s)); naive_solver|].
    destruct (decide (role = roleDaemon)); [|naive_solver].
    destruct (decide (tok = daemonTok s)); naive_solver.
Qed.

(** A presence frame with its key in capitals. *)
Definition shouted_frame : string :=
  print (JObj [("SYS", JStr "peer_offline"); ("role", JStr "vault")]).

(** The filter of the hub and the decoder of the node disagree about the case of
    a key: a peer may send [SYS], the hub relays it, and the daemon's node takes it
    for the hub's report that the vault is gone and starts (or runs out) the
    countdown. *)
Theorem shouted_presence_relayed `{Node.NodeHost W} Quote sha corrupt t now
    ws id role srv s peer (n : Node.MemoryNode (W:=W)) :
  sessions srv !! id = Some s → conns s !! other role = Some peer →
  sent (receive ws id role shouted_frame srv) = sent srv ++ [(peer, shouted_frame)] ∧
  Node.onData Quote sha corrupt t now shouted_frame n = Node.startGrace now n.
Proof.
  intros Hs Hp. split.
  - unfold receive. assert (isSystemFrame shouted_frame = false) as -> by (by vm_compute).
    rewrite Hs. simpl. by rewrite Hp.
  - rewrite NodeFacts.onData_presence by (by vm_compute).
    by assert (NodeFacts.offline shouted_frame = true) as -> by (by vm_compute).
Qed.

(** A vault that reconnects before its old socket is noticed to be dead is
    reported gone when the old socket ends, although its new one is registered and
    stays so: the daemon starts its countdown with the vault connected. *)
Theorem stale_socket_reports_offline ws ws' id role srv s peer :
  sessions srv !! id = Some s → conns s !! role = Some ws' → ws' ≠ ws →
  conns s !! other role = Some peer →
  let srv' := disconnect ws id role srv in
  sessions srv' !! id = Some s ∧
  sent srv' = sent srv ++ [(peer, presence "peer_offline" role)].
Proof.
  intros Hs Hr Hne Hp. unfold disconnect. rewrite Hs.
  rewrite bool_decide_eq_false_2 by congruence. rewrite Hp. simpl.
  split; [|done]. apply lookup_insert_eq.
Qed.

(** *** Concrete runs *)

Import NodeDemo.

Definition create_text : string :=
  print (JObj [("role", JStr "daemon"); ("claim_secret", JStr "s3cret")]).
Definition srv0 : Server := (handleCreate id "sid" "dtok" create_text New).2.
Definition srv1 : Server := (handleClaim id "vtok" "/ws/sessions/sid/claim" "s3cret" srv0).2.
Definition srv2 : Server := default srv1 (connect 1 "sid" "daemon" "dtok" srv1).
Definition srv3 : Server := default srv2 (connect 2 "sid" "vault" "vtok" srv2).
Definition srv4 : Server := default srv3 (connect 3 "sid" "vault" "vtok" srv3).

Lemma claim_authorised_witness :
  (handleClaim id "vtok" "/ws/sessions/sid/claim" "guess" srv0).1.1 = 403%Z ∧
  (handleClaim id "vtok" "/ws/sessions/sid/claim" "s3cret" srv0).1.1 = 200%Z.
Proof.
  assert (is_Some (sessions srv0 !! claim_id "/ws/sessions/sid/claim")) as [s Hs]
    by (vm_compute; by eexists).
  split; [vm_compute; done|].
  pose proof (claim_authorised id "vtok" "/ws/sessions/sid/claim" "s3cret" srv0 s Hs) as Hc.
  destruct (handleClaim id "vtok" "/ws/sessions/sid/claim" "s3cret" srv0) as [[code body] srv'].
  destruct Hc as [Hc _]. apply Hc. right. vm_compute in Hs. injection Hs as <-. done.
Defined.

Lemma shouted_presence_relayed_witness :
  ∃ s : session, sessions srv3 !! "sid" = Some s ∧
  sent (receive 2 "sid" "vault" shouted_frame srv3) = sent srv3 ++ [(1, shouted_frame)] ∧
  Node.grace (Node.onData id id id (λ _, NodeDemo.clk) 1000 shouted_frame NodeDemo.node0)
    = Some (Node.MkTimer (1000 + 5 * GoTime.Second) true).
Proof.
  assert (∃ s : session, sessions srv3 !! "sid" = Some s ∧ conns s !! "daemon" = Some 1) as (s & Hs & Hp)
    by (eexists; split; vm_compute; done).
  exists s. split; [exact Hs|].
  destruct (shouted_presence_relayed id id id (λ _, NodeDemo.clk) 1000 2 "sid" "vault" srv3 s 1
    NodeDemo.node0 Hs Hp) as [H1 H2].
  split; [exact H1|]. by rewrite H2.
Defined.

Lemma stale_socket_reports_offline_witness :
  ∃ s : session, sessions srv4 !! "sid" = Some s ∧ conns s !! "vault" = Some 3 ∧
  sent (disconnect 2 "sid" "vault" srv4) = sent srv4 ++ [(1, presence "peer_offline" "vault")].
Proof.
  assert (∃ s : session, sessions srv4 !! "sid" = Some s ∧ conns s !! "vault" = Some 3 ∧
    conns s !! "daemon" = Some 1) as (s & Hs & Hv & Hp)
    by (eexists; split_and!; vm_compute; done).
  exists s. split; [exact Hs|]. split; [exact Hv|].
  apply (stale_socket_reports_offline 2 3 "sid" "vault" srv4 s 1 Hs Hv); done.
Defined.

End HubTheorems.
