(* ===== verification/WsProps.v ===== *)
(** * internal/transport/ws: what a connection to the hub is good for *)
From S2P Require Import Prelude GoStrings GoJson GoFloat GoUtf8 GoJsonPrint GoTime GoHttp GoUrl.
From S2P Require Import GoBase64 Rpc SessionTheorems Hub Ws.
Import GoStr GoJson UTF8 JsonPrint GoTime GoHttp Ws.

Module WsTheorems.

(** ** Silence *)

(** Frames arrive and the ticker fires; nobody closes the connection, and the socket takes
    what is written to it (a half-open one does). *)
Definition undisturbed (te : Z * event) : Prop :=
  match te.2 with Frame _ => True | Tick ok => ok = true | _ => False end.

(** Some tick finds that nothing has arrived for longer than the limit; [last] is when
    something last did. *)
Fixpoint silent (last : Z) (es : list (Z * event)) : bool :=
  match es with
  | [] => false
  | (t, Frame _) :: es => silent t es
  | (t, Tick _) :: es => (readSilenceLimit <? t - last)%Z || silent last es
  | _ :: es => silent last es
  end.

(** A connection whose goroutines run. *)
Definition live (c : Conn) : Prop :=
  reading c = true ∧ ticking c = true ∧ dead c = false ∧ done c = false.

(** A socket found dead: only the reader is left, to report it. *)
Definition doomed (c : Conn) : Prop :=
  reading c = true ∧ ticking c = false ∧ dead c = true ∧ done c = false.

Lemma run_doomed es c : Forall undisturbed es → doomed c → run es c = c.
Proof.
  intros Hes (Hr & Ht & Hd & Hdone). induction Hes as [|[t e] es He _ IH]; [done|].
  unfold run in *. cbn [fold_left fst snd]. assert (step t e c = c) as ->; [|exact IH].
  destruct e; try done; simpl; [by rewrite Hd, andb_false_r|by rewrite Ht].
Qed.

Lemma run_silent es : Forall undisturbed es → ∀ c, live c →
  let c' := run es c in
  if silent (lastRead c) es then doomed c' else live c'.
Proof.
  intros Hes. induction Hes as [|[t e] es He Hes IH]; intros c Hc; [exact Hc|].
  destruct Hc as (Hr & Ht & Hd & Hdone). unfold run in *. cbn [fold_left fst snd].
  destruct e as [b| |ok| |]; try done; cbn [step silent].
  - rewrite Hr, Hd. simpl. by apply (IH (read_frame t b c)).
  - change (ok = true) in He. subst ok. rewrite Ht, Hd. cbn [negb andb]. unfold tick. cbn [negb].
    change (lastRead (Send ka c)) with (lastRead c).
    destruct (readSilenceLimit <? t - lastRead c)%Z; cbn [orb].
    + pose proof (run_doomed es (stop_ticking (kill (Send ka c))) Hes) as Hrun.
      unfold run in Hrun. rewrite Hrun by (by split_and!). by split_and!.
    + by apply (IH (Send ka c)).
Qed.

(** The frames of a run. *)
Definition heard_by (t : Z) (te : Z * event) : Prop :=
  match te.2 with Frame _ => (te.1 ≤ t)%Z | _ => True end.

Lemma silent_late es last t u : (last ≤ t)%Z → Forall (heard_by t) es →
  (u, Tick true) ∈ es → (t + readSilenceLimit < u)%Z → silent last es = true.
Proof.
  intros Hl Hes. revert last Hl. induction Hes as [|[v e] es He _ IH]; intros last Hl Hin Hu.
  { by apply elem_of_nil in Hin. }
  apply elem_of_cons in Hin as [Hx|Hin].
  - injection Hx as <- <-. simpl. apply orb_true_iff. left. lia.
  - destruct e; simpl; try (by apply IH).
    apply orb_true_iff. right. by apply IH.
Qed.

(** The first tick past the limit comes within one interval of it. *)
Lemma next_tick t0 t : (t0 ≤ t)%Z →
  ∃ k, (1 ≤ k)%Z ∧ (t + readSilenceLimit < t0 + k * keepaliveInterval)%Z ∧
    (t0 + k * keepaliveInterval ≤ t + readSilenceLimit + keepaliveInterval)%Z.
Proof.
  intros Ht. assert (0 < keepaliveInterval)%Z as Hi by done. assert (0 < readSilenceLimit)%Z as Hs by done.
  exists ((t + readSilenceLimit - t0) / keepaliveInterval + 1)%Z.
  pose proof (Z.div_mod (t + readSilenceLimit - t0) keepaliveInterval ltac:(lia)).
  pose proof (Z.mod_pos_bound (t + readSilenceLimit - t0) keepaliveInterval Hi).
  pose proof (Z.div_pos (t + readSilenceLimit - t0) keepaliveInterval ltac:(lia) Hi).
  split_and!; nia.
Qed.

(** C37: the keepalive ends a connection exactly when some tick finds that no frame has
    come for more than 90 seconds, so never one whose hub answers (which the hub does, at
    once, to every keepalive), and, the ticker firing every 25 seconds, always within 115
    seconds of the last frame of a half-open one; the reader then reports the close, once,
    whatever happens after. *)
Theorem half_open_detected sock id tok t0 es :
  Forall undisturbed es →
  let c := run es (Start t0 (new_conn sock id tok)) in
  dead c = silent t0 es ∧
  (dead c = true → ∀ t es', let c' := run es' (step t Lost c) in calls c' = calls c ++ [CClose]) ∧
  (∀ t n, (t0 ≤ t)%Z → Forall (heard_by t) es →
     (∀ k, (1 ≤ k ≤ n)%Z → (t0 + k * keepaliveInterval, Tick true)%Z ∈ es) →
     (t + readSilenceLimit + keepaliveInterval ≤ t0 + n * keepaliveInterval)%Z → dead c = true) ∧
  ∀ role srv, Hub.receive sock id role ka srv = Hub.send_to sock Hub.ka_ack srv.
Proof.
  intros Hes c. set (c0 := Start t0 (new_conn sock id tok)) in *.
  pose proof (run_silent es Hes c0 ltac:(by split_and!)) as Hrun. fold c in Hrun.
  change (lastRead c0) with t0 in Hrun.
  assert (dead c = silent t0 es) as Hdead.
  { destruct (silent t0 es); apply Hrun. }
  split_and!; [done| | |].
  - intros Hd t es'. rewrite Hd in Hdead. rewrite <- Hdead in Hrun. cbn [step].
    destruct Hrun as (Hr & _). rewrite Hr.
    assert (∀ c1, reading c1 = false → calls (run es' c1) = calls c1) as Hquiet.
    { clear. induction es' as [|[t e] es' IH]; intros c1 H1; [done|]. unfold run in *. cbn [fold_left fst snd].
      assert (reading (step t e c1) = false ∧ calls (step t e c1) = calls c1) as [H2 <-].
      { destruct e; cbn [step]; rewrite ?H1; try done; [|by destruct (done c1)].
        destruct (ticking c1); [|done]. unfold tick. by repeat case_match. }
      by apply IH. }
    by rewrite Hquiet.
  - intros t n Ht0 Hheard Hticks Hn. rewrite Hdead.
    destruct (next_tick t0 t Ht0) as (k & Hk & Hlo & Hhi).
    eapply silent_late; [exact Ht0|exact Hheard|apply (Hticks k)|done].
    split; [done|]. assert (0 < keepaliveInterval)%Z by done. nia.
  - intros role srv. unfold Hub.receive.
    assert (Hub.isSystemFrame ka = true ∧ Hub.isKeepalive ka = true) as [-> ->] by by vm_compute.
    done.
Qed.

(** ** Two ends meet at the hub *)

(** The hub behind an HTTP server at [base]: every request gets fresh random values, and
    the upgrade to a WebSocket succeeds whatever the handler then does. *)
Record Site := MkSite { hub : Hub.Server; seq : nat }.

Section pairing.
Context (sha : string → string) (base : string) (ids : nat → string).

Definition header_of (hs : list (string * string)) (k : string) : string :=
  default "" ((list_to_map hs : gmap string string) !! k).

Definition site_post (endpoint : string) (hs : list (string * string)) (body : string) (w : Site)
  : result string (Z * string) * Site :=
  if HasPrefix endpoint base then
    let '((code, j), s) := Hub.ServeHTTP sha (ids (seq w)) (ids (S (seq w))) "POST"
      (TrimPrefix endpoint base) body (header_of hs "X-Valet-Claim-Secret") (hub w) in
    (Ok (code, print j +:+ str1 newline), MkSite s (2 + seq w))
  else (Err "no such host", w).

Definition site_dial (url origin : string) (w : Site) : result string nat * Site :=
  let (loc, q) := cut url "?" in
  if decide (loc = toWSScheme base +:+ "/ws/connect") then
    let get k := query (MkRequest "GET" "/ws/connect" q ∅ "") k in
    (Ok (seq w), MkSite (default (hub w)
      (Hub.connect (seq w) (get "sid") (get "role") (get "token") (hub w))) (S (seq w)))
  else (Err "no such host", w).

Definition site : Net Site := MkNet Site site_post site_dial.

(** *** Requests and replies *)

Lemma HasPrefix_head s t : HasPrefix (s +:+ t) s = true.
Proof. apply HasPrefix_spec. by exists t. Qed.

Lemma TrimSuffix_app s t : TrimSuffix (s +:+ t) t = s.
Proof.
  unfold TrimSuffix, HasSuffix. rewrite length_sapp.
  replace (String.length s + String.length t - String.length t) with (String.length s) by lia.
  rewrite sdrop_app, stake_app, !bool_decide_true by (done || lia). done.
Qed.

Lemma HasSuffix_app s t : HasSuffix (s +:+ t) t = true.
Proof.
  unfold HasSuffix. rewrite length_sapp.
  replace (String.length s + String.length t - String.length t) with (String.length s) by lia.
  rewrite sdrop_app, !bool_decide_true by (done || lia). done.
Qed.

Lemma reply_decoded {A} (d : decoder A) k j zero : jok k j → (k ≤ max_depth)%N →
  Decode_stream d (print j +:+ str1 newline) zero = d j zero.
Proof.
  intros [Hj Hc]%jok_shape Hk. unfold Decode_stream.
  rewrite (parse_prefix_print k) by (done || by apply follow_sep). by rewrite Hc.
Qed.

Lemma body_decoded {A} (d : decoder A) k j zero : jok k j → (k ≤ max_depth)%N →
  Decode_stream d (print j) zero = d j zero.
Proof.
  intros [Hj Hc]%jok_shape Hk. unfold Decode_stream.
  rewrite <- (sapp_nil_r (print j)), (parse_prefix_print k) by done. by rewrite Hc.
Qed.

Lemma versions_jok : jok 1 versions_json.
Proof. apply (jok_arr 0). repeat constructor; apply num_lit_pretty. Qed.

Lemma create_decoded pub pub2 secret :
  utf8_str pub = true → utf8_str pub2 = true → utf8_str secret = true →
  Decode_stream (struct_of Hub.create_fields) (print (create_body pub pub2 secret))
    (Hub.MkCreate "" false "" "" None "") =
  (Hub.MkCreate "daemon" true pub pub2 (Some Rpc.Supported) secret, true).
Proof.
  intros H1 H2 H3. rewrite (body_decoded _ 2) by (done || (apply (jok_obj 1);
    repeat first [apply Forall_app_2 | apply Forall_cons_2 | apply Forall_nil_2
                 | unfold nonempty; case_decide
                 | split; [done|first [apply versions_jok | by constructor]]])).
  unfold create_body, nonempty. repeat case_decide; subst; reflexivity.
Qed.

(** The query of an upgrade, read back. *)
Lemma dialled sid role tok :
  let q := "sid=" +:+ QueryEscape sid +:+ "&role=" +:+ QueryEscape role +:+ "&token=" +:+ QueryEscape tok in
  ParseQuery q = [("sid", sid); ("role", role); ("token", tok)].
Proof.
  intros q. assert (q = Join ((λ kv, QueryEscape kv.1 +:+ "=" +:+ QueryEscape kv.2) <$>
    [("sid", sid); ("role", role); ("token", tok)]) (str1 "&"%char)) as ->.
  { subst q. simpl. rewrite <- !sapp_assoc. by rewrite !sapp_assoc. }
  unfold ParseQuery. rewrite Split_Join.
  - cbn [fmap list_fmap omap list_omap]. by rewrite !query_pair_item.
  - done.
  - apply Forall_fmap, Forall_true. intros [k v]. simpl. apply no_byte_app.
    split; [by apply escape_no_byte|]. apply no_byte_app. split; [done|by apply escape_no_byte].
Qed.

Lemma no_byte_sdrop c n s : no_byte c s → no_byte c (sdrop n s).
Proof.
  revert s. induction n as [|n IH]; intros [|a s] Hs; try done.
  apply no_byte_cons in Hs as [_ Hs]. by apply IH.
Qed.

Lemma no_byte_scheme c s : no_byte c s → no_byte c "wss://" → no_byte c (toWSScheme s).
Proof.
  intros Hs Hw. assert (no_byte c "ws://") as Hw' by (by apply no_byte_cons in Hw as [? [_ ?]%no_byte_cons];
    apply no_byte_cons).
  unfold toWSScheme, TrimPrefix. repeat case_match; apply no_byte_app; split; try done;
    by apply no_byte_sdrop.
Qed.

Context (Hbase : no_byte "?" base).

Lemma dial_run id role tok w :
  dialWS site base id role tok w =
  (Ok (seq w), MkSite (default (hub w) (Hub.connect (seq w) id role tok (hub w))) (S (seq w))).
Proof.
  unfold dialWS. cbn [dial site]. unfold site_dial.
  set (q := "sid=" +:+ QueryEscape id +:+ "&role=" +:+ QueryEscape role +:+ "&token=" +:+ QueryEscape tok).
  assert (toWSScheme base +:+ "/ws/connect?sid=" +:+ QueryEscape id +:+ "&role=" +:+
    QueryEscape role +:+ "&token=" +:+ QueryEscape tok =
    (toWSScheme base +:+ "/ws/connect") +:+ String "?" q) as -> by (by rewrite sapp_assoc).
  rewrite cut_app by (apply no_byte_app; split; [by apply no_byte_scheme|done]).
  rewrite decide_True by done.
  assert (∀ k, query (MkRequest "GET" "/ws/connect" q ∅ "") k =
    match find (λ kv, bool_decide (kv.1 = k)) [("sid", id); ("role", role); ("token", tok)] with
    | Some kv => kv.2 | None => "" end) as Hq.
  { intros k. unfold query. cbn [RawQuery]. unfold q. by rewrite dialled. }
  by rewrite !Hq.
Qed.

Context (Hids : ∀ i, ids i ≠ "" ∧ utf8_str (ids i) = true) (Hsha : ∀ s, sha s ≠ "").
Context (insecure : bool) (Hurl : checkHubURL insecure base = Ok tt).

(** The session that [DialDaemon] leaves behind, its socket registered. *)
Definition opened (pub pub2 secret : string) (w : Site) : Hub.session :=
  Hub.MkSession (ids (seq w)) (ids (S (seq w))) "" pub {["daemon" := 2 + seq w]}
    (Some Rpc.Supported) (sha secret) pub2.

Lemma DialDaemon_run pub pub2 secret w :
  utf8_str pub = true → utf8_str pub2 = true → utf8_str secret = true → secret ≠ "" →
  DialDaemon site insecure base pub pub2 secret w =
  (Ok (new_conn (2 + seq w) (ids (seq w)) (ids (S (seq w)))),
   MkSite (Hub.MkServer (<[ids (seq w) := opened pub pub2 secret w]> (Hub.sessions (hub w)))
             (Hub.sent (hub w))) (3 + seq w)).
Proof.
  intros H1 H2 H3 Hne. unfold DialDaemon. rewrite Hurl. unfold postJSON, postJSONWithHeader.
  cbn [post site]. unfold site_post. rewrite HasPrefix_head, TrimPrefix_app.
  unfold Hub.ServeHTTP. rewrite bool_decide_true by done. unfold Hub.handleCreate.
  cbn [from_option]. rewrite create_decoded by done. rewrite decide_True by done.
  rewrite decide_False by done. cbv beta match zeta. change (200 =? 200)%Z with true. cbv beta match.
  destruct (Hids (seq w)) as [Hn1 Hu1], (Hids (S (seq w))) as [Hn2 Hu2].
  rewrite (reply_decoded _ 1) by (done || (apply (jok_obj 0); repeat constructor; done)).
  change (struct_of created_fields _ _) with (MkCreated (ids (seq w)) (ids (S (seq w))), true).
  cbv beta match. cbn [SessionID DaemonToken]. rewrite dial_run. cbn [hub seq].
  unfold Hub.connect. cbn [Hub.sessions Hub.put_session Hub.sid]. rewrite lookup_insert_eq.
  rewrite bool_decide_false by naive_solver.
  rewrite decide_False by done. cbn [Hub.daemonTok]. rewrite bool_decide_false by naive_solver.
  cbv beta match zeta. cbn [Hub.conns]. change (∅ !! Hub.other "daemon") with (None (A:=nat)). cbv beta match.
  cbn [default from_option Hub.sessions]. by rewrite insert_insert_eq.
Qed.

(** What a claim gets, and the header it shows. *)
Lemma claim_run id guess w :
  let '((code, j), s) := Hub.handleClaim sha (ids (S (seq w)))
    ("/ws/sessions/" +:+ id +:+ "/claim") guess (hub w) in
  post site (base +:+ "/ws/sessions/" +:+ id +:+ "/claim")
    (json_type :: if bool_decide ("X-Valet-Claim-Secret" ≠ "" ∧ guess ≠ "")
                  then [("X-Valet-Claim-Secret", guess)] else []) "" w =
  (Ok (code, print j +:+ str1 newline), MkSite s (2 + seq w)).
Proof.
  cbn [post site]. unfold site_post. rewrite HasPrefix_head, TrimPrefix_app.
  unfold Hub.ServeHTTP. rewrite bool_decide_false by by intros [? _].
  rewrite HasPrefix_head, <- (sapp_assoc "/ws/sessions/"), HasSuffix_app, bool_decide_true by done.
  assert (header_of (json_type :: if bool_decide ("X-Valet-Claim-Secret" ≠ "" ∧ guess ≠ "")
    then [("X-Valet-Claim-Secret", guess)] else []) "X-Valet-Claim-Secret" = guess) as ->.
  { destruct (decide (guess = "")) as [->|Hg]; [done|]. by rewrite bool_decide_true. }
  cbn [andb]. by destruct (Hub.handleClaim _ _ _ _ _) as [[code j] s].
Qed.

Lemma claim_id_of id : Hub.claim_id ("/ws/sessions/" +:+ id +:+ "/claim") = id.
Proof. unfold Hub.claim_id. by rewrite TrimPrefix_app, TrimSuffix_app. Qed.

Lemma claimed_decoded tok pub pub2 first :
  struct_of claimed_fields (JObj [("controller_token", JStr tok); ("daemon_pub", JStr pub);
    ("daemon_pub_v2", JStr pub2); ("first_claim", JBool first); ("versions", versions_json)])
    (MkClaimed "" "" "" []) = (MkClaimed tok pub pub2 Rpc.Supported, true).
Proof. reflexivity. Qed.

(** The session once the vault has claimed it and is connected too. *)
Definition joined (tok : string) (sock : nat) (s : Hub.session) : Hub.session :=
  Hub.set_conns (<["vault" := sock]> (Hub.conns s)) (Hub.set_vaultTok tok s).

Lemma DialController_run s w d :
  Hub.sessions (hub w) !! Hub.sid s = Some s → Hub.vaultTok s = "" →
  Hub.versions s = Some Rpc.Supported → Hub.conns s !! "daemon" = Some d →
  utf8_str (Hub.daemonPub s) = true → utf8_str (Hub.daemonPubV2 s) = true → Hub.claimHash s ≠ "" →
  (∀ guess, sha guess ≠ Hub.claimHash s →
     ∃ e w', DialController site insecure base (Hub.sid s) guess w = (Err e, w') ∧ hub w' = hub w) ∧
  ∀ secret, sha secret = Hub.claimHash s →
    let v := 2 + seq w in
    DialController site insecure base (Hub.sid s) secret w =
      (Ok (new_conn v "" "", Hub.daemonPub s, Rpc.Supported),
       MkSite (Hub.MkServer (<[Hub.sid s := joined (ids (S (seq w))) v s]> (Hub.sessions (hub w)))
                 (Hub.sent (hub w) ++ [(d, Hub.presence "peer_online" "vault");
                                       (v, Hub.presence "peer_online" "daemon")])) (3 + seq w)).
Proof.
  intros Hs Hv Hver Hd Hp1 Hp2 Hc. split; intros g Hg; unfold DialController; rewrite Hurl;
    unfold postJSONWithHeader; cbn [from_option]; pose proof (claim_run (Hub.sid s) g w) as Hrun;
    unfold Hub.handleClaim in Hrun; rewrite claim_id_of, Hs in Hrun;
    rewrite (bool_decide_true (Hub.claimHash s ≠ "")) in Hrun by done.
  - rewrite bool_decide_false in Hrun by done. cbn [andb negb] in Hrun. rewrite Hrun.
    eexists _, _. by split.
  - rewrite (bool_decide_true (sha g = _)) in Hrun by done. cbn [andb negb] in Hrun.
    rewrite (bool_decide_true (Hub.vaultTok s = "")) in Hrun by done. cbn [Hub.vaultTok Hub.versions
      Hub.daemonPub Hub.daemonPubV2 Hub.set_vaultTok] in Hrun. rewrite Hver in Hrun.
    rewrite Hrun. change (200 =? 200)%Z with true. cbv beta match.
    destruct (Hids (S (seq w))) as [Hn Hu].
    rewrite (reply_decoded _ 2) by (done || (apply (jok_obj 1); repeat first
      [apply Forall_cons_2 | apply Forall_nil_2 | split; [done|first [apply versions_jok | by constructor]]])).
    change (JArr (JInt <$> Rpc.Supported)) with versions_json. rewrite claimed_decoded.
    cbn [ControllerToken DaemonPub Versions]. rewrite dial_run. cbn [hub seq].
    unfold Hub.connect. cbn [Hub.sessions]. rewrite lookup_insert_eq.
    rewrite bool_decide_false by (intros [_ Hx]; done). rewrite decide_True by done.
    cbn [Hub.vaultTok Hub.set_vaultTok]. rewrite bool_decide_false by naive_solver.
    cbv beta match zeta. change (Hub.other "vault") with "daemon". cbn [Hub.conns Hub.set_vaultTok Hub.sent
      Hub.set_conns Hub.sessions]. rewrite lookup_insert_ne, Hd by done. cbn [default from_option].
    unfold Hub.sendPresence, Hub.send_to. cbn [Hub.sessions Hub.sent].
    by rewrite insert_insert_eq, <- (assoc_L (++)).
Qed.

(** A daemon and a vault meet at the hub with the session id and the claim secret. *)
Lemma DialDaemon_paired pub pub2 secret w :
  utf8_str pub = true → utf8_str pub2 = true → utf8_str secret = true → secret ≠ "" →
  ∃ c w1, DialDaemon site insecure base pub pub2 secret w = (Ok c, w1) ∧ utf8_str (sid c) = true ∧
    (∀ guess, sha guess ≠ sha secret →
       ∃ e w2, DialController site insecure base (sid c) guess w1 = (Err e, w2) ∧ hub w2 = hub w1) ∧
    ∃ v w2, DialController site insecure base (sid c) secret w1 = (Ok (v, pub, Rpc.Supported), w2) ∧
      ws v ≠ ws c ∧
      Hub.sent (hub w2) = Hub.sent (hub w) ++
        [(ws c, Hub.presence "peer_online" "vault"); (ws v, Hub.presence "peer_online" "daemon")] ∧
      ∀ data, Hub.isSystemFrame data = false →
        Hub.receive (ws c) (sid c) "daemon" data (hub w2) = Hub.send_to (ws v) data (hub w2) ∧
        Hub.receive (ws v) (sid c) "vault" data (hub w2) = Hub.send_to (ws c) data (hub w2).
Proof.
  intros H1 H2 H3 Hne. do 2 eexists. split; [by apply DialDaemon_run|].
  set (s := opened pub pub2 secret w). set (w1 := MkSite _ _).
  destruct (DialController_run s w1 (2 + seq w)) as [Hbad Hgood]; try done.
  { apply lookup_insert_eq. }
  { apply Hsha. }
  split; [apply Hids|]. split; [exact Hbad|]. do 2 eexists. split; [exact (Hgood secret eq_refl)|].
  split; [cbn [ws new_conn seq w1]; lia|]. split; [done|].
  intros data Hdata. unfold Hub.receive. rewrite Hdata.
  change (sid (new_conn _ _ _)) with (Hub.sid s).
  cbn [hub Hub.sessions]. rewrite lookup_insert_eq. cbn [mbind option_bind].
  unfold joined. cbn [Hub.conns Hub.set_conns Hub.set_vaultTok].
  change (Hub.other "daemon") with "vault". change (Hub.other "vault") with "daemon".
  by rewrite lookup_insert_eq, lookup_insert_ne.
Qed.

End pairing.

(** ** The hub's address *)

Lemma cut_prefix c p t : no_byte c p → cut (p +:+ t) c = (p +:+ (cut t c).1, (cut t c).2).
Proof.
  intros Hp. assert (IndexByte (p +:+ t) c = (λ i, String.length p + i) <$> IndexByte t c) as Hi.
  { induction p as [|a p IH]; [rewrite sapp_nil_l; by destruct (IndexByte t c)|].
    apply no_byte_cons in Hp as [Ha Hp]. rewrite sapp_cons. simpl. rewrite decide_False by done.
    rewrite IH by done. by destruct (IndexByte t c). }
  unfold cut. rewrite Hi. destruct (IndexByte t c) as [i|]; [|done]. simpl.
  clear Hp Hi. f_equal.
  - induction p as [|a p IH]; [done|]. simpl. by rewrite IH.
  - induction p as [|a p IH]; [done|]. exact IH.
Qed.

(** An address written with a lower-case [http] or [https] is dialled under TLS or is this
    machine's. *)
Lemma plaintext_only_to_loopback hubURL :
  HasPrefix hubURL "http://" = true ∨ HasPrefix hubURL "https://" = true →
  checkHubURL false hubURL = Ok tt →
  HasPrefix (toWSScheme hubURL) "wss://" = true ∨
  ∃ u, GoUrl.Parse hubURL = Some u ∧
    (GoUrl.Hostname u = "localhost" ∨ ∃ ip, GoNet.ParseIP (GoUrl.Hostname u) = Some ip ∧
       GoNet.IsLoopback ip = true).
Proof.
  intros [Hp|Hp] Hc; [right|left; unfold toWSScheme; rewrite Hp; apply HasPrefix_head].
  unfold checkHubURL in Hc. destruct (GoUrl.Parse hubURL) as [u|] eqn:Hu; [|done].
  exists u. split; [done|].
  assert (GoUrl.Scheme u = "http") as Hs.
  { clear Hc. apply HasPrefix_spec in Hp as [t ->]. unfold GoUrl.Parse in Hu.
    pose proof (cut_prefix "#" "http://" t eq_refl) as Hcut.
    destruct (cut t "#") as [t' frag]. cbn [fst snd] in Hcut.
    rewrite Hcut in Hu. destruct (_ || _); [done|]. rewrite decide_False in Hu by done.
    change (GoUrl.getScheme true ("http://" +:+ t')) with (Some (Some ("http", "//" +:+ t'))) in Hu.
    cbv beta match zeta delta [mbind option_bind default from_option] in Hu.
    change (ToLower "http") with "http" in Hu.
    destruct (cut ("//" +:+ t') "?") as [rest q]. repeat case_match; simplify_option_eq; done. }
  rewrite Hs in Hc. change (bool_decide ("http" = "https" ∨ "http" = "wss")) with false in Hc.
  change (bool_decide ("http" = "http" ∨ "http" = "ws")) with true in Hc. cbn [negb] in Hc.
  destruct (decide (GoUrl.Hostname u = "localhost")) as [Hl|Hl]; [by left|right].
  rewrite bool_decide_false in Hc by done.
  destruct (GoNet.ParseIP (GoUrl.Hostname u)) as [ip|]; [|done]. simpl in Hc.
  exists ip. split; [done|]. by destruct (GoNet.IsLoopback ip).
Qed.

(** Spelt otherwise it passes the check as TLS and is then dialled without. *)
Lemma wss_dialled_in_clear :
  checkHubURL false "wss://hub.example" = Ok tt ∧
  toWSScheme "wss://hub.example" = "ws://wss://hub.example" ∧
  checkHubURL false "HTTPS://hub.example" = Ok tt ∧
  toWSScheme "HTTPS://hub.example" = "ws://HTTPS://hub.example".
Proof. by vm_compute. Qed.

(** *** Concrete runs *)

Lemma half_open_detected_witness :
  let es := [(3 * Second, Frame "x"); (25 * Second, Tick true); (50 * Second, Tick true);
             (75 * Second, Tick true); (100 * Second, Tick true)]%Z in
  let c := run es (Start 0 (new_conn 1 "sid" "tok")) in
  dead c = true ∧ calls (step 0 Lost c) = [COpen; CData "x"; CClose].
Proof.
  intros es c. assert (Forall undisturbed es) as Hes by (repeat constructor).
  destruct (half_open_detected 1 "sid" "tok" 0 es Hes) as (Hd & Hclose & _). fold c in Hd, Hclose.
  assert (dead c = true) as Hdead by (rewrite Hd; vm_compute; reflexivity).
  assert (calls c = [COpen; CData "x"]) as Hcalls by (vm_compute; reflexivity).
  pose proof (Hclose Hdead 0%Z []) as Hc. clearbody c.
  split; [exact Hdead|]. change (calls (step 0 Lost c) = calls c ++ [CClose]) in Hc.
  by rewrite Hc, Hcalls.
Defined.

(** Identifiers, and a hash that says what it hashed. *)
Definition demo_ids (i : nat) : string := Base64.Encode (String "i" (String (ascii_of_nat i) "")).
Definition demo_sha (s : string) : string := "sha:" +:+ s.

Lemma demo_ids_text i : demo_ids i ≠ "" ∧ utf8_str (demo_ids i) = true.
Proof. split; [done|apply SessionFacts.utf8_Encode]. Qed.

End WsTheorems.
