(* ===== verification/Worker.v ===== *)
(** * signaling/worker.ts: the deployed signalling service and session hub

    The routes of the legacy WebRTC sessions over a store of values with an expiry, and the
    Durable Object that is one session of the WebSocket hub.  A value that the worker stores
    with [JSON.stringify] and reads with [JSON.parse] is kept as the value; a request is its
    parts, and the random values, the clock (milliseconds) and the relay servers are
    arguments.  An exception that leaves a handler is the runtime's answer 500. *)
From S2P Require Import Prelude GoStrings GoJson GoUtf8 GoFloat GoJsonPrint GoJsonRaw GoJsonText.
Import GoStr GoJson JsonPrint.

Module Worker.

(** ** JSON.stringify *)

Definition js_char (a : ascii) : string :=
  let z := bval a in
  if (z =? 34)%Z then String "\" (String "034" "")
  else if (z =? 92)%Z then "\\"
  else if (z =? 8)%Z then "\b"
  else if (z =? 12)%Z then "\f"
  else if (z =? 10)%Z then "\n"
  else if (z =? 13)%Z then "\r"
  else if (z =? 9)%Z then "\t"
  else if (z <? 32)%Z then escape_u z
  else String a "".

Fixpoint js_body (s : string) : string :=
  match s with EmptyString => "" | String a r => js_char a +:+ js_body r end.

Definition js_quote (s : string) : string := dq +:+ js_body s +:+ dq.

Fixpoint stringify (j : json) : string :=
  match j with
  | JNull => "null"
  | JBool true => "true"
  | JBool false => "false"
  | JNum l => l
  | JStr s => js_quote s
  | JArr l => "[" +:+ Join (List.map stringify l) "," +:+ "]"
  | JObj l =>
      "{" +:+ Join (List.map (λ kv, js_quote kv.1 +:+ ":" +:+ stringify kv.2) l) "," +:+ "}"
  end.

(** A property of an object: the last member of that name; [None] is [undefined]. *)
Definition prop (k : string) (j : json) : option json :=
  match j with
  | JObj l => snd <$> find (λ kv, bool_decide (kv.1 = k)) (reverse l)
  | _ => None
  end.

(** [b.k || ""], where only strings are expected. *)
Definition string_prop (k : string) (j : json) : string :=
  match prop k j with Some (JStr s) => s | _ => "" end.

Definition is_null (j : json) : bool := match j with JNull => true | _ => false end.

(** Values that count as true. *)
Definition truthy (j : option json) : bool :=
  match j with
  | None | Some JNull | Some (JBool false) | Some (JStr "") => false
  | Some (JNum l) => negb (bool_decide (l ∈ ["0"; "-0"]))
  | Some _ => true
  end.

(** ** The store *)

(** A candidate with its number. *)
Record CandidateEntry := MkEntry { seq : Z; candidate : json }.

Inductive stored := Text (s : string) | Value (j : json) | Entries (l : list CandidateEntry).

(** Values with the time they expire. *)
Abbreviation KV := (gmap string (stored * Z)).

Definition TTL : Z := 300000.

Definition get (now : Z) (k : string) (kv : KV) : option stored :=
  match kv !! k with
  | Some (v, e) => if (now <? e)%Z then Some v else None
  | None => None
  end.

Definition put (now : Z) (k : string) (v : stored) (kv : KV) : KV := <[k := (v, now + TTL)%Z]> kv.

Definition get_text (now : Z) (k : string) (kv : KV) : string :=
  match get now k kv with Some (Text s) => s | _ => "" end.

Definition entry_json (e : CandidateEntry) : json :=
  JObj [("seq", JInt (seq e)); ("candidate", candidate e)].

(** [JSON.parse] of what is stored; [None]: it throws. *)
Definition parsed (v : stored) : option json :=
  match v with
  | Text s => parse s
  | Value j => Some j
  | Entries l => Some (JArr (entry_json <$> l))
  end.

Definition loadCandidates (now : Z) (k : string) (kv : KV) : list CandidateEntry :=
  match get now k kv with Some (Entries l) => l | _ => [] end.

Definition tok_key (role id : string) : string := "tok:" +:+ role +:+ ":" +:+ id.
Definition ice_key (role id : string) : string := "ice:" +:+ role +:+ ":" +:+ id.

(** ** Responses *)

(** The status and the text of the body. *)
Definition response : Type := Z * string.

Definition json_response (status : Z) (j : json) : response := (status, stringify j).
Definition forbidden : response := json_response 403 (JObj [("error", JStr "forbidden")]).
Definition not_found : response := (404%Z, "not found").
Definition no_content : response := (204%Z, "").
Definition thrown : response := (500%Z, "").

(** A request without its route: the headers looked at, the body, the query. *)
Record Request := MkRequest { role_header : string; body : string; since_param : option string }.

(** [requireRoleToken]: whether the request is refused. *)
Definition refused (now : Z) (kv : KV) (id role : string) (r : Request) : bool :=
  let token := get_text now (tok_key role id) kv in
  bool_decide (token = "" ∨ role_header r = "" ∨ token ≠ role_header r).

(** ** Sessions *)

(** POST /sessions *)
Definition create_session (now : Z) (id daemonToken : string) (iceServers : list json) (r : Request) (kv : KV)
  : response * KV :=
  let b := default (JObj []) (parse (body r)) in
  if is_null b then (thrown, kv)
  else if decide (string_prop "role" b ≠ "daemon") then
    (json_response 400 (JObj [("error", JStr "role must be daemon")]), kv)
  else
    let register kv := put now (tok_key "daemon" id) (Text daemonToken) (put now ("owner:" +:+ id) (Text "daemon") kv) in
    if (match prop "init" b with Some (JBool true) => true | _ => false end) then
      (json_response 200 (JObj [("session_id", JStr id); ("daemon_token", JStr daemonToken);
         ("ttl", JInt 300); ("iceServers", JArr iceServers)]), register kv)
    else match prop "offer" b with
    | Some offer =>
        if truthy (Some offer) then
          (json_response 200 (JObj [("session_id", JStr id); ("daemon_token", JStr daemonToken); ("ttl", JInt 300)]),
           register (put now ("offer:" +:+ id) (Value offer) kv))
        else (json_response 400 (JObj [("error", JStr "missing offer")]), kv)
    | None => (json_response 400 (JObj [("error", JStr "missing offer")]), kv)
    end.

(** POST /sessions/:id/claim *)
Definition claim_session (now : Z) (fresh id : string) (kv : KV) : response * KV :=
  match get now ("offer:" +:+ id) kv with
  | None => (not_found, kv)
  | Some v =>
      match parsed v with
      | None => (thrown, kv)
      | Some offer =>
          let claimed := get_text now (tok_key "controller" id) kv in
          let reply t := json_response 200 (JObj [("controller_token", JStr t); ("offer", offer)]) in
          if decide (claimed ≠ "") then (reply claimed, kv)
          else (reply fresh, put now (tok_key "controller" id) (Text fresh) kv)
      end
  end.

(** GET /sessions/:id/turn *)
Definition turn_route (now : Z) (id : string) (iceServers : list json) (r : Request) (kv : KV) : response :=
  let dTok := get_text now (tok_key "daemon" id) kv in
  let cTok := get_text now (tok_key "controller" id) kv in
  let hdr := role_header r in
  if bool_decide (hdr = "" ∨ (hdr ≠ dTok ∧ hdr ≠ cTok)) then forbidden
  else json_response 200 (JObj [("iceServers", JArr iceServers); ("ttl_seconds", JInt 600)]).

(** GET /sessions/:id/:kind, for every other kind. *)
Definition get_route (now : Z) (id kind : string) (r : Request) (kv : KV) : response :=
  if decide (kind = "answer" ∧ refused now kv id "daemon" r = true) then forbidden
  else match get now (kind +:+ ":" +:+ id) kv with
  | None | Some (Text "") => not_found
  | Some v =>
      match parsed v with
      | None => thrown
      | Some j => json_response 200 (JObj [(kind, j)])
      end
  end.

(** POST /sessions/:id/answer and /offer: [role] is who may. *)
Definition post_description (now : Z) (kind role id : string) (r : Request) (kv : KV) : response * KV :=
  if refused now kv id role r then (forbidden, kv)
  else match parse (body r) with
  | None | Some JNull => (thrown, kv)
  | Some b =>
      match prop kind b with
      | Some d => if truthy (Some d) then (no_content, put now (kind +:+ ":" +:+ id) (Value d) kv)
                  else (json_response 400 (JObj [("error", JStr ("missing " +:+ kind))]), kv)
      | None => (json_response 400 (JObj [("error", JStr ("missing " +:+ kind))]), kv)
      end
  end.

(** ** Candidates *)

(** Whose token the request carries, if any. *)
Definition caller (now : Z) (id : string) (r : Request) (kv : KV) : option string :=
  let hdr := role_header r in
  if decide (hdr = "") then None
  else if decide (hdr = get_text now (tok_key "daemon" id) kv) then Some "daemon"
  else if decide (hdr = get_text now (tok_key "controller" id) kv) then Some "controller"
  else None.

Definition otherRole (role : string) : string := if decide (role = "daemon") then "controller" else "daemon".

(** Numbers go on from the last entry. *)
Fixpoint number (n : Z) (l : list json) : list CandidateEntry :=
  match l with
  | [] => []
  | c :: l => MkEntry (n + 1) c :: number (n + 1) l
  end.

Definition last_seq (l : list CandidateEntry) : Z := from_option seq 0%Z (last l).

Definition post_candidates (now : Z) (role id : string) (r : Request) (kv : KV) : response * KV :=
  match parse (body r) with
  | None | Some JNull => (thrown, kv)
  | Some b =>
      let l := match prop "candidates" b with Some (JArr l) => l | _ => [] end in
      let key := ice_key role id in
      let existing := loadCandidates now key kv in
      let seq := (last_seq existing + Z.of_nat (List.length l))%Z in
      (json_response 200 (JObj [("accepted", JInt (Z.of_nat (List.length l))); ("next", JInt seq)]),
       put now key (Entries (existing ++ number (last_seq existing) l)) kv)
  end.

(** [Number(url.searchParams.get("since") || "0")] for texts of decimal digits; any other is
    not a number here, and compares false with every number. *)
Definition since_number (s : option string) : option Z :=
  match s with
  | None | Some "" => Some 0%Z
  | Some s => digits_val 0 s
  end.

Definition newer (since : option Z) (l : list CandidateEntry) : list CandidateEntry :=
  List.filter (λ e, match since with Some n => (n <? seq e)%Z | None => false end) l.

Definition candidates_reply (l : list json) (next : option Z) : response :=
  json_response 200 (JObj [("candidates", JArr l); ("next", from_option JInt JNull next)]).

(** The loop of a GET; [looks] are the times at which it looks at the store, and what is in
    it then, three seconds apart.  With the reply, how often it has looked. *)
Fixpoint long_poll (fuel i : nat) (looks : nat → Z * KV) (started : Z) (key : string) (since : option Z)
  : option (response * nat) :=
  match fuel with
  | O => None
  | S fuel =>
      let (now, kv) := looks i in
      if (now - started <? 25000)%Z then
        let all := loadCandidates now key kv in
        match newer since all with
        | [] => long_poll fuel (S i) looks started key since
        | l => Some (candidates_reply (candidate <$> l) (Some (last_seq all)), i)
        end
      else Some (candidates_reply [] since, i)
  end.

(** GET /sessions/:id/candidates by [role], up to its loop. *)
Definition get_candidates (now : Z) (role id : string) (kv : KV) : option response :=
  if bool_decide (get_text now (tok_key "daemon" id) kv = "" ∨ get_text now (tok_key "controller" id) kv = "")
  then Some (json_response 409 (JObj [("error", JStr "session not ready")]))
  else None.

(** DELETE /sessions/:id *)
Definition delete_session (now : Z) (id : string) (r : Request) (kv : KV) : response * KV :=
  let dTok := get_text now (tok_key "daemon" id) kv in
  let cTok := get_text now (tok_key "controller" id) kv in
  let hdr := role_header r in
  if bool_decide (hdr = "" ∨ (hdr ≠ dTok ∧ hdr ≠ cTok)) then (forbidden, kv)
  else (no_content, delete (tok_key "controller" id) (delete (tok_key "daemon" id)
         (delete ("owner:" +:+ id) (delete ("answer:" +:+ id) (delete ("offer:" +:+ id) kv))))).

(** What a route answers at once, or the poll it starts: its key and its [since]. *)
Inductive routed := Reply (r : response) (kv : KV) | Poll (key : string) (since : option Z).

Definition routed_of (x : response * KV) : routed := Reply x.1 x.2.

(** The handler, below /sessions; [fresh] are an identifier and a token. *)
Definition fetch (now : Z) (fresh : string * string) (iceServers : list json)
    (method : string) (parts : list string) (r : Request) (kv : KV) : routed :=
  if decide (method = "OPTIONS") then Reply no_content kv
  else match parts with
  | ["sessions"] =>
      if decide (method = "POST") then routed_of (create_session now fresh.1 fresh.2 iceServers r kv)
      else Reply not_found kv
  | ["sessions"; id] =>
      if decide (method = "DELETE") then routed_of (delete_session now id r kv) else Reply not_found kv
  | ["sessions"; id; kind] =>
      if decide (kind = "claim" ∧ method = "POST") then routed_of (claim_session now fresh.2 id kv)
      else if decide (kind ≠ "candidates") then
        if decide (kind = "turn" ∧ method = "GET") then Reply (turn_route now id iceServers r kv) kv
        else if decide (method = "GET") then Reply (get_route now id kind r kv) kv
        else if decide (method = "POST" ∧ kind = "answer") then
          routed_of (post_description now "answer" "controller" id r kv)
        else if decide (method = "POST" ∧ kind = "offer") then
          routed_of (post_description now "offer" "daemon" id r kv)
        else Reply not_found kv
      else match caller now id r kv with
      | None => Reply forbidden kv
      | Some role =>
          if decide (method = "POST") then routed_of (post_candidates now role id r kv)
          else if decide (method = "GET") then
            match get_candidates now role id kv with
            | Some rsp => Reply rsp kv
            | None => Poll (ice_key (otherRole role) id) (since_number (since_param r))
            end
          else Reply not_found kv
      end
  | _ => Reply not_found kv
  end.

(** ** What JSON.stringify writes is read back *)

Module JsText.
Import UTF8 JsonRaw JsonText.

Lemma js_body_high t r : all_high t = true → js_body (t +:+ r) = t +:+ js_body r.
Proof.
  induction t as [|a t IH]; [done|]. cbn [all_high]. intros [Ha Ht]%andb_true_iff. rewrite !sapp_cons.
  cbn [js_body]. rewrite IH by done. unfold js_char.
  assert (128 ≤ bval a)%Z by (by apply Z.leb_le).
  repeat match goal with |- context [(bval a =? ?n)%Z] => destruct (Z.eqb_spec (bval a) n); [lia|] end.
  destruct (Z.ltb_spec (bval a) 32); [lia|done].
Qed.

Lemma lex_js_char a fuel r : (bval a < 128)%Z →
  lex_string (S fuel) (js_char a +:+ r) = '(t, r) ← lex_string fuel r; Some (String a t, r).
Proof. destruct a as [[] [] [] [] [] [] [] []]; intros H; try (by vm_compute in H); reflexivity. Qed.

(** The first character of text is one byte below 128 or a well-formed sequence. *)
Lemma text_head a s : coerce (String a s) = String a s →
  ((bval a < 128)%Z ∧ coerce s = s) ∨
  ∃ u t r, s = t +:+ r ∧ well_formed a u t ∧ (128 ≤ bval a)%Z ∧ all_high (String a t) = true ∧ coerce r = r.
Proof.
  destruct (Z.ltb_spec (bval a) 128) as [Ha|Ha].
  { rewrite coerce_ascii by done. intros [= Hs]. by left. }
  destruct (utf8_decode a s) as [u r] eqn:Hd. rewrite (coerce_rune _ _ _ _ Ha Hd). intros Hc. right.
  destruct (decode_cases _ _ _ _ Hd Ha) as [[-> ->]|(t & -> & Hw)].
  - change (utf8_encode RuneError) with (String "239" (String "191" (String "189" ""))) in Hc.
    rewrite !sapp_cons, sapp_nil_l in Hc. injection Hc as <- Hs. exfalso. rewrite <- Hs in Hd at 1.
    assert (∀ x, utf8_decode "239" (String "191" (String "189" x)) = (RuneError, x)) as He by done.
    rewrite He in Hd. injection Hd as Hd. rewrite Hd in Hs. apply (f_equal String.length) in Hs. simpl in Hs. lia.
  - pose proof Hw as (_ & Henc & _). exists u, t, r. split; [done|]. split; [done|]. split; [done|].
    split.
    + cbn [all_high]. apply andb_true_iff. split; [by apply Z.leb_le|by apply (encode_tail u a)].
    + rewrite Henc, !sapp_cons in Hc. injection Hc as Hc. clear - Hc. induction t as [|b t IH]; [done|].
      rewrite !sapp_cons in Hc. injection Hc as Hc. by apply IH.
Qed.

Lemma lex_js_body n : ∀ s fuel rest, String.length s ≤ n → String.length s < fuel → coerce s = s →
  lex_string fuel (js_body s +:+ dq +:+ rest) = Some (s, rest).
Proof.
  induction n as [|n IH]; intros s fuel rest Hn Hf Hs.
  { destruct s; [|simpl in Hn; lia]. by destruct fuel; [simpl in Hf; lia|]. }
  destruct fuel as [|fuel]; [lia|]. destruct s as [|a s]; [done|]. simpl in Hn, Hf.
  destruct (text_head a s Hs) as [[Ha Hs']|(u & t & r & -> & Hw & Ha & Hhigh & Hr)].
  - cbn [js_body]. by rewrite sapp_assoc, lex_js_char, IH by (done || lia).
  - rewrite <- sapp_cons, js_body_high by done. destruct Hw as (_ & Henc & Hdec).
    rewrite length_sapp in Hn, Hf. rewrite sapp_assoc, sapp_cons, lex_high, Hdec by done.
    rewrite IH by (done || lia). cbn [mbind option_bind]. by rewrite Henc.
Qed.

Lemma js_spells s : coerce s = s → str_body (js_body s) s.
Proof.
  intros Hs. destruct (lex_string_text _ _ _ _ (lex_js_body _ s (S (String.length s)) "" ltac:(done) ltac:(lia) Hs))
    as (b & Hb & Hq & _). by apply sapp_cancel in Hb as <-.
Qed.

Lemma member_js k t v : coerce k = k → text t v → member (js_quote k +:+ ":" +:+ t) (k, v).
Proof.
  intros Hk Ht. unfold js_quote. rewrite !sapp_assoc. by apply (member_intro _ _ "" ""); [apply js_spells|..].
Qed.

Lemma num_lit_text l : num_lit l → num_text l.
Proof.
  intros [_ Hl]. specialize (Hl "" I). rewrite sapp_nil_r in Hl. by apply lex_number_text in Hl as [_ ?].
Qed.

(** Values of text and numbers. *)
Lemma stringify_text : ∀ d j, jok d j → text (stringify j) j ∧ (nest j ≤ d)%N.
Proof.
  fix IH 3. intros d j [?|? []|? l Hl|? s Hs|? l Hl|? l Hl].
  - split; [apply text_null|apply N.le_0_l].
  - split; [apply (text_bool true)|apply N.le_0_l].
  - split; [apply (text_bool false)|apply N.le_0_l].
  - split; [by apply text_num, num_lit_text|apply N.le_0_l].
  - split; [|apply N.le_0_l]. apply bool_decide_eq_true in Hs. by apply text_str; [apply js_spells|].
  - assert (∀ v, v ∈ l → text (stringify v) v ∧ (nest v ≤ d0)%N) as Hin.
    { intros v Hv. induction Hl as [|v' l Hv' Hl IHl]; [by apply elem_of_nil in Hv|].
      apply elem_of_cons in Hv as [->|Hv]; [apply (IH _ _ Hv')|by apply IHl]. }
    clear IH Hl. split.
    + destruct l as [|v l]; [apply (text_arr_nil ""); done|]. cbn [stringify].
      change (List.map stringify (v :: l)) with (stringify <$> v :: l).
      pose proof (items_Join stringify id v l (λ y Hy, proj1 (Hin y Hy))) as Hi. rewrite list_fmap_id in Hi.
      by apply text_arr.
    + cbn [nest]. enough (foldr N.max 0 (nest <$> l) ≤ d0)%N by lia.
      induction l as [|v l IHl]; [apply N.le_0_l|]. cbn [fmap list_fmap foldr].
      apply N.max_lub; [by apply Hin; left|]. apply IHl. intros w Hw. apply Hin. by right.
  - assert (∀ kv, kv ∈ l → coerce kv.1 = kv.1 ∧ text (stringify kv.2) kv.2 ∧ (nest kv.2 ≤ d0)%N) as Hin.
    { intros kv Hv. induction Hl as [|kv' l [Hk Hv'] Hl IHl]; [by apply elem_of_nil in Hv|].
      apply elem_of_cons in Hv as [->|Hv]; [|by apply IHl]. apply bool_decide_eq_true in Hk.
      split; [done|apply (IH _ _ Hv')]. }
    clear IH Hl. split.
    + destruct l as [|kv l]; [apply (text_obj_nil ""); done|]. cbn [stringify].
      change (List.map ?f (kv :: l)) with (f <$> kv :: l).
      assert (∀ y, y ∈ kv :: l → member (js_quote y.1 +:+ ":" +:+ stringify y.2) y) as Hm.
      { intros [k v] Hy. destruct (Hin _ Hy) as (Hk & Ht & _). by apply member_js. }
      pose proof (mems_Join _ id kv l Hm) as Hi. rewrite list_fmap_id in Hi. by apply text_obj.
    + cbn [nest]. enough (foldr N.max 0 ((λ kv, nest kv.2) <$> l) ≤ d0)%N by lia.
      induction l as [|kv l IHl]; [apply N.le_0_l|]. cbn [fmap list_fmap foldr].
      apply N.max_lub; [by apply Hin; left|]. apply IHl. intros w Hw. apply Hin. by right.
Qed.

Lemma stringify_parsed d j : jok d j → (d ≤ max_depth)%N → parse_prefix (stringify j) = Some (j, "").
Proof.
  intros Hj Hd. destruct (stringify_text _ _ Hj) as [Ht Hn].
  pose proof (parse_prefix_of "" _ _ "" eq_refl Ht I) as Hp. rewrite sapp_nil_l, sapp_nil_r in Hp. rewrite Hp.
  unfold allowed. by destruct (N.leb_spec (0 + nest j) max_depth); [|lia].
Qed.

End JsText.

End Worker.
