(* ===== verification/SessionHub.v ===== *)
(** * signaling/worker.ts: the deployed session hub

    One Durable Object per session: its storage, its hibernating sockets, and the routes
    below /ws that reach it.  The tokens, the clock (milliseconds) and SHA-256 are
    arguments; what a socket was sent is a log, as in Hub. *)
From S2P Require Import Prelude GoStrings GoJson GoUtf8 GoFloat GoJsonPrint Rpc Hub Ws WsProps Worker.
Import GoStr GoJson UTF8 GoFloat JsonPrint Worker.

Module SessionHub.

(** ** The object *)

(** A socket the runtime still lists, with its tag; [live] is false once it was closed here. *)
Record socket := MkSocket { wid : nat; tag : string; live : bool }.

(** The keys of the storage, the sockets, and what was sent. *)
Record DurableObject := MkObject {
  daemon_token : option string;
  created_at : option Z;
  daemon_pub : option string;
  daemon_pub_v2 : option string;
  versions : option (list json);
  claim_hash : option string;
  vault_token : option string;
  claimed_at : option Z;
  sockets : list socket;
  sent : list (nat * string);
}.

Definition empty_object : DurableObject := MkObject None None None None None None None None [] [].

Definition set_sockets (l : list socket) (o : DurableObject) : DurableObject :=
  MkObject (daemon_token o) (created_at o) (daemon_pub o) (daemon_pub_v2 o) (versions o) (claim_hash o)
    (vault_token o) (claimed_at o) l (sent o).
Definition set_sent (l : list (nat * string)) (o : DurableObject) : DurableObject :=
  MkObject (daemon_token o) (created_at o) (daemon_pub o) (daemon_pub_v2 o) (versions o) (claim_hash o)
    (vault_token o) (claimed_at o) (sockets o) l.
Definition set_pubs (p p2 : option string) (vs : option (list json)) (o : DurableObject) : DurableObject :=
  MkObject (daemon_token o) (created_at o) p p2 vs (claim_hash o) (vault_token o) (claimed_at o)
    (sockets o) (sent o).
Definition set_vault (t : string) (at_ : Z) (o : DurableObject) : DurableObject :=
  MkObject (daemon_token o) (created_at o) (daemon_pub o) (daemon_pub_v2 o) (versions o) (claim_hash o)
    (Some t) (Some at_) (sockets o) (sent o).

Definition UNCLAIMED_TTL_MS : Z := 30 * 60 * 1000.

(** [tokenEqual]: an empty string equals nothing. *)
Definition tokenEqual (a b : string) : bool := bool_decide (a ≠ "" ∧ a = b).

Definition otherRole (role : string) : string := if decide (role = "daemon") then "vault" else "daemon".

(** [b.versions] when it is an array. *)
Definition list_prop (k : string) (j : json) : list json :=
  match prop k j with Some (JArr l) => l | _ => [] end.

Definition nonempty (s : string) : option string := if decide (s = "") then None else Some s.
Definition nonempty_list (l : list json) : option (list json) := match l with [] => None | _ => Some l end.

(** *** Frames *)

Definition presence (sys role : string) : string := stringify (JObj [("sys", JStr sys); ("role", JStr role)]).

Definition isKeepalive (message : string) : bool :=
  match parse message with
  | Some j => match prop "sys" j with Some (JStr "ka") => true | _ => false end
  | None => false
  end.

(** An object (an array has no such key) with the key [sys]. *)
Definition isSystemFrame (message : string) : bool :=
  match parse message with
  | Some (JObj l) => bool_decide ("sys" ∈ l.*1)
  | _ => false
  end.

(** *** Sockets *)

Definition getWebSockets (role : string) (o : DurableObject) : list socket :=
  List.filter (λ s, bool_decide (tag s = role)) (sockets o).

(** [ws.send], which throws on a socket that was closed: whether it went out. *)
Definition send (s : socket) (b : string) (o : DurableObject) : bool * DurableObject :=
  if live s then (true, set_sent (sent o ++ [(wid s, b)]) o) else (false, o).

(** A loop over sockets whose body may throw and is caught. *)
Definition for_each (f : socket → DurableObject → DurableObject) (l : list socket) (o : DurableObject) : DurableObject :=
  fold_left (λ o s, f s o) l o.

Definition close (s : socket) : socket := MkSocket (wid s) (tag s) false.

Definition close_role (role : string) (o : DurableObject) : DurableObject :=
  set_sockets ((λ s, if decide (tag s = role) then close s else s) <$> sockets o) o.

Section object.
Context (sha256Hex : string → string).

(** ** [SessionHub.fetch], one definition per action *)

Definition body_json (body : string) : json := default (JObj []) (parse body).

Definition create (now : Z) (token body : string) (o : DurableObject) : response * DurableObject :=
  let b := body_json body in
  let keep k old := match nonempty (string_prop k b) with Some s => Some s | None => old end in
  (json_response 200 (JObj [("daemon_token", JStr token)]),
   MkObject (Some token) (Some now) (keep "pub" (daemon_pub o)) (keep "pub_v2" (daemon_pub_v2 o))
     (match nonempty_list (list_prop "versions" b) with Some l => Some l | None => versions o end)
     (match nonempty (string_prop "claim_secret" b) with Some s => Some (sha256Hex s) | None => claim_hash o end)
     (vault_token o) (claimed_at o) (sockets o) (sent o)).

Definition text (status : Z) (s : string) : response := (status, s).

(** The first writer wins; what was written before a refusal stays. *)
Definition setpub (role_token body : string) (o : DurableObject) : response * DurableObject :=
  if bool_decide (default "" (daemon_token o) = "" ∨ role_token ≠ default "" (daemon_token o))
  then (text 403 "forbidden", o)
  else
    let b := body_json body in
    let pub := string_prop "pub" b in
    let pubV2 := string_prop "pub_v2" b in
    let conflict new old := bool_decide (new ≠ "" ∧ default "" old ≠ "" ∧ default "" old ≠ new) in
    let put new old := match nonempty new with Some s => Some s | None => old end in
    if conflict pubV2 (daemon_pub_v2 o) then (text 409 "daemon_pub_v2 already set", o)
    else
      let o := set_pubs (daemon_pub o) (put pubV2 (daemon_pub_v2 o))
                 (match nonempty_list (list_prop "versions" b) with Some l => Some l | None => versions o end) o in
      if conflict pub (daemon_pub o) then (text 409 "daemon_pub already set", o)
      else (no_content, set_pubs (put pub (daemon_pub o)) (daemon_pub_v2 o) (versions o) o).

Definition presence_probe (o : DurableObject) : response :=
  json_response 200 (JObj
    [("daemon", JBool (negb (bool_decide (getWebSockets "daemon" o = []))));
     ("vault", JBool (negb (bool_decide (getWebSockets "vault" o = []))));
     ("exists", JBool (negb (bool_decide (default "" (daemon_token o) = ""))))]).

(** Everything that was stored is gone; the runtime drops the sockets as they close. *)
Definition delete (role_token : string) (o : DurableObject) : response * DurableObject :=
  let dTok := default "" (daemon_token o) in
  let vTok := default "" (vault_token o) in
  if bool_decide (dTok = "" ∧ vTok = "") then (no_content, o)
  else if negb (tokenEqual role_token dTok) && negb (tokenEqual role_token vTok) then (text 403 "forbidden", o)
  else (no_content, MkObject None None None None None None None None (close <$> sockets o) (sent o)).

(** [offered] is the header [X-Valet-Claim-Secret], [fresh] a random token. *)
Definition claim (now : Z) (fresh offered : string) (o : DurableObject) : response * DurableObject :=
  let hash := default "" (claim_hash o) in
  let existing := default "" (vault_token o) in
  if bool_decide (hash ≠ "") && (bool_decide (offered = "") || negb (tokenEqual (sha256Hex offered) hash))
  then (text 403 "forbidden", o)
  else
    let createdAt := default 0%Z (created_at o) in
    if bool_decide (existing = "" ∧ hash ≠ "" ∧ createdAt ≠ 0%Z) && (UNCLAIMED_TTL_MS <? now - createdAt)%Z
    then (text 410 "session expired", o)
    else
      let o := if decide (existing = "") then set_vault fresh now o else o in
      (json_response 200 (JObj
        [("controller_token", JStr (default "" (vault_token o)));
         ("daemon_pub", JStr (default "" (daemon_pub o)));
         ("daemon_pub_v2", JStr (default "" (daemon_pub_v2 o)));
         ("versions", JArr (default [] (versions o)));
         ("first_claim", JBool (bool_decide (existing = "")));
         ("claimed_at", JInt (default 0%Z (claimed_at o)))]), o).

(** The newest socket of a role wins; [ws] is the one being made. *)
Definition connect (ws : nat) (role token : string) (o : DurableObject) : response * DurableObject :=
  if bool_decide (role ≠ "daemon" ∧ role ≠ "vault") then (text 400 "bad role", o)
  else
    let want := default "" (if decide (role = "daemon") then daemon_token o else vault_token o) in
    if bool_decide (want = "" ∨ token ≠ want) then (text 403 "forbidden", o)
    else
      let server := MkSocket ws role true in
      let o := close_role role o in
      let o := set_sockets (sockets o ++ [server]) o in
      (text 101 "", for_each (λ p o,
        match send p (presence "peer_online" role) o with
        | (true, o) => (send server (presence "peer_online" (otherRole role)) o).2
        | (false, o) => o
        end) (getWebSockets (otherRole role) o) o).

End object.

(** ** Hibernation events *)

(** The tag of a socket, and the sends to the other role. *)
Definition role_of (ws : nat) (o : DurableObject) : string :=
  from_option tag "" (find (λ s, bool_decide (wid s = ws)) (sockets o)).

Definition broadcast (role b : string) (o : DurableObject) : DurableObject :=
  for_each (λ p o, (send p b o).2) (getWebSockets role o) o.

Definition webSocketMessage (ws : nat) (message : string) (o : DurableObject) : DurableObject :=
  if isSystemFrame message then
    if isKeepalive message then
      for_each (λ s o, (send s (stringify (JObj [("sys", JStr "ka_ack")])) o).2)
        (List.filter (λ s, bool_decide (wid s = ws)) (sockets o)) o
    else o
  else broadcast (otherRole (role_of ws o)) message o.

Definition notifyOffline (ws : nat) (o : DurableObject) : DurableObject :=
  let role := role_of ws o in broadcast (otherRole role) (presence "peer_offline" role) o.

(** [webSocketClose] and [webSocketError]; afterwards the runtime no longer lists it. *)
Definition webSocketClose (ws : nat) (o : DurableObject) : DurableObject :=
  let o := notifyOffline ws o in
  set_sockets (List.filter (λ s, negb (bool_decide (wid s = ws))) (sockets o)) o.

(** ** The routes below /ws *)

(** The objects by session; one that was never used is empty. *)
Abbreviation objects := (gmap string DurableObject).
Definition stub (id : string) (w : objects) : DurableObject := default empty_object (w !! id).

Definition at_stub (id : string) (f : DurableObject → response * DurableObject) (w : objects) : response * objects :=
  let (r, o) := f (stub id w) in (r, <[id := o]> w).

(** What the daemon's POST is turned into. *)
Definition forwarded (b : json) : json :=
  JObj [("pub", JStr (string_prop "pub" b)); ("pub_v2", JStr (string_prop "pub_v2" b));
        ("versions", match prop "versions" b with None | Some JNull => JArr [] | Some v => v end);
        ("claim_secret", JStr (string_prop "claim_secret" b))].

(** The headers a route looks at. *)
Record Headers := MkHeaders { claim_secret : string; role_token : string }.

(** Everything but the upgrade; [fresh] are a session identifier and a token. *)
Definition ws_fetch (sha256Hex : string → string) (now : Z) (fresh : string * string) (method : string)
    (parts : list string) (h : Headers) (body : string) (w : objects) : response * objects :=
  if decide (method = "OPTIONS") then (no_content, w)
  else match parts with
  | ["ws"; "sessions"] =>
      if decide (method = "POST") then
        let b := body_json body in
        if is_null b then (thrown, w)
        else if decide (prop "role" b ≠ Some (JStr "daemon")) then
          (json_response 400 (JObj [("error", JStr "role must be daemon")]), w)
        else
          let (_, w) := at_stub fresh.1 (create sha256Hex now fresh.2 (stringify (forwarded b))) w in
          (json_response 200 (JObj [("session_id", JStr fresh.1); ("daemon_token", JStr fresh.2)]), w)
      else (not_found, w)
  | ["ws"; "sessions"; sid; action] =>
      if decide (method = "POST" ∧ action = "claim") then
        at_stub sid (claim sha256Hex now fresh.2 (claim_secret h)) w
      else if decide (method = "GET" ∧ action = "presence") then (presence_probe (stub sid w), w)
      else if decide (method = "POST" ∧ action = "pub") then at_stub sid (setpub (role_token h) body) w
      else (not_found, w)
  | ["ws"; "sessions"; sid] =>
      if decide (method = "DELETE") then at_stub sid (delete (role_token h)) w else (not_found, w)
  | _ => (not_found, w)
  end.

(** The upgrade. *)
Definition ws_connect (ws : nat) (sid role token : string) (w : objects) : response * objects :=
  if decide (sid = "") then (text 400 "missing sid", w)
  else at_stub sid (connect ws role token) w.

(** ** Keys that were published *)

(** A published key is never replaced, whoever holds the token. *)
Theorem published_once role_token body o p : p ≠ "" →
  (daemon_pub o = Some p → daemon_pub (setpub role_token body o).2 = Some p) ∧
  (daemon_pub_v2 o = Some p → daemon_pub_v2 (setpub role_token body o).2 = Some p).
Proof.
  intros Hp. unfold setpub. case_bool_decide; [done|]. cbv zeta.
  split; intros Hq; rewrite Hq; case_bool_decide as H1; cbn [snd]; try done;
    try (case_bool_decide as H2; cbn [snd daemon_pub daemon_pub_v2 set_pubs] in *; try done);
    unfold nonempty; case_decide; try done; cbn [default from_option] in *;
    f_equal; apply dec_stable; intros Hn; naive_solver.
Qed.

(** Publishing is answered 409 when one of two keys is taken, and yet the other is stored. *)
Example refused_and_stored :
  let o := MkObject (Some "t") (Some 0%Z) (Some "a") None None None None None [] [] in
  let '((code, _), o') := setpub "t" (print (JObj [("pub", JStr "b"); ("pub_v2", JStr "x")])) o in
  code = 409%Z ∧ daemon_pub o' = Some "a" ∧ daemon_pub_v2 o' = Some "x".
Proof. by vm_compute. Qed.

End SessionHub.

(** * The deployed hub and the one of internal/hub *)

Module TwoHubs.
Import SessionHub.

Section agree.
Context (sha : string → string).

(** ** What a session of either hub is asked, and what the asker sees *)

Inductive event :=
  | EClaim (now : Z) (fresh secret : string)
  | EConnect (ws : nat) (role token : string)
  | EFrame (ws : nat) (role data : string)
  | EClose (ws : nat) (role : string).

(** The status of a claim with what the client decodes of the reply; whether a connection
    was taken. *)
Inductive answer := AClaim (status : Z) (r : option Ws.claimed) | AConnect (taken : bool) | ANone.

Definition client_reads (status : Z) (body : string) : option Ws.claimed :=
  if (status =? 200)%Z then
    match Decode_stream (struct_of Ws.claimed_fields) body (Ws.MkClaimed "" "" "" []) with
    | (r, true) => Some r
    | _ => None
    end
  else None.

Definition deployed (e : event) (o : DurableObject) : answer * DurableObject :=
  match e with
  | EClaim now fresh secret =>
      let '((code, body), o) := claim sha now fresh secret o in (AClaim code (client_reads code body), o)
  | EConnect ws role token =>
      let '((code, _), o) := connect ws role token o in (AConnect (code =? 101)%Z, o)
  | EFrame ws _ data => (ANone, webSocketMessage ws data o)
  | EClose ws _ => (ANone, webSocketClose ws o)
  end.

Definition local_hub (id : string) (e : event) (srv : Hub.Server) : answer * Hub.Server :=
  match e with
  | EClaim _ fresh secret =>
      let '((code, body), srv) := Hub.handleClaim sha fresh ("/ws/sessions/" +:+ id +:+ "/claim") secret srv in
      (AClaim code (client_reads code (print body +:+ str1 newline)), srv)
  | EConnect ws role token =>
      match Hub.connect ws id role token srv with
      | Some srv => (AConnect true, srv)
      | None => (AConnect false, srv)
      end
  | EFrame ws role data => (ANone, Hub.receive ws id role data srv)
  | EClose ws role => (ANone, Hub.disconnect ws id role srv)
  end.

(** Events one after the other: the answers and the end. *)
Fixpoint run {S} (step : event → S → answer * S) (es : list event) (s : S) : list answer * S :=
  match es with
  | [] => ([], s)
  | e :: es => let (a, s) := step e s in let (l, s) := run step es s in (a :: l, s)
  end.

(** What may happen to the object: a claim within the time for it, a new socket, a frame on
    a socket that was not replaced, the end of a socket. *)
Definition possible (e : event) (o : DurableObject) : Prop :=
  match e with
  | EClaim now fresh secret => fresh ≠ "" ∧ utf8_str fresh = true ∧
      (vault_token o ≠ None ∨ (now - default 0 (created_at o) ≤ UNCLAIMED_TTL_MS)%Z)
  | EConnect ws role token => ws ∉ wid <$> sockets o
  | EFrame ws role data => MkSocket ws role true ∈ sockets o ∧ isKeepalive data = Hub.isKeepalive data
  | EClose ws role => ∃ l, MkSocket ws role l ∈ sockets o
  end.

Fixpoint all_possible (es : list event) (o : DurableObject) : Prop :=
  match es with
  | [] => True
  | e :: es => possible e o ∧ all_possible es (deployed e o).2
  end.

(** ** Agreement *)

Definition opened (role : string) (o : DurableObject) : list nat :=
  wid <$> List.filter (λ s, bool_decide (tag s = role) && live s) (sockets o).

(** The session of the local hub and the object of the deployed one. *)
Record same (s : Hub.session) (o : DurableObject) : Prop := {
  sm_daemon : daemon_token o = Some (Hub.daemonTok s);
  sm_vault : vault_token o = nonempty (Hub.vaultTok s);
  sm_pub : default "" (daemon_pub o) = Hub.daemonPub s;
  sm_pub2 : default "" (daemon_pub_v2 o) = Hub.daemonPubV2 s;
  sm_versions : default [] (versions o) = JInt <$> default [] (Hub.versions s);
  sm_hash : default "" (claim_hash o) = Hub.claimHash s;
  sm_opened : ∀ r, r = "daemon" ∨ r = "vault" → opened r o = option_list (Hub.conns s !! r);
  sm_secret : Hub.claimHash s ≠ sha "";
  sm_text : utf8_str (Hub.vaultTok s) = true ∧ utf8_str (Hub.daemonPub s) = true ∧
    utf8_str (Hub.daemonPubV2 s) = true;
  sm_ints : Forall in_i64 (default [] (Hub.versions s));
}.

Record agrees (id : string) (srv : Hub.Server) (o : DurableObject) : Prop := {
  ag_session : ∃ s, Hub.sessions srv !! id = Some s ∧ same s o;
  ag_sent : sent o = Hub.sent srv;
  ag_sockets : NoDup (wid <$> sockets o);
  ag_tags : Forall (λ s, tag s = "daemon" ∨ tag s = "vault") (sockets o);
}.

(** *** Sockets *)

Definition set_log (f : list (nat * string) → list (nat * string)) (o : DurableObject) : DurableObject :=
  set_sent (f (sent o)) o.

Lemma opened_live r o : opened r o = wid <$> List.filter live (getWebSockets r o).
Proof.
  unfold opened, getWebSockets. f_equal. induction (sockets o) as [|s l IH]; [done|]. simpl.
  destruct (bool_decide (tag s = r)); simpl; [|done]. destruct (live s); simpl; by rewrite IH.
Qed.

Lemma broadcast_sent r b o : broadcast r b o = set_sent (sent o ++ ((λ w, (w, b)) <$> opened r o)) o.
Proof.
  unfold broadcast, for_each. rewrite opened_live. set (l := getWebSockets r o). clearbody l. revert o.
  induction l as [|s l IH]; intros o; simpl; [rewrite (right_id_L [] (++)); by destruct o|].
  rewrite IH. unfold send. destruct (live s); simpl; [|done]. by rewrite <- (assoc_L (++)).
Qed.

Lemma opened_close role r o : opened r (close_role role o) = if decide (r = role) then [] else opened r o.
Proof.
  unfold opened, close_role. cbn [sockets set_sockets]. induction (sockets o) as [|s l IH]; [by case_decide|].
  cbn [fmap list_fmap List.filter]. destruct (decide (tag s = role)) as [<-|Hs].
  - simpl. rewrite andb_false_r, IH. destruct (decide (r = tag s)) as [->|Hr]; [done|].
    by rewrite bool_decide_false by congruence.
  - destruct (bool_decide (tag s = r) && live s) eqn:Hb; [|done].
    apply andb_true_iff in Hb as [Hb%bool_decide_eq_true _]. subst r. rewrite decide_False in IH |- * by done.
    cbn [fmap list_fmap]. by rewrite IH.
Qed.

Lemma opened_add r s o : live s = true →
  opened r (set_sockets (sockets o ++ [s]) o) = opened r o ++ if decide (tag s = r) then [wid s] else [].
Proof.
  intros Hl. unfold opened. cbn [sockets set_sockets]. rewrite List.filter_app, fmap_app. f_equal.
  simpl. rewrite Hl, andb_true_r. case_decide; [by rewrite bool_decide_true|by rewrite bool_decide_false].
Qed.

Lemma opened_remove r ws o :
  opened r (set_sockets (List.filter (λ s, negb (bool_decide (wid s = ws))) (sockets o)) o) =
  List.filter (λ w, negb (bool_decide (w = ws))) (opened r o).
Proof.
  unfold opened. cbn [sockets set_sockets]. induction (sockets o) as [|s l IH]; [done|]. simpl.
  destruct (bool_decide (wid s = ws)) eqn:Hw, (bool_decide (tag s = r) && live s) eqn:Hb; simpl;
    rewrite ?Hw, ?Hb; simpl; try f_equal; exact IH.
Qed.

Lemma wids_close role o : wid <$> sockets (close_role role o) = wid <$> sockets o.
Proof.
  unfold close_role. cbn [sockets set_sockets]. rewrite <- list_fmap_compose. apply list_fmap_ext.
  intros i s _. simpl. by case_decide.
Qed.

(** A socket is known by its number. *)
Lemma socket_unique o s s' : NoDup (wid <$> sockets o) → s ∈ sockets o → s' ∈ sockets o → wid s = wid s' → s = s'.
Proof.
  intros Hnd Hs Hs' Hw. apply list_elem_of_lookup in Hs as [i Hi]. apply list_elem_of_lookup in Hs' as [j Hj].
  assert (i = j) as ->; [|congruence].
  eapply (NoDup_lookup _ i j (wid s)); [done|by rewrite list_lookup_fmap, Hi|by rewrite list_lookup_fmap, Hj, Hw].
Qed.

Lemma role_of_socket o s : NoDup (wid <$> sockets o) → s ∈ sockets o → role_of (wid s) o = tag s.
Proof.
  intros Hnd Hs. unfold role_of. destruct (find _ (sockets o)) as [s'|] eqn:Hf.
  - apply find_some in Hf as [Hin%list_elem_of_In Hw%bool_decide_eq_true].
    simpl. by rewrite (socket_unique o s' s Hnd Hin Hs Hw).
  - apply list_elem_of_In in Hs. pose proof (find_none _ _ Hf _ Hs) as Hx. simpl in Hx.
    by rewrite bool_decide_true in Hx.
Qed.

Lemma role_known o ws role l : NoDup (wid <$> sockets o) → MkSocket ws role l ∈ sockets o → role_of ws o = role.
Proof. intros Hnd Hin. apply (role_of_socket o _ Hnd Hin). Qed.

Lemma own_socket o s : NoDup (wid <$> sockets o) → s ∈ sockets o →
  List.filter (λ x, bool_decide (wid x = wid s)) (sockets o) = [s].
Proof.
  intros Hnd Hs. induction (sockets o) as [|x l IH]; [by apply elem_of_nil in Hs|].
  cbn [fmap list_fmap] in Hnd. apply NoDup_cons in Hnd as [Hx Hnd].
  assert (∀ y, wid y ∉ wid <$> l → List.filter (λ z, bool_decide (wid z = wid y)) l = []) as Hnone.
  { clear. intros y Hy. induction l as [|z l IH]; [done|]. cbn [fmap list_fmap] in Hy.
    apply not_elem_of_cons in Hy as [Hyz Hy]. simpl. rewrite bool_decide_false by congruence. by apply IH. }
  simpl. apply elem_of_cons in Hs as [->|Hs].
  - rewrite bool_decide_true by done. by rewrite Hnone.
  - rewrite bool_decide_false; [by apply IH|]. intros Hw. apply Hx. rewrite Hw.
    apply list_elem_of_fmap. by exists s.
Qed.

(** *** Claims *)

Lemma ints_decoded (l : list Z) : Forall in_i64 l →
  ((λ v, field_int (λ _ z, z) v 0%Z) <$> (JInt <$> l)) = (λ z, (z, true)) <$> l.
Proof.
  induction 1 as [|z l Hz _ IH]; [done|]. cbn [fmap list_fmap]. rewrite IH. f_equal.
  unfold field_int, scalar, JInt. by rewrite int_lit_pretty.
Qed.

Lemma ints_read {S} (set : S → list Z → S) l s : Forall in_i64 l →
  field_ints set (JArr (JInt <$> l)) s = (set s l, true).
Proof.
  intros Hl. unfold field_ints. cbv beta match zeta. rewrite ints_decoded by done. f_equal.
  - f_equal. rewrite <- list_fmap_compose. by apply list_fmap_id.
  - rewrite <- list_fmap_compose. clear. by induction l.
Qed.

Lemma ints_jok l : jok 1 (JArr (JInt <$> l)).
Proof. apply (jok_arr 0), Forall_fmap, Forall_true. intros z. constructor. apply num_lit_pretty. Qed.

Lemma deployed_reads tok pub pub2 vs first at_ :
  utf8_str tok = true → utf8_str pub = true → utf8_str pub2 = true → Forall in_i64 vs →
  client_reads 200 (stringify (JObj
    [("controller_token", JStr tok); ("daemon_pub", JStr pub); ("daemon_pub_v2", JStr pub2);
     ("versions", JArr (JInt <$> vs)); ("first_claim", JBool first); ("claimed_at", JInt at_)])) =
  Some (Ws.MkClaimed tok pub pub2 vs).
Proof.
  intros H1 H2 H3 Hv. unfold client_reads. change (200 =? 200)%Z with true. cbv beta match.
  unfold Decode_stream. rewrite (JsText.stringify_parsed 2); [|apply (jok_obj 1)|done].
  - unfold struct_of, members_into. cbn [fold_left fst snd]. change (find_field Ws.claimed_fields "versions")
      with (Some (field_ints (λ r x, Ws.MkClaimed (Ws.ControllerToken r) (Ws.DaemonPub r) (Ws.DaemonPubV2 r) x))).
    cbv beta match. rewrite ints_read by done. reflexivity.
  - repeat first [apply Forall_cons_2 | apply Forall_nil_2 |
      split; [done|first [apply ints_jok | by constructor | constructor; apply num_lit_pretty]]].
Qed.

Lemma local_reads tok pub pub2 vs first :
  utf8_str tok = true → utf8_str pub = true → utf8_str pub2 = true → Forall in_i64 (default [] vs) →
  client_reads 200 (print (JObj
    [("controller_token", JStr tok); ("daemon_pub", JStr pub); ("daemon_pub_v2", JStr pub2);
     ("first_claim", JBool first);
     ("versions", match vs with Some l => JArr (JInt <$> l) | None => JNull end)]) +:+ str1 newline) =
  Some (Ws.MkClaimed tok pub pub2 (default [] vs)).
Proof.
  intros H1 H2 H3 Hv. unfold client_reads. change (200 =? 200)%Z with true. cbv beta match.
  rewrite (WsTheorems.reply_decoded _ 2); [|apply (jok_obj 1)|done].
  - unfold struct_of, members_into. cbn [fold_left fst snd]. change (find_field Ws.claimed_fields "versions")
      with (Some (field_ints (λ r x, Ws.MkClaimed (Ws.ControllerToken r) (Ws.DaemonPub r) (Ws.DaemonPubV2 r) x))).
    cbv beta match. destruct vs as [l|]; [rewrite ints_read by done|]; reflexivity.
  - repeat first [apply Forall_cons_2 | apply Forall_nil_2 |
      split; [done|first [by constructor | destruct vs; [apply ints_jok|constructor]]]].
Qed.

(** Both hubs refuse the same secrets. *)
Lemma secret_agrees hash offered : hash ≠ sha "" →
  bool_decide (hash ≠ "") && (bool_decide (offered = "") || negb (tokenEqual (sha offered) hash)) =
  bool_decide (hash ≠ "") && negb (bool_decide (sha offered = hash)).
Proof.
  intros Hh. destruct (decide (hash = "")) as [->|Hne]; [by rewrite bool_decide_false by naive_solver|].
  f_equal. unfold tokenEqual. destruct (decide (offered = "")) as [->|Ho].
  - rewrite (bool_decide_true ("" = "")), (bool_decide_false (sha "" = hash)) by congruence. done.
  - rewrite (bool_decide_false (offered = "")) by done. simpl. f_equal.
    destruct (decide (sha offered = hash)) as [->|Hs].
    + by rewrite !bool_decide_true.
    + rewrite !bool_decide_false; naive_solver.
Qed.

Lemma vault_of s o : same s o → default "" (vault_token o) = Hub.vaultTok s.
Proof. intros Hs. rewrite (sm_vault _ _ Hs). unfold nonempty. by case_decide. Qed.

Lemma claim_agrees id now fresh secret srv o : agrees id srv o → possible (EClaim now fresh secret) o →
  (deployed (EClaim now fresh secret) o).1 = (local_hub id (EClaim now fresh secret) srv).1 ∧
  agrees id (local_hub id (EClaim now fresh secret) srv).2 (deployed (EClaim now fresh secret) o).2.
Proof.
  intros [(s & Hid & Hs) Hsent Hnd Htags] (Hf & Hfu & Hage). cbn [deployed local_hub].
  unfold Hub.handleClaim, claim. rewrite WsTheorems.claim_id_of, Hid.
  rewrite (sm_hash _ _ Hs), (vault_of _ _ Hs), secret_agrees by apply Hs.
  destruct (bool_decide (Hub.claimHash s ≠ "") && _) eqn:Hsec.
  { split; [done|]. cbn [snd]. split; [by exists s|done..]. }
  destruct (sm_text _ _ Hs) as (Hu1 & Hu2 & Hu3). pose proof (sm_ints _ _ Hs) as Hi.
  assert (bool_decide (Hub.vaultTok s = "" ∧ Hub.claimHash s ≠ "" ∧ default 0%Z (created_at o) ≠ 0%Z) &&
    (UNCLAIMED_TTL_MS <? now - default 0%Z (created_at o))%Z = false) as ->.
  { destruct Hage as [Hv|Ha]; [|by rewrite andb_comm; destruct (Z.ltb_spec UNCLAIMED_TTL_MS
      (now - default 0%Z (created_at o))%Z); [lia|]].
    rewrite bool_decide_false; [done|]. intros [Hx _]. apply Hv. by rewrite (sm_vault _ _ Hs), Hx. }
  destruct (decide (Hub.vaultTok s = "")) as [Hv|Hv].
  - rewrite !(bool_decide_true (Hub.vaultTok s = "")) by done. cbv beta match zeta.
    cbn [vault_token daemon_pub daemon_pub_v2 versions claimed_at set_vault default from_option].
    rewrite (sm_pub _ _ Hs), (sm_pub2 _ _ Hs), (sm_versions _ _ Hs).
    unfold json_response. rewrite deployed_reads, local_reads by done. split; [done|]. cbn [snd].
    split; [|done..]. exists (Hub.set_vaultTok fresh s). cbn [Hub.sessions]. split; [apply lookup_insert_eq|].
    destruct Hs. split; try done. cbn [vault_token set_vault Hub.vaultTok Hub.set_vaultTok].
    unfold nonempty. by rewrite decide_False.
  - rewrite !(bool_decide_false (Hub.vaultTok s = "")) by done. cbv beta match zeta.
    rewrite (vault_of _ _ Hs), (sm_pub _ _ Hs), (sm_pub2 _ _ Hs), (sm_versions _ _ Hs).
    unfold json_response. rewrite deployed_reads, local_reads by done. split; [done|]. cbn [snd].
    split; [|done..]. exists s. cbn [Hub.sessions]. by rewrite lookup_insert_eq.
Qed.

(** *** Sockets that come, speak and go *)

Lemma presence_agrees sys role : sys = "peer_online" ∨ sys = "peer_offline" → role = "daemon" ∨ role = "vault" →
  presence sys role = Hub.presence sys role.
Proof. by intros [-> | ->] [-> | ->]; vm_compute. Qed.

Lemma other_roles role : role = "daemon" ∨ role = "vault" →
  (otherRole role = "daemon" ∨ otherRole role = "vault") ∧ otherRole role ≠ role.
Proof. intros [-> | ->]; vm_compute; naive_solver. Qed.

Lemma online_sent server role l o : live server = true →
  for_each (λ p o, match send p (presence "peer_online" role) o with
    | (true, o) => (send server (presence "peer_online" (otherRole role)) o).2
    | (false, o) => o end) l o =
  set_sent (sent o ++ mjoin ((λ w, [(w, presence "peer_online" role);
    (wid server, presence "peer_online" (otherRole role))]) <$> (wid <$> List.filter live l))) o.
Proof.
  intros Hl. unfold for_each. revert o. induction l as [|p l IH]; intros o.
  - simpl. rewrite (right_id_L [] (++)). by destruct o.
  - cbn [fold_left List.filter]. rewrite IH. unfold send. rewrite Hl. destruct (live p); [|done].
    cbn [snd sent set_sent fmap list_fmap mjoin list_join]. unfold mjoin. cbn [list_join].
    rewrite <- !(assoc_L (++)). reflexivity.
Qed.

Lemma same_sent x s o : same s o → same s (set_sent x o).
Proof. by intros []. Qed.

Lemma same_sockets cs l s o : same s o →
  (∀ r, r = "daemon" ∨ r = "vault" → opened r (set_sockets l o) = option_list (cs !! r)) →
  same (Hub.set_conns cs s) (set_sockets l o).
Proof. by intros []. Qed.

Lemma connect_agrees id ws role tok srv o : agrees id srv o → possible (EConnect ws role tok) o →
  (deployed (EConnect ws role tok) o).1 = (local_hub id (EConnect ws role tok) srv).1 ∧
  agrees id (local_hub id (EConnect ws role tok) srv).2 (deployed (EConnect ws role tok) o).2.
Proof.
  intros [(s & Hid & Hs) Hsent Hnd Htags] Hws. cbn [deployed local_hub possible] in *.
  unfold Hub.connect, connect, text. rewrite Hid.
  change Hub.roleDaemon with "daemon". change Hub.roleVault with "vault".
  destruct (decide (role ≠ "daemon" ∧ role ≠ "vault")) as [Hr|Hr].
  { rewrite !bool_decide_true by done. split; [done|]. by split; [exists s|..]. }
  rewrite !(bool_decide_false (role ≠ "daemon" ∧ _)) by done.
  assert (role = "daemon" ∨ role = "vault") as Hrole.
  { destruct (decide (role = "daemon")); [by left|]. destruct (decide (role = "vault")); [by right|by destruct Hr]. }
  clear Hr. cbv zeta.
  assert (default "" (if decide (role = "daemon") then daemon_token o else vault_token o) =
    if decide (role = "vault") then Hub.vaultTok s else Hub.daemonTok s) as ->.
  { destruct Hrole as [-> | ->]; simpl; [by rewrite (sm_daemon _ _ Hs)|by apply vault_of]. }
  destruct (bool_decide (_ = "" ∨ _)); [by split; [done|split; [exists s|..]]|].
  destruct (other_roles _ Hrole) as [Hother Hne].
  rewrite online_sent by done. cbn [fst snd Z.eqb]. rewrite <- opened_live. cbn [wid].
  change (Hub.other role) with (otherRole role).
  cbn [Hub.conns Hub.set_conns]. rewrite lookup_insert_ne by done.
  assert (∀ r, opened r (set_sockets (sockets (close_role role o) ++ [MkSocket ws role true]) (close_role role o)) =
    if decide (r = role) then [ws] else opened r o) as Hop.
  { intros r. rewrite opened_add, opened_close by done. cbn [tag wid].
    destruct (decide (r = role)) as [->|Hr]; [by rewrite decide_True|].
    rewrite decide_False by done. by rewrite (right_id_L [] (++)). }
  rewrite Hop, decide_False, (sm_opened _ _ Hs) by done.
  set (o1 := set_sockets _ (close_role role o)) in *.
  assert (same (Hub.set_conns (<[role:=ws]> (Hub.conns s)) s) o1) as Hs1.
  { apply (same_sockets _ (sockets o1) s o); [done|]. intros r Hr.
    change (opened r (set_sockets (sockets o1) o)) with (opened r o1). rewrite Hop.
    destruct (decide (r = role)) as [->|Hd]; [by rewrite lookup_insert_eq|].
    rewrite lookup_insert_ne by done. by apply Hs. }
  assert (sent o1 = sent o) as -> by done.
  assert (NoDup (wid <$> sockets o1)) as Hnd1.
  { cbn [o1 sockets set_sockets]. rewrite fmap_app, wids_close. apply NoDup_app.
    split; [done|]. split; [|apply NoDup_singleton]. intros x Hx Hx'%list_elem_of_singleton. subst x. done. }
  assert (Forall (λ s, tag s = "daemon" ∨ tag s = "vault") (sockets o1)) as Ht1.
  { cbn [o1 sockets set_sockets]. apply Forall_app_2; [|by constructor].
    unfold close_role. cbn [sockets set_sockets]. apply Forall_fmap. eapply Forall_impl; [done|].
    intros x Hx. simpl. by case_decide. }
  destruct (Hub.conns s !! otherRole role) as [w|]; cbn [option_list fmap list_fmap mjoin list_join];
    (split; [done|]); split; try done; cbn [snd Hub.sessions Hub.sendPresence Hub.send_to Hub.sent sent set_sent].
  - eexists. split; [apply lookup_insert_eq|by apply same_sent].
  - rewrite Hsent, !presence_agrees, <- (assoc_L (++)) by naive_solver. done.
  - eexists. split; [apply lookup_insert_eq|by apply same_sent].
  - simpl. by rewrite (right_id_L [] (++)).
Qed.

(** What is sent changes only the log. *)
Lemma agrees_sent id srv o x : agrees id srv o → agrees id (Hub.MkServer (Hub.sessions srv) x) (set_sent x o).
Proof. intros [(s & Hid & Hs) ? ? ?]. split; [|done..]. exists s. split; [done|by apply same_sent]. Qed.

Lemma tagged o s : Forall (λ s, tag s = "daemon" ∨ tag s = "vault") (sockets o) → s ∈ sockets o →
  tag s = "daemon" ∨ tag s = "vault".
Proof. rewrite Forall_forall. auto. Qed.

Lemma ka_agrees : stringify (JObj [("sys", JStr "ka_ack")]) = Hub.ka_ack.
Proof. by vm_compute. Qed.

Lemma frame_agrees id ws role data srv o : agrees id srv o → possible (EFrame ws role data) o →
  agrees id (Hub.receive ws id role data srv) (webSocketMessage ws data o).
Proof.
  intros Ha [Hin Hka]. pose proof Ha as [(s & Hid & Hs) Hsent Hnd Ht]. pose proof (tagged _ _ Ht Hin) as Hr.
  unfold Hub.receive, webSocketMessage. change (Hub.isSystemFrame data) with (isSystemFrame data).
  destruct (isSystemFrame data).
  - rewrite Hka. destruct (Hub.isKeepalive data); [|done].
    pose proof (own_socket o (MkSocket ws role true) Hnd Hin) as Ho. cbn [wid] in Ho. rewrite Ho.
    unfold for_each. cbn [fold_left]. unfold send. cbn [live wid snd]. rewrite ka_agrees, Hsent.
    unfold Hub.send_to. by apply agrees_sent.
  - rewrite broadcast_sent. rewrite (role_known _ _ _ _ Hnd Hin).
    rewrite (sm_opened _ _ Hs) by by apply other_roles. rewrite Hid. cbn [mbind option_bind].
    change (Hub.other role) with (otherRole role). rewrite Hsent.
    destruct (Hub.conns s !! otherRole role) as [w|]; [by apply agrees_sent|].
    simpl. rewrite (right_id_L [] (++)), <- Hsent. by destruct o.
Qed.

(** The number of a socket that ended is no longer open for its role, and never was for the other. *)
Lemma opened_ended ws role l r o (cs : gmap string nat) : NoDup (wid <$> sockets o) → MkSocket ws role l ∈ sockets o →
  opened r o = option_list (cs !! r) →
  List.filter (λ w, negb (bool_decide (w = ws))) (opened r o) =
  option_list ((if bool_decide (cs !! role = Some ws) then base.delete role cs else cs) !! r).
Proof.
  intros Hnd Hin Hop. assert (ws ∈ opened r o → r = role) as Hown.
  { unfold opened. intros (x & Hx & Hf)%list_elem_of_fmap. apply list_elem_of_In, filter_In in Hf as [Hi Hb].
    apply list_elem_of_In in Hi. apply andb_true_iff in Hb as [Hb%bool_decide_eq_true _].
    rewrite (socket_unique o x (MkSocket ws role l)) in Hb by done. by subst. }
  rewrite Hop in Hown |- *. destruct (cs !! r) as [w|] eqn:Hc.
  - simpl in Hown |- *. destruct (decide (w = ws)) as [->|Hw].
    + rewrite bool_decide_true by done. cbn [negb]. assert (r = role) as -> by (apply Hown; by left).
      rewrite bool_decide_true by done. by rewrite lookup_delete_eq.
    + rewrite bool_decide_false by done. cbn [negb]. case_bool_decide as Hd; [|by rewrite Hc].
      rewrite lookup_delete_ne, Hc by (intros ->; congruence). done.
  - simpl. case_bool_decide as Hd; [|by rewrite Hc].
    destruct (decide (role = r)) as [->|Hn]; [by rewrite lookup_delete_eq|by rewrite lookup_delete_ne, Hc].
Qed.

Lemma close_agrees id ws role srv o : agrees id srv o → possible (EClose ws role) o →
  agrees id (Hub.disconnect ws id role srv) (webSocketClose ws o).
Proof.
  intros [(s & Hid & Hs) Hsent Hnd Ht] [l Hin]. pose proof (tagged _ _ Ht Hin) as Hr. cbn [tag] in Hr.
  destruct (other_roles _ Hr) as [Hother Hne].
  unfold Hub.disconnect, webSocketClose, notifyOffline. cbv zeta.
  rewrite (role_known _ _ _ _ Hnd Hin), broadcast_sent, (sm_opened _ _ Hs), presence_agrees, Hid by naive_solver. cbv zeta.
  change (Hub.other role) with (otherRole role).
  set (cs := if bool_decide (Hub.conns s !! role = Some ws) then base.delete role (Hub.conns s) else Hub.conns s).
  replace (if bool_decide _ then Hub.set_conns _ s else s) with (Hub.set_conns cs s)
    by (subst cs; case_bool_decide; [done|by destruct s]).
  cbn [Hub.conns Hub.set_conns].
  assert (cs !! otherRole role = Hub.conns s !! otherRole role) as ->
    by (subst cs; case_bool_decide; [by rewrite lookup_delete_ne by done|done]).
  set (rest := List.filter _ _).
  assert (same (Hub.set_conns cs s) (set_sockets rest o)) as Hs'.
  { apply same_sockets; [done|]. intros r Hr'. unfold rest. cbn [sockets set_sent]. rewrite opened_remove.
    apply (opened_ended ws role l); [done..|by apply Hs]. }
  assert (NoDup (wid <$> rest)) as Hnd'.
  { unfold rest. cbn [sockets set_sent]. clear - Hnd. induction (sockets o) as [|x t IH]; [done|].
    cbn [fmap list_fmap] in Hnd. apply NoDup_cons in Hnd as [Hx Hnd]. simpl.
    destruct (negb _); [|by apply IH]. cbn [fmap list_fmap]. apply NoDup_cons. split; [|by apply IH].
    intros (y & Hy & Hf)%list_elem_of_fmap. apply list_elem_of_In, filter_In in Hf as [Hi%list_elem_of_In _].
    apply Hx, list_elem_of_fmap. by exists y. }
  assert (Forall (λ s, tag s = "daemon" ∨ tag s = "vault") rest) as Ht'.
  { apply Forall_forall. intros x Hf. apply list_elem_of_In, filter_In in Hf as [Hi%list_elem_of_In _].
    by apply (tagged o). }
  destruct (Hub.conns s !! otherRole role) as [w|]; split; try done.
  - exists (Hub.set_conns cs s). split; [apply lookup_insert_eq|by apply (same_sent _ _ _ Hs')].
  - cbn. by rewrite Hsent.
  - exists (Hub.set_conns cs s). split; [apply lookup_insert_eq|by apply (same_sent _ _ _ Hs')].
  - cbn. by rewrite Hsent, (right_id_L [] (++)).
Qed.

Lemma step_agrees id e srv o : agrees id srv o → possible e o →
  (deployed e o).1 = (local_hub id e srv).1 ∧ agrees id (local_hub id e srv).2 (deployed e o).2.
Proof.
  intros Ha Hp. destruct e as [now fresh secret|ws role tok|ws role data|ws role].
  - by apply claim_agrees.
  - by apply connect_agrees.
  - split; [done|]. by apply frame_agrees.
  - split; [done|]. by apply close_agrees.
Qed.

Lemma run_agrees id es : ∀ srv o, agrees id srv o → all_possible es o →
  (run deployed es o).1 = (run (local_hub id) es srv).1 ∧
  agrees id (run (local_hub id) es srv).2 (run deployed es o).2.
Proof.
  induction es as [|e es IH]; intros srv o Ha Hp; [done|]. destruct Hp as [He Hp].
  destruct (step_agrees _ _ _ _ Ha He) as [Hans Ha']. cbn [run].
  destruct (deployed e o) as [a o'], (local_hub id e srv) as [a' srv']. cbn [fst snd] in *. subst a'.
  destruct (IH srv' o' Ha' Hp) as [Hs Hend].
  destruct (run deployed es o') as [l1 e1], (run (local_hub id) es srv') as [l2 e2]. cbn [fst snd] in *. by subst.
Qed.

(** *** Sessions *)

(** A daemon's POST to the deployed hub, and to the local one. *)
Definition deployed_create (now : Z) (id tok : string) (body : string) : response * DurableObject :=
  let (r, w) := ws_fetch sha now (id, tok) "POST" ["ws"; "sessions"] (MkHeaders "" "") body ∅ in (r, stub id w).

Definition created_read (status : Z) (body : string) : option Ws.created :=
  if (status =? 200)%Z then
    match Decode_stream (struct_of Ws.created_fields) body (Ws.MkCreated "" "") with
    | (r, true) => Some r
    | _ => None
    end
  else None.

Lemma created_reply d j id tok : (j = stringify d ∨ j = print d +:+ str1 newline) →
  d = JObj [("session_id", JStr id); ("daemon_token", JStr tok)] ∨
  d = JObj [("daemon_token", JStr tok); ("session_id", JStr id)] →
  utf8_str id = true → utf8_str tok = true → created_read 200 j = Some (Ws.MkCreated id tok).
Proof.
  intros Hj Hd Hi Ht. unfold created_read. change (200 =? 200)%Z with true. cbv beta match.
  assert (jok 1 d) as Hok by (destruct Hd as [-> | ->]; apply (jok_obj 0);
    repeat first [apply Forall_cons_2 | apply Forall_nil_2 | split; [done|by constructor]]).
  destruct Hj as [-> | ->]; [unfold Decode_stream; rewrite (JsText.stringify_parsed 1)
    |rewrite (WsTheorems.reply_decoded _ 1)]; try done; by destruct Hd as [-> | ->].
Qed.

Lemma body_stringified d j : jok d j → (d ≤ max_depth)%N → body_json (stringify j) = j.
Proof. intros Hj Hd. unfold body_json, parse. by rewrite (JsText.stringify_parsed d). Qed.

Lemma create_forwarded pub pub2 secret : utf8_str pub = true → utf8_str pub2 = true → utf8_str secret = true →
  let b := body_json (print (Ws.create_body pub pub2 secret)) in
  is_null b = false ∧ prop "role" b = Some (JStr "daemon") ∧
  body_json (stringify (forwarded b)) = JObj [("pub", JStr pub); ("pub_v2", JStr pub2);
    ("versions", Ws.versions_json); ("claim_secret", JStr secret)].
Proof.
  intros H1 H2 H3 b. assert (b = Ws.create_body pub pub2 secret) as ->.
  { unfold b, body_json. rewrite (parse_print_value 2); [done|apply (jok_obj 1)|done].
    repeat first [apply Forall_app_2 | apply Forall_cons_2 | apply Forall_nil_2
                 | unfold Ws.nonempty; case_decide
                 | split; [done|first [apply WsTheorems.versions_jok | by constructor]]]. }
  assert (forwarded (Ws.create_body pub pub2 secret) = JObj [("pub", JStr pub); ("pub_v2", JStr pub2);
    ("versions", Ws.versions_json); ("claim_secret", JStr secret)]) as ->.
  { unfold Ws.create_body, Ws.nonempty. by repeat case_decide; subst. }
  split; [done|]. split; [unfold Ws.create_body, Ws.nonempty; by repeat case_decide|].
  apply (body_stringified 2); [apply (jok_obj 1)|done].
  repeat first [apply Forall_cons_2 | apply Forall_nil_2
               | split; [done|first [apply WsTheorems.versions_jok | by constructor]]].
Qed.

Lemma created_agrees now id tok pub pub2 secret :
  utf8_str pub = true → utf8_str pub2 = true → utf8_str secret = true →
  utf8_str id = true → utf8_str tok = true → sha "" ≠ "" → sha secret ≠ sha "" ∨ secret = "" →
  let body := print (Ws.create_body pub pub2 secret) in
  let '((c1, t), o) := deployed_create now id tok body in
  let '((c2, j), srv) := Hub.handleCreate sha id tok body Hub.New in
  created_read c1 t = Some (Ws.MkCreated id tok) ∧
  created_read c2 (print j +:+ str1 newline) = Some (Ws.MkCreated id tok) ∧
  agrees id srv o.
Proof.
  intros H1 H2 H3 Hi Ht Hsha Hsecret. cbv zeta. unfold deployed_create, ws_fetch, Hub.handleCreate.
  rewrite WsTheorems.create_decoded by done. cbv beta match zeta.
  destruct (create_forwarded _ _ _ H1 H2 H3) as (Hnull & Hrole & Hf).
  rewrite (decide_False (P:="POST" = "OPTIONS")), !decide_True by done. rewrite Hnull. cbn [fst snd]. rewrite decide_False by (intros Hr; by apply Hr).
  unfold at_stub, create. rewrite Hf.
  change (string_prop "pub" (JObj _)) with pub. change (string_prop "pub_v2" (JObj _)) with pub2.
  change (string_prop "claim_secret" (JObj _)) with secret. change (list_prop "versions" (JObj _)) with
    (JInt <$> Rpc.Supported). cbv beta match zeta. unfold stub. rewrite lookup_insert_eq, lookup_empty.
  cbn [default from_option Hub.PubV2 Hub.Versions Hub.Pub Hub.ClaimSecret].
  split; [by eapply created_reply; [left|left|..]|]. split; [by eapply created_reply; [right|right|..]|].
  split; try done; [|apply NoDup_nil_2]. eexists. split; [apply lookup_insert_eq|].
  split; cbn; try done.
  - unfold nonempty. by case_decide.
  - unfold nonempty. by case_decide.
  - unfold nonempty. by case_decide.
  - case_decide; [congruence|by destruct Hsecret].
  - by repeat constructor.
Qed.


End agree.

(** A wrong secret, the claim, the two sockets, a frame each way, a keepalive, a socket that replaces the
    vault's, the end of both, a second claim. *)
Definition a_session : list event :=
  [EClaim 5 "no" "guess"; EClaim 5 "vt" "s3cret"; EConnect 1 "daemon" "dt"; EConnect 2 "vault" "vt";
   EConnect 3 "vault" "no"; EFrame 1 "daemon" "{}"; EFrame 2 "vault" "hello"; EFrame 2 "vault" (stringify (JObj [("sys", JStr "ka")]));
   EConnect 3 "vault" "vt"; EClose 2 "vault"; EFrame 1 "daemon" "again"; EClose 3 "vault"; EClaim 6 "x" "s3cret"].

Definition tagged_hash (s : string) : string := "h" +:+ s.

Abbreviation a_body := (print (Ws.create_body "p1" "p2" "s3cret")).
Abbreviation a_deployed := ((deployed_create tagged_hash 1 "sid" "dt" a_body).2).
Abbreviation a_local := ((Hub.handleCreate tagged_hash "sid" "dt" a_body Hub.New).2).

Lemma a_session_possible : all_possible tagged_hash a_session a_deployed.
Proof.
  repeat split; vm_compute; first [discriminate | left; discriminate | right; discriminate
    | intros H; repeat match goal with
        | H : list_elem_of _ _ |- _ => inversion H; clear H; subst
        | H : _ ∈ _ |- _ => inversion H; clear H; subst
        end
    | try eexists; repeat first [apply list_elem_of_here | apply list_elem_of_further]].
Qed.


End TwoHubs.
