(* ===== verification/Peer.v ===== *)
(** * internal/webrtc/peer.go: a peer connection made over the signalling service

    pion and the HTTP client are the classes [Pion] and [Network] over the state of the rest
    of the program; every operation of the peer is a computation on the peer and on it, with
    fuel for the loops that poll. *)
From stdpp Require Import pretty.
From S2P Require Import Prelude GoStrings GoJson GoJsonPrint GoTime GoUrl Webrtc.
Import GoStr GoJson JsonPrint GoTime Webrtc.

Module Peer.

Inductive conn_state := StateNew | Connecting | Connected | Disconnected | Failed | Closed.

(** The HTTP client (method, address, headers, body; status and body of the reply), the
    clock and the terminal. *)
Class Network (W : Type) := {
  Do : string → string → list (string * string) → string → W → result string (Z * string) * W;
  Now : W → Z;
  Sleep : Z → W → W;
  Show : string → W → W;
}.

Class Pion (W : Type) := {
  PeerConnection : Type;
  DataChannel : Type;
  Description : Type;
  Candidate : Type;
  NewPeerConnection : list ICEServer → bool → W → result string PeerConnection * W;
  pc_Close : PeerConnection → W → result string () * W;
  pc_CreateDataChannel : PeerConnection → string → W → result string DataChannel * W;
  pc_CreateOffer : PeerConnection → W → result string Description * W;
  pc_CreateAnswer : PeerConnection → W → result string Description * W;
  SetLocalDescription : PeerConnection → Description → W → result string () * W;
  LocalDescription : PeerConnection → W → Description;
  SetRemoteDescription : PeerConnection → Description → W → result string () * W;
  AddICECandidate : PeerConnection → Candidate → W → result string () * W;
  ConnectionState : PeerConnection → W → conn_state;
  dc_Send : DataChannel → string → W → result string () * W;
  description_json : Description → json;
  description_decode : decoder Description;
  no_description : Description;
  candidate_json : Candidate → json;
  candidate_decode : decoder Candidate;
  no_candidate : Candidate;
}.

(** A session at the signalling service, with the token of one role. *)
Record target := MkTarget { signaling : string; session : string; tok : string }.

Section Peer.
Context {W : Type} `{Network W} `{Pion W}.

(** [onICE]: where local candidates go; [onOpen], [onData], [onClose]: whether the callbacks
    are set; [attached]: whether a channel the other side opens is taken. *)
Record Peer := MkPeer {
  pc : PeerConnection;
  dc : option DataChannel;
  role : string;
  onICE : option target;
  onOpen : bool;
  onData : bool;
  onClose : bool;
  attached : bool;
  exchanges : list (target * Z);
}.

(** [exchanges] above: the goroutines started, with their deadlines. *)

Definition set_pc x p := MkPeer x (dc p) (role p) (onICE p) (onOpen p) (onData p) (onClose p) (attached p) (exchanges p).
Definition set_dc x p := MkPeer (pc p) x (role p) (onICE p) (onOpen p) (onData p) (onClose p) (attached p) (exchanges p).
Definition set_onICE x p := MkPeer (pc p) (dc p) (role p) x (onOpen p) (onData p) (onClose p) (attached p) (exchanges p).
Definition attachOnDataChannel p :=
  MkPeer (pc p) (dc p) (role p) (onICE p) (onOpen p) (onData p) (onClose p) true (exchanges p).
Definition go_exchange x p :=
  MkPeer (pc p) (dc p) (role p) (onICE p) (onOpen p) (onData p) (onClose p) (attached p) (exchanges p ++ [x]).
Definition OnOpen p := MkPeer (pc p) (dc p) (role p) (onICE p) true (onData p) (onClose p) (attached p) (exchanges p).
Definition OnData p := MkPeer (pc p) (dc p) (role p) (onICE p) (onOpen p) true (onClose p) (attached p) (exchanges p).
Definition OnClose p := MkPeer (pc p) (dc p) (role p) (onICE p) (onOpen p) (onData p) true (attached p) (exchanges p).

(** ** Computations *)

(** A dereference of nil ends the program. *)
Inductive failure := Error (e : string) | Panicked.

Definition M (A : Type) : Type := Peer → W → option (result failure A * Peer * W).

#[export] Instance M_ret : MRet M := λ A a p w, Some (Ok a, p, w).
#[export] Instance M_bind : MBind M := λ A B k c p w,
  match c p w with
  | Some (Ok a, p, w) => k a p w
  | Some (Err e, p, w) => Some (Err e, p, w)
  | None => None
  end.

Definition fail {A} (e : string) : M A := λ p w, Some (Err (Error e), p, w).
Definition panic {A} : M A := λ p w, Some (Err Panicked, p, w).
Definition state : M Peer := λ p w, Some (Ok p, p, w).
Definition update (f : Peer → Peer) : M () := λ p w, Some (Ok tt, f p, w).
Definition reading {A} (f : W → A) : M A := λ p w, Some (Ok (f w), p, w).
Definition world (f : W → W) : M () := λ p w, Some (Ok tt, p, f w).

(** A call of a library; [wrap] is what the code puts in front of the error. *)
Definition call {A} (wrap : string) (f : W → result string A * W) : M A := λ p w,
  match f w with
  | (Ok a, w) => Some (Ok a, p, w)
  | (Err e, w) => Some (Err (Error (wrap +:+ e)), p, w)
  end.

Definition wrapped {A} (wrap : string) (c : M A) : M A := λ p w,
  match c p w with
  | Some (Err (Error e), p, w) => Some (Err (Error (wrap +:+ e)), p, w)
  | r => r
  end.

(** The error as a value; a panic passes. *)
Definition attempt {A} (c : M A) : M (result string A) := λ p w,
  match c p w with
  | Some (Ok a, p, w) => Some (Ok (Ok a), p, w)
  | Some (Err (Error e), p, w) => Some (Ok (Err e), p, w)
  | Some (Err Panicked, p, w) => Some (Err Panicked, p, w)
  | None => None
  end.

(** ** Requests *)

Definition content_type : string * string := ("Content-Type", "application/json").
Definition role_token (t : target) : string * string := ("X-Valet-Role-Token", tok t).
Definition endpoint (t : target) (what : string) : string :=
  signaling t +:+ "/sessions/" +:+ session t +:+ what.

(** A request whose address does not parse is nil, and the code sets a header on it. *)
Definition request (method url : string) (hs : list (string * string)) (body : string) : M (result string (Z * string)) :=
  match GoUrl.Parse url with
  | Some _ => attempt (call "" (Do method url hs body))
  | None => panic
  end.

Definition described_fields : list (string * decoder described) :=
  [("urls", λ v s, (MkDescribed v (Username s) (Credential s), true));
   ("username", field_string (λ s x, MkDescribed (URLs s) x (Credential s)));
   ("credential", field_string (λ s x, MkDescribed (URLs s) (Username s) x))].

(** A slice of values that have a decoder. *)
Definition field_list {S A} (d : decoder A) (zero : A) (set : S → list A → S) : decoder S :=
  λ v s, match v with
         | JNull => (set s [], true)
         | JArr l => let rs := (λ v, d v zero) <$> l in (set s rs.*1, forallb id rs.*2)
         | _ => (s, false)
         end.

Definition no_server : described := MkDescribed JNull "" "".

Definition fetchICEServers (t : target) : M (list ICEServer) :=
  r ← request "GET" (endpoint (MkTarget (TrimRight (signaling t) ["/"%char]) (session t) (tok t)) "/turn") [role_token t] "";
  match r with
  | Err e => fail e
  | Ok (code, body) =>
      if (300 <=? code)%Z then fail ("turn fetch failed: " +:+ TrimSpace body)
      else match Decode_stream (struct_of [("iceServers",
             field_list (struct_of described_fields) no_server (λ _ x, x))]) body [] with
      | (l, true) => mret (normalizeICEServers l)
      | (_, false) => fail "turn reply"
      end
  end.

(** ** The connection *)

Definition newPeer (r : string) (servers : list ICEServer) (relayOnly : bool) (w : W)
  : result string Peer * W :=
  match NewPeerConnection (peer_servers servers) relayOnly w with
  | (Ok c, w) => (Ok (MkPeer c None r None false false false false []), w)
  | (Err e, w) => (Err e, w)
  end.

Definition NewDaemon : W → result string Peer * W := newPeer "daemon" defaultICEServers false.

Definition NewController (w : W) : result string Peer * W :=
  match newPeer "controller" defaultICEServers false w with
  | (Ok p, w) => (Ok (attachOnDataChannel p), w)
  | r => r
  end.

(** The handlers of the old connection are registered again on the new one. *)
Definition rebuildWithICE (servers : list ICEServer) (relayOnly : bool) : M () :=
  p ← state;
  _ ← attempt (call "" (pc_Close (pc p)));
  c ← call "" (NewPeerConnection servers relayOnly);
  update (λ p, let p := set_pc c p in
               if decide (role p = "controller") then attachOnDataChannel p else p).

Definition CreateOffer : M Description :=
  p ← state;
  d ← call "" (pc_CreateDataChannel (pc p) "valetfs");
  _ ← update (set_dc (Some d));
  offer ← call "" (pc_CreateOffer (pc p));
  _ ← call "" (SetLocalDescription (pc p) offer);
  reading (LocalDescription (pc p)).

Definition AcceptAnswer (answer : Description) : M () :=
  p ← state; call "" (SetRemoteDescription (pc p) answer).

Definition AcceptOfferAndAnswer (offer : Description) : M Description :=
  p ← state;
  _ ← call "" (SetRemoteDescription (pc p) offer);
  answer ← call "" (pc_CreateAnswer (pc p));
  _ ← call "" (SetLocalDescription (pc p) answer);
  reading (LocalDescription (pc p)).

Definition AddRemoteCandidate (c : Candidate) : M () :=
  p ← state; call "" (AddICECandidate (pc p) c).

Definition Send (b : string) : M () :=
  p ← state;
  match dc p with
  | None => fail "webrtc: data channel not ready"
  | Some d => call "" (dc_Send d b)
  end.

Definition Close : M () := p ← state; call "" (pc_Close (pc p)).

(** *** What pion calls back *)

Inductive event := Opened | Closing | Message (b : string).
Inductive callback := COpen | CClose | CData (b : string).

(** A channel the other side has opened. *)
Definition on_channel (d : DataChannel) (p : Peer) : Peer :=
  if attached p then set_dc (Some d) p else p.

(** An event of the channel: the callbacks set at that moment are called. *)
Definition on_event (e : event) (p : Peer) : list callback :=
  match e with
  | Opened => if onOpen p then [COpen] else []
  | Closing => if onClose p then [CClose] else []
  | Message b => if onData p then [CData b] else []
  end.

Definition candidates_body (c : Candidate) : json := JObj [("candidates", JArr [candidate_json c])].

(** A local candidate, or the end of gathering. *)
Definition on_candidate (c : option Candidate) : M () :=
  p ← state;
  match c, onICE p with
  | Some c, Some t =>
      _ ← request "POST" (endpoint t "/candidates") [content_type; role_token t] (print (candidates_body c));
      mret tt
  | _, _ => mret tt
  end.

(** ** The candidate exchange *)

Definition Millisecond : Z := 1000000.
Definition Minute : Z := 60 * Second.

(** [startCandidateExchange]. *)
Definition startCandidateExchange (t : target) : M () :=
  _ ← update (set_onICE (Some t));
  now ← reading Now;
  update (go_exchange (t, now + 2 * Minute)%Z).

(** The goroutine between two turns, and why it ends. *)
Record cursor := MkCursor { since : Z; backoff : Z }.
Inductive stopped := Deadline | PeerState | Status (code : Z).

Definition first_cursor : cursor := MkCursor 0 (500 * Millisecond).

(** The wait doubles after a failure, up to fifteen seconds. *)
Definition next_backoff (d : Z) : Z :=
  if (15 * Second <? d * 2)%Z then (15 * Second)%Z else (d * 2)%Z.

Definition retry (c : cursor) : M (stopped + cursor) :=
  _ ← world (Sleep (backoff c));
  mret (inr (MkCursor (since c) (next_backoff (backoff c)))).

Record batch := MkBatch { Candidates : list Candidate; Next : Z }.

Definition batch_fields : list (string * decoder batch) :=
  [("candidates", field_list candidate_decode no_candidate (λ b x, MkBatch x (Next b)));
   ("next", field_int (λ b x, MkBatch (Candidates b) x))].

(** The candidates of a reply; that one is refused is ignored. *)
Fixpoint add_all (l : list Candidate) : M () :=
  match l with
  | [] => mret tt
  | c :: l => attempt (AddRemoteCandidate c) ≫= λ _, add_all l
  end.

Definition ended (s : conn_state) : bool :=
  match s with Closed | Failed | Disconnected => true | _ => false end.

(** One turn of the loop. *)
Definition turn (t : target) (deadline : Z) (c : cursor) : M (stopped + cursor) :=
  now ← reading Now;
  if (deadline <? now)%Z then mret (inl Deadline)
  else
    p ← state;
    s ← reading (ConnectionState (pc p));
    if ended s then mret (inl PeerState)
    else
      r ← request "GET" (endpoint t ("/candidates?since=" +:+ pretty (since c))) [role_token t] "";
      match r with
      | Err _ => retry c
      | Ok (code, body) =>
          if (300 <=? code)%Z then
            if decide (code = 403 ∨ code = 404)%Z then mret (inl (Status code)) else retry c
          else
            let b := (Decode_stream (struct_of batch_fields) body (MkBatch [] 0)).1 in
            _ ← add_all (Candidates b);
            _ ← world (Sleep (200 * Millisecond)%Z);
            mret (inr (MkCursor (Next b) (500 * Millisecond)%Z))
      end.

Fixpoint exchange (fuel : nat) (t : target) (deadline : Z) (c : cursor) : M stopped :=
  match fuel with
  | O => λ _ _, None
  | S fuel =>
      r ← turn t deadline c;
      match r with
      | inl s => mret s
      | inr c => exchange fuel t deadline c
      end
  end.

(** ** The daemon's side *)

Record created := MkCreated { SessionID : string; Token : string; ICEServers : list described }.

Definition created_fields : list (string * decoder created) :=
  [("session_id", field_string (λ c x, MkCreated x (Token c) (ICEServers c)));
   ("daemon_token", field_string (λ c x, MkCreated (SessionID c) x (ICEServers c)));
   ("iceServers", field_list (struct_of described_fields) no_server
      (λ c x, MkCreated (SessionID c) (Token c) x))].

Definition init_payload : json := JObj [("init", JBool true); ("role", JStr "daemon")].

Definition postOfferUpdate (t : target) (offer : Description) : M () :=
  r ← request "POST" (endpoint t "/offer") [content_type; role_token t]
        (print (JObj [("offer", description_json offer)]));
  match r with
  | Err e => fail e
  | Ok (code, body) => if (300 <=? code)%Z then fail (TrimSpace body) else mret tt
  end.

(** The servers of the reply, else those of the relay endpoint, else the default. *)
Definition servers_for (t : target) (l : list described) : M (list ICEServer) :=
  match normalizeICEServers l with
  | [] =>
      r ← attempt (fetchICEServers t);
      mret (match r with Ok ((_ :: _) as l) => l | _ => defaultICEServers end)
  | l => mret l
  end.

(** The poll for the answer. *)
Fixpoint await_answer (fuel : nat) (t : target) (deadline : Z) : M () :=
  match fuel with
  | O => λ _ _, None
  | S fuel =>
      now ← reading Now;
      if (now <? deadline)%Z then
        r ← request "GET" (endpoint t "/answer") [role_token t] "";
        match r with
        | Err _ => world (Sleep (2 * Second)%Z) ≫= λ _, await_answer fuel t deadline
        | Ok (code, body) =>
            if decide (code = 200%Z ∧ body ≠ "") then
              match Unmarshal (struct_of [("answer", description_decode)]) body no_description with
              | (answer, true) => AcceptAnswer answer
              | _ => fail "decode answer"
              end
            else world (Sleep (2 * Second)%Z) ≫= λ _, await_answer fuel t deadline
        end
      else fail "webrtc: timed out waiting for mobile pairing"
  end.

Definition pairing_code (t : target) : string :=
  "valetfs://pair?session=" +:+ session t +:+ "&url=" +:+ signaling t.

Definition Bootstrap (fuel : nat) (signalingURL : string) : M () :=
  if decide (signalingURL = "") then fail "webrtc: signaling URL is empty"
  else
    let url := TrimRight signalingURL ["/"%char] in
    '(_, body) ← call "post session init: "
      (Do "POST" (url +:+ "/sessions") [content_type] (print init_payload));
    match Unmarshal (struct_of created_fields) body (MkCreated "" "" []) with
    | (_, false) => fail "decode session"
    | (c, true) =>
        if decide (SessionID c = "") then fail "signaling did not return a session id"
        else
          let t := MkTarget url (SessionID c) (Token c) in
          servers ← servers_for t (ICEServers c);
          _ ← wrapped "rebuild with ice: " (rebuildWithICE servers false);
          _ ← startCandidateExchange t;
          offer ← wrapped "create offer: " CreateOffer;
          _ ← wrapped "post offer: " (postOfferUpdate t offer);
          _ ← world (Show (pairing_code t));
          now ← reading Now;
          await_answer fuel t (now + 2 * Minute)
    end.

(** ** The vault's side *)

Record claimed := MkClaimed { ControllerToken : string; Offer : Description }.

Definition claimed_fields : list (string * decoder claimed) :=
  [("controller_token", field_string (λ c x, MkClaimed x (Offer c)));
   ("offer", λ v c, let (d, ok) := description_decode v (Offer c) in (MkClaimed (ControllerToken c) d, ok))].

Definition postAnswer (t : target) (answer : Description) : M () :=
  r ← request "POST" (endpoint t "/answer") [content_type; role_token t]
        (print (JObj [("answer", description_json answer)]));
  match r with
  | Err e => fail ("post answer: " +:+ e)
  | Ok (code, body) =>
      if (300 <=? code)%Z then fail ("post answer failed: " +:+ TrimSpace body) else mret tt
  end.

(** The poll for the connection. *)
Fixpoint await_connection (fuel : nat) (deadline : Z) : M () :=
  match fuel with
  | O => λ _ _, None
  | S fuel =>
      now ← reading Now;
      if (now <? deadline)%Z then
        p ← state;
        s ← reading (ConnectionState (pc p));
        match s with
        | Connected => mret tt
        | _ => world (Sleep (300 * Millisecond)%Z) ≫= λ _, await_connection fuel deadline
        end
      else fail "webrtc: timed out waiting for data channel open"
  end.

Definition Join (fuel : nat) (signalingURL sessionID : string) : M () :=
  if decide (signalingURL = "" ∨ sessionID = "") then
    fail "webrtc: signaling URL and session ID are required"
  else
    let url := TrimRight signalingURL ["/"%char] in
    '(code, body) ← call "claim session: "
      (Do "POST" (url +:+ "/sessions/" +:+ sessionID +:+ "/claim") [content_type]
         (print (JObj [("role", JStr "controller")])));
    if (300 <=? code)%Z then fail ("claim failed: " +:+ TrimSpace body)
    else match Decode_stream (struct_of claimed_fields) body (MkClaimed "" no_description) with
    | (_, false) => fail "decode claim"
    | (c, true) =>
        if decide (ControllerToken c = "") then fail "missing controller token"
        else
          let t := MkTarget url sessionID (ControllerToken c) in
          servers ← servers_for t [];
          _ ← wrapped "rebuild with ice: " (rebuildWithICE servers false);
          _ ← startCandidateExchange t;
          answer ← wrapped "create answer: " (AcceptOfferAndAnswer (Offer c));
          _ ← postAnswer t answer;
          now ← reading Now;
          await_connection fuel (now + 45 * Second)
    end.

End Peer.
End Peer.
