(* ===== verification/PeerProps.v ===== *)
(** * internal/webrtc/peer.go: the loops end, and candidates arrive once and in order *)
From stdpp Require Import pretty.
From S2P Require Import Prelude GoStrings GoJson GoJsonPrint GoTime GoHttp GoUrl Webrtc Peer Worker.
Import GoStr GoJson JsonPrint GoTime GoHttp Webrtc Peer.

Module PeerTheorems.

(** ** Time *)

(** No operation turns the clock back, and sleeping takes as long as it was asked for. *)
Class PeerTime (W : Type) `{Network W} `{Pion W} : Prop := {
  sleep_for d w : (0 ≤ d)%Z → (Now w + d ≤ Now (Sleep d w))%Z;
  do_forward m u h b w : (Now w ≤ Now (Do m u h b w).2)%Z;
  show_forward s w : (Now w ≤ Now (Show s w))%Z;
  new_forward l r w : (Now w ≤ Now (NewPeerConnection l r w).2)%Z;
  close_forward c w : (Now w ≤ Now (pc_Close c w).2)%Z;
  channel_forward c s w : (Now w ≤ Now (pc_CreateDataChannel c s w).2)%Z;
  offer_forward c w : (Now w ≤ Now (pc_CreateOffer c w).2)%Z;
  answer_forward c w : (Now w ≤ Now (pc_CreateAnswer c w).2)%Z;
  local_forward c d w : (Now w ≤ Now (SetLocalDescription c d w).2)%Z;
  remote_forward c d w : (Now w ≤ Now (SetRemoteDescription c d w).2)%Z;
  add_forward c x w : (Now w ≤ Now (AddICECandidate c x w).2)%Z;
  send_forward c s w : (Now w ≤ Now (dc_Send c s w).2)%Z;
}.

Section time.
Context {W : Type} `{PeerTime W}.

(** A computation that ends; time passes. *)
Definition ends {A} (P : W → Prop) (c : M A) : Prop :=
  ∀ p w, P w → ∃ r p' w', c p w = Some (r, p', w') ∧ (Now w ≤ Now w')%Z.

Definition ends_always {A} (c : M A) : Prop := ends (λ _, True) c.

Lemma ends_bind {A B} P (c : M A) (k : A → M B) :
  ends P c → (∀ a, ends (λ _, True) (k a)) → ends P (c ≫= k).
Proof.
  intros Hc Hk p w Hw. unfold mbind, M_bind. destruct (Hc p w Hw) as (r & p' & w' & -> & Hle).
  destruct r as [a|e]; [|by eexists _, _, _].
  destruct (Hk a p' w' I) as (r & p2 & w2 & -> & Hle'). eexists _, _, _. split; [done|lia].
Qed.

Lemma ends_ret {A} (a : A) P : ends P (mret a).
Proof. intros p w _. by eexists _, _, _. Qed.
Lemma ends_fail {A} e P : ends P (fail (A:=A) e).
Proof. intros p w _. by eexists _, _, _. Qed.
Lemma ends_panic {A} P : ends P (panic (A:=A)).
Proof. intros p w _. by eexists _, _, _. Qed.
Lemma ends_state P : ends P state.
Proof. intros p w _. by eexists _, _, _. Qed.
Lemma ends_update f P : ends P (update f).
Proof. intros p w _. by eexists _, _, _. Qed.
Lemma ends_reading {A} (f : W → A) P : ends P (reading f).
Proof. intros p w _. by eexists _, _, _. Qed.
Lemma ends_world f P : (∀ w, (Now w ≤ Now (f w))%Z) → ends P (world f).
Proof. intros Hf p w _. by eexists _, _, _. Qed.

Lemma ends_call {A} s (f : W → result string A * W) P : (∀ w, (Now w ≤ Now (f w).2)%Z) → ends P (call s f).
Proof.
  intros Hf p w _. unfold call. specialize (Hf w). destruct (f w) as [[a|e] w']; by eexists _, _, _.
Qed.

Lemma ends_wrapped {A} s (c : M A) P : ends P c → ends P (wrapped s c).
Proof.
  intros Hc p w Hw. unfold wrapped. destruct (Hc p w Hw) as (r & p' & w' & -> & Hle).
  destruct r as [a|[e|]]; by eexists _, _, _.
Qed.

Lemma ends_attempt {A} (c : M A) P : ends P c → ends P (attempt c).
Proof.
  intros Hc p w Hw. unfold attempt. destruct (Hc p w Hw) as (r & p' & w' & -> & Hle).
  destruct r as [a|[e|]]; by eexists _, _, _.
Qed.

End time.

Create HintDb peer.
#[export] Hint Resolve ends_bind ends_ret ends_fail ends_panic ends_state ends_update ends_reading ends_world
  ends_call ends_wrapped ends_attempt : peer.
#[export] Hint Resolve do_forward show_forward new_forward close_forward channel_forward offer_forward
  answer_forward local_forward remote_forward add_forward send_forward : peer.

Section loops.
Context {W : Type} `{PeerTime W}.

Lemma sleep_forward d w : (0 ≤ d)%Z → (Now w ≤ Now (Sleep d w))%Z.
Proof. intros Hd. pose proof (sleep_for d w Hd). lia. Qed.

Lemma ends_request m u h b P : ends P (request m u h b).
Proof. unfold request. destruct (GoUrl.Parse u); eauto with peer. Qed.

(** A body of straight-line code. *)
Ltac straight := repeat first
  [ apply ends_bind; [|intros ?]
  | apply ends_request | solve [eauto 6 with peer]
  | case_match | match goal with |- ends _ (if decide ?P then _ else _) => destruct (decide P) end ].

Lemma ends_fetch t P : ends P (fetchICEServers t).
Proof. unfold fetchICEServers. straight. Qed.

Lemma ends_servers t l P : ends P (servers_for t l).
Proof. unfold servers_for. pose proof (ends_fetch t P). straight. Qed.

Lemma ends_rebuild l r P : ends P (rebuildWithICE l r).
Proof. unfold rebuildWithICE. straight. Qed.

Lemma ends_CreateOffer P : ends P CreateOffer.
Proof. unfold CreateOffer. straight. Qed.

Lemma ends_AcceptOffer o P : ends P (AcceptOfferAndAnswer o).
Proof. unfold AcceptOfferAndAnswer. straight. Qed.

Lemma ends_start t P : ends P (startCandidateExchange t).
Proof. unfold startCandidateExchange. straight. Qed.

Lemma ends_post_offer t o P : ends P (postOfferUpdate t o).
Proof. unfold postOfferUpdate. straight. Qed.

Lemma ends_post_answer t o P : ends P (postAnswer t o).
Proof. unfold postAnswer. straight. Qed.

Lemma ends_add c P : ends P (AddRemoteCandidate c).
Proof. unfold AddRemoteCandidate. straight. Qed.

Lemma ends_add_all l P : ends P (add_all l).
Proof.
  revert P. induction l as [|c l IH]; intros P; cbn [add_all]; [eauto with peer|].
  apply ends_bind; [apply ends_attempt, ends_add|]. intros _. apply IH.
Qed.

(** What is left of the time, in turns of a loop. *)
Definition turns_left (deadline period : Z) (fuel : nat) (w : W) : Prop :=
  (deadline - Now w < Z.of_nat fuel * period)%Z.

(** What a step leaves to the rest. *)
Lemma M_bind_some {A B} (c : M A) (k : A → M B) p w r p' w' : c p w = Some (r, p', w') →
  (c ≫= k) p w = match r with Ok a => k a p' w' | Err e => Some (Err e, p', w') end.
Proof. intros Hc. unfold mbind, M_bind. rewrite Hc. by destruct r. Qed.

Lemma bind_reading {A B} (f : W → A) (k : A → M B) p w : (reading f ≫= k) p w = k (f w) p w.
Proof. done. Qed.

(** A run that ends, and what holds of its result. *)
Definition yields {A} (c : M A) (p : Peer) (w : W) (Q : result failure A → W → Prop) : Prop :=
  ∃ r p' w', c p w = Some (r, p', w') ∧ Q r w'.

Definition returns {A} (c : M A) p w : Prop := yields c p w (λ _ _, True).

Lemma ends_yields {A} (c : M A) p w (Q : result failure A → W → Prop) : ends (λ _, True) c →
  (∀ r w', (Now w ≤ Now w')%Z → Q r w') → yields c p w Q.
Proof. intros Hc HQ. destruct (Hc p w I) as (r & p' & w' & Hr & Hle). exists r, p', w'. auto. Qed.

(** After a step that ends, it is enough that the rest does so from any later time. *)
Lemma yields_bind {A B} (c : M A) (k : A → M B) p w (Q : result failure B → W → Prop) : ends (λ _, True) c →
  (∀ a p' w', (Now w ≤ Now w')%Z → yields (k a) p' w' Q) →
  (∀ e w', (Now w ≤ Now w')%Z → Q (Err e) w') → yields (c ≫= k) p w Q.
Proof.
  intros Hc Hk He. destruct (Hc p w I) as (r & p' & w' & Hr & Hle). unfold yields.
  rewrite (M_bind_some _ _ _ _ _ _ _ Hr). destruct r as [a|e]; [by apply Hk|].
  eexists _, _, _. split; [done|by apply He].
Qed.

Lemma yields_sleep {B} d (k : M B) p w (Q : result failure B → W → Prop) : (0 ≤ d)%Z →
  (∀ p' w', (Now w + d ≤ Now w')%Z → yields k p' w' Q) → yields (world (Sleep d) ≫= λ _, k) p w Q.
Proof. intros Hd Hk. apply (Hk p (Sleep d w)), sleep_for, Hd. Qed.

(** ** The polls *)

Lemma await_answer_returns t deadline fuel : ∀ p w, turns_left deadline (2 * Second) fuel w →
  returns (await_answer (S fuel) t deadline) p w.
Proof.
  induction fuel as [|fuel IH]; intros p w Hw; cbn [await_answer]; unfold returns, yields; rewrite bind_reading;
    unfold turns_left in Hw; (destruct (Z.ltb_spec (Now w) deadline) as [Hlt|]; [|by eexists _, _, _]);
    [lia|].
  apply yields_bind; [apply ends_request| |done]. intros r p' w' Hle.
  assert (returns (world (Sleep (2 * Second)%Z) ≫= λ _, await_answer (S fuel) t deadline) p' w') as Hrest.
  { apply yields_sleep; [done|]. intros p2 w2 Hw2. apply IH. unfold turns_left. lia. }
  destruct r as [[code body]|e]; [|exact Hrest]. case_decide; [|exact Hrest].
  destruct (Unmarshal _ _ _) as [answer []]; (apply ends_yields; [unfold AcceptAnswer; straight|done]).
Qed.

Lemma await_connection_returns deadline fuel : ∀ p w, turns_left deadline (300 * Millisecond) fuel w →
  returns (await_connection (S fuel) deadline) p w.
Proof.
  induction fuel as [|fuel IH]; intros p w Hw; cbn [await_connection]; unfold returns, yields; rewrite bind_reading;
    unfold turns_left in Hw; (destruct (Z.ltb_spec (Now w) deadline) as [Hlt|]; [|by eexists _, _, _]);
    [lia|].
  apply yields_bind; [straight| |done]. intros p0 p' w' Hle.
  apply yields_bind; [straight| |done]. intros s p2 w2 Hle2.
  assert (returns (world (Sleep (300 * Millisecond)%Z) ≫= λ _, await_connection (S fuel) deadline) p2 w2) as Hrest.
  { apply yields_sleep; [done|]. intros p3 w3 Hw3. apply IH. unfold turns_left. lia. }
  destruct s; try exact Hrest. by eexists _, _, _.
Qed.

(** A turn that does not end the exchange takes at least 200 ms. *)
Definition goes_on (deadline : Z) (w : W) (r : result failure (stopped + cursor)) (w' : W) : Prop :=
  (Now w ≤ Now w')%Z ∧
  match r with
  | Ok (inr c) => (Now w ≤ deadline ∧ Now w + 200 * Millisecond ≤ Now w' ∧ 500 * Millisecond ≤ backoff c)%Z
  | _ => True
  end.

Lemma retry_takes c p w0 w deadline : (Now w0 ≤ Now w)%Z → (Now w0 ≤ deadline)%Z →
  (500 * Millisecond ≤ backoff c)%Z → yields (retry c) p w (goes_on deadline w0).
Proof.
  intros Hw Hd Hb. unfold retry. assert (0 < Millisecond ∧ 0 < Second)%Z as [Hm Hs] by done.
  apply yields_sleep; [lia|]. intros p' w' Hle. eexists _, _, _. split; [done|]. split; [lia|]. simpl.
  unfold next_backoff. destruct (Z.ltb_spec (15 * Second) (backoff c * 2)); split_and!; try lia. done.
Qed.

Lemma stop_now (s : stopped) p w0 w deadline : (Now w0 ≤ Now w)%Z →
  yields (mret (inl s)) p w (goes_on deadline w0).
Proof. intros Hw. by eexists _, _, _. Qed.

Lemma turn_takes t deadline c p w : (500 * Millisecond ≤ backoff c)%Z →
  yields (turn t deadline c) p w (goes_on deadline w).
Proof.
  intros Hb. unfold turn, yields. rewrite bind_reading. assert (0 < Millisecond)%Z as Hm by done.
  destruct (Z.ltb_spec deadline (Now w)) as [|Hd]; [by apply stop_now|].
  apply yields_bind; [straight| |by split]. intros p0 p1 w1 L1.
  apply yields_bind; [straight| |split; [lia|done]]. intros s p2 w2 L2.
  destruct (ended s); [apply stop_now; lia|].
  apply yields_bind; [apply ends_request| |split; [lia|done]]. intros r p3 w3 L3.
  destruct r as [[code body]|e]; [|apply retry_takes; lia].
  destruct (300 <=? code)%Z.
  - destruct (decide _); [apply stop_now; lia|apply retry_takes; lia].
  - apply yields_bind; [apply ends_add_all| |split; [lia|done]]. intros _ p4 w4 L4.
    apply yields_sleep; [lia|]. intros p5 w5 L5. eexists _, _, _. split; [done|]. split; [lia|]. simpl.
    split_and!; lia.
Qed.

Lemma exchange_returns t deadline fuel : ∀ c p w, (500 * Millisecond ≤ backoff c)%Z →
  turns_left deadline (200 * Millisecond) fuel w → returns (exchange (S fuel) t deadline c) p w.
Proof.
  unfold turns_left. assert (0 < Millisecond)%Z as Hm by done.
  induction fuel as [|fuel IH]; intros c p w Hb Hw; cbn [exchange];
    destruct (turn_takes t deadline c p w Hb) as (r & p' & w' & Hr & Hgo); unfold returns, yields;
    rewrite (M_bind_some _ _ _ _ _ _ _ Hr); (destruct r as [[s|c']|e]; [by eexists _, _, _| |by eexists _, _, _]);
    destruct Hgo as (_ & Hd & Hle & Hb').
  - lia.
  - apply IH; [done|lia].
Qed.

(** The clock after an exchange. *)
Lemma exchange_forward t deadline fuel : ∀ c p w r p' w', (500 * Millisecond ≤ backoff c)%Z →
  exchange fuel t deadline c p w = Some (r, p', w') → (Now w ≤ Now w')%Z.
Proof.
  induction fuel as [|fuel IH]; intros c p w r p' w' Hb Hx; [done|]. cbn [exchange] in Hx.
  destruct (turn_takes t deadline c p w Hb) as (r1 & p1 & w1 & Hr & Hle & Hgo).
  rewrite (M_bind_some _ _ _ _ _ _ _ Hr) in Hx. destruct r1 as [[s|c1]|e];
    [by injection Hx as <- <- <-| |by injection Hx as <- <- <-].
  destruct Hgo as (_ & _ & Hb1). specialize (IH _ _ _ _ _ _ Hb1 Hx). lia.
Qed.


End loops.

(** ** The exchange over the worker *)

Lemma QueryEscape_digits s : all_digits s = true → QueryEscape s = s.
Proof.
  induction s as [|a s IH]; [done|]. cbn [all_digits]. intros [Ha Hs]%andb_true_iff. cbn [QueryEscape].
  rewrite IH by done. by destruct a as [[] [] [] [] [] [] [] []].
Qed.

Lemma pretty_digits (n : nat) : ∃ a r, pretty (Z.of_nat n) = String a r ∧ all_digits (String a r) = true ∧
  digits_val 0 (String a r) = Some (Z.of_nat n).
Proof.
  rewrite pretty_Z_cases. destruct (Z.ltb_spec (Z.of_nat n) 0); [lia|].
  destruct (pretty_N_spec (Z.abs_N (Z.of_nat n))) as (a & r & -> & _ & Hd & Hv). exists a, r.
  split; [done|]. split; [done|]. rewrite Hv. f_equal. lia.
Qed.

(** *** Numbered candidates *)

Lemma number_app n l1 l2 : Worker.number n (l1 ++ l2) =
  Worker.number n l1 ++ Worker.number (n + Z.of_nat (length l1)) l2.
Proof.
  revert n. induction l1 as [|c l1 IH]; intros n; [by rewrite Z.add_0_r|]. cbn [app Worker.number length].
  rewrite IH. do 2 f_equal. f_equal. lia.
Qed.

Lemma number_length n l : length (Worker.number n l) = length l.
Proof. revert n. induction l as [|c l IH]; intros n; [done|]. cbn [Worker.number length]. by rewrite IH. Qed.

Lemma last_number n l : from_option Worker.seq n (last (Worker.number n l)) = (n + Z.of_nat (length l))%Z.
Proof.
  revert n. induction l as [|c l IH]; intros n; [simpl; lia|]. cbn [Worker.number].
  specialize (IH (n + 1)%Z). destruct (Worker.number (n + 1) l) as [|e es] eqn:Hl.
  - apply (f_equal length) in Hl. rewrite number_length in Hl. destruct l; [|done]. simpl. lia.
  - rewrite last_cons_cons. destruct (last (e :: es)) as [x|] eqn:Hx; [|by apply last_None in Hx].
    simpl in *. lia.
Qed.

Lemma last_seq_number l : Worker.last_seq (Worker.number 0 l) = Z.of_nat (length l).
Proof. apply (last_number 0). Qed.

Lemma newer_above n k l : (k ≤ n)%Z → Worker.newer (Some k) (Worker.number n l) = Worker.number n l.
Proof.
  revert n. induction l as [|c l IH]; intros n Hk; [done|]. cbn [Worker.number]. unfold Worker.newer in *.
  cbn [List.filter Worker.seq]. destruct (Z.ltb_spec k (n + 1)); [|lia]. by rewrite IH by lia.
Qed.

Lemma newer_number m l n : Worker.newer (Some (n + Z.of_nat m)%Z) (Worker.number n l) =
  drop m (Worker.number n l).
Proof.
  revert n l. induction m as [|m IH]; intros n l; [rewrite Z.add_0_r, newer_above by lia; done|].
  destruct l as [|c l]; [done|]. cbn [Worker.number drop]. rewrite <- (IH (n + 1)%Z l).
  unfold Worker.newer. cbn [List.filter Worker.seq].
  replace (n + Z.of_nat (S m))%Z with (n + 1 + Z.of_nat m)%Z by lia.
  by destruct (Z.ltb_spec (n + 1 + Z.of_nat m) (n + 1)); [lia|].
Qed.

Lemma candidates_number n l : Worker.candidate <$> Worker.number n l = l.
Proof. revert n. induction l as [|c l IH]; intros n; [done|]. cbn. by rewrite IH. Qed.

Lemma drop_number m n l : Worker.candidate <$> drop m (Worker.number n l) = drop m l.
Proof. by rewrite fmap_drop, candidates_number. Qed.

(** *** Two peers and the worker *)

Section site.
Context {C : Type} (c_json : C → json) (c_decode : decoder C) (c_zero : C) (refuses : C → bool).

(** The store and the clock; what the other peer has gathered, and what it will gather
    before each time the worker looks (with the state the connection then has); what this
    peer's connection has been given; and requests that never reach the worker: an error, or
    a status from somewhere else. *)
Record Site := MkSite {
  store : Worker.KV;
  clock : Z;
  gathered : list C;
  given : list C;
  script : list (list C * conn_state);
  conn : conn_state;
  faults : list (option (result string Z));
}.

Definition ms (w : Site) : Z := (clock w / Millisecond)%Z.

Definition set_store kv w := MkSite kv (clock w) (gathered w) (given w) (script w) (conn w) (faults w).
Definition gather c w := MkSite (store w) (clock w) (gathered w ++ [c]) (given w) (script w) (conn w) (faults w).
Definition give c w := MkSite (store w) (clock w) (gathered w) (given w ++ [c]) (script w) (conn w) (faults w).
Definition wait d w :=
  MkSite (store w) (clock w + Z.max 0 d)%Z (gathered w) (given w) (script w) (conn w) (faults w).
Definition played s l w := MkSite (store w) (clock w) (gathered w) (given w) l s (faults w).
Definition unfaulted w := MkSite (store w) (clock w) (gathered w) (given w) (script w) (conn w) (tail (faults w)).

(** The session, the two tokens, and which of them this peer has. *)
Context (base id dtok ctok mine : string).
Definition theirs : string := Worker.otherRole mine.
Definition token_of (role : string) : string := if decide (role = "daemon") then dtok else ctok.
Definition target_of (role : string) : target := MkTarget base id (token_of role).

(** An address, taken apart as the worker does. *)
Definition route (url : string) : list string * option string :=
  let (path, q) := cut (TrimPrefix url base) "?" in
  (List.filter (λ s, negb (bool_decide (s = ""))) (Split path "/"),
   snd <$> find (λ kv, bool_decide (kv.1 = "since")) (ParseQuery q)).

Definition worker (method url token body : string) (w : Site) : Worker.routed :=
  let (parts, since) := route url in
  Worker.fetch (ms w) ("", "") [] method parts (Worker.MkRequest token body since) (store w).

(** The other peer's candidate arrives. *)
Definition post (w : Site) (c : C) : Site :=
  match worker "POST" (endpoint (target_of theirs) "/candidates") (token_of theirs)
          (print (JObj [("candidates", JArr [c_json c])])) w with
  | Worker.Reply _ kv => gather c (set_store kv w)
  | Worker.Poll _ _ => w
  end.

Definition advance (w : Site) : Site :=
  match script w with
  | [] => w
  | (cs, s) :: l => fold_left post cs (played s l w)
  end.

(** What the worker finds when it looks for the [i]-th time. *)
Fixpoint looking (i : nat) (w : Site) : Site :=
  match i with
  | O => advance w
  | S i => advance (wait (3 * Second)%Z (looking i w))
  end.

Definition serve (method url : string) (hs : list (string * string)) (body : string) (w : Site)
  : result string (Z * string) * Site :=
  match faults w with
  | Some (Err e) :: _ => (Err e, unfaulted w)
  | Some (Ok code) :: _ => (Ok (code, ""), unfaulted w)
  | _ =>
      let w := unfaulted w in
      match worker method url (default "" ((list_to_map hs : gmap string string) !! "X-Valet-Role-Token")) body w with
      | Worker.Reply rsp kv => (Ok rsp, set_store kv w)
      | Worker.Poll key since =>
          match Worker.long_poll 10 0 (λ i, (ms (looking i w), store (looking i w))) (ms w) key since with
          | Some (rsp, i) => (Ok rsp, looking i w)
          | None => (Err "", w)
          end
      end
  end.

#[local] Instance site_network : Network Site := {|
  Do := serve; Now := clock; Sleep := wait; Show := λ _ w, w |}.

Variant pc_ := ThePeer.

#[local] Instance site_pion : Pion Site := {|
  PeerConnection := pc_; DataChannel := pc_; Description := json; Candidate := C;
  NewPeerConnection _ _ w := (Ok ThePeer, w);
  pc_Close _ w := (Ok tt, w);
  pc_CreateDataChannel _ _ w := (Ok ThePeer, w);
  pc_CreateOffer _ w := (Ok JNull, w);
  pc_CreateAnswer _ w := (Ok JNull, w);
  SetLocalDescription _ _ w := (Ok tt, w);
  LocalDescription _ w := JNull;
  SetRemoteDescription _ _ w := (Ok tt, w);
  AddICECandidate _ c w := (if refuses c then Err "refused" else Ok tt, give c w);
  ConnectionState _ w := conn w;
  dc_Send _ _ w := (Ok tt, w);
  description_json j := j; description_decode j _ := (j, true); no_description := JNull;
  candidate_json := c_json; candidate_decode := c_decode; no_candidate := c_zero |}.

Context (Hmine : mine = "daemon" ∨ mine = "controller").
Context (Htok : dtok ≠ "" ∧ ctok ≠ "" ∧ dtok ≠ ctok).
Context (Hid : id ≠ "" ∧ no_byte "/" id ∧ no_byte "?" id).
Context (Hcodec : ∀ c, c_decode (c_json c) c_zero = (c, true)) (Hjok : ∀ c, jok 2 (c_json c)).

(** *** Addresses and callers *)

Lemma route_candidates role q : no_byte "&" q →
  route (endpoint (target_of role) "/candidates") = (["sessions"; id; "candidates"], None) ∧
  route (endpoint (target_of role) ("/candidates?since=" +:+ q)) =
    (["sessions"; id; "candidates"], snd <$> query_pair ("since=" +:+ q)).
Proof.
  intros Hq. destruct Hid as (Hne & Hs & Hm). unfold route, endpoint, target_of. cbn [signaling session].
  assert (Split ("/sessions/" +:+ id +:+ "/candidates") "/" = [""; "sessions"; id; "candidates"]) as Hsplit.
  { assert ("/sessions/" +:+ id +:+ "/candidates" = GoStr.Join [""; "sessions"; id; "candidates"] (str1 "/")) as -> by done.
    rewrite Split_Join; [done|done|]. repeat constructor; done. }
  assert (no_byte "?" ("/sessions/" +:+ id +:+ "/candidates")) as Hno
    by (rewrite !no_byte_app; split_and!; done).
  assert (List.filter (λ s, negb (bool_decide (s = ""))) [""; "sessions"; id; "candidates"] =
    ["sessions"; id; "candidates"]) as Hfilter by (simpl; by rewrite bool_decide_false by done).
  split; rewrite TrimPrefix_app.
  - assert (cut ("/sessions/" +:+ id +:+ "/candidates") "?" = ("/sessions/" +:+ id +:+ "/candidates", "")) as ->.
    { unfold cut. unfold no_byte in Hno. by rewrite Hno. }
    rewrite Hsplit, Hfilter. done.
  - assert ("/sessions/" +:+ id +:+ "/candidates?since=" +:+ q =
      ("/sessions/" +:+ id +:+ "/candidates") +:+ String "?" ("since=" +:+ q)) as ->
      by (by rewrite !sapp_assoc).
    rewrite cut_app by done. rewrite Hsplit, Hfilter. f_equal. unfold ParseQuery.
    assert (Split ("since=" +:+ q) "&" = ["since=" +:+ q]) as ->.
    { pose proof (Split_Join ["since=" +:+ q] "&") as Hj. simpl in Hj. apply Hj; [done|].
      repeat constructor. rewrite no_byte_app. by split. }
    cbn [omap list_omap]. destruct (query_pair ("since=" +:+ q)) as [[k v]|] eqn:Hp; [|done].
    assert (k = "since") as ->; [|done].
    unfold query_pair in Hp. destruct (contains_byte _ _); [done|]. rewrite decide_False in Hp by done.
    change ("since=" +:+ q) with ("since" +:+ String "=" q) in Hp. rewrite cut_app in Hp by done.
    cbn in Hp. destruct (QueryUnescape q); by simplify_eq/=.
Qed.

(** Everything that is looked up stays until [T]; candidates are numbered as they came. *)
Record ok (T : Z) (w : Site) : Prop := {
  ok_daemon : ∃ e, store w !! Worker.tok_key "daemon" id = Some (Worker.Text dtok, e) ∧ (T < e)%Z;
  ok_controller : ∃ e, store w !! Worker.tok_key "controller" id = Some (Worker.Text ctok, e) ∧ (T < e)%Z;
  ok_ice : store w !! Worker.ice_key theirs id = None ∧ gathered w = [] ∨
    ∃ e, store w !! Worker.ice_key theirs id =
           Some (Worker.Entries (Worker.number 0 (c_json <$> gathered w)), e) ∧ (T < e)%Z;
  ok_room : (T < ms w + Worker.TTL)%Z;
}.

Lemma get_text_ok T w role : ok T w → (ms w ≤ T)%Z → role = "daemon" ∨ role = "controller" →
  Worker.get_text (ms w) (Worker.tok_key role id) (store w) = token_of role.
Proof.
  intros [(e1 & H1 & L1) (e2 & H2 & L2) _ _] HT [-> | ->]; unfold Worker.get_text, Worker.get;
    rewrite ?H1, ?H2; [destruct (Z.ltb_spec (ms w) e1)|destruct (Z.ltb_spec (ms w) e2)]; done || lia.
Qed.

Lemma caller_ok T w role since body : ok T w → (ms w ≤ T)%Z → role = "daemon" ∨ role = "controller" →
  Worker.caller (ms w) id (Worker.MkRequest (token_of role) body since) (store w) = Some role.
Proof.
  intros Hok HT Hrole. unfold Worker.caller. cbn [Worker.role_header]. destruct Htok as (Hd & Hc & Hdc).
  rewrite !(get_text_ok T) by auto. unfold token_of.
  destruct Hrole as [-> | ->]; cbn; repeat case_decide; congruence.
Qed.

Lemma load_ok T w : ok T w → (ms w ≤ T)%Z →
  Worker.loadCandidates (ms w) (Worker.ice_key theirs id) (store w) = Worker.number 0 (c_json <$> gathered w).
Proof.
  intros [_ _ Hice _] HT. unfold Worker.loadCandidates, Worker.get.
  destruct Hice as [[-> ->]|(e & -> & He)]; [done|]. by destruct (Z.ltb_spec (ms w) e); [|lia].
Qed.

Lemma theirs_role : theirs = "daemon" ∨ theirs = "controller".
Proof. unfold theirs, Worker.otherRole. case_decide; auto. Qed.

Lemma keys_apart role : Worker.ice_key theirs id ≠ Worker.tok_key role id.
Proof. done. Qed.

(** *** The other peer's requests *)

Lemma candidate_array_jok l : jok (2 + 1) (JArr (c_json <$> l)).
Proof. apply jok_arr, Forall_fmap, Forall_true. intros c. apply Hjok. Qed.

Lemma body_parsed c : parse (print (JObj [("candidates", JArr [c_json c])])) =
  Some (JObj [("candidates", JArr [c_json c])]).
Proof.
  apply (parse_print_value (2 + 1 + 1)); [|done]. apply jok_obj. constructor; [|constructor].
  split; [done|apply (candidate_array_jok [c])].
Qed.

Lemma worker_post T w c : ok T w → (ms w ≤ T)%Z →
  ∃ rsp, worker "POST" (endpoint (target_of theirs) "/candidates") (token_of theirs)
    (print (JObj [("candidates", JArr [c_json c])])) w =
    Worker.Reply rsp (Worker.put (ms w) (Worker.ice_key theirs id)
           (Worker.Entries (Worker.number 0 (c_json <$> gathered w ++ [c]))) (store w)).
Proof.
  intros Hok HT. unfold worker. rewrite (proj1 (route_candidates theirs "" eq_refl)). unfold Worker.fetch.
  rewrite decide_False by done. rewrite decide_False by (by intros [? _]).
  rewrite decide_False by (intros Hx; by apply Hx).
  rewrite (caller_ok T) by (done || apply theirs_role). rewrite decide_True by done.
  unfold Worker.post_candidates. cbn [Worker.body]. rewrite body_parsed, (load_ok T) by done.
  change (Worker.prop "candidates" _) with (Some (JArr [c_json c])). cbv beta match zeta.
  rewrite last_seq_number. eexists. unfold Worker.routed_of. cbn [fst snd]. do 3 f_equal.
  by rewrite fmap_app, number_app.
Qed.

Lemma post_ok T w c : ok T w → (ms w ≤ T)%Z →
  ok T (post w c) ∧ gathered (post w c) = gathered w ++ [c] ∧ clock (post w c) = clock w ∧
  given (post w c) = given w ∧ faults (post w c) = faults w ∧ script (post w c) = script w.
Proof.
  intros Hok HT. unfold post. destruct (worker_post T w c Hok HT) as (rsp & ->).
  split; [|done]. destruct Hok as [(e1 & H1 & L1) (e2 & H2 & L2) _ Hroom]. split.
  - exists e1. split; [|done]. cbn [store gather set_store]. unfold Worker.put. by rewrite lookup_insert_ne.
  - exists e2. split; [|done]. cbn [store gather set_store]. unfold Worker.put. by rewrite lookup_insert_ne.
  - right. exists (ms w + Worker.TTL)%Z. split; [|exact Hroom]. apply lookup_insert_eq.
  - exact Hroom.
Qed.

(** The token a request shows. *)
Lemma shown_post (t : target) :
  default "" ((list_to_map [content_type; role_token t] : gmap string string) !! "X-Valet-Role-Token") = tok t.
Proof.
  unfold list_to_map, content_type, role_token. cbn [foldr fst snd].
  by rewrite lookup_insert_ne, lookup_insert_eq.
Qed.

Lemma shown_get (t : target) :
  default "" ((list_to_map [role_token t] : gmap string string) !! "X-Valet-Role-Token") = tok t.
Proof. unfold list_to_map, role_token. cbn [foldr fst snd]. by rewrite lookup_insert_eq. Qed.

(** The other peer's request is the one its connection makes when it finds a candidate. *)
Lemma post_is_on_candidate T (p : Peer (W:=Site)) c w r p' w' : ok T w → (ms w ≤ T)%Z →
  onICE p = Some (target_of theirs) → faults w = [] →
  on_candidate (Some c) p w = Some (Ok r, p', w') → gather c w' = post w c.
Proof.
  intros Hok HT Hp Hf. unfold on_candidate, mbind, M_bind, state. rewrite Hp.
  unfold request. destruct (GoUrl.Parse _); [|done]. unfold attempt, call, candidates_body.
  cbn [Do site_network candidate_json site_pion]. unfold serve, post. rewrite Hf.
  assert (unfaulted w = w) as -> by (destruct w; simpl in *; by subst).
  rewrite shown_post. cbn [tok target_of]. destruct (worker_post T w c Hok HT) as (rsp & ->).
  by intros [= <- <- <-].
Qed.

(** *** What the worker sees while it waits *)

Lemma posts_ok T cs : ∀ w, ok T w → (ms w ≤ T)%Z → let w' := fold_left post cs w in
  ok T w' ∧ gathered w' = gathered w ++ cs ∧ clock w' = clock w ∧ given w' = given w ∧
  faults w' = faults w ∧ script w' = script w.
Proof.
  induction cs as [|c cs IH]; intros w Hok HT; [by rewrite app_nil_r|]. cbn [fold_left].
  destruct (post_ok T w c Hok HT) as (Hok' & Hg & Hc & Hn & Hf & Hs).
  assert (ms (post w c) ≤ T)%Z as HT' by (unfold ms in *; by rewrite Hc).
  destruct (IH _ Hok' HT') as (? & -> & -> & -> & -> & ->). by rewrite Hg, <- (assoc_L (++)), Hc, Hn, Hf, Hs.
Qed.

Definition harmless (f : option (result string Z)) : Prop :=
  match f with Some (Ok code) => (300 ≤ code)%Z | _ => True end.

(** The candidates there will be. *)
Definition total (w : Site) : nat := length (gathered w) + sum_list_with (λ x, length x.1) (script w).

(** A later moment, as far as candidates go. *)
Record later (T : Z) (w w' : Site) : Prop := {
  later_ok : ok T w';
  later_given : given w' = given w;
  later_gathered : gathered w `prefix_of` gathered w';
  later_faults : Forall harmless (faults w) → Forall harmless (faults w');
  later_quiet : script w = [] → gathered w' = gathered w ∧ script w' = [];
  later_total : total w' = total w;
}.

Lemma later_refl T w : ok T w → later T w w.
Proof. by split. Qed.

Lemma later_trans T w1 w2 w3 : later T w1 w2 → later T w2 w3 → later T w1 w3.
Proof.
  intros [_ Hn1 Hg1 Hf1 Hq1 Ht1] [Ho Hn2 Hg2 Hf2 Hq2 Ht2].
  split; [done|by rewrite Hn2|by etrans|auto| |by rewrite Ht2].
  intros Hs. destruct (Hq1 Hs) as [E1 S1]. destruct (Hq2 S1) as [E2 S2]. by rewrite E2.
Qed.

Lemma advance_ok T w : ok T w → (ms w ≤ T)%Z → later T w (advance w).
Proof.
  intros Hok HT. unfold advance. destruct (script w) as [|[cs s] l] eqn:Hs; [by apply later_refl|].
  assert (ok T (played s l w)) as Hok' by (by destruct Hok; split).
  destruct (posts_ok T cs (played s l w) Hok' HT) as (? & Hg & _ & Hn & Hf & Hl).
  split; [done|done|rewrite Hg; by exists cs|by rewrite Hf|by rewrite Hs|].
  unfold total. rewrite Hg, Hl, Hs, length_app. cbn [gathered script played sum_list_with fst]. lia.
Qed.

Lemma posts_clock cs : ∀ w, clock (fold_left post cs w) = clock w.
Proof.
  induction cs as [|c cs IH]; intros w; [done|]. cbn [fold_left]. rewrite IH. unfold post.
  by destruct (worker _ _ _ _ w).
Qed.

Lemma advance_clock w : clock (advance w) = clock w.
Proof. unfold advance. destruct (script w) as [|[cs s] l]; [done|]. by rewrite posts_clock. Qed.

Lemma looking_clock i w : clock (looking i w) = (clock w + Z.of_nat i * (3 * Second))%Z.
Proof.
  induction i as [|i IH]; cbn [looking]; rewrite advance_clock; [lia|]. cbn [clock wait]. rewrite IH.
  assert (0 < Second)%Z by done. lia.
Qed.

Lemma ms_mono w w' : (clock w ≤ clock w')%Z → (ms w ≤ ms w')%Z.
Proof. intros Hc. unfold ms. by apply Z.div_le_mono. Qed.

Lemma wait_ok T d w : ok T w → later T w (wait d w).
Proof.
  intros Hok. split; [|done..]. destruct Hok as [H1 H2 H3 H4]. split; [done..|].
  pose proof (ms_mono w (wait d w) ltac:(cbn [clock wait]; lia)). lia.
Qed.

Lemma looking_ok T w i : ok T w → (ms (looking i w) ≤ T)%Z → later T w (looking i w).
Proof.
  intros Hok. induction i as [|i IH]; intros HT.
  - apply advance_ok; [done|]. cbn [looking] in HT. unfold ms in *. by rewrite advance_clock in HT.
  - assert (ms (looking i w) ≤ T)%Z as HTi.
    { etrans; [|exact HT]. apply ms_mono. rewrite !looking_clock. assert (0 < Second)%Z by done. lia. }
    specialize (IH HTi). cbn [looking]. eapply later_trans; [exact IH|].
    assert (later T (looking i w) (wait (3 * Second)%Z (looking i w))) as Hw by apply wait_ok, IH.
    eapply later_trans; [exact Hw|]. apply advance_ok; [apply Hw|]. cbn [looking] in HT.
    unfold ms in *. by rewrite advance_clock in HT.
Qed.

(** *** One request of this peer *)

(** The reply to [since=n]: the candidates from the [n]-th to some [m]-th. *)
Definition batch_to (n m : nat) (w : Site) : Worker.response :=
  Worker.candidates_reply (c_json <$> drop n (take m (gathered w))) (Some (Z.of_nat m)).

Lemma long_poll_index fuel i0 looks started key since rsp i :
  Worker.long_poll fuel i0 looks started key since = Some (rsp, i) → i0 ≤ i.
Proof.
  revert i0. induction fuel as [|fuel IH]; intros i0 Hrun; [done|]. cbn [Worker.long_poll] in Hrun.
  destruct (looks i0) as [now kv]. destruct (_ <? _)%Z; [|by injection Hrun as _ <-].
  destruct (Worker.newer _ _); [apply IH in Hrun; lia|by injection Hrun as _ <-].
Qed.

Lemma looking_mono w i j : i ≤ j → (ms (looking i w) ≤ ms (looking j w))%Z.
Proof. intros Hij. apply ms_mono. rewrite !looking_clock. assert (0 < Second)%Z by done. nia. Qed.

Lemma long_poll_ok T w n fuel i0 rsp i : ok T w → n ≤ length (gathered w) →
  (i0 = 0 ∨ (script w = [] → n = length (gathered w))) →
  Worker.long_poll fuel i0 (λ i, (ms (looking i w), store (looking i w))) (ms w)
    (Worker.ice_key theirs id) (Some (Z.of_nat n)) = Some (rsp, i) →
  (ms (looking i w) ≤ T)%Z →
  ∃ m, n ≤ m ≤ length (gathered (looking i w)) ∧ rsp = batch_to n m (looking i w) ∧
    (script w = [] → m = length (gathered w)).
Proof.
  intros Hok Hn. revert i0. induction fuel as [|fuel IH]; intros i0 Hi0 Hrun HT; [done|].
  pose proof (long_poll_index _ _ _ _ _ _ _ _ Hrun) as Hi.
  assert (ms (looking i0 w) ≤ T)%Z as HT0 by (etrans; [apply (looking_mono w i0 i Hi)|done]).
  pose proof (looking_ok T w i0 Hok HT0) as Hl. pose proof (prefix_length _ _ (later_gathered _ _ _ Hl)) as Hlen.
  cbn [Worker.long_poll] in Hrun. rewrite (load_ok T) in Hrun by (done || apply Hl).
  change (Some (Z.of_nat n)) with (Some (0 + Z.of_nat n)%Z) in Hrun at 1. rewrite newer_number in Hrun.
  destruct (Z.ltb_spec (ms (looking i0 w) - ms w) 25000) as [Hlt|Hge].
  - destruct (drop n _) as [|e l] eqn:Hdrop.
    + eapply IH; [|exact Hrun|done]. right. intros Hq. destruct (later_quiet _ _ _ Hl Hq) as [Hg _].
      apply (f_equal length) in Hdrop. rewrite length_drop, number_length, length_fmap, Hg in Hdrop.
      simpl in Hdrop. lia.
    + pose proof (drop_number n 0 (c_json <$> gathered (looking i0 w))) as Hd. rewrite Hdrop in Hd.
      rewrite Hd in Hrun. injection Hrun as <- <-.
      exists (length (gathered (looking i0 w))). split; [lia|]. split.
      * rewrite last_seq_number, length_fmap. unfold batch_to. by rewrite firstn_all, fmap_drop.
      * intros Hq. by destruct (later_quiet _ _ _ Hl Hq) as [-> _].
  - injection Hrun as <- <-. exists n. split; [lia|]. split.
    + unfold batch_to. rewrite drop_ge by (rewrite length_take; lia). done.
    + destruct Hi0 as [->|Hq]; [|exact Hq]. exfalso. unfold ms in Hge.
      rewrite looking_clock, Z.mul_0_l, Z.add_0_r in Hge. lia.
Qed.

(** The reply, read by the Go side. *)
Lemma list_read {S} (set : S → list C → S) l s :
  field_list c_decode c_zero set (JArr (c_json <$> l)) s = (set s l, true).
Proof.
  unfold field_list. assert ((λ v, c_decode v c_zero) <$> (c_json <$> l) = (λ c, (c, true)) <$> l) as ->.
  { rewrite <- list_fmap_compose. apply list_fmap_ext. intros i c _. apply Hcodec. }
  rewrite <- !list_fmap_compose. cbv zeta. f_equal.
  - f_equal. transitivity (Datatypes.id <$> l); [by apply list_fmap_ext|apply list_fmap_id].
  - induction l as [|c l IH]; [done|]. cbn. exact IH.
Qed.

Lemma batch_read n m w : in_i64 (Z.of_nat m) →
  Decode_stream (struct_of (batch_fields (W:=Site))) (batch_to n m w).2 (MkBatch (W:=Site) [] 0) =
  (MkBatch (W:=Site) (drop n (take m (gathered w))) (Z.of_nat m), true).
Proof.
  intros Hi. unfold batch_to, Worker.candidates_reply, Worker.json_response. cbn [snd from_option].
  unfold Decode_stream. rewrite (Worker.JsText.stringify_parsed (2 + 1 + 1)); [| |done].
  2:{ apply jok_obj. constructor; [split; [done|apply candidate_array_jok]|]. constructor; [|constructor].
      split; [done|]. apply jok_num, num_lit_pretty. }
  set (l := drop n (take m (gathered w))). unfold struct_of, members_into. cbn [fold_left fst snd].
  assert (find_field (batch_fields (W:=Site)) "candidates" =
    Some (field_list (candidate_decode (W:=Site)) no_candidate (λ (b : batch (W:=Site)) x, MkBatch x (Next b))) ∧
    find_field (batch_fields (W:=Site)) "next" = Some (field_int (λ (b : batch (W:=Site)) x, MkBatch (Candidates b) x))) as [-> ->] by done. cbn [candidate_decode no_candidate site_pion]. rewrite list_read.
  cbn [andb Next Candidates]. unfold field_int, scalar, JInt. rewrite int_lit_pretty by done. done.
Qed.

(** Ten looks are enough for the worker to give up. *)
Lemma looking_ms w i : (ms (looking i w) = ms w + Z.of_nat i * 3000)%Z.
Proof.
  unfold ms. rewrite looking_clock. replace (Z.of_nat i * (3 * Second))%Z with (Z.of_nat i * 3000 * Millisecond)%Z
    by (unfold Second, Millisecond; lia). by rewrite Z.div_add.
Qed.

Lemma long_poll_total w key since fuel i0 : 10 ≤ fuel + i0 → 0 < fuel →
  Worker.long_poll fuel i0 (λ i, (ms (looking i w), store (looking i w))) (ms w) key since ≠ None.
Proof.
  revert i0. induction fuel as [|fuel IH]; intros i0 Hi Hf; [lia|]. cbn [Worker.long_poll].
  rewrite looking_ms. destruct (Z.ltb_spec (ms w + Z.of_nat i0 * 3000 - ms w) 25000); [|done].
  destruct (Worker.newer _ _); [|done]. apply IH; lia.
Qed.

Lemma unfaulted_later T w : ok T w → later T w (unfaulted w).
Proof.
  intros Hok. split; [by destruct Hok|done|done| |done|done]. cbn [faults unfaulted].
  intros Hf. by destruct Hf.
Qed.

Lemma worker_get T w n : ok T w → (ms w ≤ T)%Z →
  worker "GET" (endpoint (target_of mine) ("/candidates?since=" +:+ pretty (Z.of_nat n))) (token_of mine) "" w =
  Worker.Poll (Worker.ice_key theirs id) (Some (Z.of_nat n)).
Proof.
  intros Hok HT. destruct (pretty_digits n) as (a & r & Hp & Hd & Hv). rewrite Hp.
  assert (QueryEscape (String a r) = String a r) as He by by apply QueryEscape_digits.
  assert (no_byte "&" (String a r)) as Hno by (rewrite <- He; by apply escape_no_byte).
  unfold worker. rewrite (proj2 (route_candidates mine _ Hno)).
  pose proof (query_pair_item "since" (String a r)) as Hq. rewrite He in Hq.
  change (QueryEscape "since" +:+ "=" +:+ String a r) with ("since=" +:+ String a r) in Hq. rewrite Hq.
  unfold Worker.fetch. rewrite decide_False by done. rewrite decide_False by (by intros [? _]).
  rewrite decide_False by (intros Hx; by apply Hx). rewrite (caller_ok T) by auto.
  rewrite decide_False, decide_True by done. unfold Worker.get_candidates.
  destruct Htok as (H1 & H2 & _). rewrite !(get_text_ok T), bool_decide_false by (auto || by intros [?|?]).
  cbn [fmap option_fmap option_map snd Worker.since_param Worker.since_number]. by rewrite Hv.
Qed.

Lemma poll_ok T w n r w' : ok T w → n ≤ length (gathered w) → Forall harmless (faults w) →
  serve "GET" (endpoint (target_of mine) ("/candidates?since=" +:+ pretty (Z.of_nat n)))
    [role_token (target_of mine)] "" w = (r, w') → (ms w' ≤ T)%Z →
  later T w w' ∧
  match r with
  | Err _ => faults w ≠ []
  | Ok (code, body) => (300 ≤ code)%Z ∧ faults w ≠ [] ∨
      ∃ m, n ≤ m ≤ length (gathered w') ∧ (code, body) = batch_to n m w' ∧
        (script w = [] → m = length (gathered w))
  end.
Proof.
  intros Hok Hn Hf. unfold serve. rewrite shown_get. cbn [tok target_of].
  assert (∀ r0 w0, match worker "GET" (endpoint (target_of mine) ("/candidates?since=" +:+ pretty (Z.of_nat n)))
      (token_of mine) "" (unfaulted w) with
    | Worker.Reply rsp kv => (Ok rsp, set_store kv (unfaulted w))
    | Worker.Poll key since =>
        match Worker.long_poll 10 0 (λ i, (ms (looking i (unfaulted w)), store (looking i (unfaulted w))))
                (ms (unfaulted w)) key since with
        | Some (rsp, i) => (Ok rsp, looking i (unfaulted w))
        | None => (Err "", unfaulted w)
        end
    end = (r0, w0) → (ms w0 ≤ T)%Z → later T w w0 ∧ ∃ code body, r0 = Ok (code, body) ∧
      ∃ m, n ≤ m ≤ length (gathered w0) ∧ (code, body) = batch_to n m w0 ∧
        (script w = [] → m = length (gathered w))) as Hserve.
  { intros r0 w0 Hrun HT. pose proof (unfaulted_later T w Hok) as Hu.
    assert (ms (unfaulted w) ≤ T)%Z as HTu.
    { destruct (worker _ _ _ _ _) as [rsp kv|key since]; [by injection Hrun as <- <-|].
      destruct (Worker.long_poll _ _ _ _ _ _) as [[rsp i]|]; injection Hrun as <- <-; [|done].
      rewrite looking_ms in HT. lia. }
    rewrite (worker_get T) in Hrun by (done || apply Hu).
    destruct (Worker.long_poll _ _ _ _ _ _) as [[[code body] i]|] eqn:Hlp;
      [|exfalso; revert Hlp; apply long_poll_total; lia].
    injection Hrun as <- <-. pose proof (looking_ok T _ i (later_ok _ _ _ Hu) HT) as Hl.
    split; [by eapply later_trans|]. exists code, body. split; [done|].
    apply (long_poll_ok T _ n 10 0 _ i) in Hlp as (m & Hm & Hr & Hq); [|apply Hu|done|by left|done].
    by exists m. }
  pose proof (unfaulted_later T w Hok) as Hu.
  destruct (faults w) as [|[[code|e]|] fs] eqn:Hfs.
  - intros Hrun HT. destruct (Hserve _ _ Hrun HT) as (? & code & body & -> & ?). split; [done|by right].
  - intros [= <- <-] HT. split; [done|]. left. by inversion Hf.
  - intros [= <- <-] HT. by split.
  - intros Hrun HT. destruct (Hserve _ _ Hrun HT) as (? & code & body & -> & ?). split; [done|by right].
Qed.

(** *** Turns *)

Lemma add_all_gives l : ∀ (p : Peer (W:=Site)) w, ∃ w', add_all l p w = Some (Ok tt, p, w') ∧
  w' = MkSite (store w) (clock w) (gathered w) (given w ++ l) (script w) (conn w) (faults w).
Proof.
  induction l as [|c l IH]; intros p w; cbn [add_all].
  { exists w. split; [done|]. rewrite app_nil_r. by destruct w. }
  destruct (IH p (give c w)) as (w' & Hrun & ->). eexists. split; [|done].
  unfold mbind, M_bind, attempt, AddRemoteCandidate, call, state. cbn [AddICECandidate site_pion].
  unfold mbind, M_bind. cbn [AddICECandidate site_pion]. destruct (refuses c); rewrite Hrun;
    cbn [give store clock gathered given script conn faults]; by rewrite <- (assoc_L (++)).
Qed.

(** What this peer has been given is what the other has gathered up to the cursor. *)
Definition synced (c : cursor) (w : Site) : Prop :=
  since c = Z.of_nat (length (given w)) ∧ given w `prefix_of` gathered w.

Lemma give_ok T w l : ok T w →
  ok T (MkSite (store w) (clock w) (gathered w) (given w ++ l) (script w) (conn w) (faults w)).
Proof. intros Hok. by destruct Hok. Qed.

(** What a turn leaves. *)
Definition kept (T : Z) (w : Site) (r : result failure (stopped + cursor)) (w' : Site) : Prop :=
  given w `prefix_of` given w' ∧ given w' `prefix_of` gathered w' ∧ total w' = total w ∧
  match r with
  | Ok (inr c') => ok T w' ∧ Forall harmless (faults w') ∧ synced c' w'
  | _ => True
  end ∧
  (script w = [] → gathered w' = gathered w ∧ script w' = [] ∧
     (∀ c', r = Ok (inr c') → faults w = [] → given w' = gathered w)).

Lemma stays T c w r : ok T w → Forall harmless (faults w) → synced c w →
  match r with Ok (inr c') => False | _ => True end → kept T w r w.
Proof. intros Hok Hf [Hc Hp] Hr. do 3 (split; [done|]). by destruct r as [[s|c']|e]. Qed.

Lemma prefix_take_drop {A} n m (l k : list A) : n ≤ m → k = take n l → k ++ drop n (take m l) = take m l.
Proof. intros Hn ->. rewrite <- (take_drop n (take m l)) at 2. by rewrite take_take, Nat.min_l. Qed.

Lemma stays_later T c w w1 r : later T w w1 → synced c w →
  match r with Ok (inr c') => False | _ => True end → kept T w r w1.
Proof.
  intros [Ho Hn Hg Hfs Hq Ht] [Hc Hp] Hr. split; [by rewrite Hn|]. split; [rewrite Hn; by etrans|]. split; [exact Ht|].
  split; [by destruct r as [[s|c']|e]|]. intros Hs. destruct (Hq Hs) as [-> ->]. split; [done|]. split; [done|].
  intros c' ->. done.
Qed.

(** The candidates of a reply, and the pause. *)
Lemma takes_batch T c w w1 (p : Peer (W:=Site)) m r p' w' : later T w w1 → Forall harmless (faults w) →
  synced c w → length (given w) ≤ m ≤ length (gathered w1) → (script w = [] → m = length (gathered w)) →
  (_ ← add_all (drop (length (given w)) (take m (gathered w1)));
   _ ← world (Sleep (200 * Millisecond)%Z);
   mret (inr (MkCursor (Z.of_nat m) (500 * Millisecond)%Z)))%stdpp p w1 = Some (r, p', w') →
  kept T w r w' ∧ gathered w' = gathered w1 ∧ clock w' = (clock w1 + 200 * Millisecond)%Z.
Proof.
  intros Hl Hf [Hc Hp] Hm Hq Hrun.
  destruct (add_all_gives (drop (length (given w)) (take m (gathered w1))) p w1) as (w2 & Hadd & Hw2).
  rewrite (M_bind_some _ _ _ _ _ _ _ Hadd) in Hrun. injection Hrun as <- <- <-.
  destruct Hl as [Ho Hn Hg Hfs Hqq Ht].
  assert (given w2 = take m (gathered w1)) as Hgiven.
  { rewrite Hw2. cbn [given]. rewrite Hn. apply prefix_take_drop; [lia|].
    destruct Hp as [k Hk]. destruct Hg as [k' Hk']. rewrite Hk', Hk, <- (assoc_L (++)).
    by rewrite take_app_length. }
  assert (gathered w2 = gathered w1) as Hgath by by rewrite Hw2.
  assert (clock w2 = clock w1) as Hclock by by rewrite Hw2.
  assert (synced (MkCursor (Z.of_nat m) (500 * Millisecond)%Z) w2) as Hsync.
  { split; [cbn [since]; rewrite Hgiven, length_take; lia|]. rewrite Hgiven, Hgath.
    exists (drop m (gathered w1)). by rewrite take_drop. }
  split; [|split; [by rewrite <- Hgath|cbn [Sleep site_network clock wait]; rewrite Hclock; unfold Millisecond; lia]].
  split; [cbn [Sleep site_network given wait]; rewrite Hw2; cbn [given]; rewrite Hn; by eexists|].
  split; [apply Hsync|]. split; [rewrite <- Ht; by rewrite Hw2|]. split.
  - split; [apply wait_ok; rewrite Hw2; by apply give_ok|]. split; [|exact Hsync].
    cbn [faults wait]. rewrite Hw2. cbn [faults]. auto.
  - intros Hs. destruct (Hqq Hs) as [Hgw Hscr]. split; [by cbn [gathered wait]; rewrite Hgath|].
    split; [cbn [script wait]; by rewrite Hw2|].
    intros c' _ _. cbn [given wait]. by rewrite Hgiven, (Hq Hs), Hgw, firstn_all.
Qed.

Lemma retries T c w w1 (p : Peer (W:=Site)) r p' w' : later T w w1 → Forall harmless (faults w) → synced c w →
  faults w ≠ [] → retry c p w1 = Some (r, p', w') → kept T w r w'.
Proof.
  intros Hl Hf [Hc Hp] Hne. unfold retry. intros [= <- <- <-].
  assert (later T w (wait (backoff c) w1)) as Hl' by (eapply later_trans; [done|apply wait_ok, Hl]).
  destruct Hl' as [Ho Hn Hg Hfs Hq Ht]. split; [by rewrite Hn|]. split; [rewrite Hn; by etrans|].
  split; [exact Ht|]. split.
  - split; [done|]. split; [auto|]. split; [by rewrite Hn|rewrite Hn; by etrans].
  - intros Hs. destruct (Hq Hs) as [-> ->]. split; [done|]. split; [done|]. by intros c' _ Hnf.
Qed.

Lemma turn_kept T deadline c (p : Peer (W:=Site)) w r p' w' : ok T w → Forall harmless (faults w) → synced c w →
  (500 * Millisecond ≤ backoff c)%Z →
  turn (target_of mine) deadline c p w = Some (r, p', w') →
  (ms w' ≤ T)%Z → in_i64 (Z.of_nat (total w)) → kept T w r w'.
Proof.
  intros Hok Hf Hsync Hb Hrun HT Hi. unfold turn in Hrun. rewrite bind_reading in Hrun.
  cbn [Now site_network] in Hrun.
  destruct (deadline <? clock w)%Z; [injection Hrun as <- <- <-; by eapply stays|].
  change ((state ≫= ?k) p w) with (k p p w) in Hrun. cbv beta in Hrun. rewrite bind_reading in Hrun.
  destruct (ended _); [injection Hrun as <- <- <-; by eapply stays|].
  unfold request in Hrun. destruct (GoUrl.Parse _); [|injection Hrun as <- <- <-; by eapply stays].
  destruct Hsync as [Hc Hp]. rewrite Hc in Hrun.
  unfold mbind at 1, M_bind at 1, attempt at 1, call in Hrun. cbn [Do site_network] in Hrun.
  destruct (serve _ _ _ _ w) as [r1 w1] eqn:Hserve.
  assert (length (given w) ≤ length (gathered w)) as Hlen by by apply prefix_length.
  assert ((ms w1 ≤ T)%Z → later T w w1 ∧ _) as Hpoll by (intros HT1; exact (poll_ok T w _ r1 w1 Hok Hlen Hf Hserve HT1)).
  destruct r1 as [[code body]|e].
  - destruct (Z.leb_spec 300 code) as [Hge|Hlt].
    + assert ((ms w1 ≤ T)%Z → faults w ≠ []) as Hne.
      { intros HT1. destruct (Hpoll HT1) as [_ [[_ ?]|(m & _ & Hbt & _)]]; [done|].
        injection Hbt as -> _. lia. }
      case_decide.
      * injection Hrun as <- <- <-. eapply stays_later; [by apply Hpoll|by split|done].
      * assert (ms w1 ≤ T)%Z as HT1.
        { etrans; [|exact HT]. unfold retry in Hrun. injection Hrun as <- <- <-. apply ms_mono. cbn. lia. }
        eapply retries; [by apply Hpoll|done|by split|by apply Hne|exact Hrun].
    + cbv zeta in Hrun. pose proof Hrun as Hend.
      destruct (add_all_gives (Candidates (Decode_stream (struct_of (batch_fields (W:=Site))) body
        (MkBatch (W:=Site) [] 0)).1) p w1) as (w2 & Hadd & Hw2).
      rewrite (M_bind_some _ _ _ _ _ _ _ Hadd) in Hend. injection Hend as _ _ Hend.
      assert (clock w' = clock w1 + 200 * Millisecond)%Z as Hclock
        by (rewrite <- Hend; cbn [Sleep site_network clock wait]; rewrite Hw2; cbn [clock]; unfold Millisecond; lia).
      assert (ms w1 ≤ T)%Z as HT1 by (etrans; [|exact HT]; apply ms_mono; rewrite Hclock; unfold Millisecond; lia).
      destruct (Hpoll HT1) as [Hl [[? _]|(m & Hm & Hbt & Hq)]]; [lia|].
      assert (body = (batch_to (length (given w)) m w1).2) as Hbody by (by rewrite <- Hbt).
      rewrite Hbody in Hrun. rewrite batch_read in Hrun by (unfold in_i64, total in *; pose proof (later_total _ _ _ Hl); unfold total in *; lia).
      cbn [fst Candidates Next] in Hrun. by eapply takes_batch.
  - assert (ms w1 ≤ T)%Z as HT1.
    { etrans; [|exact HT]. unfold retry in Hrun. injection Hrun as <- <- <-. apply ms_mono. cbn. lia. }
    destruct (Hpoll HT1) as [Hl Hne]. eapply retries; [exact Hl|done|by split|done|exact Hrun].
Qed.

(** *** The exchange *)

#[local] Instance site_time : PeerTime Site.
Proof.
  split; intros; cbn; try lia. unfold serve.
  assert (clock (unfaulted w) = clock w) as Hu by done.
  destruct (faults w) as [|[[?|?]|] ?]; try (cbn [snd]; lia);
    (destruct (worker _ _ _ _ _) as [rsp kv|key since]; [cbn [snd clock set_store]; lia|]);
    (destruct (Worker.long_poll _ _ _ _ _ _) as [[rsp i]|]; cbn [snd]; [rewrite looking_clock|]);
    unfold Second; lia.
Qed.


(** A reply that is not what the worker sends starts the list again: the candidates are given
    a second time. *)
Lemma garbage_rewinds deadline c (p : Peer (W:=Site)) w fs code u :
  faults w = Some (Ok code) :: fs → (code < 300)%Z → (clock w ≤ deadline)%Z → ended (conn w) = false →
  GoUrl.Parse (endpoint (target_of mine) ("/candidates?since=" +:+ pretty (since c))) = Some u →
  ∃ w', turn (target_of mine) deadline c p w = Some (Ok (inr (MkCursor 0 (500 * Millisecond))), p, w').
Proof.
  intros Hf Hc Hd Hs Hu. unfold turn. eexists. rewrite bind_reading. cbn [Now site_network].
  destruct (Z.ltb_spec deadline (clock w)); [lia|]. change ((state ≫= ?k) p w) with (k p p w). cbv beta.
  rewrite bind_reading. cbn [ConnectionState site_pion]. rewrite Hs. unfold request. rewrite Hu.
  erewrite M_bind_some; [|unfold attempt, call; cbn [Do site_network]; unfold serve; by rewrite Hf].
  cbv beta match. destruct (Z.leb_spec 300 code); [lia|]. done.
Qed.

End site.

(** Candidates are handed to whoever asks for the right key: no token is looked at. *)
Lemma ice_without_token now fresh servers role id kv l e : role = "daemon" ∨ role = "controller" →
  kv !! Worker.ice_key role id = Some (Worker.Entries l, e) → (now < e)%Z →
  Worker.fetch now fresh servers "GET" ["sessions"; role +:+ ":" +:+ id; "ice"] (Worker.MkRequest "" "" None) kv =
  Worker.Reply (Worker.json_response 200 (JObj [("ice", JArr (Worker.entry_json <$> l))])) kv.
Proof.
  intros Hrole Hkv He. unfold Worker.fetch. rewrite decide_False by done. rewrite decide_False by (by intros [? _]).
  rewrite decide_True by done. rewrite decide_False by (by intros [? _]). rewrite decide_True by done.
  unfold Worker.get_route. rewrite decide_False by (by intros [? _]).
  assert ("ice" +:+ ":" +:+ role +:+ ":" +:+ id = Worker.ice_key role id) as -> by (by destruct Hrole as [-> | ->]).
  unfold Worker.get. rewrite Hkv. by destruct (Z.ltb_spec now e); [|lia].
Qed.

(** ** Concrete runs *)

Inductive demo_candidate := Host | Relay.

Definition demo_json (c : demo_candidate) : json :=
  JObj [("candidate", JStr (match c with Host => "typ host" | Relay => "typ relay" end))].
Definition demo_decode : decoder demo_candidate :=
  struct_of [("candidate", field_string (λ _ s, if decide (s = "typ host") then Host else Relay))].

(** Both tokens are in the store; the other peer finds one candidate before the first look
    and another later, and the second request is lost. *)
Definition demo_site : Site (C:=demo_candidate) :=
  MkSite {[ Worker.tok_key "daemon" "5e55" := (Worker.Text "d0", 300000%Z);
            Worker.tok_key "controller" "5e55" := (Worker.Text "c0", 300000%Z) ]}
    0 [] [] [([Host], Connecting); ([], Connecting); ([Relay], Connected)] StateNew
    [None; Some (Err "timeout"); None].

#[local] Instance demo_network : Network (Site (C:=demo_candidate)) :=
  site_network demo_json "https://hub.example" "5e55" "d0" "c0" "daemon".
#[local] Instance demo_pion : Pion (Site (C:=demo_candidate)) :=
  site_pion demo_json demo_decode Host (λ _, false).

Definition demo_peer : Peer (W:=Site (C:=demo_candidate)) :=
  MkPeer ThePeer None "daemon" None false false false false [].
Definition demo_target : target := target_of "https://hub.example" "5e55" "d0" "c0" "daemon".

Lemma demo_ok : ok demo_json "5e55" "d0" "c0" "daemon" 299999 demo_site.
Proof.
  split; [by exists 300000%Z|by exists 300000%Z| |done].
  left. split; [|done]. vm_compute. reflexivity.
Qed.

Definition demo_run := exchange 20 demo_target (2 * Minute) first_cursor demo_peer demo_site.

Definition demo_end : bool :=
  match demo_run with
  | Some (_, _, w) => (ms w <=? 299999)%Z && (length (gathered w) =? 2) && (length (given w) =? 2)
  | None => false
  end.



End PeerTheorems.
