(* ===== verification/VaultWs.v ===== *)
(** * cmd/valetfs/vault_ws.go: a vault talks to a daemon

    The calls of the vault's commands over the control plane: the vault of this
    machine, an RPC client, and the control node at the other end.  A call is a
    request frame, what the node does with it, and the frames it sends back; the
    channel in between delivers what it is given, in order. *)
From S2P Require Import Prelude GoStrings GoJson GoFloat GoJsonPrint GoBase64 MemFS Rpc Node E2ee Vault.
Import GoStr GoJson GoFloat.

Module VaultWs.

Section VaultWs.
Context {W : Type} `{Node.NodeHost W} `{Vault.Crypto} `{E2ee.V1Crypto}.
Context (strconv_Quote sha256_hex corrupt_text : string → string).

(** Outside: the identifiers drawn for calls, the clocks of the node during each, and
    the vault's system calls. *)
Context (ids : nat → string) (clocks : nat → nat → MemFS.clock) (times : nat → Z).
Context (venv : Vault.Env).

Record Remote := MkRemote {
  node : Node.MemoryNode (W:=W);
  client : Rpc.Client;
  ncalls : nat;
}.

(** [Client.Call], up to its result or its deadline. *)
Definition call (method : string) (ps : Rpc.params) (r : Remote)
  : result string Rpc.Message * Remote :=
  let k := ncalls r in
  let c := Rpc.Call_register k (ids k) (client r) in
  let n := Node.onData strconv_Quote sha256_hex corrupt_text (clocks k) (times k)
             (Rpc.Encode (Rpc.NewRequest (ids k) method ps)) (node r) in
  let c := fold_left (λ c raw, Rpc.onData raw c)
             (drop (length (Node.sent (node r))) (Node.sent n)) c in
  match Rpc.boxes c !! k with
  | Some (m :: _) => (Rpc.Call_result method m, MkRemote n c (S k))
  | _ => (Err "context deadline exceeded", MkRemote n (Rpc.Call_abandon (ids k) c) (S k))
  end.

(** ** The version check *)

(** Count up, then down; the two lists hold the same versions when nothing is left. *)
Definition count_by (d : Z) (l : list Z) (seen : gmap Z Z) : gmap Z Z :=
  fold_left (λ m v, <[v := (default 0 (m !! v) + d)%Z]> m) l seen.

Definition sameVersions (a b : list Z) : bool :=
  if decide (length a = length b) then
    forallb (λ kv, (kv.2 =? 0)%Z) (map_to_list (count_by (-1) b (count_by 1 a ∅)))
  else false.

Definition verifyProtocol (hubVersions : list Z) (r : Remote) : result string () * Remote :=
  match call Rpc.MethodStatus ∅ r with
  | (Err e, r) => (Err ("protocol check: " +:+ e), r)
  | (Ok res, r) =>
      match Rpc.Result res !! "protocol_versions" with
      | Some (JArr raw) =>
          let actual := omap (λ v, trunc_i64 <$> Node.toFloat v) raw in
          if negb (bool_decide (hubVersions = [])) && negb (sameVersions hubVersions actual)
          then (Err "protocol downgrade detected", r)
          else if (Rpc.Negotiate actual 0 =? 0)%Z
          then (Err "no shared protocol version", r)
          else (Ok tt, r)
      | _ => (Ok tt, r)
      end
  end.

(** What [ws.DialController] gives: the daemon's key, and the versions the hub says it
    speaks.  The result is the encrypted end, or nothing when there is no key. *)
Definition vaultWSDial (dialed : result string (string * list Z)) (priv : string) (r : Remote)
  : result string (option E2ee.Conn) * Remote :=
  match dialed with
  | Err e => (Err ("ws connect: " +:+ e), r)
  | Ok (daemonPub, hubVersions) =>
      if negb (bool_decide (hubVersions = [])) && (Rpc.Negotiate hubVersions 0 =? 0)%Z
      then (Err "no shared protocol version with this daemon", r)
      else if decide (daemonPub ≠ "") then
        match E2ee.Generate priv with
        | None => (Err "e2ee keygen", r)
        | Some kp =>
            match E2ee.WrapController kp daemonPub with
            | None => (Err "e2ee handshake", r)
            | Some conn =>
                match verifyProtocol hubVersions r with
                | (Err e, r) => (Err e, r)
                | (Ok _, r) => (Ok (Some (E2ee.Start conn)), r)
                end
            end
        end
      else (Ok None, r)
  end.

(** ** Pushing the vault *)

Definition write_params (p b : string) : Rpc.params :=
  {["path" := JStr p; "content_b64" := JStr (Base64.Encode b)]}.

Fixpoint push_entries (es : list Vault.Entry) (v : Vault.Vault) (w : Vault.World) (r : Remote)
  : result string () * Vault.World * Remote :=
  match es with
  | [] => (Ok tt, w, r)
  | e :: es =>
      match Vault.Read venv (Vault.Path e) v w with
      | (Err x, w) => (Err x, w, r)
      | (Ok b, w) =>
          match call Rpc.MethodWrite (write_params (Vault.Path e) b) r with
          | (Err x, r) => (Err ("push " +:+ Vault.Path e +:+ ": " +:+ x), w, r)
          | (Ok _, r) => push_entries es v w r
          end
      end
  end.

Definition vaultWSPushAll (v : Vault.Vault) (w : Vault.World) (r : Remote)
  : result string () * Vault.World * Remote :=
  push_entries (Vault.List "/" v) v w r.

(** Dial, then push: [pair] and [sync] (the record of the session is not modelled). *)
Definition vaultWSSync (dialed : result string (string * list Z)) (priv : string)
    (v : Vault.Vault) (w : Vault.World) (r : Remote) : result string () * Vault.World * Remote :=
  match vaultWSDial dialed priv r with
  | (Err e, r) => (Err e, w, r)
  | (Ok _, r) => vaultWSPushAll v w r
  end.

(** One method without parameters: [lock] and [unmount]; [status] prints its result. *)
Definition vaultWSSimple (dialed : result string (string * list Z)) (priv method : string)
    (r : Remote) : result string Rpc.params * Remote :=
  match vaultWSDial dialed priv r with
  | (Err e, r) => (Err e, r)
  | (Ok _, r) =>
      match call method ∅ r with
      | (Err e, r) => (Err e, r)
      | (Ok m, r) => (Ok (Rpc.Result m), r)
      end
  end.

End VaultWs.
End VaultWs.
