(* ===== verification/VaultWsProps.v ===== *)
(** * cmd/valetfs/vault_ws.go: what arrives at the daemon *)
From stdpp Require Import pretty.
From S2P Require Import Prelude GoStrings GoPath GoJson GoUtf8 GoFloat GoJsonPrint GoFloatFacts GoBase64 MemFS MemFSFacts.
From S2P Require Import MemFSSpec MemFSRefine MemFSProps GoTime Rpc RpcProps Node NodeTheorems E2ee.
From S2P Require Import Session SessionTheorems Vault VaultProps VaultTheorems VaultWs.
Import GoStr GoJson UTF8 GoFloat JsonPrint FloatFacts FSInv FSSpec FSReach Rpc RpcFacts Node NodeFacts VaultWs
  SessionFacts.

Module VaultWsTheorems.

(** ** The version check *)

Lemma count_by_lookup d l seen v :
  default 0%Z (count_by d l seen !! v) =
  (default 0 (seen !! v) + d * Z.of_nat (length (filter (v =.) l)))%Z.
Proof.
  revert seen. induction l as [|x l IH]; intros seen; [simpl; lia|].
  unfold count_by in *. cbn [fold_left]. rewrite IH, filter_cons.
  destruct (decide (v = x)) as [->|Hne].
  - rewrite lookup_insert_eq. simpl. lia.
  - rewrite lookup_insert_ne by done. lia.
Qed.

Lemma count_filter (v : Z) l : length (filter (v =.) l) = List.count_occ Z.eq_dec l v.
Proof.
  induction l as [|x l IH]; [done|]. rewrite filter_cons. simpl.
  destruct (decide (v = x)), (Z.eq_dec x v); simpl; congruence || by rewrite IH.
Qed.

(** Equal as multisets, in any order. *)
Lemma sameVersions_perm a b : sameVersions a b = true ↔ a ≡ₚ b.
Proof.
  unfold sameVersions. assert ((∀ v, default 0%Z (count_by (-1) b (count_by 1 a ∅) !! v) = 0%Z) ↔
    ∀ v, List.count_occ Z.eq_dec a v = List.count_occ Z.eq_dec b v) as Hc.
  { apply forall_proper. intros v. rewrite !count_by_lookup, lookup_empty, !count_filter. simpl. lia. }
  rewrite <- (Permutation_count_occ Z.eq_dec) in Hc. rewrite <- Hc.
  case_decide as Hl.
  - rewrite forallb_forall. split.
    + intros Hall v. destruct (_ !! v) as [n|] eqn:Hv; [|done]. simpl.
      specialize (Hall (v, n)). apply Z.eqb_eq, Hall, list_elem_of_In.
      by apply elem_of_map_to_list.
    + intros Hall [v n] Hv%list_elem_of_In%elem_of_map_to_list. simpl. apply Z.eqb_eq.
      specialize (Hall v). by rewrite Hv in Hall.
  - split; [done|]. intros Hp. exfalso. apply Hl, Permutation_length, Hc, Hp.
Qed.

(** ** A call *)

Lemma members_skip {S} (fields : list (string * decoder S)) l s :
  Forall (λ kv, find_field fields kv.1 = None) l → members_into fields l s = (s, true).
Proof.
  intros Hl. unfold members_into. generalize true. induction Hl as [|kv l Hk Hl IH]; intros b; [done|].
  cbn [fold_left]. by rewrite Hk.
Qed.

(** A request is not taken for a report of presence. *)
Lemma request_no_presence d m : message_ok d m → (d + 2 ≤ max_depth)%N →
  presence (Encode m) = false.
Proof.
  intros Hm Hd. unfold presence, decode_sys, Unmarshal, Encode.
  rewrite (parse_print_value (d + 1 + 1)); [|by apply jok_message|lia].
  unfold message_json, struct_of. rewrite members_skip.
  - cbn. by rewrite ?bool_decide_false by naive_solver.
  - unfold omit_string, omit_map, omit_bool.
    repeat first [apply Forall_app_2 | case_match | apply Forall_cons_2 | apply Forall_nil_2];
      reflexivity.
Qed.

Section calls.
Context {W : Type} `{NodeHost W}.
Context (Quote sha corrupt : string → string).
Context (ids : nat → string) (clocks : nat → nat → MemFS.clock) (times : nat → Z).

Local Abbreviation Remote := (Remote (W:=W)).
Local Abbreviation call := (call Quote sha corrupt ids clocks times).

Definition reply_to (req : Message) (res : result string params) : Message :=
  match res with
  | Ok x => Reply req true x None
  | Err e => Reply req false ∅ (Some e)
  end.

(** A call runs the handler of its method once and returns what it answered. *)
Lemma call_run d method ps (r : Remote) h res n1 :
  let req := NewRequest (ids (ncalls r)) method ps in
  message_ok d req → (d + 2 ≤ max_depth)%N →
  Node.handlers sha corrupt (clocks (ncalls r)) (times (ncalls r)) !! ToUpper method = Some h →
  h req (cancelGrace (node r)) = (res, n1) → message_ok d (reply_to req res) →
  ∃ r', call method ps r = (Call_result method (reply_to req res), r') ∧
    node r' = send (Encode (reply_to req res)) n1 ∧ ncalls r' = S (ncalls r).
Proof.
  intros req Hreq Hd Hh Hrun Hrep. unfold VaultWs.call. fold req.
  rewrite onData_request by by eapply request_no_presence.
  unfold Dispatch. rewrite (Decode_Encode_ok d) by done. rewrite decide_True by done.
  change (Method req) with method. rewrite Hh, Hrun.
  pose proof (handler_frame sha corrupt _ _ _ h req _ Hh (eq_refl : grace (cancelGrace (node r)) = None))
    as (_ & _ & Hsent). rewrite Hrun in Hsent. simpl in Hsent.
  assert (∀ m, m = reply_to req res →
    drop (length (sent (node r))) (sent (send (Encode m) n1)) = [Encode m]) as Hdrop.
  { intros m _. simpl. by rewrite Hsent, drop_app_length. }
  assert (∀ m, m = reply_to req res → ID m = ID req ∧ Type_ m = TypeRes) as Hid.
  { intros m ->. by destruct res. }
  assert (∀ m, m = reply_to req res →
    boxes (fold_left (λ c raw, Rpc.onData raw c) [Encode m]
      (Call_register (ncalls r) (ids (ncalls r)) (client r))) !! ncalls r = Some [m]) as Hbox.
  { intros m Hm. cbn [fold_left]. unfold Rpc.onData. rewrite (Decode_Encode_ok d) by by subst.
    destruct (Hid _ Hm) as [Hi Ht]. rewrite decide_True by done. rewrite Hi.
    simpl. rewrite !lookup_insert_eq. simpl. by rewrite lookup_insert_eq. }
  destruct res as [x|e]; rewrite Hdrop, Hbox by done; eexists; by split_and!.
Qed.

End calls.

(** ** One WRITE *)

Lemma write_fs_reach t p data f r f' : reach f → fits f (len (of_string data)) →
  write_fs t p data f = (r, f') → reach f' ∧ MemFS.quota f' = MemFS.quota f.
Proof.
  intros Hr Hfit. unfold write_fs. set (f1 := if bool_decide _ then _ else f).
  assert (reach f1 ∧ fits f1 (len (of_string data)) ∧ MemFS.quota f1 = MemFS.quota f) as (H1 & H2 & H3).
  { subst f1. destruct (bool_decide _); [|done].
    assert (fits f (incoming (OMkdirAll (GoPath.Dir p) 493))) as Hf.
    { unfold fits in *. simpl. pose proof (len_nonneg (of_string data)). lia. }
    destruct (exec_usage (t 0) f (OMkdirAll (GoPath.Dir p) 493) (reach_inv _ Hr) Hf) as (Hq & Ht & _).
    split; [exact (reach_step (t 0) f _ Hr Hf)|]. simpl in *. split; [unfold fits in *; lia|done]. }
  intros Hw. assert (f' = (exec (t 1) f1 (OWrite p (of_string data) 384)).2) as ->.
  { simpl. by rewrite Hw. }
  destruct (exec_usage (t 1) f1 (OWrite p (of_string data) 384) (reach_inv _ H1) H2) as (Hq & _).
  split; [by apply reach_step|congruence].
Qed.

Section writes.
Context {W : Type} `{NodeHostLaws W}.
Context (Quote sha corrupt : string → string).
Context (ids : nat → string) (clocks : nat → nat → MemFS.clock) (times : nat → Z).
Context (Hids : ∀ k, utf8_str (ids k) = true).
Context (Hremount : ∀ w, host_fs (call_hook Remount w) = host_fs w).

Local Abbreviation Remote := (Remote (W:=W)).
Local Abbreviation call := (call Quote sha corrupt ids clocks times).

Definition files (r : Remote) : MemFS.MemFS := node_fs (node r).

Lemma write_params_path p b : get_string "path" (write_params p b) = p.
Proof. done. Qed.

Lemma write_request_ok k p b : utf8_str p = true →
  message_ok 0 (NewRequest (ids k) MethodWrite (write_params p b)).
Proof.
  intros Hp. split; simpl; try done.
  - unfold write_params. apply map_Forall_insert_2; [split; [done|]; split; [by constructor|done]|].
    apply map_Forall_singleton. split; [done|]. split; [|done].
    constructor. apply utf8_Encode.
Qed.

Lemma call_write p b (r : Remote) : utf8_str p = true → p ≠ "" →
  let (x, f) := write_fs (clocks (ncalls r)) p b (files r) in
  ∃ res r', call MethodWrite (write_params p b) r = (res, r') ∧ is_ok res = is_ok x ∧ files r' = f.
Proof.
  intros Hu Hp. destruct (write_fs _ p b (files r)) as [x f] eqn:Hw.
  set (req := NewRequest (ids (ncalls r)) MethodWrite (write_params p b)).
  set (n0 := set_world (call_hook Remount (world (cancelGrace (node r)))) (cancelGrace (node r))).
  assert (handleWrite corrupt (clocks (ncalls r)) req (cancelGrace (node r)) =
    (match x with Ok _ => Ok ok_result | Err e => Err (fs_error e) end, set_fs f n0)) as Hrun.
  { unfold handleWrite. change (get_string "path" (Params req)) with p. rewrite decide_False by done.
    assert (decodeContent corrupt (Params req) = Ok b) as ->.
    { unfold decodeContent. change (Params req !! "content_b64") with (Some (JStr (Base64.Encode b))).
      cbv beta match. by rewrite Base64.Decode_Encode. }
    cbv zeta. fold n0. assert (node_fs n0 = files r) as -> by (unfold n0, node_fs, files; simpl; apply Hremount).
    rewrite Hw. by destruct x. }
  destruct (call_run Quote sha corrupt ids clocks times 0 MethodWrite (write_params p b) r
    (handleWrite corrupt (clocks (ncalls r))) _ _ (write_request_ok _ _ _ Hu) ltac:(done) eq_refl Hrun)
    as (r' & Hc & Hn & _).
  { destruct x as [|e]; split; simpl; try done.
    - apply map_Forall_singleton. split; [done|]. split; [constructor|done].
    - by destruct e. }
  exists (Call_result MethodWrite (reply_to req (match x with Ok _ => Ok ok_result | Err e => Err (fs_error e) end))), r'.
  split; [exact Hc|]. split; [by destruct x|].
  unfold files. rewrite Hn. unfold node_fs, set_fs, send. simpl. apply host_fs_set.
Qed.

(** ** The whole vault *)

Context `{Vault.CryptoLaws} (venv : Vault.Env).

Local Abbreviation push_entries := (push_entries Quote sha corrupt ids clocks times venv).

(** A file system whose arithmetic stays within its integers. *)
Definition roomy (f : MemFS.MemFS) : Prop := reach f ∧ (0 < MemFS.quota f < 2 ^ 62)%Z.

Lemma roomy_fits f n : roomy f → (n < 2 ^ 62)%Z → fits f n.
Proof.
  intros [Hr Hq] Hn. destruct (reach_usage_ok _ Hr) as [Hu Hle].
  unfold fits, two63 in *. unfold quota_ok in Hle. lia.
Qed.

(** The bodies of a vault that can be sent: text for names, sizes of a file, and no two
    names for one place. *)
Record sendable (bodies : gmap string string) : Prop := {
  s_text p b : bodies !! p = Some b → p ≠ "" ∧ utf8_str p = true;
  s_size p b : bodies !! p = Some b → (len (of_string b) < 2 ^ 62)%Z;
  s_apart p q b c : bodies !! p = Some b → bodies !! q = Some c →
    MemFS.normalize p = MemFS.normalize q → p = q;
}.

Definition arrived (bodies : gmap string string) (f : MemFS.MemFS) (p : string) : Prop :=
  ∀ b, bodies !! p = Some b → MemFS.Read f p = Ok (of_string b).

Lemma push_entries_run v bodies es done : VaultTheorems.lucky venv → sendable bodies → ∀ w r,
  VaultTheorems.ready v bodies (Vault.disk w) →
  Forall (λ e, Vault.normalizeFSPath (Vault.Path e) = Vault.Path e ∧
               is_Some (bodies !! Vault.Path e)) es →
  roomy (files r) → Forall (λ p, is_Some (bodies !! p) ∧ arrived bodies (files r) p) done →
  let '(res, w', r') := push_entries es v w r in
  roomy (files r') ∧ (is_ok res = true →
    Forall (arrived bodies (files r')) (done ++ (Vault.Path <$> es))).
Proof.
  intros Hl Hs. revert done. induction es as [|e es IH]; intros done w r Hready Hes Hroom Hdone.
  { simpl. split; [done|]. intros _. rewrite (right_id_L [] (++)).
    eapply Forall_impl; [exact Hdone|]. by intros ? []. }
  apply Forall_cons in Hes as [[Hnorm [b Hb]] Hes]. cbn [VaultWs.push_entries].
  assert (bodies !! Vault.normalizeFSPath (Vault.Path e) = Some b) as Hb' by by rewrite Hnorm.
  destruct (VaultTheorems.ready_read venv v bodies w _ b Hready Hb') as (w1 & Hread & Hafter).
  { by apply VaultTheorems.lucky_quiet. }
  rewrite Hread. destruct (s_text _ Hs _ _ Hb) as [Hp Hu].
  assert (fits (files r) (len (of_string b))) as Hfit by (apply roomy_fits; [done|by eapply s_size]).
  pose proof (call_write (Vault.Path e) b r Hu Hp) as Hcall.
  destruct (write_fs (clocks (ncalls r)) (Vault.Path e) b (files r)) as [x f'] eqn:Hw.
  destruct Hcall as (res & r1 & -> & Hok & Hf1).
  destruct (write_fs_reach _ _ _ _ _ _ (proj1 Hroom) Hfit Hw) as [Hr1 Hq1].
  assert (roomy (files r1)) as Hroom1 by (rewrite Hf1; split; [done|rewrite Hq1; apply Hroom]).
  destruct res as [m|err]; [|by split].
  destruct x as [[]|]; [|done].
  destruct (write_fs_ok _ _ _ _ _ (reach_inv _ (proj1 Hroom)) Hfit Hw) as [Hnew Hold].
  rewrite <- Hf1 in Hnew, Hold.
  specialize (IH (done ++ [Vault.Path e]) w1 r1).
  destruct (push_entries es v w1 r1) as [[res w2] r2].
  rewrite <- (assoc_L (++)) in IH. apply IH; [|done|done|].
  - destruct Hafter as [Hd _]. by rewrite Hd.
  - assert (arrived bodies (files r1) (Vault.Path e)) as He by (intros b' Hb2; congruence).
    apply Forall_app. split; [|apply Forall_singleton; split; [by eexists|done]].
    eapply Forall_impl; [exact Hdone|]. intros p [[c Hc] Hp']. split; [by eexists|].
    destruct (decide (p = Vault.Path e)) as [->|Hne]; [done|]. intros b' Hb2.
    apply Hold; [|by apply Hp']. intros Hn. by eapply Hne, s_apart.
Qed.

(** C30: a push that succeeds has delivered the whole vault: every file of it can be read at
    the daemon under its own name, byte for byte, whatever bytes it holds and in whatever
    order the entries went; through the vault's decryption, the request and its JSON, the
    node's handler and the file system. *)
Theorem push_all_delivers v bodies w r w' r' :
  VaultTheorems.lucky venv → VaultTheorems.ready v bodies (Vault.disk w) →
  VaultTheorems.keys_normal (Vault.mf v) →
  map_Forall (λ p e, Vault.Path e = p) (Vault.mf v) → sendable bodies → roomy (files r) →
  vaultWSPushAll Quote sha corrupt ids clocks times venv v w r = (Ok tt, w', r') →
  ∀ p b, bodies !! p = Some b → MemFS.Read (files r') p = Ok (of_string b).
Proof.
  intros Hl Hready Hkeys Hpaths Hs Hroom Hrun p b Hb. unfold vaultWSPushAll in Hrun.
  assert (∀ e, e ∈ Vault.List "/" v ↔ ∃ p, Vault.mf v !! p = Some e) as Hlist.
  { intros e. unfold Vault.List. rewrite sort_by_perm, list_elem_of_fmap. split.
    - intros ([q x] & -> & Hq%list_elem_of_filter). exists q.
      by apply elem_of_map_to_list, Hq.
    - intros [q Hq]. exists (q, e). split; [done|]. apply list_elem_of_filter.
      split; [by left|by apply elem_of_map_to_list]. }
  pose proof (push_entries_run v bodies (Vault.List "/" v) [] Hl Hs w r Hready) as Hpush.
  rewrite Hrun in Hpush. destruct Hpush as [_ Hall]; [|done|done|].
  { apply Forall_forall. intros e [q Hq]%Hlist. rewrite (Hpaths _ _ Hq).
    split; [by apply (Hkeys _ _ Hq)|]. apply (VaultTheorems.ready_dom _ _ _ Hready). by eexists. }
  specialize (Hall eq_refl). simpl in Hall. rewrite Forall_fmap, Forall_forall in Hall.
  destruct (proj1 (VaultTheorems.ready_dom _ _ _ Hready p)) as [e He]; [by eexists|].
  assert (e ∈ Vault.List "/" v) as Hin by (apply Hlist; by eexists).
  specialize (Hall _ Hin). simpl in Hall. rewrite (Hpaths _ _ He) in Hall. by apply Hall.
Qed.

(** ** The version check against the daemon *)

(** What the daemon reports can be sent: its numbers are integers of the machine. *)
Record status_ok (n : MemoryNode (W:=W)) : Prop := {
  st_used : in_i64 (MemFS.Used (node_fs n));
  st_version : in_i64 (MemFS.Version (node_fs n));
  st_grace : in_i64 (GoTime.in_seconds (Grace n));
  st_texts : match Serving with
             | None => True
             | Some f => let s := f (world n) in
                 utf8_str (Backend s) = true ∧ utf8_str (FuseError s) = true ∧
                 utf8_str (WebdavAddr s) = true
             end;
}.

Lemma map_ok_insert d k x m : utf8_str k = true → value_ok d x → map_ok d m →
  map_ok d (<[k := x]> m).
Proof. intros Hk Hx Hm. by apply map_Forall_insert_2. Qed.

Lemma int_ok d z : in_i64 z → value_ok d (JInt z).
Proof. intros Hz. split; [constructor; apply num_lit_pretty|by apply any_ok_int]. Qed.

Lemma bool_ok d b : value_ok d (JBool b).
Proof. split; [constructor|done]. Qed.

Lemma str_ok d s : utf8_str s = true → value_ok d (JStr s).
Proof. intros Hs. split; [by constructor|done]. Qed.

(** An object of a flag and a text, the two members of the report that are objects. *)
Lemma pair_ok k1 b k2 s : utf8_str k1 = true → utf8_str k2 = true → utf8_str s = true →
  value_ok 1 (JObj [(k1, JBool b); (k2, JStr s)]) ∧ value_ok 1 (JObj [(k1, JStr s); (k2, JBool b)]).
Proof.
  intros Hk1 Hk2 Hs. split; (split; [apply (jok_obj 0); repeat constructor; done|done]).
Qed.

Lemma versions_ok : value_ok 1 (JArr (JInt <$> Supported)).
Proof.
  split; [|by vm_compute]. apply (jok_arr 0). repeat constructor; apply num_lit_pretty.
Qed.

Lemma status_result (now : Z) req n : status_ok n →
  ∃ res, handleStatus now req (cancelGrace n) = (Ok res, cancelGrace n) ∧
    map_ok 1 res ∧ res !! "protocol_versions" = Some (JArr (JInt <$> Supported)).
Proof.
  intros [Hu Hv Hg Ht]. unfold handleStatus. cbn [GraceState cancelGrace grace graceEnd].
  set (base := list_to_map _ : params).
  assert (map_ok 1 base) as Hbase.
  { repeat (apply map_ok_insert; [done|first [by apply int_ok | apply bool_ok | apply versions_ok]|]).
    apply map_Forall_empty. }
  destruct Serving as [f|]; (eexists; split; [done|split; [|done]]); [|exact Hbase].
  destruct Ht as (Ht1 & Ht2 & Ht3).
  repeat first [exact Hbase | apply map_ok_insert;
    [done|first [by apply str_ok | apply bool_ok | by eapply pair_ok]|]].
Qed.

Lemma supported_floats : omap (λ v, trunc_i64 <$> toFloat v) (JInt <$> Supported) = Supported.
Proof. by vm_compute. Qed.

Lemma call_status (r : Remote) : status_ok (node r) →
  ∃ m r', call MethodStatus ∅ r = (Ok m, r') ∧ files r' = files r ∧
    Result m !! "protocol_versions" = Some (JArr (JInt <$> Supported)).
Proof.
  intros Hs. set (req := NewRequest (ids (ncalls r)) MethodStatus ∅).
  destruct (status_result (times (ncalls r)) req (node r) Hs) as (res & Hrun & Hres & Hv).
  destruct (call_run Quote sha corrupt ids clocks times 1 MethodStatus ∅ r
    (handleStatus (times (ncalls r))) (Ok res) (cancelGrace (node r))) as (r' & Hc & Hn & _); try done.
  - split; simpl; try done; apply map_Forall_empty.
  - split; simpl; try done.
  - exists (reply_to req (Ok res)), r'. split; [exact Hc|]. split; [|exact Hv].
    unfold files. by rewrite Hn.
Qed.

(** The check passes exactly when the hub reported nothing, or what the daemon says. *)
Lemma verifyProtocol_run hub (r : Remote) : status_ok (node r) →
  ∃ x r', verifyProtocol Quote sha corrupt ids clocks times hub r = (x, r') ∧ files r' = files r ∧
    (is_ok x = true ↔ hub = [] ∨ hub ≡ₚ Supported).
Proof.
  intros (m & r' & Hc & Hf & Hv)%call_status. unfold verifyProtocol. rewrite Hc, Hv, supported_floats.
  pose proof (sameVersions_perm hub Supported) as Hsame.
  destruct (decide (hub = [])) as [->|Hne].
  - rewrite bool_decide_true by done. eexists _, _. split; [done|]. split; [done|]. by split; [left|].
  - rewrite bool_decide_false by done. destruct (sameVersions hub Supported) eqn:Hb; simpl.
    + eexists _, _. split; [done|]. split; [done|]. split; [|done]. intros _. right. by apply Hsame.
    + eexists _, _. split; [done|]. split; [done|]. split; [done|].
      intros [?|Hp]; [done|]. by apply Hsame in Hp.
Qed.


End writes.

Import NodeDemo VaultTheorems.Toy.
#[local] Existing Instance demo_host.
#[local] Existing Instance demo_host_laws.
#[local] Existing Instance VaultTheorems.Toy.toy.
#[local] Existing Instance VaultTheorems.Toy.toy_laws.

(** A key agreement without secrets. *)
#[local] Instance toy_v1 : E2ee.V1Crypto := {|
  E2ee.X25519 a B := Some (a +:+ B);
  E2ee.Basepoint := "";
  E2ee.derive s := s;
  E2ee.Seal k n p := p;
  E2ee.Open k n c := Some c;
|}.

Definition fs1 : MemFS.MemFS := MemFS.New clk 4096.
Definition remote0 : VaultWs.Remote (W:=host) :=
  MkRemote (New (MkHost fs1 true) 0) NewClient 0.
(** Identifiers of calls. *)
Definition uids (k : nat) : string := Base64.Encode (fill "i" k).

Lemma uids_text k : utf8_str (uids k) = true.
Proof. apply utf8_Encode. Qed.

Lemma remount_fs (w : host) : host_fs (call_hook Remount w) = host_fs w.
Proof. done. Qed.

Lemma fs1_roomy : roomy fs1.
Proof. split; [apply FSReach.reach_new|done]. Qed.

Lemma bodies2_sendable : sendable bodies2.
Proof.
  assert (∀ p b, bodies2 !! p = Some b → (p, b) ∈ [("/b", "two"); ("/a", "one")]) as Hb.
  { intros p b. change bodies2 with (<["/b" := "two"]> (<["/a" := "one"]> (∅ : gmap string string))).
    rewrite !lookup_insert_Some, lookup_empty. set_solver. }
  split.
  - intros p b Hp%Hb. apply (proj1 (Forall_forall (λ kv, kv.1 ≠ "" ∧ utf8_str kv.1 = true) _)) in Hp.
    + exact Hp.
    + by repeat constructor.
  - intros p b Hp%Hb. apply (proj1 (Forall_forall (λ kv, (len (of_string kv.2) < 2 ^ 62)%Z) _)) in Hp.
    + exact Hp.
    + by repeat constructor.
  - intros p q b c Hp%Hb Hq%Hb. set_unfold in Hp. set_unfold in Hq.
    destruct Hp as [[= -> ->]|[[= -> ->]|[]]], Hq as [[= -> ->]|[[= -> ->]|[]]]; done.
Qed.

Lemma paths2 : map_Forall (λ p e, Vault.Path e = p) (Vault.mf v2).
Proof. repeat (apply map_Forall_insert_2; [done|]). apply map_Forall_empty. Qed.

Lemma push_all_delivers_witness :
  ∃ w' r', vaultWSPushAll id id id uids (λ _ _, clk) (λ _, 1000%Z) (env None None) v2 w2 remote0
    = (Ok tt, w', r') ∧
  ∀ p b, bodies2 !! p = Some b → MemFS.Read (files r') p = Ok (of_string b).
Proof.
  assert ((vaultWSPushAll id id id uids (λ _ _, clk) (λ _, 1000%Z) (env None None) v2 w2 remote0).1.1
    = Ok tt) as Hok by (vm_compute; reflexivity).
  destruct (vaultWSPushAll _ _ _ _ _ _ _ _ _ _) as [[res w'] r'] eqn:Hrun.
  simpl in Hok. subst res. exists w', r'. split; [done|].
  exact (push_all_delivers id id id uids (λ _ _, clk) (λ _, 1000%Z) uids_text remount_fs
    (env None None) v2 bodies2 w2 remote0 w' r' (no_fault None) ready2 normal2 paths2
    bodies2_sendable fs1_roomy Hrun).
Defined.


End VaultWsTheorems.
