(* ===== verification/Startup.v ===== *)
(** * cmd/valetfs/main.go: the program's entry, and how [serve] finds its session

    The choice of the command by its first word; the keys a daemon keeps between runs
    (e2ee.LoadOrGenerate and its counterpart of the second version); and the start over the
    hub, with a session of its own or with one an app has prepared. *)
From S2P Require Import Prelude GoStrings GoJson GoJsonPrint GoBase64 GoFlag Config.
From S2P Require Import E2ee Session Authorized Main Ws.
Import GoStr GoJson JsonPrint GoFlag.

Module Startup.

(** ** The first word *)

Inductive action :=
  | PrintVersion
  | Serve (args : list string)
  | Hub (args : list string)
  | Vault (args : list string)
  | Vaults (args : list string)
  | SetupClaude (args : list string)
  | PrintUsage
  | CLI (args : list string)
  | UsageError.

Definition cli_commands : list string :=
  ["exec"; "stop"; "status"; "ls"; "cat"; "cp"; "rm"; "del"; "mkdir"; "rmdir"; "mv"; "completion"; "__complete"].

(** [args] without the name of the program. *)
Definition main (args : list string) : action :=
  match args with
  | [] => UsageError
  | cmd :: rest =>
      if decide (cmd = "--version" ∨ cmd = "version") then PrintVersion
      else if decide (cmd = "serve") then Serve rest
      else if decide (cmd = "hub") then Hub rest
      else if decide (cmd = "vault") then Vault rest
      else if decide (cmd = "vaults") then Vaults rest
      else if decide (cmd = "setup-claude") then SetupClaude rest
      else if decide (cmd = "help" ∨ cmd = "-h" ∨ cmd = "--help") then PrintUsage
      else if decide (cmd ∈ cli_commands) then CLI args
      else UsageError
  end.

(** [runHub]: the address it listens on. *)
Definition runHub (args : list string) : result flag_error string :=
  match Parse [("addr", KString)] args with
  | Err e => Err e
  | Ok (l, _) => Ok (flag_string l "addr" "127.0.0.1:8799")
  end.

(** ** Key files *)

(** A file with what the system makes of the next read and write: a write that fails leaves
    the file absent, or there with a part of the bytes. *)
Inductive outcome := Written | NotCreated | Partial (n : nat).
Record KeyFile := MkFile { content : option string; readable : bool; writing : outcome }.

Definition set_content (c : option string) (f : KeyFile) : KeyFile := MkFile c (readable f) (writing f).

Definition os_write (b : string) (f : KeyFile) : bool * KeyFile :=
  match writing f with
  | Written => (true, set_content (Some b) f)
  | NotCreated => (false, f)
  | Partial n => (false, set_content (Some (stake n b)) f)
  end.

Inductive key_error := BadLength | BadKey | Unreadable | Unwritable.

Section keys.
Context `{E2ee.V1Crypto}.

(** [e2ee.LoadOrGenerate], on 32 fresh random bytes; whether a stored key was used. *)
Definition LoadOrGenerate (fresh : string) (f : KeyFile) : result key_error (E2ee.KeyPair * bool) * KeyFile :=
  if negb (readable f) then (Err Unreadable, f)
  else match content f with
  | Some b =>
      if decide (String.length b = 32) then
        match E2ee.X25519 b E2ee.Basepoint with
        | Some pub => (Ok (E2ee.MkKeyPair b pub, true), f)
        | None => (Err BadKey, f)
        end
      else (Err BadLength, f)
  | None =>
      match E2ee.Generate fresh with
      | None => (Err BadKey, f)
      | Some kp =>
          let (ok, f) := os_write (E2ee.Priv kp) f in
          if ok : bool then (Ok (kp, false), f) else (Err Unwritable, f)
      end
  end.

(** [serve] keeps its first key only with a file to keep it in. *)
Definition v1_key (resumeKeyFile fresh : string) (f : KeyFile)
  : result key_error (E2ee.KeyPair * bool) * KeyFile :=
  if decide (resumeKeyFile ≠ "") then LoadOrGenerate fresh f
  else (match E2ee.Generate fresh with Some kp => Ok (kp, false) | None => Err BadKey end, f).

(** The key of the second version, in a file of its own. *)
Definition v2_key `{Session.Noise} (dh_base : string → option string) (resumeKeyFile : string)
    (fresh : Session.DHKey) (f : KeyFile) : result Authorized.error (Session.DHKey * bool) * KeyFile :=
  let path := if decide (resumeKeyFile ≠ "") then resumeKeyFile +:+ ".noise" else "" in
  if negb (readable f) && bool_decide (path ≠ "") then (Err Authorized.ErrIO, f)
  else
    let (r, c) := Authorized.LoadOrGenerateStatic dh_base fresh path (content f)
      (match writing f with Written => true | _ => false end) in
    (r, match r, content f, writing f with
        | Err _, None, Partial n => set_content (Some (stake n (Session.Private fresh))) f
        | _, _, _ => set_content c f
        end).

End keys.

(** ** The start over the hub *)

Inductive fatal :=
  | FKeyFile (e : key_error)
  | FNoiseFile
  | FAuthorized (e : Authorized.error)
  | FJoinKey (e : Main.join_error)
  | FVaultKey
  | FPublish (e : Ws.ws_error)
  | FJoin (e : Ws.ws_error)
  | FClaimSecret (e : string)
  | FDial (e : Ws.ws_error).

Record Files := MkFiles { resume : KeyFile; noise : KeyFile; vaults : option string }.

(** The random bytes of a start. *)
Record Fresh := MkFresh { f_v1 : string; f_v2 : Session.DHKey; f_claim : result string string }.

(** What [serve] goes on with: [arm] says that the grace timer is started at once. *)
Record Started := MkStarted {
  rawConn : Ws.Conn;
  ssid : string;
  daemonToken : string;
  signaling : string;
  joinAuthorized : option string;
  recorded : list Authorized.authEntry;
  kp : E2ee.KeyPair;
  staticKey : Session.DHKey;
  qr : option json;
  arm : bool;
}.

Section start.
Context `{E2ee.V1Crypto} `{Session.Noise} (dh_base : string → option string).
Context {W : Type} (net : Ws.Net W).

(** The payload of the code the app scans. *)
Definition qrPayload (sid signaling pub pub2 claim : string) : json :=
  JObj [("claim", JStr claim); ("pub", JStr pub); ("pub2", JStr pub2); ("sid", JStr sid);
        ("signaling", JStr signaling); ("v", JInt 1)].

(** The reverse flow: the app has made the session. *)
Definition join_session (c : Config.Config) (k1 : E2ee.KeyPair) (k2 : Session.DHKey)
    (es : list Authorized.authEntry) (w : W) : result fatal Started * W :=
  match Main.decodeJoinKey (Config.JoinKey c) with
  | Err e => (Err (FJoinKey e), w)
  | Ok key =>
      let sig := if decide (Main.Signaling key = "") then Config.SignalingURL c else Main.Signaling key in
      match (if decide (Main.VaultPub key = "") then Some None
             else Some <$> Session.ParsePub (Main.VaultPub key)) with
      | None => (Err FVaultKey, w)
      | Some named =>
          let insecure := Config.InsecureSignaling c in
          match Ws.PublishPub net insecure sig (Main.SID key) (Main.Token key)
                  (E2ee.PubB64 k1) (Session.PubB64 (Session.Public k2)) w with
          | (Err e, w) => (Err (FPublish e), w)
          | (Ok _, w) =>
              match Ws.JoinDaemon net insecure sig (Main.SID key) (Main.Token key) w with
              | (Err e, w) => (Err (FJoin e), w)
              | (Ok conn, w) =>
                  (Ok (MkStarted conn (Main.SID key) (Main.Token key) sig named es k1 k2 None true), w)
              end
          end
      end
  end.

(** The session of the daemon's own. *)
Definition dial_session (c : Config.Config) (claim : result string string) (k1 : E2ee.KeyPair)
    (k2 : Session.DHKey) (es : list Authorized.authEntry) (w : W) : result fatal Started * W :=
  let sig := Config.SignalingURL c in
  match claim with
  | Err e => (Err (FClaimSecret e), w)
  | Ok bytes =>
      let secret := Ws.NewClaimSecret bytes in
      match Ws.DialDaemon net (Config.InsecureSignaling c) sig
              (E2ee.PubB64 k1) (Session.PubB64 (Session.Public k2)) secret w with
      | (Err e, w) => (Err (FDial e), w)
      | (Ok conn, w) =>
          (Ok (MkStarted conn (Ws.sid conn) (Ws.token conn) sig None es k1 k2
                 (Some (qrPayload (Ws.sid conn) sig (E2ee.PubB64 k1) (Session.PubB64 (Session.Public k2)) secret))
                 false), w)
      end
  end.

(** The keys, the list of vaults, then the session. *)
Definition start_ws (c : Config.Config) (fr : Fresh) (fl : Files) (w : W)
  : result fatal Started * Files * W :=
  match v1_key (Config.ResumeKeyFile c) (f_v1 fr) (resume fl) with
  | (Err e, f1) => (Err (FKeyFile e), MkFiles f1 (noise fl) (vaults fl), w)
  | (Ok (k1, _), f1) =>
      match v2_key dh_base (Config.ResumeKeyFile c) (f_v2 fr) (noise fl) with
      | (Err _, f2) => (Err FNoiseFile, MkFiles f1 f2 (vaults fl), w)
      | (Ok (k2, _), f2) =>
          let fl := MkFiles f1 f2 (vaults fl) in
          match Authorized.OpenAuthorizedVaults (vaults fl) with
          | Err e => (Err (FAuthorized e), fl, w)
          | Ok es =>
              let (r, w) := if decide (Config.JoinKey c ≠ "") then join_session c k1 k2 es w
                            else dial_session c (f_claim fr) k1 k2 es w in
              (r, fl, w)
          end
      end
  end.

End start.
End Startup.
