(* ===== verification/ServeMain.v ===== *)
(** * cmd/valetfs/main.go: [serve] from its arguments to the signal that ends it

    What the other files model part by part is put together here: the configuration, the
    check for a daemon that is already there, hardening, the clean-up of an old mount, the
    daemon and its control API, and one of the three modes. *)
From S2P Require Import Prelude GoStrings GoTime Config MemFS Node Mounter Host Repo Daemon Serve E2ee.
From S2P Require Import Session Dual Authorized Cli Main ServeLoop Ws Peer Startup.
Import GoStr.

Module ServeMain.

#[local] Existing Instances Peer.M_ret Peer.M_bind.

(** Why the process ends before it serves. *)
Inductive exit :=
  | XConfig (e : Config.load_error)
  | XRunning
  | XInit (e : string)
  | XControl (e : string)
  | XSession (e : Startup.fatal)
  | XPeer (e : string).

Section serve.
Context {G : Type} `{Repo.GoGit G} `{E2ee.V1Crypto} `{Session.Noise}.
Context (hmac_hex : string → bytes → string) (decode_error : string → string).
Context (dh_base : string → option string).
Context {W : Type} (net : Ws.Net W) `{Peer.Pion W}.
(** Running a command on the machine. *)
Context (Run : list string → Host.Machine → bool * Host.Machine).

Local Abbreviation Daemon := (Daemon.Daemon (G:=G)).

(** What the system gives one start: the environment, the answers of the kernel, which mount
    points exist, what the daemon's calls answer, the history that is on disk, the result of
    [net.Listen], random bytes and the time. *)
Record Given := MkGiven {
  environ : Config.environ;
  home : option string;
  random : result string string;
  kernel : Host.Kernel;
  exists_ : string → bool;
  cenv : Cli.Env;
  denv : Daemon.Env;
  existing : option G;
  ln : result string string;
  fresh : Startup.Fresh;
  now : Z;
}.

(** What a start acts on: a daemon that may already run and the files it left, the machine,
    the process itself, the key files and the list of vaults, the network. *)
Record World := MkWorld {
  other : Cli.World (G:=G);
  machine : Host.Machine;
  process : Host.Process;
  files : Startup.Files;
  network : W;
}.

(** A program that serves, in each of its modes. *)
Inductive running :=
  | RDev (d : Daemon)
  | RHub (n : Node.MemoryNode (W:=Daemon)) (st : Startup.Started) (c : Ws.Conn) (dc : Dual.Dual)
  | RPeer (d : Daemon) (p : Peer.Peer).

Definition daemon_of (r : running) : Daemon :=
  match r with RDev d | RPeer d _ => d | RHub n _ _ _ => Node.world n end.

(** Whether another daemon answers, asked only with the default address. *)
Definition already_running (g : Given) (c : Config.Config) (o : Cli.World (G:=G)) : bool * Cli.World (G:=G) :=
  if Config.RecordRuntimeState c then
    match Main.detectExistingDaemon hmac_hex decode_error (cenv g) (Config.RuntimeDir c) o with
    | Some (Ok b, o) => (b, o)
    | Some (Err _, o) => (false, o)
    | None => (false, o)
    end
  else (false, o).

(** The size of the file of a persisted identity. *)
Definition key_size (fl : Startup.Files) : option Z :=
  Z.of_nat ∘ String.length <$> Startup.content (Startup.resume fl).

(** The control node over the daemon, attached to the connection of the session.  The
    daemon's reporter is a method of the node: it says what the node's timer is. *)
Definition serve_hub (g : Given) (c : Config.Config) (st : Startup.Started) (d : Daemon) : running :=
  let _ := Serve.daemon_host (denv g) in
  let dc := ServeLoop.attach (Startup.kp st) (Startup.ssid st) (Startup.staticKey st)
              (Startup.joinAuthorized st) (Startup.recorded st) in
  let n := Serve.new_node (denv g) d in
  let n := if Startup.arm st then Node.ArmGrace (now g) n else n in
  let report := Some (λ t, Node.GraceState t n) in
  RHub (Node.set_world (Daemon.SetGraceReporter report (Node.world n)) n) st
    (Ws.Start (now g) (Startup.rawConn st)) dc.

(** The legacy channel; [ServeLoop.webrtc_onData] is the callback of its data, and mounting
    the one of its opening. *)
Definition serve_peer (d : Daemon) (w : W) : result exit running * W :=
  match Peer.newPeer "daemon" [] false w with
  | (Err e, w) => (Err (XPeer e), w)
  | (Ok p, w) => (Ok (RPeer d (Peer.OnData (Peer.OnOpen p))), w)
  end.

(** The goroutine that pairs it; an error is only logged. *)
Definition pair_peer `{Peer.Network W} (fuel : nat) (c : Config.Config) : Peer.M () :=
  _ ← Peer.attempt (Peer.Bootstrap fuel (Config.SignalingURL c)); mret tt.

(** The three modes. *)
Definition serve_mode (g : Given) (c : Config.Config) (d : Daemon) (fl : Startup.Files) (w : W)
  : result exit running * Startup.Files * W :=
  if Config.Dev c then (Ok (RDev d), fl, w)
  else if decide (Config.Transport c = "ws") then
    match Startup.start_ws dh_base net c (fresh g) fl w with
    | (Err e, fl, w) => (Err (XSession e), fl, w)
    | (Ok st, fl, w) => (Ok (serve_hub g c st d), fl, w)
    end
  else let (r, w) := serve_peer d w in (r, fl, w).

(** [serve], up to where it waits for a signal. *)
Definition serve (g : Given) (args : list string) (w : World) : result exit running * World :=
  match Config.Load (environ g) (home g) (random g) (ServeLoop.serve_args args).2 with
  | Err e => (Err (XConfig e), w)
  | Ok c =>
      let (there, o) := already_running g c (other w) in
      if there : bool then (Err XRunning, MkWorld o (machine w) (process w) (files w) (network w))
      else
        let p := (Host.Apply (kernel g) (process w)).2 in
        let m := Host.PreUnmount Run (exists_ g) (Config.MountPoint c) (machine w) in
        let (fuse, m') := Host.fuse_ok Run m in
        match Daemon.New (denv g) fuse (existing g) c with
        | Err e => (Err (XInit e), MkWorld o m p (files w) (network w))
        | Ok d =>
            match ServeLoop.boot (denv g) (ln g) (Config.ResumeKeyFile c) (key_size (files w)) d with
            | (Some e, _) => (Err (XControl e), MkWorld o m' p (files w) (network w))
            | (None, d) =>
                let '(r, fl, nw) := serve_mode g c d (files w) (network w) in
                (r, MkWorld o m' p fl nw)
            end
        end
  end.

(** The signal: the daemon shuts down, then a peer is closed. *)
Definition terminate (env : Daemon.Env) (r : running) (w : W) : Daemon * W :=
  let d := Daemon.Shutdown env (daemon_of r) in
  match r with
  | RPeer _ p => (d, (Peer.pc_Close (Peer.pc p) w).2)
  | _ => (d, w)
  end.

End serve.
End ServeMain.
