(* ===== verification/StartupProps.v ===== *)
(** * cmd/valetfs/main.go: what a start of [serve] leaves behind, and what its code gives *)
From S2P Require Import Prelude GoStrings GoTime GoJson GoUtf8 GoFloat GoJsonPrint GoBase64 GoFlag GoUrl.
From S2P Require Import GoPath Config Rpc E2ee Session Authorized SessionTheorems Main MainTheorems Cli Hub Ws WsProps.
From S2P Require Import ServeLoop Startup MemFS MemFSFacts MemFSSpec MemFSRefine Mounter Node Host Repo Daemon Serve DaemonTheorems Peer ServeMain.
Import GoStr GoTime GoJson UTF8 JsonPrint Startup.

Module StartupTheorems.

(** ** Key files *)

Section keys.
Context `{E2ee.V1Crypto} `{Session.Noise} (dh_base : string → option string).

(** A file that holds [b] and can be read. *)
Definition holds (b : string) (f : KeyFile) : Prop := readable f = true ∧ content f = Some b.

Lemma LoadOrGenerate_stored b pub fresh f : holds b f → String.length b = 32 →
  E2ee.X25519 b E2ee.Basepoint = Some pub →
  LoadOrGenerate fresh f = (Ok (E2ee.MkKeyPair b pub, true), f).
Proof. intros [Hr Hc] Hl Hp. unfold LoadOrGenerate. by rewrite Hr, Hc, decide_True, Hp. Qed.

(** After a success the file holds the key that is used. *)
Lemma LoadOrGenerate_leaves fresh f kp b f' : String.length fresh = 32 →
  LoadOrGenerate fresh f = (Ok (kp, b), f') →
  holds (E2ee.Priv kp) f' ∧ String.length (E2ee.Priv kp) = 32 ∧
  E2ee.X25519 (E2ee.Priv kp) E2ee.Basepoint = Some (E2ee.Pub kp).
Proof.
  intros Hf. unfold LoadOrGenerate, E2ee.Generate, os_write, holds.
  destruct (readable f) eqn:Hr; [|done]. simpl. destruct (content f) as [c|] eqn:Hc.
  - case_decide; [|done]. destruct (E2ee.X25519 c _) eqn:Hp; [|done]. intros [= <- <- <-]. done.
  - destruct (E2ee.X25519 fresh _) eqn:Hp; [|done]. simpl.
    destruct (writing f); [|done..]. intros [= <- <- <-]. done.
Qed.

Lemma v2_key_stored b pub p fresh f : p ≠ "" → holds b f → String.length b = 32 →
  dh_base b = Some pub →
  v2_key dh_base p fresh f = (Ok (Session.MkDHKey b pub, true), f).
Proof.
  intros Hp [Hr Hc] Hl Hd. unfold v2_key. rewrite Hr, Hc. cbn [negb andb].
  rewrite (decide_True (P := p ≠ "")) by done. unfold Authorized.LoadOrGenerateStatic.
  rewrite decide_False by (by destruct p). rewrite decide_True, Hd by done. by destruct f; simplify_eq/=.
Qed.

Lemma v2_key_leaves p fresh f k b f' : p ≠ "" →
  String.length (Session.Private fresh) = 32 → dh_base (Session.Private fresh) = Some (Session.Public fresh) →
  v2_key dh_base p fresh f = (Ok (k, b), f') →
  holds (Session.Private k) f' ∧ String.length (Session.Private k) = 32 ∧
  dh_base (Session.Private k) = Some (Session.Public k).
Proof.
  intros Hp Hl Hd. unfold v2_key, holds. rewrite (decide_True (P := p ≠ "")) by done.
  rewrite bool_decide_true by (by destruct p). destruct (readable f) eqn:Hr; [|done]. cbn [negb andb].
  unfold Authorized.LoadOrGenerateStatic. rewrite decide_False by (by destruct p).
  destruct (content f) as [c|] eqn:Hc.
  - case_decide; [|done]. destruct (dh_base c) eqn:Hp'; [|done]. by intros [= <- <- <-].
  - destruct (writing f); [|done..]. by intros [= <- <- <-].
Qed.

Lemma stake_shorter n s : n < String.length s → String.length (stake n s) = n.
Proof. revert s. induction n as [|n IH]; intros [|a s] Hn; simpl in *; try lia. by rewrite IH by lia. Qed.

(** A first write cut short leaves a file that no later start accepts, nor repairs. *)
Lemma cut_short_for_ever fresh f n : readable f = true → content f = None →
  writing f = Partial n → n < String.length fresh → String.length fresh = 32 →
  ∀ kp, E2ee.Generate fresh = Some kp →
  ∃ f', LoadOrGenerate fresh f = (Err Unwritable, f') ∧
    ∀ fresh' o, LoadOrGenerate fresh' (MkFile (content f') true o) =
                (Err BadLength, MkFile (content f') true o).
Proof.
  intros Hr Hc Hw Hn Hl kp Hkp. unfold E2ee.Generate in Hkp.
  destruct (E2ee.X25519 fresh _) as [pub|] eqn:Hp; simplify_eq/=.
  unfold LoadOrGenerate at 1. unfold E2ee.Generate, os_write. rewrite Hr, Hc, Hp. simpl. rewrite Hw.
  eexists. split; [done|]. intros fresh' o. unfold LoadOrGenerate. simpl.
  rewrite decide_False; [done|]. rewrite stake_shorter; lia.
Qed.

End keys.

(** ** Restarting *)

(** The files as a later start finds them: the list of vaults may have changed, and the disk
    may fail otherwise. *)
Definition found_later (o1 o2 : outcome) (vs : option string) (fl : Files) : Files :=
  MkFiles (MkFile (content (resume fl)) true o1) (MkFile (content (noise fl)) true o2) vs.

Section restart.
Context `{E2ee.V1Crypto} `{Session.Noise} (dh_base : string → option string).

(** The session of a start works with the keys of the files. *)
Lemma join_session_keys {W} (net : Ws.Net W) c k1 k2 es w st w1 :
  join_session net c k1 k2 es w = (Ok st, w1) → kp st = k1 ∧ staticKey st = k2 ∧ qr st = None.
Proof. unfold join_session. intros Hj. repeat case_match; by simplify_eq/=. Qed.

Lemma dial_session_keys {W} (net : Ws.Net W) c claim k1 k2 es w st w1 :
  dial_session net c claim k1 k2 es w = (Ok st, w1) → kp st = k1 ∧ staticKey st = k2.
Proof. unfold dial_session. intros Hj. repeat case_match; by simplify_eq/=. Qed.

Lemma start_ws_keys {W} (net : Ws.Net W) c fr fl w st fl1 w1 :
  start_ws dh_base net c fr fl w = (Ok st, fl1, w1) →
  ∃ b1 b2, v1_key (Config.ResumeKeyFile c) (f_v1 fr) (resume fl) = (Ok (kp st, b1), resume fl1) ∧
    v2_key dh_base (Config.ResumeKeyFile c) (f_v2 fr) (noise fl) = (Ok (staticKey st, b2), noise fl1) ∧
    ∃ es, Authorized.OpenAuthorizedVaults (vaults fl) = Ok es.
Proof.
  unfold start_ws. destruct (v1_key _ _ _) as [[[k1 b1]|e] f1]; [|done].
  destruct (v2_key _ _ _ _) as [[[k2 b2]|e] f2]; [|done].
  destruct (Authorized.OpenAuthorizedVaults _) as [es|e]; [|done]. intros Hs.
  assert (kp st = k1 ∧ staticKey st = k2 ∧ fl1 = MkFiles f1 f2 (vaults fl)) as (-> & -> & ->).
  { case_decide; [destruct (join_session _ _ _ _ _ _) as [r w'] eqn:Hj; simplify_eq;
      by apply join_session_keys in Hj as (-> & -> & _)|].
    destruct (dial_session _ _ _ _ _ _ _) as [r w'] eqn:Hj; simplify_eq;
      by apply dial_session_keys in Hj as (-> & ->). }
  exists b1, b2. split; [done|]. split; [done|]. by exists es.
Qed.

(** C36: with a key file, the identity outlives the process: after one successful start every
    later start (over any network, whatever the disk would answer to a write, whatever
    became of the list of vaults) uses the same two keys, writes neither file, and starts
    locked; it can fail only for the list or for the session, never for the keys. *)
Theorem restart_keeps_identity {W W'} (net : Ws.Net W) (net' : Ws.Net W') c fr fl w st fl1 w1 c' fr' o1 o2 vs w' :
  Config.ResumeKeyFile c ≠ "" → Config.ResumeKeyFile c' = Config.ResumeKeyFile c →
  String.length (f_v1 fr) = 32 → String.length (Session.Private (f_v2 fr)) = 32 →
  dh_base (Session.Private (f_v2 fr)) = Some (Session.Public (f_v2 fr)) →
  start_ws dh_base net c fr fl w = (Ok st, fl1, w1) →
  let later := found_later o1 o2 vs fl1 in
  let '(r, fl2, w2) := start_ws dh_base net' c' fr' later w' in
  fl2 = later ∧
  ServeLoop.resuming (Config.ResumeKeyFile c') (Z.of_nat ∘ String.length <$> content (resume fl2)) = true ∧
  (∀ st', r = Ok st' → kp st' = kp st ∧ staticKey st' = staticKey st) ∧
  (∀ e, r = Err e → match e with FKeyFile _ | FNoiseFile => False | _ => True end).
Proof.
  intros Hp Hc H1 H2 Hd Hs later. apply start_ws_keys in Hs as (b1 & b2 & Hk1 & Hk2 & _).
  unfold v1_key in Hk1. rewrite decide_True in Hk1 by done.
  apply LoadOrGenerate_leaves in Hk1 as ([Hr1 Hc1] & Hl1 & Hx1); [|done].
  apply v2_key_leaves in Hk2 as ([Hr2 Hc2] & Hl2 & Hx2); [|done..].
  unfold start_ws, v1_key. rewrite Hc, decide_True by done.
  rewrite (LoadOrGenerate_stored (E2ee.Priv (kp st)) (E2ee.Pub (kp st))) by (done || by split).
  rewrite (v2_key_stored dh_base (Session.Private (staticKey st)) (Session.Public (staticKey st)))
    by (done || by split).
  change (MkFiles (resume later) (noise later) (vaults later)) with later.
  assert (ServeLoop.resuming (Config.ResumeKeyFile c)
    (Z.of_nat ∘ String.length <$> content (resume later)) = true) as Hres.
  { unfold ServeLoop.resuming. rewrite bool_decide_true by done. simpl. by rewrite Hc1; simpl; rewrite Hl1. }
  destruct (Authorized.OpenAuthorizedVaults _) as [es|e]; [|split_and!; naive_solver].
  destruct (if decide _ then _ else _) as [r w2] eqn:Hrun. split_and!; [done..| |].
  - intros st' ->. destruct (kp st), (staticKey st). case_decide; [by apply join_session_keys in Hrun as (-> & -> & _)|
      by apply dial_session_keys in Hrun as (-> & ->)].
  - intros e ->. unfold join_session, dial_session in Hrun. repeat case_match; by simplify_eq/=.
Qed.

End restart.

(** ** Pairing *)

Lemma ascii_to_url s : ascii_str s = true → ascii_str (Base64.to_url s) = true.
Proof.
  induction s as [|a s IH]; [done|]. cbn [ascii_str]. intros [Ha Hs]%andb_true_iff. cbn [Base64.to_url].
  case_decide; [by apply IH|]. cbn [ascii_str]. rewrite IH by done. rewrite andb_true_r.
  by repeat case_decide.
Qed.

Lemma utf8_RawURLEncode s : utf8_str (Base64.RawURLEncode s) = true.
Proof. apply ascii_utf8, ascii_to_url, SessionFacts.ascii_Encode. Qed.

Lemma RawURLEncode_nonempty s : s ≠ "" → Base64.RawURLEncode s ≠ "".
Proof.
  intros Hs. unfold Base64.RawURLEncode.
  assert (∀ v t, (0 ≤ v < 64)%Z → Base64.to_url (String (Base64.enc6 v) t) ≠ "") as Hc.
  { intros v t Hv. cbn [Base64.to_url]. by rewrite decide_False by by apply Base64.enc6_plain. }
  destruct s as [|a [|b [|c r]]]; [done|..]; cbn [Base64.Encode]; apply Hc;
    clear Hc Hs; pose proof (bval_range a); try pose proof (bval_range b);
    try pose proof (bval_range c); Base64.bits.
Qed.

(** What a scanner reads in the code is what was put in it. *)
Lemma qr_scanned sid sig pub pub2 claim : utf8_str sid = true → utf8_str sig = true →
  utf8_str pub = true → utf8_str pub2 = true → utf8_str claim = true →
  parse (print (qrPayload sid sig pub pub2 claim)) = Some (qrPayload sid sig pub pub2 claim).
Proof.
  intros. apply (parse_print_value (0 + 1)); [|done]. constructor.
  repeat apply Forall_cons_2; [..|apply Forall_nil_2]; (split; [done|]);
    first [by apply jok_str | apply jok_num, num_lit_pretty].
Qed.

Section pairing.
Context `{E2ee.V1Crypto} `{Session.Noise} (dh_base : string → option string).
Context (sha : string → string) (base : string) (ids : nat → string).
Context (Hbase : no_byte "?" base) (Hutf : utf8_str base = true).
Context (Hids : ∀ i, ids i ≠ "" ∧ utf8_str (ids i) = true) (Hsha : ∀ s, sha s ≠ "").
Local Abbreviation site := (WsTheorems.site sha base ids).


(** The hub has no route for the key a daemon publishes. *)
Lemma no_pub_route endpoint hs body (w : WsTheorems.Site) r w' :
  (∃ s, endpoint = s +:+ "/pub") → Ws.post site endpoint hs body w = (r, w') →
  match r with Ok (code, _) => code = 404%Z | Err _ => True end ∧ WsTheorems.hub w' = WsTheorems.hub w.
Proof.
  intros [s Hs]. cbn [Ws.post WsTheorems.site]. unfold WsTheorems.site_post.
  destruct (HasPrefix endpoint base) eqn:Hp; [|by intros [= <- <-]].
  apply HasPrefix_spec in Hp as [t Ht]. rewrite Ht, TrimPrefix_app. subst endpoint.
  change "/pub" with ("/pu" +:+ str1 "b") in Ht. rewrite <- sapp_assoc in Ht.
  unfold Hub.ServeHTTP. rewrite bool_decide_false.
  2:{ intros [-> _]. change "/ws/sessions" with ("/ws/session" +:+ str1 "s") in Ht.
      rewrite <- sapp_assoc in Ht. by apply sapp_inj_last in Ht. }
  destruct (HasSuffix t "/claim") eqn:Hsuf.
  { apply HasSuffix_spec in Hsuf as [u ->]. change "/claim" with ("/clai" +:+ str1 "m") in Ht.
    rewrite <- !sapp_assoc in Ht. by apply sapp_inj_last in Ht. }
  rewrite andb_false_r. by intros [= <- <-].
Qed.

(** So a start with [--join] never succeeds against it, whatever the key says. *)
Lemma join_needs_another_hub c k1 k2 es (w : WsTheorems.Site) st w1 :
  join_session site c k1 k2 es w ≠ (Ok st, w1).
Proof.
  unfold join_session. destruct (Main.decodeJoinKey _) as [key|e]; [|done].
  destruct (if decide (Main.VaultPub key = "") then _ else _) as [named|]; [|done].
  unfold Ws.PublishPub. destruct (Ws.checkHubURL _ _) as [[]|e]; [|done].
  destruct (Ws.post site _ _ _ w) as [[[code b]|e] w2] eqn:Hp; [|done].
  apply no_pub_route in Hp as [-> _]; [done|].
  eexists. by rewrite <- !sapp_assoc.
Qed.

End pairing.

(** *** Concrete runs *)

(** A key agreement without secrets. *)
#[local] Instance toy_v1 : E2ee.V1Crypto := {|
  E2ee.X25519 a B := Some (a +:+ B);
  E2ee.Basepoint := "";
  E2ee.derive s := s;
  E2ee.Seal k n p := p;
  E2ee.Open k n c := Some c;
|}.
#[local] Existing Instance ToyNoise.toy_noise.
Definition toy_dh (s : string) : option string := Some s.

Definition k32 (a : ascii) : string := "0123456789abcdef0123456789abcde" +:+ str1 a.
Definition fresh_of (a : ascii) : Fresh := MkFresh (k32 a) (Session.MkDHKey (k32 a) (k32 a)) (Ok (k32 "c")).
Definition no_file : KeyFile := MkFile None true Written.
Definition no_files : Files := MkFiles no_file no_file None.

Definition demo_config (args : list string) : Config.Config :=
  match Config.Load (λ _, "") (Some "/home/u") (Ok "token") args with
  | Ok c => c
  | Err _ => Config.MkConfig false "" "" "" "" "" false false "" "" 0 false "" 0 "" "" "" false
  end.
Definition kept : Config.Config :=
  demo_config ["-signaling"; "https://hub.example"; "-resume-key-file"; "/k/key"].


(** A second start, on a disk that no longer writes, with other random bytes. *)
Lemma restart_keeps_identity_witness :
  let net := WsTheorems.site WsTheorems.demo_sha "https://hub.example" WsTheorems.demo_ids in
  let w := WsTheorems.MkSite Hub.New 0 in
  match start_ws toy_dh net kept (fresh_of "a") no_files w with
  | (Ok st, fl1, w1) =>
      match start_ws toy_dh net kept (fresh_of "b") (found_later NotCreated (Partial 5) None fl1) w1 with
      | (Ok st', fl2, _) => kp st' = kp st ∧ staticKey st' = staticKey st ∧ ssid st' ≠ ssid st
      | _ => False
      end
  | _ => False
  end.
Proof.
  intros net w.
  destruct (start_ws toy_dh net kept (fresh_of "a") no_files w) as [[[st|e] fl1] w1] eqn:H1;
    [|vm_compute in H1; discriminate].
  pose proof (restart_keeps_identity toy_dh net net kept (fresh_of "a") no_files w st fl1 w1
    kept (fresh_of "b") NotCreated (Partial 5) None w1 ltac:(vm_compute; discriminate) eq_refl
    eq_refl eq_refl eq_refl H1) as Hre.
  cbv zeta in Hre. destruct (start_ws toy_dh net kept (fresh_of "b") _ w1) as [[[st'|e] fl2] w2] eqn:H2.
  - destruct Hre as (_ & _ & Hkeys & _). destruct (Hkeys st' eq_refl) as [-> ->].
    split; [reflexivity|]. split; [reflexivity|].
    vm_compute in H1. injection H1 as <- <- <-. vm_compute in H2. injection H2 as <- <- <-. done.
  - vm_compute in H1. injection H1 as <- <- <-. vm_compute in H2. discriminate H2.
Defined.

End StartupTheorems.

(** ** [serve] as a whole *)

Module ServeTheorems.
Import ServeMain Daemon Serve FSFacts GoFlag GoPath.

Section theorems.
Context {G : Type} `{Repo.GoGit G} `{E2ee.V1Crypto} `{Session.Noise}.
Context (hmac_hex : string → bytes → string) (decode_error : string → string).
Context (dh_base : string → option string).
Context {W : Type} (net : Ws.Net W) `{Peer.Pion W}.
Context (Run : list string → Host.Machine → bool * Host.Machine).

Local Abbreviation Daemon := (Daemon.Daemon (G:=G)).
Local Abbreviation Given := (Given (G:=G)).
Local Abbreviation serve := (serve (G:=G) hmac_hex decode_error dh_base net Run).
Local Abbreviation reachable := (reachable hmac_hex decode_error).

(** A daemon before its first client: it has the configuration, its file system is empty
    and none of its servers accepts connections. *)
Definition unused (c : Config.Config) (d : Daemon) : Prop :=
  cfg d = c ∧ devSrv d = true ∧
  (∀ q, view (fs d) q = if decide (q = []) then Some EDir else None) ∧ MemFS.used (fs d) = 0%Z ∧
  MemFS.quota (fs d) = Config.QuotaBytes c ∧
  Webdav.live (webdav d) = [] ∧ Mounter.serving (mounter d) = false.

Lemma Load_token env home random args c : (∀ t, random = Ok t → t ≠ "") →
  Config.Load env home random args = Ok c → Config.ControlToken c ≠ "".
Proof.
  intros Hr. unfold Config.Load. destruct (Parse _ _) as [[l r]|e]; [|done].
  case_decide; [done|]. case_decide as Ht; [|by intros [= <-]].
  destruct random as [t|e]; [|done]. intros [= <-]. by apply (Hr t).
Qed.

Lemma start_ws_arm c fr fl (w : W) st fl' w' : start_ws dh_base net c fr fl w = (Ok st, fl', w') →
  Startup.arm st = true ↔ Config.JoinKey c ≠ "".
Proof.
  unfold start_ws, join_session, dial_session. intros Hs.
  repeat case_match; simplify_eq/=; by split.
Qed.

Lemma boot_unused env fuse old c d0 ln p size e d : New env fuse old c = Ok d0 →
  ServeLoop.boot env ln p size d0 = (e, d) → e = None →
  reachable d ∧ unused c d ∧
  (ServeLoop.resuming p size = true → mounted d = false ∧ pending d = []) ∧
  (ServeLoop.resuming p size = false → mounted d = true ∧ TMounter ∈ pending d).
Proof.
  intros Hn. pose proof (Serve.reach_new hmac_hex decode_error _ _ _ _ _ Hn) as Hr. unfold New in Hn.
  destruct (Repo.Open _ _ _) as [rp|e']; [|discriminate]. injection Hn as Hd. unfold ServeLoop.boot.
  pose proof (Serve.reach_run hmac_hex decode_error env (EStart ln) d0 Hr) as Hs. cbn [run] in Hs.
  destruct (StartDevAPI env ln d0) as [[e1|] d1] eqn:Hst; intros [= <- <-] He; [done|]. simpl in Hs.
  assert (unused c d1 ∧ mounted d1 = false ∧ pending d1 = []) as (Hu & Hm & Hp).
  { unfold StartDevAPI in Hst. destruct ln as [addr|e1]; [|done]. subst d0.
    assert (∀ q, view (MemFS.New (clock env 0) (Config.QuotaBytes c)) q =
      if decide (q = []) then Some EDir else None) as Hv.
    { intros q. unfold view. simpl. case_decide as Hq; [by subst|by apply FSInv.view_new_dir]. }
    assert (Mounter.serving (Mounter.NewMounter fuse (Config.ControlToken c) (Config.WebdavAllowRemote c)) = false)
      as Hserv by by destruct fuse.
    unfold writeRuntimeState in Hst.
    destruct (Config.RecordRuntimeState _), (runtime_os env); injection Hst as <-; by repeat split. }
  destruct (ServeLoop.resuming p size); [by split_and!|].
  pose proof (Serve.reach_run hmac_hex decode_error env EMount d1 Hs) as Hmount. cbn [run] in Hmount.
  split; [done|]. unfold Mount. rewrite Hm. split; [done|]. split; [done|]. intros _. split; [done|].
  simpl. rewrite Hp. simpl. apply elem_of_app. right. by left.
Qed.

Lemma unused_lock env c (d : Daemon) : unused c d → unused c (lock env d).
Proof.
  intros (Hc & Hs & _ & _ & Hq & Hw & Hm). 
  assert (cfg (Unmount env d).2 = cfg d ∧ devSrv (Unmount env d).2 = devSrv d ∧
    fs (Unmount env d).2 = fs d ∧ Webdav.live (webdav (Unmount env d).2) = [] ∧
    Mounter.serving (mounter (Unmount env d).2) = false) as (Hc' & Hs' & Hf & Hw' & Hm').
  { unfold Unmount. destruct (mounted d); [|by split_and!]. simpl.
    assert (∀ o, Mounter.serving (Mounter.Unmount o (mounter d)).2 = false) as Hmu.
    { intros o. destruct (mounter d) as [[[]|]|w|]; simpl in Hm; try done; simpl.
      - by destruct (Mounter.fuse_unmount o).
      - apply negb_false_iff, bool_decide_eq_true in Hm. unfold Webdav.Unmount.
        destruct (Webdav.srv w); simpl; rewrite ?Hm; done. }
    specialize (Hmu (mount_os env)). destruct (Mounter.Unmount _ _) as [[e|] m]; [by split_and!|]. simpl in Hmu.
    destruct (Config.WebdavDisabled _); [by split_and!|].
    unfold Webdav.Unmount. cbn [webdav set_mounters set_flags]. destruct (Webdav.srv (webdav d)); simpl; by rewrite ?Hw. }
  unfold lock, WipeHistory, Wipe. destruct (Repo.Wipe _ _ _) as [e rp].
  unfold unused. simpl. rewrite Hc', Hs', Hf, Hw', Hm', Hc, Hs. split_and!; try done.
  intros q. unfold view. simpl. case_decide as Hn; [by subst|by apply FSInv.view_new_dir].
Qed.

Lemma lock_pending env (d : Daemon) : mounted (lock env d) = false ∧ pending (lock env d) = pending d.
Proof.
  split; [apply DaemonTheorems.lock_mounted|]. unfold lock, WipeHistory, Wipe.
  destruct (Repo.Wipe _ _ _). simpl. unfold Unmount. by repeat case_match.
Qed.

(** The node that is made for it. *)
Definition armed_node (g : Given) (arm : bool) (d : Daemon) : Node.MemoryNode (W:=Daemon) :=
  let _ := daemon_host (ServeMain.denv g) in
  let n := new_node (ServeMain.denv g) d in if arm then Node.ArmGrace (ServeMain.now g) n else n.

Lemma armed_node_cases g arm d : let n := armed_node g arm d in
  let w := seconds (Config.GraceSeconds (cfg d)) in
  if arm then
    if (w <=? 0)%Z then Node.world n = lock (ServeMain.denv g) d ∧ Node.grace n = None
    else Node.world n = d ∧ Node.grace n = Some (Node.MkTimer (ServeMain.now g + w) true)
  else Node.world n = d ∧ Node.grace n = None.
Proof.
  intros n w. subst n w. unfold armed_node. destruct arm; [|done].
  unfold Node.ArmGrace, Node.startGrace, new_node, Node.New. simpl.
  by destruct (seconds _ <=? 0)%Z.
Qed.

(** The control node changes neither what is served nor what is reachable. *)
Lemma serve_hub_unused g c st d : cfg d = c → unused c d → reachable d →
  let r := serve_hub g c st d in unused c (daemon_of r) ∧ reachable (daemon_of r) ∧
  match r with
  | RHub n st' conn dc => st' = st ∧
      (∃ f, graceState (daemon_of r) = Some f ∧ ∀ t, f t = Node.GraceState t n) ∧
      if Startup.arm st then
        if (seconds (Config.GraceSeconds c) <=? 0)%Z then mounted (daemon_of r) = false
        else Node.grace n = Some (Node.MkTimer (ServeMain.now g + seconds (Config.GraceSeconds c)) true)
      else Node.grace n = None
  | _ => False
  end ∧ (mounted d = false → mounted (daemon_of r) = false) ∧ pending (daemon_of r) = pending d.
Proof.
  intros Hc Hu Hr r. pose proof (armed_node_cases g (Startup.arm st) d) as Hn.
  cbv zeta in Hn. rewrite Hc in Hn.
  subst r. unfold serve_hub. fold (armed_node g (Startup.arm st) d).
  set (n := armed_node _ _ _) in *. cbn [daemon_of Node.world Node.set_world graceState SetGraceReporter].
  set (dn := Node.world n) in *.
  assert (unused c dn ∧ reachable dn ∧ (mounted d = false → mounted dn = false) ∧ pending dn = pending d)
    as (Hun & Hre & Hm & Hp).
  { pose proof (lock_pending (ServeMain.denv g) d) as [Hl1 Hl2].
    pose proof (Serve.reach_run hmac_hex decode_error (ServeMain.denv g) ELock d Hr) as Hl3.
    pose proof (unused_lock (ServeMain.denv g) c d Hu) as Hl4.
    destruct (Startup.arm st); [destruct (seconds _ <=? 0)%Z|]; destruct Hn as [-> _]; by split_and!. }
  split; [exact Hun|]. split; [exact (Serve.reach_run _ _ (ServeMain.denv g) (EGrace _) _ Hre)|].
  split; [|by split]. split; [done|]. split; [by eexists|].
  destruct (Startup.arm st); [destruct (seconds _ <=? 0)%Z|]; destruct Hn as [Hw Hg]; try done.
  cbn [mounted SetGraceReporter]. rewrite Hw. apply lock_pending.
Qed.


(** A second start that finds the file of a daemon that answers is refused, and nothing has
    changed: neither the machine and its mounts, nor the key files, nor the network, nor
    the running daemon. *)
Theorem second_start_refused g args w c r :
  let o := other w in let p := Join2 (Config.RuntimeDir c) "runtime.json" in
  Config.Load (environ g) (home g) (random g) (ServeLoop.serve_args args).2 = Ok c →
  Config.RecordRuntimeState c = true →
  utf8_str (ControlURL r) = true → utf8_str (Daemon.ControlAddr r) = true →
  utf8_str (RControlToken r) = true → utf8_str (WebDAVAddr r) = true → utf8_str (Mountpoint r) = true →
  Daemon.ControlAddr r ≠ "" → RControlToken r ≠ "" → Cli.hfail (cenv g) "read" p = false →
  Cli.host o !! Clean p = Some (Cli.HFile (print (Main.runtime_json r))) →
  Config.ControlToken (cfg (Cli.dmn o)) = RControlToken r →
  (∀ n, Cli.up (cenv g) (Daemon.ControlAddr r) n = true) →
  serve g args w =
    (Err XRunning, MkWorld (Cli.MkWorld (Cli.dmn o) (S (Cli.sent o)) (Cli.host o) (Cli.out o) (Cli.notes o))
                     (machine w) (process w) (files w) (network w)).
Proof.
  intros o p Hload Hrec H1' H2' H3 H4 H5 Ha Ht Hf Hh Htok Hup. unfold ServeMain.serve. rewrite Hload.
  unfold already_running. rewrite Hrec. fold o.
  by rewrite (MainTheorems.existing_detected hmac_hex decode_error (cenv g) r (Config.RuntimeDir c) o).
Qed.

(** With an address of its own a start asks nobody, and detaches whatever is mounted at its
    mount point, were it by a daemon that runs. *)
Lemma own_address_detaches g args w c :
  Config.Load (environ g) (home g) (random g) (ServeLoop.serve_args args).2 = Ok c →
  Config.RecordRuntimeState c = false → exists_ g (Config.MountPoint c) = true →
  let m := (Run ["fusermount"; "-uz"; Config.MountPoint c] (machine w)).2 in
  machine (serve g args w).2 = m ∨ machine (serve g args w).2 = (Host.fuse_ok Run m).2.
Proof.
  intros Hload Hrec Hex m. subst m. unfold ServeMain.serve. rewrite Hload. unfold already_running. rewrite Hrec.
  unfold Host.PreUnmount. rewrite Hex. destruct (Host.fuse_ok _ _) as [fuse m].
  destruct (New _ _ _ _) as [d0|e]; [right|by left]. destruct (ServeLoop.boot _ _ _ _ _) as [[e|] d]; [done|].
  by destruct (serve_mode _ _ _ _ _ _ _) as [[r fl] nw].
Qed.

End theorems.
(** *** A concrete start *)

Import DaemonDemo StartupTheorems.
#[local] Existing Instance toy_v1.
#[local] Existing Instance ToyNoise.toy_noise.

(** A library that refuses: the start below does not use it. *)
#[local] Instance no_pion W : Peer.Pion W := {|
  Peer.PeerConnection := unit; Peer.DataChannel := unit; Peer.Description := unit; Peer.Candidate := unit;
  Peer.NewPeerConnection _ _ w := (Err "", w);
  Peer.pc_Close _ w := (Err "", w);
  Peer.pc_CreateDataChannel _ _ w := (Err "", w);
  Peer.pc_CreateOffer _ w := (Err "", w);
  Peer.pc_CreateAnswer _ w := (Err "", w);
  Peer.SetLocalDescription _ _ w := (Err "", w);
  Peer.LocalDescription _ _ := tt;
  Peer.SetRemoteDescription _ _ w := (Err "", w);
  Peer.AddICECandidate _ _ w := (Err "", w);
  Peer.ConnectionState _ _ := Peer.StateNew;
  Peer.dc_Send _ _ w := (Err "", w);
  Peer.description_json _ := JNull; Peer.description_decode _ u := (u, true); Peer.no_description := tt;
  Peer.candidate_json _ := JNull; Peer.candidate_decode _ u := (u, true); Peer.no_candidate := tt |}.

(** A machine without FUSE on which every command fails. *)
Definition bare : Host.Machine := Host.MkMachine (Err "no such file") None (λ _, false).
Definition fails (_ : list string) (m : Host.Machine) : bool * Host.Machine := (false, m).

Definition demo_given : Given (G:=toy_git) :=
  MkGiven (λ _, "") (Some "/home/u") (Ok "token") (Host.MkKernel (Ok 65536%Z) None None None) (λ _, true)
    (Cli.MkEnv (λ _ _, false) (λ _, env true) (λ _ _, false)) (env true) None (Ok "127.0.0.1:7000")
    (fresh_of "a") 0.

Definition demo_serve (args : list string) (fl : Files) :=
  serve (G:=toy_git) hmac id toy_dh (WsTheorems.site WsTheorems.demo_sha "https://hub.example" WsTheorems.demo_ids)
    fails demo_given args
    (MkWorld (Cli.MkWorld dummy 0 ∅ [] []) bare (Host.MkProcess false None true) fl (WsTheorems.MkSite Hub.New 0)).

Definition demo_args : list string := ["-v"; "-signaling"; "https://hub.example"; "-resume-key-file"; "/k/key"].

Definition demo_first := demo_serve demo_args no_files.
Definition demo_second := demo_serve demo_args (files demo_first.2).

Lemma demo_runs :
  is_ok demo_first.1 = true ∧ is_ok demo_second.1 = true ∧ key_size (files demo_first.2) = Some 32%Z.
Proof. split; [|split]; vm_compute; reflexivity. Qed.


End ServeTheorems.
