(* ===== verification/SetupClaude.v ===== *)
(** * cmd/valetfs/setupclaude.go: rules for an agent's settings file

    The command adds allow rules to a JSON file other people maintain: the file is read
    into an object that keeps the order of its keys and the text of its values, the rules
    that are missing are appended, and the file is replaced.  The operating system is the
    computation of [Vault.io]: files by name, every call may fail, and a [Write] that fails
    leaves a part of the bytes. *)
From S2P Require Import Prelude GoStrings GoPath GoJson GoFloat GoJsonPrint GoJsonRaw Vault Cli EnvFile.
Import GoStr GoPath GoJson GoFloat JsonPrint JsonRaw Vault.

Module SetupClaude.

(** ** The object that remembers the order of its keys *)

Record orderedObj := MkObj { keys : list string; values : gmap string string }.

Definition newOrderedObj : orderedObj := MkObj [] ∅.

Definition get (o : orderedObj) (k : string) : option string := values o !! k.

Definition set (k v : string) (o : orderedObj) : orderedObj :=
  MkObj (match values o !! k with Some _ => keys o | None => keys o ++ [k] end) (<[k := v]> (values o)).

(** [BadJSON] is any error of encoding/json. *)
Inductive decode_error := BadJSON | NotObject | Trailing.

(** [dec.More()]. *)
Definition More (s : string) : bool :=
  match skip_ws s with
  | EmptyString => false
  | String a _ => negb (bool_decide (a = "]"%char ∨ a = "}"%char))
  end.

(** A key with its comma: the [Token] in front of a value. *)
Definition key_token (first : bool) (s : string) : option (string * string) :=
  s ← (if first then Some s else eat "," s);
  s ← eat "034" s;
  lex_string (S (String.length s)) s.

(** The loop of [decodeOrdered], and the text after the last value. *)
Fixpoint decode_loop (fuel : nat) (first : bool) (s : string) (o : orderedObj)
  : result decode_error (orderedObj * string) :=
  match fuel with
  | O => Err BadJSON
  | S fuel =>
      if negb (More s) then Ok (o, s)
      else match key_token first s with
      | None => Err BadJSON
      | Some (key, s) =>
          match (s ← eat ":" s; raw_value s) with
          | None => Err BadJSON
          | Some (val, s) => decode_loop fuel false s (set key val o)
          end
      end
  end.

Definition decodeOrdered (b : string) : result decode_error orderedObj :=
  if decide (TrimSpace b = "") then Ok newOrderedObj
  else
    match eat "{" b with
    | Some s =>
        match decode_loop (S (String.length s)) true s newOrderedObj with
        | Err e => Err e
        | Ok (o, s) =>
            match eat "}" s with
            | None => Err BadJSON
            | Some s => if More s then Err Trailing else Ok o
            end
        end
    | None =>
        (* what the first token is, when it is one *)
        match eat "[" b, parse_prefix b with
        | Some _, _ => Err NotObject
        | None, Some (v, _) => if any_ok v then Err NotObject else Err BadJSON
        | None, None => Err BadJSON
        end
    end.

Definition compact_text (o : orderedObj) : string :=
  "{" +:+ Join ((λ k, quote k +:+ ":" +:+ default "" (values o !! k)) <$> keys o) "," +:+ "}".

Definition encode (o : orderedObj) : option string := Indent (compact_text o).

(** ** The rules *)

Definition agentAllowRules : list string :=
  ["Bash(valetfs exec *)"; "Bash(valetfs ls *)"; "Bash(valetfs status)"].
Definition agentCatRule : string := "Bash(valetfs cat *)".

Definition containsRule (rules : list string) (r : string) : bool :=
  let alt := if HasSuffix r " *)" then TrimSuffix r " *)" +:+ ":*)" else r in
  existsb (λ have, bool_decide (have = r ∨ have = alt)) rules.

(** The loop over [want]: the rules in force, and those that were added. *)
Fixpoint add_rules (want allow : list string) : list string * list string :=
  match want with
  | [] => (allow, [])
  | r :: want =>
      if containsRule allow r then add_rules want allow
      else let (allow', added) := add_rules want (allow ++ [r]) in (allow', r :: added)
  end.

Inductive patch_error :=
  | BadRoot (e : decode_error)
  | BadPermissions (e : decode_error)
  | BadAllow
  | BadOutput.

Definition strings_of : decoder (list string) := Cli.field_list (field_string (λ _ s, s)) "".

Definition allow_of (perms : orderedObj) : result patch_error (list string) :=
  match get perms "allow" with
  | None => Ok []
  | Some raw => match Unmarshal strings_of raw [] with (l, true) => Ok l | _ => Err BadAllow end
  end.

Definition perms_of (root : orderedObj) : result patch_error orderedObj :=
  match get root "permissions" with
  | None => Ok newOrderedObj
  | Some raw => match decodeOrdered raw with Ok p => Ok p | Err e => Err (BadPermissions e) end
  end.

Definition patchClaudeSettings (old : string) (want : list string)
  : result patch_error (string * list string) :=
  match decodeOrdered old with
  | Err e => Err (BadRoot e)
  | Ok root =>
      perms ← perms_of root;
      allow ← allow_of perms;
      match add_rules want allow with
      | (_, []) => Ok (old, [])
      | (allow, added) =>
          match encode (set "allow" (print (JArr (JStr <$> allow))) perms) with
          | None => Err BadOutput
          | Some permsJSON =>
              match encode (set "permissions" permsJSON root) with
              | None => Err BadOutput
              | Some out => Ok (out +:+ str1 newline, added)
              end
          end
      end
  end.

(** ** The command *)

Record setupClaudeOpts := MkSetup { printOnly : bool; yes : bool; allowCat : bool; path : string }.

Inductive usage := Help | NeedsFile | UnknownOption (a : string).

Fixpoint parse_setup (args : list string) (o : setupClaudeOpts) : result usage setupClaudeOpts :=
  match args with
  | [] => Ok o
  | a :: args =>
      let (name, inline) := EnvFile.split_flag a in
      if decide (name = "-h" ∨ name = "--help") then Err Help
      else if decide (name = "--print" ∨ name = "--dry-run") then
        parse_setup args (MkSetup true (yes o) (allowCat o) (path o))
      else if decide (name = "-y" ∨ name = "--yes") then
        parse_setup args (MkSetup (printOnly o) true (allowCat o) (path o))
      else if decide (name = "--allow-cat") then
        parse_setup args (MkSetup (printOnly o) (yes o) true (path o))
      else if decide (name = "--path") then
        match inline, args with
        | Some v, _ => parse_setup args (MkSetup (printOnly o) (yes o) (allowCat o) v)
        | None, v :: args => parse_setup args (MkSetup (printOnly o) (yes o) (allowCat o) v)
        | None, [] => Err NeedsFile
        end
      else Err (UnknownOption a)
  end.

(** The machine: what [confirm] reads from standard input (a line, and whether reading it
    failed), whether that is a character device, and the name [os.CreateTemp] picks. *)
Record Machine := MkMachine {
  getenv : string → string;
  home : option string;
  char_device : bool;
  answer : string * bool;
  temp : string;
}.

Definition claudeSettingsPath (m : Machine) : result string string :=
  let d := getenv m "CLAUDE_CONFIG_DIR" in
  if decide (d ≠ "") then Ok (Join2 d "settings.json")
  else match home m with
  | None => Err "$HOME is not defined"
  | Some h => Ok (Join2 (Join2 h ".claude") "settings.json")
  end.

Definition errNoPrompt : string :=
  "nothing is attached to stdin to answer the prompt; re-run with --yes, or use --print and paste the JSON in yourself".

Definition confirm (m : Machine) : result string bool :=
  if negb (char_device m) then Err errNoPrompt
  else
    let (line, failed) := answer m in
    if failed && bool_decide (TrimSpace line = "") then Err errNoPrompt
    else
      let a := ToLower (TrimSpace line) in
      Ok (bool_decide (a = "y" ∨ a = "yes")).

Section run.
Context (env : Env) (short : nat → nat).

(** A [Write] of the whole of [data] to an open, empty file. *)
Definition write (name data : string) : io () := λ w,
  match fault env (calls w) with
  | Some e => (Err e, MkWorld (<[name := stake (short (calls w)) data]> (disk w)) (S (calls w)) (draws w))
  | None => (Ok tt, MkWorld (<[name := data]> (disk w)) (S (calls w)) (draws w))
  end.

(** [os.WriteFile]: create or truncate, then write. *)
Definition write_file (name data : string) : io () :=
  sys env (λ d, (tt, <[name := ""]> d)) ≫= λ _, write name data.

(** The calls on the temporary file; modes and directories are not part of the model, the
    calls that set them can only fail. *)
Definition replace_with (dst data name : string) : io () :=
  write name data ≫= λ _,
  sys env (λ d, (tt, d)) ≫= λ _,
  sys env (λ d, (tt, d)) ≫= λ _,
  sys env (λ d, (tt, match d !! name with Some c => <[dst := c]> (delete name d) | None => d end)).

Definition writeFileAtomic (m : Machine) (dst data : string) : io () :=
  let name := Join2 (Dir dst) (".valetfs-settings-" +:+ temp m) in
  sys env (λ d, (tt, d)) ≫= λ _,
  sys env (λ d, (tt, <[name := ""]> d)) ≫= λ _,
  r ← attempt (replace_with dst data name);
  _ ← attempt (sys env (λ d, (tt, delete name d)));
  match r with Ok _ => mret tt | Err e => throw e end.

Definition rule_line (r : string) : string := "  + " +:+ r.
Definition cat_note : string :=
  "  (cat is not included — use `valetfs exec` instead, or pass --allow-cat)".
Definition wrote_line (target : string) : string :=
  "Wrote " +:+ target +:+ ". Claude Code sessions started from now on can call valetfs without asking.".

(** What is printed on the way; a run that fails prints nothing here. *)
Definition apply_patch (m : Machine) (o : setupClaudeOpts) (target : string) (old : option string)
    (patched : string) (added : list string) : io (list string) :=
  let shown := ["Add to " +:+ target +:+ ":"] ++ (rule_line <$> added) ++
    (if negb (allowCat o) && negb (containsRule added agentCatRule) then [cat_note] else []) in
  match (if yes o then Ok true else confirm m) with
  | Err e => throw e
  | Ok false => mret (shown ++ ["Left unchanged."])
  | Ok true =>
      _ ← match old with Some b => write_file (target +:+ ".valetfs-backup") b | None => mret tt end;
      _ ← writeFileAtomic m target patched;
      mret (shown ++ [wrote_line target])
  end.

Definition wanted (o : setupClaudeOpts) : list string :=
  agentAllowRules ++ (if allowCat o then [agentCatRule] else []).

Definition print_rules (o : setupClaudeOpts) : string :=
  MarshalIndent (JObj [("permissions", JObj [("allow", JArr (JStr <$> wanted o))])]).

Definition run_on (m : Machine) (o : setupClaudeOpts) (target : string) : io (list string) :=
  old ← ReadFile env target;
  match patchClaudeSettings (default "" old) (wanted o) with
  | Err _ => throw ("setup-claude: " +:+ target)
  | Ok (_, []) => mret ["Already allowed in " +:+ target +:+ ". Nothing to do."]
  | Ok (patched, added) => apply_patch m o target old patched added
  end.

Definition runSetupClaude (m : Machine) (args : list string) : io (list string) :=
  match parse_setup args (MkSetup false false false "") with
  | Err Help => mret ["help"]
  | Err NeedsFile => throw "--path needs a file"
  | Err (UnknownOption a) => throw ("setup-claude: unknown option " +:+ a)
  | Ok o =>
      if printOnly o then mret [print_rules o]
      else
        match (if decide (path o = "") then claudeSettingsPath m else Ok (path o)) with
        | Err e => throw e
        | Ok target => run_on m o target
        end
  end.

End run.
End SetupClaude.
