(* ===== verification/SetupClaudeProps.v ===== *)
(** * cmd/valetfs/setupclaude.go: what happens to a settings file

    IoLogic is the program logic of computations over a directory whose calls may fail. *)
From S2P Require Import Prelude Vault GoStrings GoPath GoJson GoUtf8 GoFloat GoJsonPrint GoJsonRaw GoJsonText Cli EnvFile SetupClaude.
Import Vault.

Module IoLogic.

Definition triple {A} (P : Disk → Prop) (c : io A) (Q : result string A → Disk → Prop) : Prop :=
  ∀ w r w', P (disk w) → c w = (r, w') → Q r (disk w').

Lemma triple_conseq {A} (P P' : Disk → Prop) (Q Q' : result string A → Disk → Prop) c :
  triple P' c Q' → (∀ d, P d → P' d) → (∀ r d, Q' r d → Q r d) → triple P c Q.
Proof. intros H HP HQ w r w' Hw Hc. by eapply HQ, H, Hc; apply HP. Qed.

Lemma triple_pre {A} (P P' : Disk → Prop) (Q : result string A → Disk → Prop) c :
  triple P' c Q → (∀ d, P d → P' d) → triple P c Q.
Proof. intros H HP. by eapply triple_conseq. Qed.

Lemma triple_ret {A} (a : A) P : triple P (mret a) (λ r d, r = Ok a ∧ P d).
Proof. intros w r w' Hw [= <- <-]. done. Qed.

Lemma triple_throw {A} e P : triple P (throw (A:=A) e) (λ r d, r = Err e ∧ P d).
Proof. intros w r w' Hw [= <- <-]. done. Qed.

(** A step and what follows it; a failure of the step ends the whole. *)
Lemma triple_bind {A B} P (c : io A) (k : A → io B) R Q :
  triple P c R → (∀ a, triple (R (Ok a)) (k a) Q) → (∀ e d, R (Err e) d → Q (Err e) d) →
  triple P (c ≫= k) Q.
Proof.
  intros Hc Hk He w r w' Hw. unfold mbind, io_bind. destruct (c w) as [[a|e] w1] eqn:Hrun.
  - intros Hk'. by eapply (Hk a w1); [exact (Hc _ _ _ Hw Hrun)|].
  - intros [= <- <-]. by eapply He, (Hc _ _ _ Hw Hrun).
Qed.

(** A call: nothing has happened when it failed. *)
Lemma triple_sys {A} env (f : Disk → A * Disk) (P : Disk → Prop) (Q : result string A → Disk → Prop) :
  (∀ d, P d → Q (Ok (f d).1) (f d).2) → (∀ e d, P d → Q (Err e) d) → triple P (sys env f) Q.
Proof.
  intros H1 H2 w r w' Hw. unfold sys. destruct (fault env (calls w)); [intros [= <- <-]; by apply H2|].
  specialize (H1 _ Hw). destruct (f (disk w)) as [a d]. intros [= <- <-]. exact H1.
Qed.

Lemma triple_attempt {A} P (c : io A) Q :
  triple P c Q → triple P (attempt c) (λ r d, ∃ r', r = Ok r' ∧ Q r' d).
Proof.
  intros H w r w' Hw. unfold attempt. destruct (c w) as [r1 w1] eqn:Hc. intros [= <- <-]. eauto.
Qed.

Lemma triple_or {A} (P : Disk → Prop) (c : io A) Q1 Q2 :
  triple P c Q1 → triple P c Q2 → triple P c (λ r d, Q1 r d ∧ Q2 r d).
Proof. intros H1 H2 w r w' Hw Hc. split; eauto. Qed.

End IoLogic.

Import GoStr GoPath GoJson UTF8 GoFloat JsonPrint JsonRaw JsonText Vault IoLogic SetupClaude.

Module SetupClaudeTheorems.

(** ** Trimming keeps what can be seen *)

Fixpoint has_graph (s : string) : bool :=
  match s with EmptyString => false | String a r => graph a || has_graph r end.

Lemma has_graph_app a b : has_graph (a +:+ b) = has_graph a || has_graph b.
Proof. induction a as [|c a IH]; [done|]. rewrite sapp_cons. simpl. by rewrite IH, orb_assoc. Qed.

Lemma blanks_unseen w : w ∈ unicode_spaces → has_graph w = false.
Proof.
  assert (Forall (λ w, has_graph w = false) unicode_spaces) as H by by repeat constructor.
  rewrite Forall_forall in H. apply H.
Qed.

Lemma leading_unseen s n : leading_space s = Some n → has_graph (sdrop n s) = has_graph s.
Proof.
  unfold leading_space. destruct (head (filter _ _)) as [w|] eqn:Hw; [|done]. intros [= <-].
  assert (w ∈ filter (λ w, HasPrefix s w = true) unicode_spaces) as Hin
    by (destruct (filter _ unicode_spaces); simplify_eq/=; by left).
  apply list_elem_of_filter in Hin as [[t ->]%HasPrefix_spec Hin].
  by rewrite sdrop_app, has_graph_app, (blanks_unseen w).
Qed.

Lemma trailing_unseen s n : trailing_space s = Some n →
  has_graph (stake (String.length s - n) s) = has_graph s.
Proof.
  unfold trailing_space. destruct (head (filter _ _)) as [w|] eqn:Hw; [|done]. intros [= <-].
  assert (w ∈ filter (λ w, HasSuffix s w = true) unicode_spaces) as Hin
    by (destruct (filter _ unicode_spaces); simplify_eq/=; by left).
  apply list_elem_of_filter in Hin as [[t ->]%HasSuffix_spec Hin].
  rewrite length_sapp, Nat.add_sub, stake_app, has_graph_app, (blanks_unseen w) by done. by rewrite orb_false_r.
Qed.

Lemma TrimSpace_unseen s : TrimSpace s = "" → has_graph s = false.
Proof.
  assert (∀ n s, has_graph (trim_left_fuel n s) = has_graph s) as Hl.
  { induction n as [|n IH]; intros t; [done|]. cbn [trim_left_fuel].
    destruct (leading_space t) eqn:E; [|done]. rewrite IH. by apply leading_unseen. }
  assert (∀ n s, has_graph (trim_right_fuel n s) = has_graph s) as Hr.
  { induction n as [|n IH]; intros t; [done|]. cbn [trim_right_fuel].
    destruct (trailing_space t) eqn:E; [|done]. rewrite IH. by apply trailing_unseen. }
  intros H. apply (f_equal has_graph) in H. unfold TrimSpace in H. by rewrite Hr, Hl in H.
Qed.

(** ** Objects *)

(** A member of an object, set in place or appended. *)
Definition assoc_set (k : string) (v : json) (l : list (string * json)) : list (string * json) :=
  if decide (k ∈ l.*1) then (λ kv, (kv.1, if decide (kv.1 = k) then v else kv.2)) <$> l else l ++ [(k, v)].

(** The members of a JSON object as a reader of the file sees them: a repeated key stands
    where it first was, with its last value. *)
Definition merged (l : list (string * json)) : list (string * json) :=
  fold_left (λ acc kv, assoc_set kv.1 kv.2 acc) l [].

Definition member_of (k : string) (l : list (string * json)) : option json :=
  (list_to_map l : gmap string json) !! k.

Lemma assoc_set_keys k v l : (assoc_set k v l).*1 = if decide (k ∈ l.*1) then l.*1 else l.*1 ++ [k].
Proof.
  unfold assoc_set. case_decide; [|by rewrite fmap_app].
  rewrite <- list_fmap_compose. by apply list_fmap_ext.
Qed.

Lemma assoc_set_NoDup k v l : NoDup l.*1 → NoDup (assoc_set k v l).*1.
Proof.
  intros H. rewrite assoc_set_keys. case_decide as Hk; [done|]. apply NoDup_app. split; [done|].
  split; [set_solver|apply NoDup_singleton].
Qed.

Lemma member_of_set k v l k' : NoDup l.*1 →
  member_of k' (assoc_set k v l) = if decide (k' = k) then Some v else member_of k' l.
Proof.
  intros Hnd. apply option_eq. intros j. unfold member_of.
  rewrite <- elem_of_list_to_map by by apply assoc_set_NoDup.
  unfold assoc_set. case_decide as Hin.
  - rewrite list_elem_of_fmap. case_decide as Hk.
    + subst k'. split.
      * intros ([k2 v2] & [= -> ->] & _). by rewrite decide_True.
      * intros [= <-]. apply list_elem_of_fmap in Hin as ([k2 v2] & -> & Hin). exists (k2, v2).
        simpl. by rewrite decide_True.
    + rewrite <- elem_of_list_to_map by done. split.
      * intros ([k2 v2] & [= -> ->] & H). by rewrite decide_False by done.
      * intros H. exists (k', j). simpl. by rewrite decide_False by done.
  - rewrite elem_of_app, list_elem_of_singleton. case_decide as Hk.
    + subst k'. split; [|by intros [= <-]; right]. intros [H|[= ->]]; [|done].
      exfalso. apply Hin. apply list_elem_of_fmap. by exists (k, j).
    + rewrite <- elem_of_list_to_map by done. split; [|by left]. intros [H|[= -> ->]]; done.
Qed.

(** The object [o] holds the members [l], each value as some text of it. *)
Record spells (o : orderedObj) (l : list (string * json)) : Prop := {
  spells_keys : keys o = l.*1;
  spells_NoDup : NoDup l.*1;
  spells_text : Forall (λ k, coerce k = k) l.*1;
  spells_values k : match member_of k l, values o !! k with
                    | Some v, Some t => text t v
                    | None, None => True
                    | _, _ => False
                    end;
}.

Lemma spells_nil : spells newOrderedObj [].
Proof. split; try done; constructor. Qed.

Lemma member_of_None k l : member_of k l = None ↔ k ∉ l.*1.
Proof. unfold member_of. by rewrite not_elem_of_list_to_map. Qed.

Lemma spells_set o l k t v : spells o l → text t v → coerce k = k →
  spells (set k t o) (assoc_set k v l).
Proof.
  intros [Hk Hnd Ht Hv] Htext Hc. split.
  - cbn [set keys]. rewrite assoc_set_keys, Hk. specialize (Hv k).
    destruct (member_of k l) eqn:Hm, (values o !! k); try done.
    + rewrite decide_True; [done|]. destruct (decide (k ∈ l.*1)) as [|Hn]; [done|].
      apply member_of_None in Hn. congruence.
    + rewrite decide_False; [done|]. by apply member_of_None.
  - by apply assoc_set_NoDup.
  - rewrite assoc_set_keys. case_decide; [done|]. apply Forall_app. split; [done|by repeat constructor].
  - intros k'. rewrite member_of_set by done. cbn [set values]. case_decide as Hkk.
    + subst k'. by rewrite lookup_insert_eq.
    + rewrite lookup_insert_ne by done. apply Hv.
Qed.

(** The compact text of an object is a text of it. *)
Lemma compact_spells o l : spells o l → text (compact_text o) (JObj l).
Proof.
  intros [Hk Hnd Ht Hv]. unfold compact_text. rewrite Hk, <- list_fmap_compose.
  destruct l as [|kv l]; [by apply (text_obj_nil "")|]. constructor.
  rewrite <- (list_fmap_id (kv :: l)) at 2. apply mems_Join. intros [k v] Hin. cbn [compose fst id].
  assert (member_of k (kv :: l) = Some v) as Hm by by apply elem_of_list_to_map.
  specialize (Hv k). rewrite Hm in Hv. destruct (values o !! k) as [t|]; [|done]. cbn [default].
  assert (coerce k = k) as Hc.
  { rewrite Forall_forall in Ht. apply Ht, list_elem_of_fmap. by exists (k, v). }
  rewrite <- Hc at 2. by apply member_quote.
Qed.

Lemma encode_spells o l out : spells o l → encode o = Some out → text out (JObj l).
Proof. intros Ho He. unfold encode in He. eapply Indent_fits in He as [_ ?]; [done|by apply compact_spells]. Qed.

Lemma encode_total o l : spells o l → (nest (JObj l) ≤ max_depth)%N → ∃ out, encode o = Some out.
Proof.
  intros Ho Hn. destruct (Indent_text _ _ (compact_spells o l Ho) Hn) as (t & Ht & _). by exists t.
Qed.

(** ** Reading the file *)

Lemma raw_value_of b t v rest : ws_str b = true → text t v → ends_num rest → (nest v ≤ max_depth)%N →
  raw_value (b +:+ t +:+ rest) = Some (t, rest).
Proof.
  intros Hb Ht Hr Hn. unfold raw_value. rewrite (parse_prefix_of b t v rest) by done.
  rewrite bind_allowed. unfold allowed. rewrite (proj2 (N.leb_le _ _)) by lia.
  rewrite (ws_blank b Hb). destruct (starts_text _ _ Ht) as (a & z & Heq & Ha & _).
  assert (skip_ws (t +:+ rest) = t +:+ rest) as -> by (rewrite Heq, sapp_cons; simpl; by rewrite Ha).
  by rewrite consumed_app.
Qed.

(** The comma in front of every key but the first. *)
Definition separator (first : bool) (pre : string) : Prop :=
  if first then pre = "" else ∃ b, ws_str b = true ∧ pre = b +:+ ",".

Lemma decode_member fuel first pre b m kv rest o : separator first pre → ws_str b = true →
  member m kv → (nest kv.2 ≤ max_depth)%N → ends_num rest →
  ∃ t, text t kv.2 ∧ coerce kv.1 = kv.1 ∧
    decode_loop (S fuel) first (pre +:+ b +:+ m +:+ rest) o = decode_loop fuel false rest (set kv.1 t o).
Proof.
  intros Hs Hb [kb k b1 b2 t v Hk Hc Hb1 Hb2 Ht] Hn Hr. exists t. split; [done|]. split; [done|].
  cbn [fst snd] in *. cbn [decode_loop].
  set (z := b1 +:+ ":" +:+ b2 +:+ t +:+ rest).
  assert (More (pre +:+ b +:+ (dq +:+ kb +:+ dq +:+ b1 +:+ ":" +:+ b2 +:+ t) +:+ rest) = true ∧
    key_token first (pre +:+ b +:+ (dq +:+ kb +:+ dq +:+ b1 +:+ ":" +:+ b2 +:+ t) +:+ rest) = Some (k, z))
    as [-> ->].
  { replace (pre +:+ b +:+ (dq +:+ kb +:+ dq +:+ b1 +:+ ":" +:+ b2 +:+ t) +:+ rest) with
      (pre +:+ b +:+ dq +:+ kb +:+ dq +:+ z) by (unfold z; by rewrite !sapp_assoc).
    assert ((s ← eat "034" (b +:+ dq +:+ kb +:+ dq +:+ z); lex_string (S (String.length s)) s) = Some (k, z)) as Hkey.
    { unfold dq at 1. rewrite eat_blank_sep, decide_True by done. cbn [mbind option_bind].
      destruct Hk as [Hk _]. apply Hk. rewrite length_sapp. lia. }
    unfold key_token, More. destruct first.
    - simpl in Hs. subst pre. rewrite sapp_nil_l. rewrite (ws_blank b Hb). by split.
    - destruct Hs as (c & Hcw & ->). rewrite sapp_assoc, (ws_blank c Hcw). split; [done|].
      rewrite eat_blank_sep, decide_True by done. cbn [mbind option_bind]. exact Hkey. }
  cbn [negb]. unfold z. rewrite eat_blank_sep, decide_True by done. cbn [mbind option_bind].
  by rewrite (raw_value_of b2 t v rest).
Qed.

(** The loop over the members of an object, from the text it is about. *)
Lemma decode_mems x l : mems x l → (nests_of l ≤ max_depth)%N →
  ∀ fuel first pre rest o acc, separator first pre → spells o acc → More rest = false → ends_num rest →
  String.length x < fuel →
  ∃ o' b, decode_loop fuel first (pre +:+ x +:+ rest) o = Ok (o', b +:+ rest) ∧ ws_str b = true ∧
    spells o' (fold_left (λ acc kv, assoc_set kv.1 kv.2 acc) l acc).
Proof.
  induction 1 as [b m b' kv Hb Hm Hb'|b m b' kv x l Hb Hm Hb' Hx IH];
    intros Hn fuel first pre rest o acc Hs Ho Hmore Hr Hf;
    unfold nests_of in Hn; cbn [fmap list_fmap foldr] in Hn; (destruct fuel as [|fuel]; [lia|]);
    rewrite !length_sapp in Hf; assert (1 ≤ String.length m) as Hlen
      by (destruct (starts_member _ _ Hm) as (a & r & -> & _); simpl; lia); rewrite !sapp_assoc.
  - destruct (decode_member fuel first pre b m kv (b' +:+ rest) o) as (t & Ht & Hc & ->); [done..|lia|by apply ends_ws|].
    exists (set kv.1 t o), b'. split; [|split; [done|by apply spells_set]].
    destruct fuel as [|fuel]; [lia|]. cbn [decode_loop].
    assert (More (b' +:+ rest) = false) as -> by (unfold More in *; by rewrite (ws_blank b' Hb')). done.
  - destruct (decode_member fuel first pre b m kv (b' +:+ "," +:+ x +:+ rest) o) as (t & Ht & Hc & ->);
      [done..|lia|by apply ends_ws|].
    rewrite <- sapp_assoc. change (String.length ",") with 1 in Hf.
    apply (IH ltac:(unfold nests_of; lia) fuel false); [by exists b'|by apply spells_set|done|done|lia].
Qed.

(** What follows the brace that opens an object. *)
Definition object_rest (s : string) : result decode_error orderedObj :=
  match decode_loop (S (String.length s)) true s newOrderedObj with
  | Err e => Err e
  | Ok (o, s) =>
      match eat "}" s with
      | None => Err BadJSON
      | Some s => if More s then Err Trailing else Ok o
      end
  end.

Lemma decodeOrdered_object b s : ws_str b = true → decodeOrdered (b +:+ "{" +:+ s) = object_rest s.
Proof.
  intros Hb. unfold decodeOrdered. rewrite decide_False.
  2: { intros Hblank%TrimSpace_unseen. rewrite !has_graph_app in Hblank. by rewrite orb_true_r in Hblank. }
  by rewrite eat_blank_sep, decide_True.
Qed.

Lemma object_rest_blank b b' : ws_str b = true → ws_str b' = true →
  object_rest (b +:+ "}" +:+ b') = Ok newOrderedObj.
Proof.
  intros Hb Hb'. unfold object_rest. cbn [decode_loop].
  assert (More (b +:+ "}" +:+ b') = false) as -> by (unfold More; by rewrite (ws_blank b Hb)).
  cbn [negb]. rewrite eat_blank_sep, decide_True by done.
  unfold More. rewrite <- (sapp_nil_r b'). by rewrite (ws_blank b' Hb').
Qed.

Lemma object_rest_mems x l b' : mems x l → (nests_of l ≤ max_depth)%N → ws_str b' = true →
  ∃ o, object_rest (x +:+ "}" +:+ b') = Ok o ∧ spells o (merged l).
Proof.
  intros Hx Hn Hb'.
  destruct (decode_mems x l Hx Hn (S (String.length (x +:+ "}" +:+ b'))) true "" ("}" +:+ b')
    newOrderedObj []) as (o & b & Hd & Hb & Ho); [done|apply spells_nil|done|done|rewrite !length_sapp; lia|].
  exists o. split; [|done]. unfold object_rest. rewrite sapp_nil_l in Hd. rewrite Hd.
  rewrite eat_blank_sep, decide_True by done.
  unfold More. rewrite <- (sapp_nil_r b'). by rewrite (ws_blank b' Hb').
Qed.

(** A file that is a JSON object is read as that object. *)
Lemma decodeOrdered_parse s l : parse s = Some (JObj l) →
  ∃ o, decodeOrdered s = Ok o ∧ spells o (merged l).
Proof.
  intros Hp. destruct (parse_text _ _ Hp) as (b & t & b' & -> & Hb & Hb' & Ht & Hn).
  remember (JObj l) as j eqn:Hj. destruct Ht as [| | | | | |b0 Hb0|x l' Hx]; try discriminate Hj; injection Hj as <-.
  - exists newOrderedObj. split; [|apply spells_nil].
    rewrite !sapp_assoc, decodeOrdered_object by done. by apply object_rest_blank.
  - rewrite !sapp_assoc, decodeOrdered_object by done. apply object_rest_mems; [done| |done].
    change (nest (JObj l')) with (1 + nests_of l')%N in Hn. lia.
Qed.

(** ** What a reader of the file sees *)

Definition settings_of (b : string) : option (list (string * json)) :=
  if decide (TrimSpace b = "") then Some []
  else match parse b with Some (JObj l) => Some (merged l) | _ => None end.

Definition permissions_of (l : list (string * json)) : option (list (string * json)) :=
  match member_of "permissions" l with
  | None => Some []
  | Some (JObj p) => Some (merged p)
  | Some _ => None
  end.

Definition allowed_in (p : list (string * json)) : option (list string) :=
  match member_of "allow" p with
  | None => Some []
  | Some (JArr vs) => mapM (λ v, match v with JStr s => Some s | _ => None end) vs
  | Some _ => None
  end.

Lemma nests_of_elem l k v : (k, v) ∈ l → (nest v ≤ nests_of l)%N.
Proof.
  unfold nests_of. induction l as [|[k' v'] l IH]; [by intros ?%elem_of_nil|].
  cbn [fmap list_fmap foldr snd] in *. intros [[= -> ->]|Hin]%elem_of_cons; [lia|]. specialize (IH Hin). lia.
Qed.

Lemma nests_of_le l n : (∀ k v, (k, v) ∈ l → (nest v ≤ n)%N) → (nests_of l ≤ n)%N.
Proof.
  unfold nests_of. induction l as [|[k v] l IH]; intros H; cbn [fmap list_fmap foldr]; [lia|].
  pose proof (H k v ltac:(by left)). specialize (IH (λ k v Hin, H k v (list_elem_of_further _ _ _ Hin))). simpl. lia.
Qed.

Lemma nests_of_set k v l : (nests_of (assoc_set k v l) ≤ N.max (nests_of l) (nest v))%N.
Proof.
  apply nests_of_le. intros k' v'. unfold assoc_set. case_decide.
  - intros ([k2 v2] & [= -> ->] & Hin)%list_elem_of_fmap. pose proof (nests_of_elem _ _ _ Hin). case_decide; simpl; lia.
  - rewrite elem_of_app, list_elem_of_singleton. intros [Hin|[= -> ->]]; [pose proof (nests_of_elem _ _ _ Hin)|]; lia.
Qed.

Lemma merged_snoc l kv : merged (l ++ [kv]) = assoc_set kv.1 kv.2 (merged l).
Proof. unfold merged. by rewrite fold_left_app. Qed.

Lemma nests_of_merged l : (nests_of (merged l) ≤ nests_of l)%N.
Proof.
  induction l as [|kv l IH] using rev_ind; [done|]. rewrite merged_snoc.
  pose proof (nests_of_set kv.1 kv.2 (merged l)).
  assert (nests_of (l ++ [kv]) = N.max (nests_of l) (nest kv.2)) as ->; [|lia].
  clear IH H. unfold nests_of. induction l as [|x l IH]; cbn [app fmap list_fmap foldr] in *; lia.
Qed.

Lemma merged_NoDup l : NoDup l.*1 → merged l = l.
Proof.
  induction l as [|[k v] l IH] using rev_ind; [done|]. rewrite fmap_app.
  intros (Hl & Hk & _)%NoDup_app. rewrite merged_snoc, IH by done. unfold assoc_set. rewrite decide_False; [done|].
  intros Hin. apply (Hk k Hin). by left.
Qed.

Lemma merged_keys_NoDup l : NoDup (merged l).*1.
Proof.
  induction l as [|kv l IH] using rev_ind; [constructor|]. rewrite merged_snoc. by apply assoc_set_NoDup.
Qed.

Lemma settings_decode b l : settings_of b = Some l →
  ∃ o, decodeOrdered b = Ok o ∧ spells o l ∧ (nest (JObj l) ≤ max_depth)%N.
Proof.
  unfold settings_of. destruct (decide (TrimSpace b = "")) as [He|He].
  - intros [= <-]. exists newOrderedObj. unfold decodeOrdered. rewrite decide_True by done.
    split; [done|]. split; [apply spells_nil|done].
  - destruct (parse b) as [[]|] eqn:Hp; try done. intros [= <-].
    destruct (decodeOrdered_parse _ _ Hp) as (o & Ho & Hs). exists o. split; [done|]. split; [done|].
    destruct (parse_text _ _ Hp) as (_ & _ & _ & _ & _ & _ & _ & Hn).
    change (1 + nests_of l0 ≤ max_depth)%N in Hn. pose proof (nests_of_merged l0).
    change (1 + nests_of (merged l0) ≤ max_depth)%N. lia.
Qed.

Lemma text_parse t v : text t v → (nest v ≤ max_depth)%N → parse t = Some v.
Proof.
  intros Ht Hn. pose proof (parse_of "" t v "" eq_refl Ht eq_refl) as Hp. rewrite sapp_nil_l, sapp_nil_r in Hp.
  rewrite Hp. unfold allowed. by rewrite (proj2 (N.leb_le _ _)) by lia.
Qed.

Lemma perms_decode root l p : spells root l → (nest (JObj l) ≤ max_depth)%N → permissions_of l = Some p →
  ∃ perms, perms_of root = Ok perms ∧ spells perms p ∧ (nest (JObj p) ≤ N.max (nests_of l) 1)%N.
Proof.
  intros Hr Hn. unfold permissions_of, perms_of, get. pose proof (spells_values _ _ Hr "permissions") as Hv.
  destruct (member_of "permissions" l) as [v|] eqn:Hm, (values root !! "permissions") as [t|]; try done.
  - destruct v; try done. intros [= <-].
    assert ((nest (JObj l0) ≤ nests_of l)%N) as Hle.
    { eapply nests_of_elem. apply elem_of_list_to_map; [apply Hr|exact Hm]. }
    change (nest (JObj l)) with (1 + nests_of l)%N in Hn.
    destruct (decodeOrdered_parse t l0) as (o & -> & Ho); [by apply text_parse; [|lia]|].
    exists o. split; [done|]. split; [done|]. change (nest (JObj ?x)) with (1 + nests_of x)%N in *.
    pose proof (nests_of_merged l0). lia.
  - intros [= <-]. exists newOrderedObj. split; [done|]. split; [apply spells_nil|]. simpl. lia.
Qed.

Lemma strings_list a : strings_of (JArr (JStr <$> a)) [] = (a, true).
Proof.
  unfold strings_of, Cli.field_list. cbn zeta. induction a as [|s a IH]; [done|].
  cbn [fmap list_fmap] in *. injection IH as IH1 IH2. cbn [forallb]. by rewrite IH1, IH2.
Qed.

Lemma mapM_strings vs a : mapM (λ v, match v with JStr s => Some s | _ => None end) vs = Some a → vs = JStr <$> a.
Proof.
  rewrite mapM_Some. induction 1 as [|v s vs a Hv H IH]; [done|]. cbn [fmap list_fmap].
  f_equal; [|done]. destruct v; congruence.
Qed.

Lemma mapM_fmap_strings a : mapM (λ v, match v with JStr s => Some s | _ => None end) (JStr <$> a) = Some a.
Proof. rewrite mapM_Some. induction a; by constructor. Qed.

Lemma allow_decode perms p a : spells perms p → (nest (JObj p) ≤ max_depth)%N → allowed_in p = Some a →
  allow_of perms = Ok a ∧ Forall (λ s, coerce s = s) a.
Proof.
  intros Hp Hn. unfold allowed_in, allow_of, get. pose proof (spells_values _ _ Hp "allow") as Hv.
  destruct (member_of "allow" p) as [v|] eqn:Hm, (values perms !! "allow") as [t|]; try done.
  - destruct v; try done. intros ->%mapM_strings.
    assert ((nest (JArr (JStr <$> a)) ≤ nests_of p)%N) as Hle.
    { eapply nests_of_elem. apply elem_of_list_to_map; [apply Hp|exact Hm]. }
    change (nest (JObj p)) with (1 + nests_of p)%N in Hn. split.
    + unfold Unmarshal. by rewrite (text_parse t _ Hv), strings_list by lia.
    + apply Forall_forall. intros s Hs. eapply text_strings; [exact Hv|]. apply list_elem_of_fmap. by exists s.
  - intros [= <-]. by split.
Qed.

(** ** The rules *)

Lemma containsRule_app a b r : containsRule (a ++ b) r = containsRule a r || containsRule b r.
Proof. unfold containsRule. by rewrite existsb_app. Qed.

Lemma containsRule_self r : containsRule [r] r = true.
Proof. unfold containsRule. cbn [existsb]. by rewrite bool_decide_true by by left. Qed.

Lemma add_rules_spec want allow : let (allow', added) := add_rules want allow in
  allow' = allow ++ added ∧ (∀ r, r ∈ want → containsRule allow' r = true) ∧
  (∀ r, r ∈ added → r ∈ want ∧ containsRule allow r = false).
Proof.
  revert allow. induction want as [|r want IH]; intros allow; cbn [add_rules].
  { rewrite app_nil_r. split_and!; [done|..]; by intros r ?%elem_of_nil. }
  destruct (containsRule allow r) eqn:Hr.
  - specialize (IH allow). destruct (add_rules want allow) as [allow' added]. destruct IH as (-> & H1 & H2).
    split; [done|]. split.
    + intros x [->|Hx]%elem_of_cons; [|by apply H1]. by rewrite containsRule_app, Hr.
    + intros x Hx. destruct (H2 x Hx). split; [by right|done].
  - specialize (IH (allow ++ [r])). destruct (add_rules want (allow ++ [r])) as [allow' added].
    destruct IH as (-> & H1 & H2). rewrite <- app_assoc. split; [done|]. split.
    + intros x [->|Hx]%elem_of_cons; [|rewrite app_assoc; by apply H1].
      rewrite !containsRule_app, containsRule_self. by rewrite orb_true_r.
    + intros x [->|Hx]%elem_of_cons; [split; [by left|done]|]. destruct (H2 x Hx) as [Hin Hc].
      rewrite containsRule_app in Hc. apply orb_false_iff in Hc as [Hc _]. split; [by right|done].
Qed.

Lemma add_rules_none want allow : (∀ r, r ∈ want → containsRule allow r = true) →
  add_rules want allow = (allow, []).
Proof.
  induction want as [|r want IH]; intros H; [done|]. cbn [add_rules]. rewrite H by by left.
  apply IH. intros x Hx. apply H. by right.
Qed.

Lemma text_rules a : a ≠ [] → Forall (λ s, coerce s = s) a →
  text (print (JArr (JStr <$> a))) (JArr (JStr <$> a)).
Proof.
  intros Hne Ha. cbn [print]. destruct a as [|s a]; [done|]. constructor.
  change (List.map print (JStr <$> s :: a)) with (print <$> (JStr <$> s :: a)). rewrite <- list_fmap_compose.
  apply items_Join. intros y Hy. cbn [compose print]. rewrite Forall_forall in Ha.
  rewrite <- (Ha y Hy) at 2. apply text_quote.
Qed.

Lemma nest_strings (a : list string) : (nests (JStr <$> a) ≤ 0)%N.
Proof. unfold nests. induction a; cbn [fmap list_fmap foldr nest]; [done|]. lia. Qed.

(** The two objects that are written, and the file they make. *)
Definition with_allow (a : list string) (p : list (string * json)) : list (string * json) :=
  assoc_set "allow" (JArr (JStr <$> a)) p.
Definition with_rules (a : list string) (p l : list (string * json)) : list (string * json) :=
  assoc_set "permissions" (JObj (with_allow a p)) l.

Lemma encoded root perms l p a : spells root l → spells perms p → a ≠ [] → Forall (λ s, coerce s = s) a →
  (nest (JObj l) ≤ max_depth)%N → (nest (JObj p) ≤ N.max (nests_of l) 1)%N →
  ∃ pj out, encode (set "allow" (print (JArr (JStr <$> a))) perms) = Some pj ∧
    encode (set "permissions" pj root) = Some out ∧ text out (JObj (with_rules a p l)) ∧
    (nest (JObj (with_rules a p l)) ≤ max_depth)%N.
Proof.
  intros Hr Hp Hne Ha Hn Hnp. change (nest (JObj ?x)) with (1 + nests_of x)%N in *.
  assert (spells (set "allow" (print (JArr (JStr <$> a))) perms) (with_allow a p)) as Hperms
    by (apply spells_set; [done|by apply text_rules|done]).
  pose proof (nests_of_set "allow" (JArr (JStr <$> a)) p) as H1.
  change (nest (JArr (JStr <$> a))) with (1 + nests (JStr <$> a))%N in H1. pose proof (nest_strings a) as H0.
  pose proof (nests_of_set "permissions" (JObj (with_allow a p)) l) as H2.
  change (nest (JObj ?x)) with (1 + nests_of x)%N in *. fold (with_allow a p) in H1. fold (with_rules a p l) in H2.
  assert ((3 ≤ max_depth)%N) as H3 by done.
  destruct (encode_total _ _ Hperms) as [pj Hpj]; [change (nest (JObj ?x)) with (1 + nests_of x)%N; lia|].
  assert (spells (set "permissions" pj root) (with_rules a p l)) as Hroot
    by (apply spells_set; [done|by eapply encode_spells|done]).
  destruct (encode_total _ _ Hroot) as [out Hout]; [change (nest (JObj ?x)) with (1 + nests_of x)%N; lia|].
  exists pj, out. split_and!; [done..|by eapply encode_spells|lia].
Qed.

(** A file that says which rules there are is patched without an error. *)
Lemma patch_run old want l p a : settings_of old = Some l → permissions_of l = Some p → allowed_in p = Some a →
  Forall (λ r, utf8_str r = true) want →
  let (a', added) := add_rules want a in
  (added = [] ∧ patchClaudeSettings old want = Ok (old, [])) ∨
  (added ≠ [] ∧ ∃ new, patchClaudeSettings old want = Ok (new, added) ∧
    settings_of new = Some (with_rules a' p l)).
Proof.
  intros Hl Hp Ha Hu. destruct (settings_decode _ _ Hl) as (root & Hroot & Hrs & Hn).
  destruct (perms_decode _ _ _ Hrs Hn Hp) as (perms & Hperms & Hps & Hpn).
  change (nest (JObj l)) with (1 + nests_of l)%N in Hn.
  destruct (allow_decode _ _ _ Hps ltac:(lia) Ha) as [Hallow Hc].
  unfold patchClaudeSettings. rewrite Hroot, Hperms. cbn [mbind result_bind]. rewrite Hallow. cbn [mbind result_bind].
  pose proof (add_rules_spec want a) as Hspec. destruct (add_rules want a) as [a' added].
  destruct Hspec as (-> & _ & Hadd). destruct added as [|r added]; [by left|right]. split; [done|].
  assert (Forall (λ s, coerce s = s) (a ++ r :: added)) as Hall.
  { apply Forall_app. split; [done|]. apply Forall_forall. intros s Hs. rewrite Forall_forall in Hu.
    destruct (Hadd s Hs) as [Hw _]. by apply Hu, bool_decide_eq_true in Hw. }
  destruct (encoded root perms l p (a ++ r :: added)) as (pj & out & Hpj & Hout & Htext & Hfit); try done.
  { by intros [? ?]%app_eq_nil. }
  rewrite Hpj, Hout. eexists. split; [done|]. unfold settings_of.
  assert (parse (out +:+ str1 newline) = Some (JObj (with_rules (a ++ r :: added) p l))) as Hparse.
  { pose proof (parse_of "" out _ (str1 newline) eq_refl Htext eq_refl) as H. rewrite sapp_nil_l in H.
    rewrite H. unfold allowed. by rewrite (proj2 (N.leb_le _ _)) by lia. }
  rewrite Hparse, decide_False.
  - f_equal. apply merged_NoDup. unfold with_rules. apply assoc_set_NoDup, Hrs.
  - intros Hblank%TrimSpace_unseen. rewrite has_graph_app in Hblank. apply orb_false_iff in Hblank as [Hblank _].
    inversion Htext; subst; by rewrite has_graph_app in Hblank.
Qed.


(** ** The command and the files around it *)

Section files.
Context (env : Env) (short : nat → nat) (m : Machine) (target : string).

Definition temp_name : string := Join2 (Dir target) (".valetfs-settings-" +:+ temp m).
Definition backup_name : string := target +:+ ".valetfs-backup".

Context (Htarget : temp_name ≠ target) (Hbackup : temp_name ≠ backup_name).

Lemma backup_other : backup_name ≠ target.
Proof.
  unfold backup_name. intros H. apply (f_equal String.length) in H. rewrite length_sapp in H. simpl in H. lia.
Qed.

(** Only the file [n] may differ. *)
Definition but (n : string) (d0 d : Disk) : Prop := ∀ f, f ≠ n → d !! f = d0 !! f.

Lemma triple_write n data d0 :
  triple (but n d0) (write env short n data)
    (λ r d, but n d0 d ∧ (is_ok r = true → d !! n = Some data)).
Proof.
  intros w r w' Hw. unfold write. destruct (fault env (calls w)); intros [= <- <-]; cbn [disk]; split; try done.
  - intros f Hf. rewrite lookup_insert_ne by done. by apply Hw.
  - intros f Hf. rewrite lookup_insert_ne by done. by apply Hw.
  - intros _. apply lookup_insert_eq.
Qed.

Lemma triple_write_file n data d0 :
  triple (λ d, d = d0) (write_file env short n data)
    (λ r d, but n d0 d ∧ (is_ok r = true → d !! n = Some data)).
Proof.
  eapply (triple_bind _ _ _ (λ r d, but n d0 d)).
  - apply triple_sys; [|by intros e d ->]. intros d -> f Hf. simpl. by rewrite lookup_insert_ne.
  - intros []. apply triple_write.
  - by intros e d H.
Qed.

(** The temporary file: other files change only when it has replaced the target, and then
    the target has all of the bytes. *)
Definition replaced (data : string) (d0 d : Disk) : Prop :=
  d !! target = Some data ∧ d !! temp_name = None ∧ ∀ f, f ≠ target → f ≠ temp_name → d !! f = d0 !! f.

Lemma triple_replace data d0 :
  triple (but temp_name d0) (replace_with env short target data temp_name)
    (λ r d, if is_ok r then replaced data d0 d else but temp_name d0 d).
Proof.
  set (R := λ (r : result string ()) d, but temp_name d0 d ∧ (is_ok r = true → d !! temp_name = Some data)).
  assert (triple (λ d, but temp_name d0 d ∧ d !! temp_name = Some data) (sys env (λ d, (tt, d))) R) as Hskip
    by (apply triple_sys; [by intros d [? ?]|by intros e d [? _]; split]).
  assert (∀ a, triple (R (Ok a)) (sys env (λ d, (tt, d))) R) as Hskip'
    by (intros a; eapply triple_pre; [exact Hskip|]; intros d [? Hd]; by split; [|apply Hd]).
  eapply (triple_bind _ _ _ R); [apply triple_write| |by intros e d [? _]]. intros a.
  eapply (triple_bind _ _ _ R); [apply Hskip'| |by intros e d [? _]]. intros b.
  eapply (triple_bind _ _ _ R); [apply Hskip'| |by intros e d [? _]]. intros c.
  apply triple_sys; [|by intros e d [? _]]. intros d [Hd Hn]. specialize (Hn eq_refl). cbn [snd is_ok].
  rewrite Hn. split; [apply lookup_insert_eq|]. split.
  - rewrite lookup_insert_ne by done. apply lookup_delete_eq.
  - intros f Hf1 Hf2. rewrite lookup_insert_ne, lookup_delete_ne by done. by apply Hd.
Qed.

Lemma triple_atomic data d0 : d0 !! temp_name = None →
  triple (λ d, d = d0) (writeFileAtomic env short m target data)
    (λ r d, if is_ok r then replaced data d0 d else but temp_name d0 d).
Proof.
  intros Hnone. unfold writeFileAtomic. fold temp_name.
  assert (∀ e d, d = d0 → (if is_ok (Err (A:=()) (e : string)) then replaced data d0 d else but temp_name d0 d))
    as Herr by (by intros e d -> f _).
  eapply (triple_bind _ _ _ (λ r d, d = d0)); [by apply triple_sys| |done]. intros _.
  eapply (triple_bind _ _ _ (λ r d, but temp_name d0 d)); [|intros _|by intros].
  { apply triple_sys; [|by intros e d ->]. intros d -> f Hf. simpl. by rewrite lookup_insert_ne. }
  eapply (triple_bind _ _ _ _ _ (triple_attempt _ _ _ (triple_replace data d0))); [|by intros e d (r' & [= ] & _)].
  intros r. set (Q := λ d, if is_ok r then replaced data d0 d else but temp_name d0 d).
  eapply (triple_bind _ _ _ (λ r' d, is_ok r' = true ∧ Q d)).
  - eapply triple_conseq with (Q' := λ r' d, ∃ r'', r' = Ok r'' ∧ Q d); [apply triple_attempt| |by intros r' d (r'' & -> & H)].
    + apply (triple_sys _ _ Q (λ _ d, Q d)); [|done]. intros d Hd. cbn [snd]. unfold Q in *. destruct (is_ok r).
      * destruct Hd as (H1 & H2 & H3). split; [by rewrite lookup_delete_ne|]. split; [apply lookup_delete_eq|].
        intros f Hf1 Hf2. rewrite lookup_delete_ne by done. by apply H3.
      * intros f Hf. rewrite lookup_delete_ne by done. by apply Hd.
    + intros d (r' & [= ->] & H). exact H.
  - intros a. unfold Q. destruct r as [[]|e].
    + eapply triple_conseq; [apply (triple_ret tt (replaced data d0))|by intros d [_ H]|]. by intros r2 d [-> H].
    + eapply triple_conseq; [apply (triple_throw e (but temp_name d0))|by intros d [_ H]|]. by intros r2 d [-> H].
  - by intros e d [H _].
Qed.

(** What the command may leave behind, from the files [d0]. *)
Definition kept (d0 d : Disk) : Prop :=
  d !! target = d0 !! target ∧ ∀ f, f ∉ [target; backup_name; temp_name] → d !! f = d0 !! f.

Definition patched_to (patched : string) (d0 d : Disk) : Prop :=
  d !! target = Some patched ∧ (∀ b, d0 !! target = Some b → d !! backup_name = Some b) ∧
  d !! temp_name = None ∧ ∀ f, f ∉ [target; backup_name; temp_name] → d !! f = d0 !! f.

Lemma triple_backup old d0 : d0 !! target = old →
  triple (λ d, d = d0)
    (match old with Some b => write_file env short backup_name b | None => mret tt end)
    (λ r d, but backup_name d0 d ∧ (is_ok r = true → ∀ b, old = Some b → d !! backup_name = Some b)).
Proof.
  intros Hold. destruct old as [b|].
  - eapply triple_conseq; [apply (triple_write_file backup_name b d0)|done|]. intros r d [H1 H2].
    split; [done|]. intros Hr b' [= <-]. by apply H2.
  - eapply triple_conseq; [apply (triple_ret tt (λ d, d = d0))|done|]. intros r d [-> ->]. by split.
Qed.

Lemma triple_apply o old patched added d0 : d0 !! target = old → d0 !! temp_name = None →
  triple (λ d, d = d0) (apply_patch env short m o target old patched added)
    (λ r d, kept d0 d ∨ (patched_to patched d0 d ∧ (yes o = true ∨ confirm m = Ok true))).
Proof.
  intros Hold Hnone. assert (kept d0 d0) as Hkept by by split. unfold apply_patch.
  destruct (if yes o then Ok true else confirm m) as [[]|e] eqn:Hgo.
  2: { eapply triple_conseq; [apply (triple_ret _ (λ d, d = d0))|done|]. intros r d [_ ->]. by left. }
  2: { eapply triple_conseq; [apply (triple_throw _ (λ d, d = d0))|done|]. intros r d [_ ->]. by left. }
  eapply (triple_bind _ _ _ _ _ (triple_backup old d0 Hold)).
  2: { intros e d [Hb _]. left. split; [apply Hb; apply not_eq_sym, backup_other|]. intros f Hf. apply Hb. set_solver. }
  intros a w r w' [Hb Hsaved]. specialize (Hsaved eq_refl).
  assert (disk w !! temp_name = None) as Hnone' by (rewrite Hb by done; done).
  revert r w'. cut (triple (λ d, d = disk w) (_ ← writeFileAtomic env short m target patched;
      mret ((["Add to " +:+ target +:+ ":"] ++ (rule_line <$> added) ++
        (if negb (allowCat o) && negb (containsRule added agentCatRule) then [cat_note] else [])) ++ [wrote_line target]))
    (λ _ d, kept d0 d ∨ (patched_to patched d0 d ∧ (yes o = true ∨ confirm m = Ok true)))).
  { intros H r w' Hrun. by apply (H w r w'). }
  eapply (triple_bind _ _ _ _ _ (triple_atomic patched (disk w) Hnone')).
  - intros b. eapply triple_conseq; [apply triple_ret|by intros d H; exact H|]. intros r d [_ (H1 & H2 & H3)]. right.
    split; [|by destruct (yes o); [left|right]]. split; [done|]. split.
    + intros c Hc. rewrite H3 by (apply backup_other || by apply not_eq_sym). apply Hsaved. by rewrite <- Hold.
    + split; [done|]. intros f Hf. rewrite H3 by set_solver. apply Hb. set_solver.
  - intros e d Hd. cbn [is_ok] in Hd. left. split.
    + rewrite Hd by by apply not_eq_sym. apply Hb, not_eq_sym, backup_other.
    + intros f Hf. rewrite Hd by set_solver. apply Hb. set_solver.
Qed.

(** C40: whichever calls fail and whatever is answered, [setup-claude] never leaves a settings
    file damaged: it holds what it held, or the whole of the patched text, and then the
    change was agreed to (or [--yes] given), the old text is in the backup if there was one,
    and no temporary file is left.  No other file changes. *)
Theorem setup_never_damages o w r w' :
  disk w !! temp_name = None → run_on env short m o target w = (r, w') →
  kept (disk w) (disk w') ∨
  ∃ patched added, patchClaudeSettings (default "" (disk w !! target)) (wanted o) = Ok (patched, added) ∧
    added ≠ [] ∧ patched_to patched (disk w) (disk w') ∧ (yes o = true ∨ confirm m = Ok true).
Proof.
  intros Hnone Hrun. set (d0 := disk w).
  assert (triple (λ d, d = d0) (run_on env short m o target) (λ r d, kept d0 d ∨
    ∃ patched added, patchClaudeSettings (default "" (d0 !! target)) (wanted o) = Ok (patched, added) ∧
      added ≠ [] ∧ patched_to patched d0 d ∧ (yes o = true ∨ confirm m = Ok true))) as H;
    [|by apply (H w r w' eq_refl)].
  assert (kept d0 d0) as Hkept by by split.
  unfold run_on. eapply (triple_bind _ _ _ (λ r d, d = d0 ∧ (∀ b, r = Ok b → b = d0 !! target))).
  { apply triple_sys; [|by intros e d ->]. intros d ->. split; [done|]. by intros b [= <-]. }
  2: { intros e d [-> _]. by left. }
  intros old. eapply triple_pre with (P' := λ d, d = d0 ∧ old = d0 !! target);
    [|intros d [-> Hb]; split; [done|by apply Hb]].
  intros w1 r1 w1' [Hw1 ->]. revert r1 w1'.
  destruct (patchClaudeSettings (default "" (d0 !! target)) (wanted o)) as [[patched added]|e] eqn:Hp.
  2: { intros r1 w1' [= <- <-]. left. by rewrite Hw1. }
  destruct added as [|x added]; [intros r1 w1' [= <- <-]; left; by rewrite Hw1|].
  intros r1 w1' Happly. destruct (triple_apply o _ patched (x :: added) d0 eq_refl Hnone _ _ _ Hw1 Happly)
    as [Hk|[Hpt Hy]]; [by left|right]. exists patched, (x :: added). by split_and!.
Qed.

End files.

(** *** Concrete runs *)

(** JSON with single quotes for the double ones. *)
Fixpoint qq (s : string) : string :=
  match s with
  | EmptyString => EmptyString
  | String a r => String (if decide (a = "'"%char) then "034"%char else a) (qq r)
  end.

Definition file0 : string :=
  qq "{'theme': 'dark', 'permissions': {'deny': ['x'], 'allow': ['Bash(valetfs ls:*)']}, 'n': 1.50}".

Definition new_rules : list string := ["Bash(valetfs exec *)"; "Bash(valetfs status)"].

Definition expected0 : list (string * json) :=
  [("theme", JStr "dark");
   ("permissions", JObj [("deny", JArr [JStr "x"]);
      ("allow", JArr (JStr <$> "Bash(valetfs ls:*)" :: new_rules))]);
   ("n", JNum "1.50")].


(** The third call of the operating system fails: the write of the backup. *)
Definition full_disk (i : nat) : option string := if decide (i = 2) then Some "no space left on device" else None.

Definition before : Disk := {["/c/settings.json" := file0]}.
Definition person : Machine := MkMachine (λ _, "") (Some "/root") true ("Yes" +:+ str1 newline, false) "17".

Lemma setup_never_damages_witness :
  let run := run_on (MkEnv full_disk (λ _ _, "")) (λ _, 3) person (MkSetup false false true "") "/c/settings.json"
    (MkWorld before 0 0) in
  run.1 = Err "no space left on device" ∧ disk run.2 !! "/c/settings.json" = Some file0 ∧
  disk run.2 !! "/c/settings.json.valetfs-backup" = Some (stake 3 file0).
Proof.
  intros run. assert (run = (run.1, run.2)) as Hrun by by destruct run.
  assert (run.1 = Err "no space left on device") as He by (vm_compute; reflexivity).
  assert (disk run.2 !! "/c/settings.json.valetfs-backup" = Some (stake 3 file0)) as Hb by (vm_compute; reflexivity).
  assert (disk run.2 !! "/c/settings.json" = Some file0) as Ht by (vm_compute; reflexivity).
  destruct (setup_never_damages (MkEnv full_disk (λ _ _, "")) (λ _, 3) person "/c/settings.json"
    ltac:(by vm_compute) ltac:(by vm_compute) (MkSetup false false true "") (MkWorld before 0 0) run.1 run.2
    ltac:(by vm_compute) Hrun) as [[Hk _]|(patched & added & _ & _ & (Hpt & _ & _) & _)].
  - split; [exact He|]. split; [|exact Hb]. rewrite Hk. vm_compute. reflexivity.
  - split; [exact He|]. split; [exact Ht|exact Hb].
Defined.

(** More closing braces than were opened, and what stands behind them, are dropped without
    an error. *)
Lemma braces_dropped :
  match patchClaudeSettings (qq "{'permissions': {}}} {'theme': 'dark'}") agentAllowRules with
  | Ok (new, _) => settings_of new = Some [("permissions", JObj [("allow", JArr (JStr <$> agentAllowRules))])]
  | Err _ => False
  end.
Proof. vm_compute. reflexivity. Qed.

End SetupClaudeTheorems.
