(* ===== verification/VaultCmd.v ===== *)
(** * cmd/valetfs/vault.go: the vault's commands

    Where the passphrase comes from, what each subcommand does with the vault directory
    and, over the hub, with a daemon.  What is printed is a list of lines; prompts, the texts
    of the warnings and the rendering of a STATUS result are left out.  The four commands that
    have a legacy form over WebRTC are [None] in [runVault] and [legacy_command] then. *)
From stdpp Require Import pretty.
From S2P Require Import Prelude GoStrings GoPath GoJson GoFloat GoJsonPrint Vault GoTime GoFlag Config MemFS Rpc Node E2ee.
From S2P Require Import Webrtc Peer VaultWs.
Import GoStr GoPath GoJson JsonPrint Vault.

Module VaultSession.

Record SessionRecord := MkSession {
  SessionID : string;
  SignalingURL : string;
  ControllerToken : string;
  PairedAt : string;
  LastSeen : string;
}.

Definition zero_time : string := "0001-01-01T00:00:00Z".
Definition zero_record : SessionRecord := MkSession "" "" "" zero_time zero_time.

Definition session_json (r : SessionRecord) : json := JObj
  ([("session_id", JStr (SessionID r)); ("signaling_url", JStr (SignalingURL r))] ++
   (if decide (ControllerToken r = "") then [] else [("controller_token", JStr (ControllerToken r))]) ++
   [("paired_at", JStr (PairedAt r)); ("last_seen", JStr (LastSeen r))]).

Definition session_fields : list (string * decoder SessionRecord) :=
  [("session_id", field_string (λ r x,
      MkSession x (SignalingURL r) (ControllerToken r) (PairedAt r) (LastSeen r)));
   ("signaling_url", field_string (λ r x,
      MkSession (SessionID r) x (ControllerToken r) (PairedAt r) (LastSeen r)));
   ("controller_token", field_string (λ r x,
      MkSession (SessionID r) (SignalingURL r) x (PairedAt r) (LastSeen r)));
   ("paired_at", field_time (λ x r,
      MkSession (SessionID r) (SignalingURL r) (ControllerToken r) x (LastSeen r)));
   ("last_seen", field_time (λ x r,
      MkSession (SessionID r) (SignalingURL r) (ControllerToken r) (PairedAt r) x))].

(** The name of the file, as the directory of the vault sees it. *)
Definition session_path (id : string) : string := Join2 "sessions" (id +:+ ".json").

Section VaultSession.
Context (env : Env).

Definition SaveSession (r : SessionRecord) : io () :=
  MkdirAll env ≫= λ _, WriteFile env (session_path (SessionID r)) (MarshalIndent (session_json r)).

Definition LoadSession (id : string) : io SessionRecord :=
  b ← must_read env (session_path id);
  match Unmarshal (struct_of session_fields) b zero_record with
  | (r, true) => mret r
  | _ => throw "json: cannot unmarshal"
  end.

(** The files of the directory, by name; [filepath.Ext] is cut off. *)
Definition session_files (d : Disk) : list string :=
  sort_strings (omap (λ kv,
    if HasPrefix kv.1 "sessions/" then
      let name := TrimPrefix kv.1 "sessions/" in
      if contains_byte name slash then None else Some name
    else None) (map_to_list d)).

Definition stem (name : string) : string :=
  match LastIndexByte name "."%char with Some i => stake i name | None => name end.

Fixpoint load_all (names : list string) : io (list SessionRecord) :=
  match names with
  | [] => mret []
  | n :: names =>
      r ← attempt (LoadSession (stem n));
      l ← load_all names;
      mret (match r with Ok r => r :: l | Err _ => l end)
  end.

Definition ListSessions : io (list SessionRecord) :=
  names ← sys env (λ d, (session_files d, d));
  l ← load_all names;
  mret (sort_by SessionID l).

End VaultSession.
End VaultSession.

Import GoStr GoPath GoJson JsonPrint GoFlag Webrtc Vault VaultSession.

Module VaultCmd.

(** ** The machine a command runs on *)

(** [prompts] are the answers the terminal gives to [ReadPassword], one after another;
    [stdin_line] is the first line of a piped standard input. *)
Record Machine := MkMachine {
  getenv : string → string;
  home : option string;
  read_host : string → result string string;
  host_mode : string → Z;
  now : string;
  is_tty : bool;
  prompts : list (result string string);
  stdin_line : string;
}.

Definition next_prompt (m : Machine) : result string string := default (Err "EOF") (head (prompts m)).
Definition prompted (m : Machine) : Machine :=
  MkMachine (getenv m) (home m) (read_host m) (host_mode m) (now m) (is_tty m)
    (tail (prompts m)) (stdin_line m).

Definition defaultVaultDir (m : Machine) : string :=
  let v := getenv m "VALETFS_VAULT_DIR" in
  if decide (v ≠ "") then v
  else match home m with
  | None => "/tmp/valetfs-vault"
  | Some h => Join2 (Join2 h ".valetfs") "vault"
  end.

Definition defaultVaultTransport (m : Machine) : string :=
  let v := getenv m "VALETFS_TRANSPORT" in if decide (v ≠ "") then v else "ws".

Definition defaultSignalingURL (m : Machine) : string :=
  let v := getenv m "VALETFS_SIGNALING" in
  if decide (v ≠ "") then v else "https://valetfs-signaling.winm2m.workers.dev".

(** ** Flags *)

Definition vault_flags : list (string * kind) :=
  [("vault-dir", KString); ("password-file", KString); ("password-stdin", KBool);
   ("claim-secret", KString); ("transport", KString); ("v", KBool); ("verbose", KBool)].

Record options := MkOptions {
  vaultDir : string;
  passwordFile : string;
  passwordStdin : bool;
  claimSecret : string;
  transport : string;
}.

Definition options_of (m : Machine) (l : list (string * flag_value)) : options :=
  MkOptions (flag_string l "vault-dir" (defaultVaultDir m)) (flag_string l "password-file" "") 
    (flag_bool l "password-stdin" false) (flag_string l "claim-secret" "") (flag_string l "transport" (defaultVaultTransport m)).

(** ** Passphrases *)

(** The provider given to the vault, and the prompts it leaves. *)
Definition passphrase (m : Machine) (o : options) (authMode : string) : string * Machine :=
  let from_env := getenv m "VALETFS_VAULT_PASSWORD" in
  let piped := if passwordStdin o then TrimSpace (stdin_line m) else "" in
  match (if decide (passwordFile o ≠ "") then read_host m (passwordFile o) else Err "") with
  | Ok b => (TrimSpace b, m)
  | Err _ =>
      if decide (from_env ≠ "") then (from_env, m)
      else if decide (authMode = "none") then ("", m)
      else if is_tty m then
        match next_prompt m with
        | Ok pw => (TrimSpace pw, prompted m)
        | Err _ => (piped, prompted m)
        end
      else (piped, m)
  end.

Definition readNewPassphrase (m : Machine) (file : string) : result string string :=
  if decide (file ≠ "") then
    match read_host m file with
    | Err e => Err e
    | Ok b =>
        let p := TrimSpace b in
        if decide (p = "") then Err ("password file " +:+ file +:+ " is empty") else Ok p
    end
  else
    let p := getenv m "VALETFS_VAULT_NEW_PASSWORD" in
    if decide (p ≠ "") then Ok p
    else if negb (is_tty m) then
      Err "no terminal: supply the new passphrase via --password-file or VALETFS_VAULT_NEW_PASSWORD"
    else
      match next_prompt m with
      | Err e => Err e
      | Ok first =>
          match next_prompt (prompted m) with
          | Err e => Err e
          | Ok second =>
              let p := TrimSpace first in
              if decide (p ≠ TrimSpace second) then Err "passphrases did not match"
              else if decide (p = "") then Err "passphrase must not be empty"
              else Ok p
          end
      end.

(** ** The recorded way to authenticate *)

Section files.
Context `{Crypto} (env : Env).

Definition authModePath : string := ".vault_auth_mode".

Definition readVaultAuthMode : io string :=
  r ← attempt (must_read env authModePath);
  mret (match r with
        | Err _ => ""
        | Ok b =>
            let mode := TrimSpace b in
            if decide (mode = "none" ∨ mode = "passphrase") then mode else ""
        end).

Definition writeVaultAuthMode (mode : string) : io () :=
  MkdirAll env ≫= λ _, WriteFile env authModePath (mode +:+ str1 newline).

(** [os.Stat] without an error. *)
Definition exists_ (name : string) : io bool :=
  r ← attempt (sys env (λ d, (bool_decide (is_Some (d !! name)), d)));
  mret (match r with Ok b => b | Err _ => false end).

(** *** Subcommands on the directory alone *)

(** An operation that returns the vault with its last error. *)
Definition outcome_of (c : io outcome) : io Vault :=
  '(r, v) ← c; match r with Ok _ => mret v | Err e => throw e end.

Definition rekeyed_line (vdir : string) : string := "vault rekeyed at " +:+ vdir.
Definition rekeyed_hint : string :=
  "Set VALETFS_VAULT_PASSWORD (or pass --password-file) to open it from now on.".

Definition runVaultRekey (m : Machine) (o : options) (order : list string) (v : Vault) : io (list string) :=
  match readNewPassphrase m (passwordFile o) with
  | Err e => throw e
  | Ok p =>
      _ ← outcome_of (Rekey env order p v);
      _ ← writeVaultAuthMode "passphrase";
      mret [rekeyed_line (vaultDir o); rekeyed_hint]
  end.

Definition runVaultInit (m : Machine) (o : options) : io (list string) :=
  b ← exists_ manifestPath;
  if b : bool then mret ["vault already initialized"]
  else
    let mode := if bool_decide (passwordFile o ≠ "" ∨ getenv m "VALETFS_VAULT_PASSWORD" ≠ "")
                then "passphrase" else "none" in
    writeVaultAuthMode mode ≫= λ _, mret ["vault initialized at " +:+ vaultDir o].

Definition ls_line (e : Entry) : string :=
  Path e +:+ " (" +:+ pretty (Size e) +:+ " bytes)".

(** What every command does first. *)
Definition openVault (m : Machine) (o : options) : io (Vault * Machine) :=
  mode ← readVaultAuthMode;
  let (pw, m) := passphrase m o mode in
  v ← Open env pw;
  mret (v, m).

End files.

(** [warnWeakVaultKey]: which warning is due. *)
Inductive warning := PublishedPassphrase | NoPassphrase.

Definition warnWeakVaultKey (v : Vault) : option warning :=
  if legacy v then Some PublishedPassphrase
  else if unprotected v then Some NoPassphrase else None.

(** ** Subcommands on a session *)

Fixpoint signaling_args (cur : string) (l : list string) : string :=
  match l with
  | a :: ((x :: l') as l) => if decide (a = "--signaling") then signaling_args x l' else signaling_args cur l
  | _ => cur
  end.

Section runVault.
Context {W : Type} `{Node.NodeHost W} `{Crypto} `{E2ee.V1Crypto}.
Context (strconv_Quote sha256_hex corrupt_text : string → string).
Context (ids : nat → string) (clocks : nat → nat → MemFS.clock) (times : nat → Z) (env : Env).

(** What the hub answers a claim with, and the random bytes of the controller's key. *)
Context (dialed : string → string → string → result string (string * list Z)) (priv : string).

Local Abbreviation Remote := (VaultWs.Remote (W:=W)).
Local Abbreviation vaultWSSync := (VaultWs.vaultWSSync strconv_Quote sha256_hex corrupt_text ids clocks times env).
Local Abbreviation vaultWSSimple := (VaultWs.vaultWSSimple strconv_Quote sha256_hex corrupt_text ids clocks times).

(** Without an address the one recorded for the session is used. *)
Definition signaling_for (m : Machine) (sid : string) (rest : list string) : io string :=
  let s := signaling_args (defaultSignalingURL m) rest in
  if decide (s = "") then
    r ← attempt (LoadSession env sid);
    mret (match r with Ok rec => SignalingURL rec | Err _ => s end)
  else mret s.

(** The vault, the directory and the daemon after a command; its lines. *)
Definition result_of : Type := result string (list string) * World * Remote.

Definition local {A} (c : io A) (r : Remote) (k : A → World → result_of) (w : World) : result_of :=
  match c w with
  | (Ok a, w) => k a w
  | (Err e, w) => (Err e, w, r)
  end.

Definition done_with (r : Remote) (lines : list string) (w : World) : result_of := (Ok lines, w, r).

(** [vaultWSPair]: push, then remember the session; that this fails is ignored. *)
Definition vaultWSPair (m : Machine) (v : Vault) (signaling sid claim : string) (w : World) (r : Remote)
  : result_of :=
  match vaultWSSync (dialed signaling sid claim) priv v w r with
  | (Err e, w, r) => (Err e, w, r)
  | (Ok _, w, r) =>
      let rec_ := MkSession sid signaling "" (now m) (now m) in
      (Ok ["paired and pushed vault entries (ws)"], (attempt (SaveSession env rec_) w).2, r)
  end.

Definition simple (method signaling sid claim : string) (w : World) (r : Remote) : result_of :=
  match vaultWSSimple (dialed signaling sid claim) priv method r with
  | (Ok _, r) => (Ok [ToLower method +:+ " ok (ws)"], w, r)
  | (Err e, r) => (Err e, w, r)
  end.

Definition vaultWSStatus (signaling sid claim : string) (w : World) (r : Remote) : result_of :=
  match vaultWSSimple (dialed signaling sid claim) priv Rpc.MethodStatus r with
  | (Ok _, r) => (Ok [], w, r)
  | (Err e, r) => (Err e, w, r)
  end.

(** One line per session. *)
Definition session_line (s : SessionRecord) : string :=
  SessionID s +:+ " " +:+ SignalingURL s +:+ " " +:+ LastSeen s.

(** The commands that use the transport. *)
Definition networked (args : list string) : bool :=
  match args with
  | cmd :: _ :: _ => bool_decide (cmd ∈ ["pair"; "sync"; "unmount"; "status"])
  | _ => false
  end.

(** What a command wants that got too few arguments. *)
Definition usages : list (string * string) :=
  let session := "<session_id> [--signaling URL]" in
  [("add", "<host-path> <fs-path>"); ("rm", "<fs-path>"); ("pair", session); ("lock", session);
   ("unmount", session); ("sync", session)].

(** The switch of [runVault]; [order] is the order in which [Rekey] happens to iterate. *)
Definition subcommand (m : Machine) (o : options) (order : list string) (v : Vault)
    (args : list string) (r : Remote) : World → result_of :=
  match args with
  | "rekey" :: _ => local (runVaultRekey env m o order v) r (done_with r)
  | "init" :: _ => local (runVaultInit env m o) r (done_with r)
  | "add" :: host :: fsPath :: _ =>
      local (outcome_of (Add env (read_host m host) (host_mode m host) (now m) fsPath v)) r
        (λ _, done_with r ["added " +:+ fsPath])
  | "ls" :: rest => done_with r (ls_line <$> Vault.List (default "/" (head rest)) v)
  | "rm" :: p :: _ => local (outcome_of (Remove env p v)) r (λ _, done_with r [])
  | "pair" :: sid :: rest => λ w,
      vaultWSPair m v (signaling_args (defaultSignalingURL m) rest) sid (claimSecret o) w r
  | "sync" :: sid :: rest =>
      local (signaling_for m sid rest) r (λ signaling w,
        match vaultWSSync (dialed signaling sid (claimSecret o)) priv v w r with
        | (Ok _, w, r) => (Ok ["synced vault entries (ws)"], w, r)
        | (Err e, w, r) => (Err e, w, r)
        end)
  | "lock" :: sid :: rest =>
      local (signaling_for m sid rest) r (λ s w,
        if decide (transport o ≠ "ws") then (Err "lock requires --transport ws", w, r)
        else simple Rpc.MethodLock s sid (claimSecret o) w r)
  | "unmount" :: sid :: rest =>
      local (signaling_for m sid rest) r (λ s w, simple Rpc.MethodUnmount s sid (claimSecret o) w r)
  | "status" :: sid :: rest =>
      local (signaling_for m sid rest) r (λ s w, vaultWSStatus s sid (claimSecret o) w r)
  | ["status"] => local (ListSessions env) r (λ l, done_with r (session_line <$> l))
  | cmd :: _ =>
      λ w, (Err (match (list_to_map usages : gmap string string) !! cmd with
                 | Some form => "usage: valetfs vault " +:+ cmd +:+ " " +:+ form
                 | None => "unknown vault subcommand: " +:+ cmd
                 end), w, r)
  | [] => λ w, (Err "usage: valetfs vault <init|add|ls|rm|rekey|pair|sync|unmount|status>", w, r)
  end.

Definition runVault (m : Machine) (order : list string) (args : list string) (w : World) (r : Remote)
  : option result_of :=
  match Parse vault_flags args with
  | Err _ => Some (Err "flag", w, r)
  | Ok (l, args) =>
      let o := options_of m l in
      if decide (args = []) then
        Some (Err "usage: valetfs vault <init|add|ls|rm|rekey|pair|sync|unmount|status>", w, r)
      else match openVault env m o w with
      | (Err e, w) => Some (Err e, w, r)
      | (Ok (v, m), w) =>
          if bool_decide (transport o ≠ "ws") && networked args then None
          else Some (subcommand m o order v args r w)
      end
  end.

End runVault.

(** ** The commands over WebRTC *)

#[local] Existing Instance Peer.M_ret.
#[local] Existing Instance Peer.M_bind.

Section legacy.
Context {P : Type} `{Peer.Network P} `{Peer.Pion P} `{Crypto} (env : Env) (uuid : nat → string).

(** What is left to be waited for: how long until the channel opens, at most, and the
    messages that come within the time a command waits for a reply. *)
Context (until_open : Z) (received : list string).

Definition legacy_result : Type := option (result Peer.failure (list string) * World * P).

(** [NewController], a body, and the deferred [Close]. *)
Definition with_controller {A} (w : World) (x : P) (setup : Peer.Peer → Peer.Peer)
    (body : World → Peer.Peer → P → option (result Peer.failure A * World * Peer.Peer * P))
  : option (result Peer.failure A * World * P) :=
  match Peer.NewController x with
  | (Err e, x) => Some (Err (Peer.Error e), w, x)
  | (Ok p, x) =>
      match body w (setup p) x with
      | None => None
      | Some (r, w, p, x) =>
          match Peer.Close p x with
          | Some (_, _, x) => Some (r, w, x)
          | None => None
          end
      end
  end.

(** A computation of the peer that leaves the vault alone. *)
Definition on_peer {A} (c : Peer.M A) (w : World) (p : Peer.Peer) (x : P)
  : option (result Peer.failure A * World * Peer.Peer * P) :=
  '(r, p, x) ← c p x; Some (r, w, p, x).

Definition legacy_write (k : nat) (path b : string) : string :=
  EncodeRPC (NewRequest (uuid k) "WRITE" {["path" := JStr (TrimPrefix path "/"); "content" := JStr b]}).

Fixpoint legacy_push (k : nat) (es : list Entry) (v : Vault) (w : World) (p : Peer.Peer) (x : P)
  : option (result Peer.failure () * World * Peer.Peer * P) :=
  match es with
  | [] => Some (Ok tt, w, p, x)
  | e :: es =>
      match Read env (Path e) v w with
      | (Err err, w) => Some (Err (Peer.Error err), w, p, x)
      | (Ok b, w) =>
          match Peer.Send (legacy_write k (Path e) b) p x with
          | Some (Ok _, p, x) => legacy_push (S k) es v w p x
          | Some (Err err, p, x) => Some (Err err, w, p, x)
          | None => None
          end
      end
  end.

(** [Join] and the push that follows; [wait] is done in between. *)
Definition join_and_push (fuel : nat) (signaling sid : string) (wait : Peer.M ()) (v : Vault)
    (w : World) (p : Peer.Peer) (x : P) : option (result Peer.failure () * World * Peer.Peer * P) :=
  match (Peer.Join fuel signaling sid ≫= λ _, wait) p x with
  | None => None
  | Some (Err e, p, x) => Some (Err e, w, p, x)
  | Some (Ok _, p, x) => legacy_push 0 (Vault.List "/" v) v w p x
  end.

Definition legacy_pair (fuel : nat) (m : Machine) (v : Vault) (signaling sid : string) (w : World) (x : P)
  : legacy_result :=
  match with_controller w x Peer.OnOpen
          (join_and_push fuel signaling sid (Peer.world (Peer.Sleep (Z.min until_open (5 * GoTime.Second)))) v) with
  | Some (Ok _, w, x) =>
      let rec_ := MkSession sid signaling "" (now m) (now m) in
      Some (Ok ["paired and pushed vault entries"], (attempt (SaveSession env rec_) w).2, x)
  | Some (Err e, w, x) => Some (Err e, w, x)
  | None => None
  end.

Definition legacy_sync (fuel : nat) (v : Vault) (signaling sid : string) (w : World) (x : P) : legacy_result :=
  match with_controller w x id (join_and_push fuel signaling sid (mret tt) v) with
  | Some (Ok _, w, x) => Some (Ok ["synced vault entries"], w, x)
  | Some (Err e, w, x) => Some (Err e, w, x)
  | None => None
  end.

(** A request without parameters. *)
Definition legacy_request (fuel : nat) (signaling sid method : string) : Peer.M () :=
  Peer.Join fuel signaling sid ≫= λ _, Peer.Send (EncodeRPC (NewRequest (uuid 0) method ∅)).

Definition legacy_unmount (fuel : nat) (signaling sid : string) (w : World) (x : P) : legacy_result :=
  match with_controller w x id (on_peer (legacy_request fuel signaling sid "UNMOUNT")) with
  | Some (Ok _, w, x) => Some (Ok [], w, x)
  | Some (Err e, w, x) => Some (Err e, w, x)
  | None => None
  end.

(** The first reply among the messages. *)
Definition first_reply (l : list string) : option RPCMessage :=
  find (λ m, bool_decide (fold_name (Type_ m) = "RES"))
    (omap (λ b, match DecodeRPC b with (m, true) => Some m | _ => None end) l).

Definition legacy_status (fuel : nat) (signaling sid : string) (w : World) (x : P) : legacy_result :=
  match with_controller w x Peer.OnData (on_peer (
          _ ← legacy_request fuel signaling sid "STATUS";
          match first_reply received with
          | Some _ => mret tt
          | None => Peer.world (Peer.Sleep (3 * GoTime.Second)%Z) ≫= λ _, Peer.fail "timeout waiting remote status"
          end)) with
  | Some (Ok _, w, x) => Some (Ok [], w, x)
  | Some (Err e, w, x) => Some (Err e, w, x)
  | None => None
  end.

Definition legacy_command (fuel : nat) (m : Machine) (v : Vault) (args : list string) (w : World) (x : P)
  : legacy_result :=
  let on_session sid rest k :=
    match signaling_for env m sid rest w with
    | (Ok signaling, w) => k signaling w
    | (Err e, w) => Some (Err (Peer.Error e), w, x)
    end in
  match args with
  | "pair" :: sid :: rest => legacy_pair fuel m v (signaling_args (defaultSignalingURL m) rest) sid w x
  | "sync" :: sid :: rest => on_session sid rest (λ s w, legacy_sync fuel v s sid w x)
  | "unmount" :: sid :: rest => on_session sid rest (λ s w, legacy_unmount fuel s sid w x)
  | "status" :: sid :: rest => on_session sid rest (λ s w, legacy_status fuel s sid w x)
  | _ => Some (Err (Peer.Error "unknown vault subcommand"), w, x)
  end.

(** [runVault] where it gives none. *)
Definition runVault_legacy (fuel : nat) (m : Machine) (args : list string) (w : World) (x : P) : legacy_result :=
  match Parse vault_flags args with
  | Err _ => Some (Err (Peer.Error "flag"), w, x)
  | Ok (l, args) =>
      match openVault env m (options_of m l) w with
      | (Err e, w) => Some (Err (Peer.Error e), w, x)
      | (Ok (v, m), w) => legacy_command fuel m v args w x
      end
  end.

End legacy.
End VaultCmd.
