(* ===== verification/VaultCmdProps.v ===== *)
(** * cmd/valetfs/vault.go: which passphrase protects what *)
From S2P Require Import Prelude GoStrings GoPath GoJson GoFlag MemFS Node NodeTheorems E2ee.
From S2P Require Import Vault VaultProps VaultTheorems VaultCmd VaultWs VaultWsProps.
Import GoStr GoPath GoJson GoFlag Vault VaultFacts VaultTheorems VaultSession VaultCmd.

Module VaultCmdTheorems.

Section directory.
Context `{CryptoLaws} (env : Env).

(** The vault that [Open] makes of a manifest. *)
Definition opened (p : string) (m : Manifest) : Vault :=
  MkVault m p (bool_decide (p = LegacyDefaultPassphrase)) (bool_decide (p = "")) None.

(** A directory under the passphrase [p], with what it holds. *)
Definition protected (p : string) (bodies : gmap string string) (d : Disk) : Prop :=
  ∃ m s, d !! saltPath = Some s ∧ manifest_at d (IDKey p s) m ∧ manifest_ok m ∧ keys_normal m ∧
    ready (opened p m) bodies d.

Lemma ready_other v bodies d name c : ready v bodies d → name ≠ saltPath →
  (∀ sha, name ≠ blobPath sha) → ready v bodies (<[name := c]> d).
Proof.
  intros Hr Hs Hb. split; try (intros *; rewrite ?lookup_insert_ne by done); apply Hr.
Qed.

Lemma protected_mode p bodies d mode : protected p bodies d →
  protected p bodies (<[authModePath := mode]> d).
Proof.
  intros (m & s & Hs & (c & Hc & Hm) & Hok & Hk & Hr). exists m, s.
  rewrite lookup_insert_ne by done. split_and!; try done; [|by apply ready_other].
  exists c. by rewrite lookup_insert_ne.
Qed.

Lemma protected_open p bodies w : lucky env → protected p bodies (disk w) →
  ∃ m w', Open env p w = (Ok (opened p m), w') ∧ disk w' = disk w ∧ keys_normal m ∧
    manifest_ok m ∧ ready (opened p m) bodies (disk w').
Proof.
  intros Hl (m & s & Hs & Hm & Hok & Hk & Hr).
  destruct (Open_run env p m s w Hm Hok Hs (lucky_quiet _ _ _ Hl)) as (w' & Hrun & Hd & _).
  exists m, w'. rewrite Hd. by split_and!.
Qed.

Lemma protected_refuses p other bodies w : lucky env → protected p bodies (disk w) →
  other ≠ p → p ≠ LegacyDefaultPassphrase → ∃ e w', Open env other w = (Err e, w').
Proof.
  intros Hl (m & s & Hs & Hm & Hok & _) Ho Hp.
  by eapply Open_refused; [..|by apply lucky_quiet|done|done].
Qed.

(** *** The recorded mode *)

Definition mode_of (d : Disk) : string :=
  let mode := TrimSpace (default "" (d !! authModePath)) in
  if decide (mode = "none" ∨ mode = "passphrase") then mode else "".

Lemma readVaultAuthMode_run w : lucky env →
  ∃ w', readVaultAuthMode env w = (Ok (mode_of (disk w)), w') ∧ disk w' = disk w.
Proof.
  intros Hl. unfold readVaultAuthMode, attempt, must_read, ReadFile, sys, mbind, io_bind, mret, io_ret, mode_of.
  rewrite Hl. destruct (disk w !! authModePath); simpl; by eexists.
Qed.

Lemma writeVaultAuthMode_run mode w : lucky env →
  ∃ w', writeVaultAuthMode env mode w = (Ok tt, w') ∧
    disk w' = <[authModePath := mode +:+ str1 newline]> (disk w).
Proof.
  intros Hl. unfold writeVaultAuthMode, MkdirAll, WriteFile, sys, mbind, io_bind. rewrite !Hl.
  by eexists.
Qed.

Lemma openVault_run m o w : lucky env →
  ∃ w', disk w' = disk w ∧
  openVault env m o w = match Open env (passphrase m o (mode_of (disk w))).1 w' with
                        | (Ok v, w') => (Ok (v, (passphrase m o (mode_of (disk w))).2), w')
                        | (Err e, w') => (Err e, w')
                        end.
Proof.
  intros Hl. destruct (readVaultAuthMode_run w Hl) as (w1 & H1 & Hd1). exists w1. split; [done|].
  unfold openVault, mbind at 1, io_bind. rewrite H1.
  by destruct (passphrase m o _) as [pw m'], (Open env pw w1) as [[v|e] w2].
Qed.

(** [vault init] without VALETFS_VAULT_PASSWORD and without a password file marks the
    directory as having no passphrase, and from then on nobody is asked for one: whatever
    is typed at a terminal or piped in with --password-stdin, every later command works
    with the empty passphrase, under which the directory decrypts itself. *)
Theorem init_discards_passphrase m o w l w' m2 o2 :
  lucky env → disk w !! manifestPath = None → passwordFile o = "" → getenv m "VALETFS_VAULT_PASSWORD" = "" →
  runVaultInit env m o w = (Ok l, w') →
  passwordFile o2 = "" → getenv m2 "VALETFS_VAULT_PASSWORD" = "" →
  ∃ v w2, openVault env m2 o2 w' = (Ok (v, m2), w2) ∧ pass v = "" ∧ unprotected v = true ∧
    warnWeakVaultKey v = Some NoPassphrase.
Proof.
  intros Hl Hm Ho He Hrun Ho2 He2.
  assert (∃ w1, disk w1 = disk w ∧ writeVaultAuthMode env "none" w1 = (Ok tt, w')) as (w1 & Hd1 & Hw).
  { unfold runVaultInit, exists_, attempt, sys, mbind, io_bind, mret, io_ret in Hrun.
    rewrite Hl in Hrun. rewrite Hm, bool_decide_false in Hrun by by intros [].
    rewrite bool_decide_false in Hrun by (by rewrite Ho, He; intros [?|?]).
    destruct (writeVaultAuthMode env "none" _) as [[[]|] w1] eqn:Hw; [|done].
    injection Hrun as _ <-. eexists. split; [|exact Hw]. done. }
  destruct (writeVaultAuthMode_run "none" w1 Hl) as (w2 & Hw2 & Hd2).
  rewrite Hw in Hw2. injection Hw2 as <-. rewrite Hd1 in Hd2.
  destruct (openVault_run m2 o2 w' Hl) as (w3 & Hd3 & ->).
  assert (mode_of (disk w') = "none") as -> by (rewrite Hd2; unfold mode_of; by rewrite lookup_insert_eq).
  assert (passphrase m2 o2 "none" = ("", m2)) as ->.
  { unfold passphrase. rewrite Ho2, He2, decide_False by naive_solver.
    rewrite decide_False by naive_solver. done. }
  assert (disk w3 !! manifestPath = None) as Hm3 by (rewrite Hd3, Hd2; by rewrite lookup_insert_ne).
  cbn [fst snd]. unfold Open, loadManifest, attempt, MkdirAll, ReadFile, sys, mbind, io_bind, mret, io_ret.
  rewrite !Hl. cbn [disk]. rewrite Hm3. by do 2 eexists.
Qed.

End directory.

(** ** The commands *)

Section commands.
Context {W : Type} `{Node.NodeHost W} `{CryptoLaws} `{E2ee.V1Crypto}.
Context (Quote sha corrupt : string → string).
Context (ids : nat → string) (clocks : nat → nat → MemFS.clock) (times : nat → Z) (env : Env).
Context (dialed : string → string → string → result string (string * list Z)) (priv : string).
Context (Hl : lucky env) (Hd : draws_ok env).
Context (Hn : ∀ i, HasPrefix (rand env i NonceSize) "{" = false).

Local Abbreviation Remote := (VaultWs.Remote (W:=W)).
Local Abbreviation runVault := (runVault Quote sha corrupt ids clocks times env dialed priv).

Lemma passphrase_env m o mode old : passwordFile o = "" →
  getenv m "VALETFS_VAULT_PASSWORD" = old → old ≠ "" → passphrase m o mode = (old, m).
Proof. intros Hf He Hne. unfold passphrase. rewrite Hf, He, decide_False by naive_solver. by rewrite decide_True. Qed.

Lemma passphrase_file m o mode c : passwordFile o ≠ "" → read_host m (passwordFile o) = Ok c →
  passphrase m o mode = (TrimSpace c, m).
Proof. intros Hf Hc. unfold passphrase. by rewrite decide_True, Hc. Qed.

Lemma passphrase_host m o mode : read_host (passphrase m o mode).2 = read_host m.
Proof. unfold passphrase. by repeat case_match. Qed.

Lemma order_of {A B} (order : list string) (bodies : gmap string A) (m : gmap string B) :
  (∀ p, p ∈ order ↔ is_Some (bodies !! p)) → (∀ p, is_Some (bodies !! p) ↔ is_Some (m !! p)) →
  ∀ p, p ∈ order ↔ is_Some (m !! p).
Proof. intros Ho Hm p. by rewrite Ho. Qed.

(** The [rekey] of an opened vault, from wherever the new passphrase comes. *)
Lemma runVaultRekey_run m o order p new mf0 bodies w :
  ready (opened p mf0) bodies (disk w) → manifest_ok mf0 → keys_normal mf0 →
  readNewPassphrase m (passwordFile o) = Ok new → acceptable new →
  (∀ q, q ∈ order ↔ is_Some (bodies !! q)) →
  ∃ w', runVaultRekey env m o order (opened p mf0) w =
      (Ok [rekeyed_line (vaultDir o); rekeyed_hint], w') ∧
    protected new bodies (disk w') ∧ mode_of (disk w') = "passphrase".
Proof.
  intros Hr Hok Hk Hnew Hacc Ho. unfold runVaultRekey. rewrite Hnew.
  destruct (Rekey_run env order new _ bodies w Hl Hd Hn Hr Hk Hacc) as (salt & w1 & Hx1 & Hr1 & Hs1 & Hm1).
  { eapply order_of; [done|]. apply (ready_dom _ _ _ Hr). }
  destruct (writeVaultAuthMode_run env "passphrase" w1 Hl) as (w2 & Hx2 & Hd2).
  exists w2. unfold outcome_of, mbind, io_bind. rewrite Hx1. cbn [mret io_ret]. unfold mret, io_ret. rewrite Hx2.
  split; [done|]. rewrite Hd2. split; [|unfold mode_of; by rewrite lookup_insert_eq].
  apply protected_mode. exists mf0, salt. split_and!; try done.
  split; try apply Hr1. done.
Qed.

(** [vault rekey] under VALETFS_VAULT_PASSWORD and VALETFS_VAULT_NEW_PASSWORD changes
    the passphrase of the directory and of every later command: one whose passphrase (from
    a file, the environment, a prompt or a pipe) is the new one opens the vault and reads
    back every body, and one with any other is refused. *)
Theorem rekey_command m order old new bodies w (r : Remote) :
  protected old bodies (disk w) → (∀ q, q ∈ order ↔ is_Some (bodies !! q)) →
  getenv m "VALETFS_VAULT_PASSWORD" = old → old ≠ "" →
  getenv m "VALETFS_VAULT_NEW_PASSWORD" = new → acceptable new →
  ∃ w', runVault m order ["rekey"] w r =
      Some (Ok [rekeyed_line (defaultVaultDir m); rekeyed_hint], w', r) ∧
    ∀ m2 o2, let p := (passphrase m2 o2 "passphrase").1 in
      (p = new → ∃ v m3 w2, openVault env m2 o2 w' = (Ok (v, m3), w2) ∧
         ∀ q body, bodies !! normalizeFSPath q = Some body → (Read env q v w2).1 = Ok body) ∧
      (p ≠ new → is_ok (openVault env m2 o2 w').1 = false).
Proof.
  intros Hp Ho He Hne Hnew Hacc. unfold VaultCmd.runVault.
  change (Parse vault_flags ["rekey"]) with (Ok (E:=flag_error) (([] : list (string * flag_value)), ["rekey"])).
  cbv beta match zeta. rewrite decide_False by done.
  set (o := options_of m []). assert (passwordFile o = "") as Hf by done.
  destruct (openVault_run env m o w Hl) as (w1 & Hd1 & ->).
  rewrite (passphrase_env m o _ old Hf He Hne). cbn [fst snd].
  rewrite <- Hd1 in Hp. destruct (protected_open env old bodies w1 Hl Hp) as (mf0 & w2 & -> & Hd2 & Hk & Hok & Hr).
  change (networked ["rekey"]) with false. rewrite andb_false_r.
  destruct (runVaultRekey_run m o order old new mf0 bodies w2 Hr Hok Hk) as (w3 & Hx3 & Hp3 & Hmode); [|done|done|].
  { unfold readNewPassphrase. rewrite Hf, decide_False by naive_solver. rewrite Hnew, decide_True; [done|apply Hacc]. }
  exists w3. split; [unfold subcommand, local, done_with; by rewrite Hx3|].
  intros m2 o2. set (p := (passphrase m2 o2 "passphrase").1). destruct (openVault_run env m2 o2 w3 Hl) as (w4 & Hd4 & ->).
  rewrite Hmode. fold p. rewrite <- Hd4 in Hp3. split; intros Hpn.
  - rewrite Hpn. destruct (protected_open env new bodies w4 Hl Hp3) as (mf2 & w5 & -> & Hd5 & _ & _ & Hr5).
    do 3 eexists. split; [done|]. intros q body Hq.
    destruct (ready_read env _ _ w5 q body Hr5 Hq) as (w6 & -> & _); [by apply lucky_quiet|done].
  - destruct (protected_refuses env new p bodies w4 Hl Hp3 Hpn) as (e & w5 & ->); [apply Hacc|done].
Qed.

(** With [--password-file] the same file is the old passphrase and the new one: such a
    rekey only ever succeeds when it changes nothing. *)
Theorem rekey_from_file m order f old bodies w (r : Remote) l w' r' :
  protected old bodies (disk w) → old ≠ LegacyDefaultPassphrase → f ≠ "" →
  runVault m order ["--password-file"; f; "rekey"] w r = Some (Ok l, w', r') →
  ∃ c, read_host m f = Ok c ∧ TrimSpace c = old.
Proof.
  intros Hp Hleg Hf. unfold VaultCmd.runVault.
  change (Parse vault_flags ["--password-file"; f; "rekey"]) with
    (Ok (E:=flag_error) ([("password-file", VString f)], ["rekey"])).
  cbv beta match zeta. rewrite decide_False by done.
  set (o := options_of m _). assert (passwordFile o = f) as Ho by done.
  destruct (openVault_run env m o w Hl) as (w1 & Hd1 & ->).
  change (networked ["rekey"]) with false. rewrite andb_false_r.
  destruct (read_host m f) as [c|e] eqn:Hc.
  - rewrite (passphrase_file m o _ c) by (by rewrite Ho). cbn [fst snd]. intros Hrun.
    exists c. split; [done|]. destruct (decide (TrimSpace c = old)) as [|Hne]; [done|exfalso].
    rewrite <- Hd1 in Hp.
    destruct (protected_refuses env old _ bodies w1 Hl Hp Hne Hleg) as (e & w2 & Hw). by rewrite Hw in Hrun.
  - destruct (Open env _ w1) as [[v|] w2]; [|done]. cbn. unfold local, runVaultRekey, readNewPassphrase.
    rewrite Ho, passphrase_host, Hc, decide_True by done. done.
Qed.

End commands.

(** *** Concrete runs *)

Import Toy NodeDemo.
#[local] Existing Instance Toy.toy.
#[local] Existing Instance Toy.toy_laws.
#[local] Existing Instance demo_host.

#[local] Existing Instance VaultWsTheorems.toy_v1.

(** The directory of [w2] with its manifest, under the passphrase "old". *)
Definition dir : World :=
  MkWorld (<[manifestPath := box (encode_manifest (mf v2))]> (disk w2)) 0 0.

Lemma dir_protected : protected "old" bodies2 (disk dir).
Proof.
  exists (mf v2), salt. split; [by vm_compute|]. split.
  { exists (box (encode_manifest (mf v2))). split; [done|]. split; [apply box_sealed|by vm_compute]. }
  split; [exact manifest2|]. split; [exact normal2|].
  apply ready_manifest. destruct ready2 as [H1 H2 H3 H4 H5]. split; [done|..]; assumption.
Qed.

Definition shell (l : list (string * string)) : Machine :=
  MkMachine (λ k, default "" ((list_to_map l : gmap string string) !! k)) (Some "/root")
    (λ _, Err "no file") (λ _, 384%Z) Toy.time false [] "hunter2".

Definition m0 : Machine :=
  shell [("VALETFS_VAULT_PASSWORD", "old"); ("VALETFS_VAULT_NEW_PASSWORD", "new")].

Definition nobody : VaultWs.Remote (W:=host) := VaultWsTheorems.remote0.

Lemma rekey_command_witness :
  ∃ w', runVault id id id VaultWsTheorems.uids (λ _ _, clk) (λ _, 1000%Z) (env None None)
      (λ _ _ _, Err "offline") "key" m0 ["/a"; "/b"] ["rekey"] dir nobody =
    Some (Ok [rekeyed_line (defaultVaultDir m0); rekeyed_hint], w', nobody) ∧
    let m2 := shell [("VALETFS_VAULT_PASSWORD", "new")] in
    ∃ v m3 w2, openVault (env None None) m2 (MkOptions "/v" "" false "" "ws") w' = (Ok (v, m3), w2) ∧
      (Read (env None None) "fs:/b" v w2).1 = Ok "two".
Proof.
  assert (∀ q, q ∈ ["/a"; "/b"] ↔ is_Some (bodies2 !! q)) as Ho.
  { intros q. rewrite keys2. symmetry. apply (ready_dom _ _ _ ready2). }
  assert (acceptable "new") as Hacc by by split.
  destruct (rekey_command id id id VaultWsTheorems.uids (λ _ _, clk) (λ _, 1000%Z) (env None None)
    (λ _ _ _, Err "offline") "key" (no_fault None) (draws_env None None) no_brace
    m0 ["/a"; "/b"] "old" "new" bodies2 dir nobody dir_protected Ho eq_refl ltac:(done) eq_refl Hacc)
    as (w' & Hrun & Hlater).
  exists w'. split; [exact Hrun|]. intros m2.
  destruct (Hlater m2 (MkOptions "/v" "" false "" "ws")) as [Hopen _].
  destruct (Hopen eq_refl) as (v & m3 & w2 & Hv & Hread).
  exists v, m3, w2. split; [exact Hv|]. apply Hread. by vm_compute.
Defined.

Lemma init_discards_passphrase_witness :
  let o := MkOptions "/v" "" true "" "ws" in
  let w' := (runVaultInit (env None None) (shell []) o (MkWorld ∅ 0 0)).2 in
  ∃ v w2, openVault (env None None) (shell []) o w' = (Ok (v, shell []), w2) ∧ pass v = "" ∧
    unprotected v = true ∧ warnWeakVaultKey v = Some NoPassphrase.
Proof.
  intros o w'.
  assert (runVaultInit (env None None) (shell []) o (MkWorld ∅ 0 0) = (Ok ["vault initialized at /v"], w')) as Hrun
    by (vm_compute; reflexivity).
  exact (init_discards_passphrase (env None None) (shell []) o (MkWorld ∅ 0 0)
    ["vault initialized at /v"] w' (shell []) o (no_fault None) eq_refl eq_refl eq_refl Hrun eq_refl eq_refl).
Defined.

End VaultCmdTheorems.
